(* ===== verification/_CoqProject ===== *)
-Q . S2P
Prelude.v
Crypto.v
Pio.v
GoIO.v
ReadWriter.v
Av.v
Chunk.v
Conn.v
ConnSafe.v
Safe.v
Exchange.v
Messages.v
Handshake.v
Utils.v
Cache.v
H264.v
Media.v
Flv.v
Ts.v
Amf.v
Amf3.v
Amf0.v
Forward.v
Commands.v
ConnClient.v
Dialogue.v
Client.v
ClientSafe.v
PublisherSafe.v
StreamRW.v
Stream.v
StreamLife.v
Hub.v
Races.v
StreamHandler.v
Relay.v
Server.v
ServerSafe.v
Relays.v
System.v
Settings.v
