(* ===== verification/Prelude.v ===== *)
(** * srtmp, an RTMP server and client in Go: verification

    srtmp accepts publishers and players over RTMP, repackages audio and video into FLV
    tags and MPEG-TS segments, and can itself publish and play.  This development models
    everything between the bytes of a connection and the messages, commands, values and
    frames they carry, and the server above it: streams with their goroutines, the handler
    that joins publishers and players, the client library and the relays.  All names of
    files are those under src/; a definition keeps the name of the function it models, with
    the receiver in front where two receivers share a method (RtmpConn_Write, fc_Write,
    cc_Write).

    ** How Go code is modelled

    Prelude.v has the conventions.  An integer is a [Z] in the range of its type and every
    conversion that can wrap is written out ([u8], [u32], [i64], ...).  A byte slice is a list
    of [Z]; where two parts of the program share a buffer (the data of a chunk stream, the
    pool) it is a reference into a heap of arrays instead.  A call returns a [res]: a value,
    an error, a panic of a given kind, or [OutOfFuel]; a method with state is a function
    [go S A := S → res A * S], so the state after an error or a panic is part of the
    result.  Indexing and slicing panic exactly where Go's do.  Loops whose length the input
    decides take fuel; each theorem on such a loop shows that the fuel given by the model is
    enough, so [OutOfFuel] never occurs: RtmpConn.Read gets one unit for each byte still to
    come, DecodeBatch and the AMF decoders one for each byte of the input, Mux one for each
    byte to send, writeChunk one for each chunk, the loops of both ends, of stream readers
    and of a playing client one for each byte that is left to read, and Start three, one for
    each command.

    Goroutines are steps.  A stream is a [World] and every turn of a loop in it, of the
    stream, of its reader, of each writer, is an [event] that [exec] runs if it is enabled;
    the scheduler is any sequence of events ([reaches]), so a theorem about reachable states
    holds for every interleaving of turns.  A turn is atomic: within it a goroutine is not
    interrupted, which is right for what goes through channels, and leaves out data races on
    plain fields.  Two calls where that matters, StreamWriter.Close and the wait group of the
    loop, are taken statement by statement in Races.v: alone they do what their turns do,
    and when they overlap they can panic.  What is proved of streams is so about turns that
    do not overlap.  Clocks are arguments of the steps.

    ** The parts

    - Utilities.  Pio.v: utils/reader.go and utils/writer.go, fixed-width integers in byte
      slices.  Utils.v: utils/queue.go and utils/pool.go.  GoIO.v: what the code uses of
      Go's io and bufio (a writer as a class [IoWriter] with the laws [LawfulWriter], with
      instances for a buffer and for a bufio.Writer over a connection that fails).
      Crypto.v: SHA-256 and HMAC, executable, with the published test vectors.
    - Connection.  ReadWriter.v: protocol/core/read_writer.go, the buffered connection with
      its sticky errors.  Chunk.v: chunk_stream.go, one chunk of a message read and written.
      Conn.v: rtmp_conn.go, messages from interleaved chunks, control messages and
      acknowledgements.  ConnSafe.v: the behaviour of Read on any input.  Safe.v: what it
      means, for any state that holds a connection, that code is safe on any input, a class
      with rules that put such code together.  Handshake.v: handshake.go, both sides.
    - Values.  Amf.v, Amf0.v, Amf3.v: protocol/amf, the dynamic values, both encoders and
      decoders, batches, and the frame around metadata.
    - Commands.  Forward.v: forward_conn.go, the server's side of a connection from connect
      to publish or play.  ConnClient.v: conn_client.go, the client's side.  Exchange.v and
      Commands.v hold what the proofs of both need: whole messages that cross a connection,
      and commands that are such messages.  Dialogue.v puts both sides together.
      Messages.v: messages of media and what they look like on the wire.
    - Client.  Client.v: client.go, a client that publishes or plays.  ClientSafe.v: a
      player with any input; PublisherSafe.v: a publisher with any packets.
    - Server.  StreamRW.v: protocol/stream_rw.go, the reader of a publisher and the writer
      of a player.  Stream.v: protocol/stream.go, a stream and its goroutines, with the
      invariant of its states; StreamLife.v: what follows from it.  Hub.v: the abstract
      specification of a stream, a hub without channels and goroutines, and the refinement.
      Races.v: the calls of stream.go and stream_rw.go that are not safe when they overlap.
      StreamHandler.v: protocol/stream_handler.go, streams by key.  Relay.v: the way of a packet through
      publisher, stream and player.  Server.v: server.go and the entry points of api.go.
      ServerSafe.v: connections with any input.  System.v: two clients and a server
      together.  Relays.v: protocol/rtmprelay.go, protocol/staticrelay.go and configure/liveconfig.go.
      Settings.v: setting.go, logger and NewAPI.
    - Media.  Av.v: av/av.go and av/rwbase.go.  H264.v, Media.v: media/h264/parser.go,
      media/aac/parser.go, media/mp3/parser.go and media/coder_parser.go.  Flv.v:
      container/flv/tag.go and demuxer.go.  Ts.v: container/ts.  Cache.v: protocol/cache.

    A connection reads through ReadWriter; RtmpConn.Read asks Chunk for one chunk after the
    other and keeps partial messages by chunk stream; the two ends decode command messages
    with Amf0 and answer through RtmpConn.Write.  The server takes a connection through
    Handshake and Forward and hands it to a stream of StreamHandler; the stream's loop takes
    packets from a StreamReader, keeps the Cache and gives them to StreamWriters, whose
    goroutines write them to players.  The client packs units into Flv tags and messages,
    and takes them apart again with H264 when it plays; Ts packs them for segments.

    ** What is proved

    - Connections: a session of messages written by one end is read back in order at the
      other across changes of the chunk size, if the messages have no extended time stamps
      ([Conn.session_roundtrip]); chunks of several
      messages interleaved in any way are reassembled as an abstract demultiplexer says, a
      refinement ([Conn.interleaved_chunks]); on any input Read ends, and its panics are
      the three kinds listed ([ConnSafe.Read_total]); reads, and writes of
      messages as they should be, leave a connection well formed ([ConnSafe.conn_stays_wf]).
    - The handshake answers as the protocol asks and never panics
      ([Handshake.server_handshake], [Handshake.handshake_total]).
    - The dialogue: a client and a server that run on each other's bytes both finish and
      agree ([Dialogue.dialogue]).
    - The server: no two live streams have the same key; a publisher starts the stream of its key
      and a player of it reaches it there ([StreamHandler.connections_meet],
      [Server.client_is_handled]); a player that comes first and a publisher that comes
      second, of which a comment in server.go says something else, are proved apart
      ([StreamHandler.player_makes_stream], [StreamHandler.publisher_joins_stream]); on any input the
      goroutine of a connection ends, and its panics are of three kinds
      ([ServerSafe.handleConn_total]); every run of a stream, with whatever interleaving of
      its goroutines, is a run of the hub ([Hub.stream_is_hub]), and a player whose queue has
      room is given everything ([Hub.player_gets_all]); with or without room, in every
      reachable state a player has been given the headers and then packets in order, beginning with a
      key frame ([StreamLife.player_gets]); the only panic of the loop of a stream
      whose turns do not overlap ([StreamLife.stream_panics]); what the loop does with a packet, at a tick and at its end
      ([StreamLife.packet_forwarded], [StreamLife.tick_prunes], [StreamLife.stream_ends]); reading a publisher and watching a player end on every input, the former without a panic
      ([StreamRW.sr_Read_total], [StreamRW.sw_Check_total]).
    - The player: opening it and playing end on any input, with the connection closed and
      the callback called once ([ClientSafe.player_total]).  The publisher: a call of
      SendPacket ends on any packet, with the packet sent, dropped as a picture that comes
      before any parameter sets, or refused, or it panics on a start code at the end of a
      picture ([PublisherSafe.publisher_total]).
    - The way of a picture: what a client publishes a client plays, directly
      ([Client.published_is_played]) and through a stream of the server, across three chunk
      sizes ([Relay.end_to_end]).  The whole system, from four new ends of two connections:
      handshakes, commands, the meeting in a stream, the relaying and the playing, each end
      reading exactly what the other one sends ([System.session_works]).
    - Relays: none can be started, for want of a logger ([Relays.relays_never_start]); what
      they would do with one is modelled all the same.
    - Values: round trips of AMF0 and of batches, and of AMF3 up to a normal form, termination of all decoders on
      all inputs, the frame around metadata.
    - Media: the path of a picture and of an audio frame from publisher to player, the
      conversion to start codes and back, sequence headers, ADTS headers; the TS muxer
      against a parser of packets and PES headers, program tables and their CRC against
      the bitwise definition.
    - Caches and utilities: what a new player is sent, the bounded queue, the pool that
      never hands out a byte twice, fixed-width integers.

    Every property with hypotheses has a witness next to it.  Small examples marked as such
    record where the code does what it does not mean to.

    ** What is not modelled

    Printing of log messages and identifiers of streams, which are only logged.  The files
    hls/*.go, httpflv/*.go, httpopera/*.go, container/flv/muxer.go and
    protocol/cache/special.go consist of comments only: there is no code in them to model.
    The programs under example/ call the API with files of their author's machine and print.  Closing a connection has no effect
    on what the model can still read from it: the theorems on readers hold for every input,
    so also for one that is cut off.  Mutexes have no counterpart where the code under them
    is one step.  Code outside the repository is a parameter where the program calls it:
    the URL parser, the name service, dialling and listening, certificates, reading a file
    and its JSON, random bytes, and the order in which Go iterates over a map. *)
From Stdlib Require Export ZArith Lia.
From stdpp Require Export base list list_numbers numbers option strings gmap.

#[global] Open Scope Z_scope.

(** ** Machine integers

    A Go integer is a [Z] kept in the range of its type; the functions below are
    the conversions [uint8(x)], [int32(x)], ... that wrap around. *)

Definition wrap (w z : Z) : Z := z mod 2 ^ w.
Definition swrap (w z : Z) : Z := (z + 2 ^ (w - 1)) mod 2 ^ w - 2 ^ (w - 1).
Definition u8 : Z → Z := wrap 8.
Definition u16 : Z → Z := wrap 16.
Definition u32 : Z → Z := wrap 32.
Definition u64 : Z → Z := wrap 64.
Definition i8 : Z → Z := swrap 8.
Definition i16 : Z → Z := swrap 16.
Definition i32 : Z → Z := swrap 32.
Definition i64 : Z → Z := swrap 64.

Abbreviation bytes := (list Z).

Definition is_byte (b : Z) : Prop := 0 ≤ b < 256.
Definition fits (w z : Z) : Prop := 0 ≤ z < 2 ^ w.

#[export] Instance is_byte_dec b : Decision (is_byte b).
Proof. unfold is_byte. apply _. Defined.
#[export] Instance fits_dec w z : Decision (fits w z).
Proof. unfold fits. apply _. Defined.

Definition len {A} (l : list A) : Z := Z.of_nat (length l).

(** A Go string is the list of its bytes. *)
Definition str (s : string) : bytes :=
  (λ c, Z.of_nat (Ascii.nat_of_ascii c)) <$> String.list_ascii_of_string s.

(** ** Outcomes of Go code

    A call returns a value, returns an error, panics, or (only in the model)
    exhausts the fuel that bounds a loop. *)

Inductive error : Type :=
  | EOF
  | ErrUnexpectedEOF
  | ErrShortWrite
  | ErrConn (code : Z)
  | Errorf (msg : string)
  | Wrapf (msg : string) (cause : error).

Inductive panic : Type :=
  | IndexOutOfRange
  | SliceBounds
  | NilDereference
  | DivideByZero
  | TypeAssertion
  | MakeSlice
  | SendOnClosedChannel
  | CloseOfClosedChannel
  | WaitGroupReused.

Inductive res (A : Type) : Type :=
  | Ok (a : A)
  | Err (e : error)
  | Panic (p : panic)
  | OutOfFuel.
Arguments Ok {A} a.
Arguments Err {A} e.
Arguments Panic {A} p.
Arguments OutOfFuel {A}.

#[export] Instance error_eq_dec : EqDecision error.
Proof. solve_decision. Defined.
#[export] Instance panic_eq_dec : EqDecision panic.
Proof. solve_decision. Defined.
#[export] Instance res_eq_dec `{EqDecision A} : EqDecision (res A).
Proof. solve_decision. Defined.

#[export] Instance res_ret : MRet res := λ A a, Ok a.
#[export] Instance res_bind : MBind res := λ A B f m,
  match m with
  | Ok a => f a
  | Err e => Err e
  | Panic p => Panic p
  | OutOfFuel => OutOfFuel
  end.
#[export] Instance res_fmap : FMap res := λ A B f m,
  match m with
  | Ok a => Ok (f a)
  | Err e => Err e
  | Panic p => Panic p
  | OutOfFuel => OutOfFuel
  end.

(** Code that reads and changes a state [S]: the state survives an error. *)
Definition go (S A : Type) : Type := S → res A * S.

#[export] Instance go_ret {S} : MRet (go S) := λ A a s, (Ok a, s).
#[export] Instance go_bind {S} : MBind (go S) := λ A B f m s,
  match m s with
  | (Ok a, s') => f a s'
  | (Err e, s') => (Err e, s')
  | (Panic p, s') => (Panic p, s')
  | (OutOfFuel, s') => (OutOfFuel, s')
  end.

#[export] Instance go_fmap {S} : FMap (go S) := λ A B f m s,
  match m s with
  | (Ok a, s') => (Ok (f a), s')
  | (Err e, s') => (Err e, s')
  | (Panic p, s') => (Panic p, s')
  | (OutOfFuel, s') => (OutOfFuel, s')
  end.

Definition fail {S A} (e : error) : go S A := λ s, (Err e, s).
Definition crash {S A} (p : panic) : go S A := λ s, (Panic p, s).
Definition get {S} : go S S := λ s, (Ok s, s).
Definition put {S} (s : S) : go S unit := λ _, (Ok tt, s).
Definition modify {S} (f : S → S) : go S unit := λ s, (Ok tt, f s).
Definition gets {S A} (f : S → A) : go S A := λ s, (Ok (f s), s).
Definition lift {S A} (r : res A) : go S A := λ s, (r, s).

(** [v, err := f(); if err != nil { return ..., g(err) }] *)
Definition on_err {S A} (m : go S A) (g : error → error) : go S A := λ s,
  match m s with
  | (Err e, s') => (Err (g e), s')
  | r => r
  end.

(** [v, _ := f()]: the error is dropped, [d] is the value returned with it. *)
Definition ignore_err {S A} (d : A) (m : go S A) : go S A := λ s,
  match m s with
  | (Err e, s') => (Ok d, s')
  | r => r
  end.

(** [v, err := f()]: the caller looks at the error itself. *)
Definition try {S A} (m : go S A) : go S (A + error) := λ s,
  match m s with
  | (Ok a, s') => (Ok (inl a), s')
  | (Err e, s') => (Ok (inr e), s')
  | (Panic p, s') => (Panic p, s')
  | (OutOfFuel, s') => (OutOfFuel, s')
  end.

Definition panics {A} (r : res A) : bool :=
  match r with Panic _ => true | _ => false end.
Definition is_ok {A} (r : res A) : bool :=
  match r with Ok _ => true | _ => false end.

(** ** Slices: indexing, slicing and element assignment with Go's run-time checks *)

Definition index_at (b : bytes) (i : Z) : res Z :=
  if 0 <=? i then
    match b !! Z.to_nat i with
    | Some x => Ok x
    | None => Panic IndexOutOfRange
    end
  else Panic IndexOutOfRange.

Definition slice (b : bytes) (lo hi : Z) : res bytes :=
  if (0 <=? lo) && (lo <=? hi) && (hi <=? len b)
  then Ok (take (Z.to_nat (hi - lo)) (drop (Z.to_nat lo) b))
  else Panic SliceBounds.

Definition slice_from (b : bytes) (lo : Z) : res bytes := slice b lo (len b).

Definition set_at (b : bytes) (i x : Z) : res bytes :=
  if 0 <=? i then
    match b !! Z.to_nat i with
    | Some _ => Ok (<[Z.to_nat i := x]> b)
    | None => Panic IndexOutOfRange
    end
  else Panic IndexOutOfRange.

(** [make([]byte, n)] *)
Definition make_bytes (n : Z) : bytes := replicate (Z.to_nat n) 0.

(** [copy(dst, src)] *)
Definition copy_bytes (dst src : bytes) : bytes :=
  take (length dst) src ++ drop (length src) dst.

(** [copy(dst[i:], src)] *)
Definition copy_at (dst : bytes) (i : Z) (src : bytes) : res bytes :=
  if (0 <=? i) && (i <=? len dst)
  then Ok (take (Z.to_nat i) dst ++ copy_bytes (drop (Z.to_nat i) dst) src)
  else Panic SliceBounds.

(** ** Big- and little-endian byte strings *)

Fixpoint be_split (n : nat) (z : Z) : bytes :=
  match n with
  | O => []
  | S n => u8 (Z.shiftr z (8 * Z.of_nat n)) :: be_split n z
  end.

Definition be_combine (l : bytes) : Z :=
  fold_left (λ acc b, Z.lor (Z.shiftl acc 8) b) l 0.

Definition le_split (n : nat) (z : Z) : bytes := reverse (be_split n z).
Definition le_combine (l : bytes) : Z := be_combine (reverse l).

(** ** Automation *)

(** Linear arithmetic with the wrap-arounds unfolded. *)
Ltac go_arith :=
  unfold u8, u16, u32, u64, i8, i16, i32, i64, wrap, swrap, fits, is_byte, len in *;
  try (Z.div_mod_to_equations; lia).

(** Splits a conjunction or a boolean test in the context. *)
Ltac go_bool :=
  repeat match goal with
  | H : (_ && _)%bool = true |- _ => apply andb_true_iff in H as [? ?]
  | H : (_ && _)%bool = false |- _ => apply andb_false_iff in H
  | H : (_ || _)%bool = false |- _ => apply orb_false_iff in H as [? ?]
  | H : (_ <=? _) = true |- _ => apply Z.leb_le in H
  | H : (_ <=? _) = false |- _ => apply Z.leb_gt in H
  | H : (_ <? _) = true |- _ => apply Z.ltb_lt in H
  | H : (_ <? _) = false |- _ => apply Z.ltb_ge in H
  | H : (_ =? _) = true |- _ => apply Z.eqb_eq in H
  | H : (_ =? _) = false |- _ => apply Z.eqb_neq in H
  end.

Create HintDb go.
Create Rewrite HintDb go.

(** ** Lemmas on integers *)

Lemma wrap_small w z : fits w z → wrap w z = z.
Proof. apply Z.mod_small. Qed.

Lemma wrap_fits w z : 0 ≤ w → fits w (wrap w z).
Proof. intros. apply Z.mod_pos_bound. lia. Qed.

Lemma wrap_wrap w z : wrap w (wrap w z) = wrap w z.
Proof. apply Zmod_mod. Qed.

Lemma swrap_small w z : 0 < w → - 2 ^ (w - 1) ≤ z < 2 ^ (w - 1) → swrap w z = z.
Proof.
  intros Hw Hz. unfold swrap.
  assert (2 ^ w = 2 * 2 ^ (w - 1)) by (rewrite <- Z.pow_succ_r by lia; f_equal; lia).
  rewrite Z.mod_small; lia.
Qed.

Lemma u8_byte z : is_byte (u8 z).
Proof. go_arith. Qed.

Lemma u8_small z : is_byte z → u8 z = z.
Proof. intros. go_arith. Qed.

Lemma u16_small z : fits 16 z → u16 z = z.
Proof. apply wrap_small. Qed.

Lemma u32_small z : fits 32 z → u32 z = z.
Proof. apply wrap_small. Qed.

Lemma u64_small z : fits 64 z → u64 z = z.
Proof. apply wrap_small. Qed.

Lemma fits_mono w w' z : 0 ≤ w ≤ w' → fits w z → fits w' z.
Proof.
  intros Hw [H1 H2]. split; [done|].
  eapply Z.lt_le_trans; [exact H2|]. apply Z.pow_le_mono_r; lia.
Qed.

Lemma testbit_high n z i : fits n z → 0 ≤ n → n ≤ i → Z.testbit z i = false.
Proof.
  intros Hz Hn Hi. rewrite <- (Z.mod_small z (2 ^ n)) by exact Hz.
  apply Z.mod_pow2_bits_high. lia.
Qed.

(** Bits above and below [k] do not interfere: [a << k | b] is [2^k a + b]. *)
Lemma lor_low k a b : 0 ≤ k → fits k b → Z.lor (a * 2 ^ k) b = a * 2 ^ k + b.
Proof.
  intros Hk Hb. symmetry. apply Z.add_nocarry_lor, Z.bits_inj'. intros i Hi.
  rewrite Z.land_spec, Z.bits_0. destruct (Z.lt_ge_cases i k).
  - by rewrite Z.mul_pow2_bits_low.
  - by rewrite (testbit_high k b), andb_false_r.
Qed.

Lemma lor_shiftl_low k a b : 0 ≤ k → fits k b → Z.lor (Z.shiftl a k) b = a * 2 ^ k + b.
Proof. intros. rewrite Z.shiftl_mul_pow2 by done. by apply lor_low. Qed.

Lemma lor_byte a b : is_byte b → Z.lor (Z.shiftl a 8) b = a * 256 + b.
Proof. intros Hb. by apply (lor_shiftl_low 8). Qed.

Lemma u8_shiftr z n : 0 ≤ n → u8 (Z.shiftr z n) = (z / 2 ^ n) mod 256.
Proof. intros. unfold u8, wrap. by rewrite Z.shiftr_div_pow2. Qed.

(** ** Lemmas on byte strings *)

Lemma len_app {A} (l1 l2 : list A) : len (l1 ++ l2) = len l1 + len l2.
Proof. unfold len. rewrite length_app. lia. Qed.

Lemma len_nonneg {A} (l : list A) : 0 ≤ len l.
Proof. unfold len. lia. Qed.

Lemma mjoin_cons {A} (x : list A) l : mjoin (x :: l) = x ++ mjoin l.
Proof. done. Qed.

Lemma length_be_split n z : length (be_split n z) = n.
Proof. induction n; simpl; auto. Qed.

Lemma length_le_split n z : length (le_split n z) = n.
Proof. unfold le_split. by rewrite length_reverse, length_be_split. Qed.

Lemma be_split_bytes n z : Forall is_byte (be_split n z).
Proof. induction n; simpl; constructor; auto using u8_byte. Qed.

Lemma le_split_bytes n z : Forall is_byte (le_split n z).
Proof. apply Forall_reverse, be_split_bytes. Qed.

Lemma fold_be_combine l : Forall is_byte l → ∀ acc,
  fold_left (λ acc b, Z.lor (Z.shiftl acc 8) b) l acc = acc * 256 ^ len l + be_combine l.
Proof.
  unfold be_combine. induction 1 as [|b l Hb Hl IH]; intros acc; simpl.
  - unfold len. simpl. lia.
  - rewrite (IH (Z.lor (Z.shiftl acc 8) b)), (IH (Z.lor _ b)), !lor_byte by done. unfold len.
    replace (Z.of_nat (length (b :: l))) with (Z.succ (Z.of_nat (length l))) by (simpl; lia).
    rewrite Z.pow_succ_r by lia. lia.
Qed.

Lemma be_combine_cons b l : Forall is_byte l →
  be_combine (b :: l) = b * 256 ^ len l + be_combine l.
Proof. intros. unfold be_combine at 1. simpl. by apply fold_be_combine. Qed.

Lemma be_combine_bound l : Forall is_byte l → 0 ≤ be_combine l < 256 ^ len l.
Proof.
  induction 1 as [|b l Hb Hl IH]; [done|].
  rewrite be_combine_cons by done. unfold is_byte in Hb. unfold len in *.
  replace (Z.of_nat (length (b :: l))) with (Z.succ (Z.of_nat (length l))) by (simpl; lia).
  rewrite Z.pow_succ_r by lia. nia.
Qed.

Lemma be_combine_split n z : be_combine (be_split n z) = z mod 256 ^ Z.of_nat n.
Proof.
  induction n as [|n IH]; [by rewrite Z.mod_1_r|].
  cbn [be_split]. rewrite be_combine_cons, IH by apply be_split_bytes.
  unfold len. rewrite length_be_split, u8_shiftr by lia.
  rewrite Nat2Z.inj_succ, Z.pow_succ_r, Z.pow_mul_r by lia. change (2 ^ 8) with 256.
  rewrite (Z.mul_comm 256), Z.rem_mul_r by lia. lia.
Qed.

Lemma be_combine_split_small n z : 0 ≤ z < 256 ^ Z.of_nat n → be_combine (be_split n z) = z.
Proof. intros. rewrite be_combine_split. by apply Z.mod_small. Qed.

(** Digits above the [n]-th do not show in [be_split n]. *)
Lemma be_split_add_high n m z b : (n ≤ m)%nat →
  be_split n (z + b * 256 ^ Z.of_nat m) = be_split n z.
Proof.
  revert m. induction n as [|n IH]; intros m Hm; [done|].
  cbn [be_split]. rewrite IH by lia. f_equal.
  rewrite !u8_shiftr, !Z.pow_mul_r by lia. change (2 ^ 8) with 256.
  replace (Z.of_nat m) with (Z.of_nat (m - n - 1) + 1 + Z.of_nat n) by lia.
  rewrite !Z.pow_add_r, !Z.mul_assoc by lia.
  rewrite Z.div_add by lia. by rewrite Z.mod_add.
Qed.

Lemma be_split_combine l : Forall is_byte l → be_split (length l) (be_combine l) = l.
Proof.
  induction 1 as [|b l Hb Hl IH]; [done|]. cbn [length be_split].
  pose proof (be_combine_bound l Hl) as Hbound. rewrite be_combine_cons by done.
  unfold len in *. rewrite Z.add_comm, be_split_add_high, IH by done.
  rewrite u8_shiftr, Z.pow_mul_r by lia. change (2 ^ 8) with 256.
  rewrite Z.div_add, Z.div_small by lia. f_equal.
  unfold is_byte in Hb. rewrite Z.mod_small; lia.
Qed.

Lemma le_combine_split n z : le_combine (le_split n z) = z mod 256 ^ Z.of_nat n.
Proof. unfold le_combine, le_split. by rewrite reverse_involutive, be_combine_split. Qed.

Lemma le_combine_split_small n z : 0 ≤ z < 256 ^ Z.of_nat n → le_combine (le_split n z) = z.
Proof. intros. rewrite le_combine_split. by apply Z.mod_small. Qed.

(** ** Lemmas on slices *)

Lemma index_at_lookup b i x : 0 ≤ i → b !! Z.to_nat i = Some x → index_at b i = Ok x.
Proof. intros Hi Hx. unfold index_at. rewrite (proj2 (Z.leb_le _ _)) by done. by rewrite Hx. Qed.

Lemma index_at_ok b i : 0 ≤ i < len b → ∃ x, index_at b i = Ok x.
Proof.
  intros Hi. unfold len in Hi. destruct (lookup_lt_is_Some_2 b (Z.to_nat i)) as [x Hx]; [lia|].
  exists x. by apply index_at_lookup; [lia|].
Qed.

Lemma index_at_panic b i : len b ≤ i → index_at b i = Panic IndexOutOfRange.
Proof.
  intros Hi. unfold index_at, len in *. destruct (0 <=? i) eqn:?; [|done].
  by rewrite lookup_ge_None_2 by lia.
Qed.

Lemma set_at_ok b i x : 0 ≤ i < len b → set_at b i x = Ok (<[Z.to_nat i := x]> b).
Proof.
  intros Hi. unfold set_at, len in *. rewrite (proj2 (Z.leb_le _ _)) by lia.
  by destruct (lookup_lt_is_Some_2 b (Z.to_nat i)) as [y ->]; [lia|].
Qed.

Lemma slice_ok b lo hi : 0 ≤ lo ≤ hi → hi ≤ len b →
  slice b lo hi = Ok (take (Z.to_nat (hi - lo)) (drop (Z.to_nat lo) b)).
Proof.
  intros. unfold slice.
  rewrite !(proj2 (Z.leb_le _ _)) by lia. done.
Qed.

Lemma slice_prefix l r : slice (l ++ r) 0 (len l) = Ok l.
Proof.
  rewrite slice_ok; rewrite ?len_app; [|split; [done|apply len_nonneg]|pose proof (len_nonneg r); lia].
  unfold len. rewrite drop_0, Z.sub_0_r, Nat2Z.id. by rewrite take_app_length.
Qed.

Lemma slice_suffix l r : slice_from (l ++ r) (len l) = Ok r.
Proof.
  unfold slice_from. pose proof (len_nonneg l). pose proof (len_nonneg r).
  rewrite slice_ok by (rewrite ?len_app; lia).
  rewrite len_app. unfold len. rewrite Nat2Z.id, drop_app_length, take_ge; [done|lia].
Qed.

Lemma length_make_bytes n : length (make_bytes n) = Z.to_nat n.
Proof. apply length_replicate. Qed.

Lemma length_copy_bytes dst src : length (copy_bytes dst src) = length dst.
Proof. unfold copy_bytes. rewrite length_app, length_take, length_drop. lia. Qed.

#[export] Hint Rewrite @len_app length_be_split length_le_split length_make_bytes
  length_copy_bytes : go.
#[export] Hint Resolve u8_byte be_split_bytes le_split_bytes len_nonneg : go.

(** Deciding a property of one byte by trying the 256 values. *)
Lemma byte_cases (P : Z → bool) :
  forallb P (seqZ 0 256) = true → ∀ b, is_byte b → P b = true.
Proof.
  intros H b Hb. rewrite forallb_forall in H. apply H.
  apply list_elem_of_In, elem_of_seqZ. unfold is_byte in Hb. lia.
Qed.

Lemma forallb_seqZ (P : Z → bool) m n z :
  forallb P (seqZ m n) = true → m ≤ z < m + n → P z = true.
Proof.
  intros H Hz. rewrite forallb_forall in H. apply H.
  apply list_elem_of_In, elem_of_seqZ. lia.
Qed.

(** ** Stepping through the code monad *)

Lemma go_bind_ok {S A B} (m : go S A) (k : A → go S B) s a s' :
  m s = (Ok a, s') → (m ≫= k) s = k a s'.
Proof. intros H. unfold mbind, go_bind. by rewrite H. Qed.

Lemma go_bind_err {S A B} (m : go S A) (k : A → go S B) s e s' :
  m s = (Err e, s') → (m ≫= k) s = (Err e, s').
Proof. intros H. unfold mbind, go_bind. by rewrite H. Qed.

Lemma go_bind_panic {S A B} (m : go S A) (k : A → go S B) s p s' :
  m s = (Panic p, s') → (m ≫= k) s = (Panic p, s').
Proof. intros H. unfold mbind, go_bind. by rewrite H. Qed.

Lemma go_bind_lift {S A B} (r : res A) (k : A → go S B) s a :
  r = Ok a → (lift r ≫= k) s = k a s.
Proof. by intros ->. Qed.

Lemma go_bind_gets {S A B} (f : S → A) (k : A → go S B) s : (gets f ≫= k) s = k (f s) s.
Proof. done. Qed.

Lemma go_bind_modify {S B} (f : S → S) (k : unit → go S B) s : (modify f ≫= k) s = k tt (f s).
Proof. done. Qed.

Lemma go_bind_get {S B} (k : S → go S B) s : (get ≫= k) s = k s s.
Proof. done. Qed.

Lemma go_bind_on_err {S A B} (m : go S A) g (k : A → go S B) s a s' :
  m s = (Ok a, s') → (on_err m g ≫= k) s = k a s'.
Proof. intros H. unfold mbind, go_bind, on_err. by rewrite H. Qed.

Lemma go_bind_ret {S A B} (a : A) (k : A → go S B) s : (mret a ≫= k) s = k a s.
Proof. done. Qed.

Lemma res_bind_ok {A B} (m : res A) (k : A → res B) a : m = Ok a → m ≫= k = k a.
Proof. by intros ->. Qed.

(** ** How code can end

    [outcome C E Q m s]: from [s] the code [m] stops with a result that satisfies [Q], or
    with an error in a state that satisfies [E], or with a panic of [C]; it never runs
    out of fuel.  [runs] leaves no panic. *)
Definition outcome {S A} (C : panic → Prop) (E : S → Prop) (Q : A → S → Prop)
    (m : go S A) (s : S) : Prop :=
  match m s with
  | (Ok a, s') => Q a s'
  | (Err _, s') => E s'
  | (Panic p, _) => C p
  | (OutOfFuel, _) => False
  end.

Abbreviation runs := (outcome (λ _, False)).

Section runs.
Context {S : Type} (C : panic → Prop).

Lemma runs_ret {A} (E : S → Prop) (Q : A → S → Prop) a s : Q a s → outcome C E Q (mret a) s.
Proof. done. Qed.

Lemma runs_fail {A} (E : S → Prop) (Q : A → S → Prop) e s : E s → outcome C E Q (fail e) s.
Proof. done. Qed.

Lemma runs_gets {A} (E : S → Prop) (Q : A → S → Prop) f s : Q (f s) s → outcome C E Q (gets f) s.
Proof. done. Qed.

Lemma runs_modify (E : S → Prop) (Q : unit → S → Prop) f s :
  Q tt (f s) → outcome C E Q (modify f) s.
Proof. done. Qed.

Lemma runs_lift {A} (E : S → Prop) (Q : A → S → Prop) r s a :
  r = Ok a → Q a s → outcome C E Q (lift r) s.
Proof. by intros ->. Qed.

Lemma runs_bind {A B} (E : S → Prop) (Q : A → S → Prop) (Q' : B → S → Prop) m k s :
  outcome C E Q m s → (∀ a s', Q a s' → outcome C E Q' (k a) s') → outcome C E Q' (m ≫= k) s.
Proof.
  intros Hm Hk. unfold outcome in Hm. unfold outcome at 1, mbind, go_bind.
  destruct (m s) as [[a|e|p|] s']; try done. exact (Hk _ _ Hm).
Qed.

Lemma runs_bind_lift {A B} (E : S → Prop) (Q : B → S → Prop) (r : res A) k s a :
  r = Ok a → outcome C E Q (k a) s → outcome C E Q (lift r ≫= k) s.
Proof. by intros ->. Qed.

Lemma runs_bind_gets {A B} (E : S → Prop) (Q : B → S → Prop) (f : S → A) k s :
  outcome C E Q (k (f s)) s → outcome C E Q (gets f ≫= k) s.
Proof. done. Qed.

Lemma runs_bind_modify {B} (E : S → Prop) (Q : B → S → Prop) f (k : unit → go S B) s :
  outcome C E Q (k tt) (f s) → outcome C E Q (modify f ≫= k) s.
Proof. done. Qed.

Lemma runs_mono {A} (E E' : S → Prop) (Q Q' : A → S → Prop) m s :
  outcome C E Q m s → (∀ s', E s' → E' s') → (∀ a s', Q a s' → Q' a s') → outcome C E' Q' m s.
Proof. unfold outcome. destruct (m s) as [[a|e|p|] s']; auto. Qed.

Lemma runs_on_err {A} (E : S → Prop) (Q : A → S → Prop) m g s :
  outcome C E Q m s → outcome C E Q (on_err m g) s.
Proof. unfold outcome, on_err. by destruct (m s) as [[a|e|p|] s']. Qed.

Lemma runs_if {A} (E : S → Prop) (Q : A → S → Prop) (b : bool) m1 m2 s :
  (b = true → outcome C E Q m1 s) → (b = false → outcome C E Q m2 s) →
  outcome C E Q (if b then m1 else m2) s.
Proof. destruct b; auto. Qed.
End runs.

Lemma outcome_weaken {S A} (C C' : panic → Prop) (E : S → Prop) (Q : A → S → Prop) m s :
  outcome C E Q m s → (∀ p, C p → C' p) → outcome C' E Q m s.
Proof. unfold outcome. destruct (m s) as [[a|e|p|] s']; auto. Qed.

Lemma runs_outcome {S A} (C : panic → Prop) (E : S → Prop) (Q : A → S → Prop) m s :
  runs E Q m s → outcome C E Q m s.
Proof. intros H. by eapply outcome_weaken. Qed.
