(* ===== verification/Crypto.v ===== *)
(** * SHA-256 and HMAC, as Go's crypto/sha256 and crypto/hmac compute them

    The handshake signs blocks of bytes with HMAC-SHA256 (FIPS 180-4, RFC 2104). *)
From S2P Require Import Prelude.

(** ** Constants

    The round constants are the first 32 fractional bits of the cube roots of the first
    64 primes, the initial state those of the square roots of the first eight. *)

Definition is_prime (n : Z) : bool :=
  (2 <=? n) && forallb (λ d, negb (n mod d =? 0)) (seqZ 2 (Z.sqrt n - 1)).

Definition primes : list Z := filter (λ n, is_prime n = true) (seqZ 2 310).

(** The largest [r] with [r ^ 3 <= n], bit by bit from the top. *)
Fixpoint cube_root (bits : nat) (r n : Z) : Z :=
  match bits with
  | O => r
  | S bits =>
      let r' := r + 2 ^ Z.of_nat bits in
      cube_root bits (if r' ^ 3 <=? n then r' else r) n
  end.

Definition round_constants : list Z :=
  Eval vm_compute in (λ p, u32 (cube_root 36 0 (p * 2 ^ 96))) <$> primes.

Definition initial_state : list Z :=
  Eval vm_compute in (λ p, u32 (Z.sqrt (p * 2 ^ 64))) <$> take 8 primes.

(** ** The compression function *)

Definition rotr (n x : Z) : Z := Z.lor (Z.shiftr x n) (u32 (Z.shiftl x (32 - n))).

Definition big_sigma0 (x : Z) : Z := Z.lxor (rotr 2 x) (Z.lxor (rotr 13 x) (rotr 22 x)).
Definition big_sigma1 (x : Z) : Z := Z.lxor (rotr 6 x) (Z.lxor (rotr 11 x) (rotr 25 x)).
Definition small_sigma0 (x : Z) : Z := Z.lxor (rotr 7 x) (Z.lxor (rotr 18 x) (Z.shiftr x 3)).
Definition small_sigma1 (x : Z) : Z := Z.lxor (rotr 17 x) (Z.lxor (rotr 19 x) (Z.shiftr x 10)).

Definition choose (x y z : Z) : Z := Z.lxor (Z.land x y) (Z.land (2 ^ 32 - 1 - x) z).
Definition majority (x y z : Z) : Z :=
  Z.lxor (Z.land x y) (Z.lxor (Z.land x z) (Z.land y z)).

(** The last 16 words, newest first, give the next one. *)
Fixpoint extend (n : nat) (ws : list Z) : list Z :=
  match n with
  | O => ws
  | S n =>
      extend n (u32 (small_sigma1 (ws !!! 1%nat) + ws !!! 6%nat
                     + small_sigma0 (ws !!! 14%nat) + ws !!! 15%nat) :: ws)
  end.

Fixpoint words (b : bytes) : list Z :=
  match b with
  | b0 :: b1 :: b2 :: b3 :: b => be_combine [b0; b1; b2; b3] :: words b
  | _ => []
  end.

Definition sha_round (st : list Z) (kw : Z * Z) : list Z :=
  match st with
  | [a; b; c; d; e; f; g; h] =>
      let t1 := h + big_sigma1 e + choose e f g + kw.1 + kw.2 in
      let t2 := big_sigma0 a + majority a b c in
      [u32 (t1 + t2); a; b; c; u32 (d + t1); e; f; g]
  | _ => st
  end.

Definition compress (st : list Z) (block : bytes) : list Z :=
  let ws := reverse (extend 48 (reverse (words block))) in
  zip_with (λ x y, u32 (x + y)) st (foldl sha_round st (zip round_constants ws)).

(** ** Messages *)

Definition sha_pad (m : bytes) : bytes :=
  m ++ [0x80] ++ make_bytes ((55 - len m) mod 64) ++ be_split 8 (8 * len m).

Fixpoint sha_blocks (fuel : nat) (st : list Z) (m : bytes) : list Z :=
  match fuel, m with
  | S fuel, _ :: _ => sha_blocks fuel (compress st (take 64 m)) (drop 64 m)
  | _, _ => st
  end.

Definition sha256 (m : bytes) : bytes :=
  let p := sha_pad m in
  sha_blocks (length p) initial_state p ≫= be_split 4.

Definition hmac (key m : bytes) : bytes :=
  let key := if 64 <? len key then sha256 key else key in
  let block := copy_bytes (make_bytes 64) key in
  let inner := sha256 (((λ b, Z.lxor b 0x36) <$> block) ++ m) in
  sha256 (((λ b, Z.lxor b 0x5c) <$> block) ++ inner).

(** ** Facts *)

Lemma length_sha_round st kw : length st = 8%nat → length (sha_round st kw) = 8%nat.
Proof. by do 9 (destruct st as [|? st]; [done|]). Qed.

Lemma length_rounds l : ∀ st, length st = 8%nat → length (foldl sha_round st l) = 8%nat.
Proof. induction l as [|x l IH]; intros st H; [done|]. by apply IH, length_sha_round. Qed.

Lemma length_sha_blocks fuel : ∀ st m, length st = 8%nat → length (sha_blocks fuel st m) = 8%nat.
Proof.
  induction fuel as [|fuel IH]; intros st m H; [done|]. destruct m; [done|]. cbn [sha_blocks].
  apply IH. unfold compress. rewrite length_zip_with, length_rounds, H by done. done.
Qed.

Lemma length_words_bytes (l : list Z) : length (l ≫= be_split 4) = (4 * length l)%nat.
Proof.
  induction l as [|x l IH]; [done|]. rewrite bind_cons, length_app, length_be_split, IH. simpl. lia.
Qed.

Lemma length_sha256 m : length (sha256 m) = 32%nat.
Proof. unfold sha256. by rewrite length_words_bytes, length_sha_blocks. Qed.

Lemma sha256_bytes m : Forall is_byte (sha256 m).
Proof.
  unfold sha256. apply Forall_bind, Forall_true. intros x. apply be_split_bytes.
Qed.

Lemma length_hmac key m : length (hmac key m) = 32%nat.
Proof. apply length_sha256. Qed.

Lemma hmac_bytes key m : Forall is_byte (hmac key m).
Proof. apply sha256_bytes. Qed.

(** The hash of "abc" (FIPS 180-4), and of a message of two blocks. *)
Example sha256_abc : be_combine (sha256 [97; 98; 99])
  = 0xba7816bf8f01cfea414140de5dae2223b00361a396177a9cb410ff61f20015ad.
Proof. vm_compute. reflexivity. Qed.

Example sha256_empty : be_combine (sha256 [])
  = 0xe3b0c44298fc1c149afbf4c8996fb92427ae41e4649b934ca495991b7852b855.
Proof. vm_compute. reflexivity. Qed.

(** RFC 4231, test case 2. *)
Example hmac_jefe : be_combine (hmac (str "Jefe") (str "what do ya want for nothing?"))
  = 0x5bdcc146bf60754e6a042426089575c75a003f089d2739839dec58b964ec3843.
Proof. vm_compute. reflexivity. Qed.
