(* ===== verification/Pio.v ===== *)
(** * Fixed-width integers in byte buffers (src/utils/reader.go, src/utils/writer.go)

    A reader [U32BE b] indexes [b] and panics when [b] is too short; a writer
    [PutU32BE b v] returns the buffer after its assignments, in the order of the
    source.  The lemmas reduce every reader to [be_combine] and every writer to
    [be_split]. *)
From S2P Require Import Prelude.

(** [i <<= 8; i |= T(b[j])] for each [j] of [js], from the value [acc]. *)
Fixpoint or_bytes (T : Z → Z) (b : bytes) (js : list Z) (acc : Z) : res Z :=
  match js with
  | [] => Ok acc
  | j :: js => x ← index_at b j; or_bytes T b js (Z.lor (T (Z.shiftl acc 8)) (T x))
  end.

(** [i = T(first(b[j])); i <<= 8; ...] *)
Definition get_bytes (T first : Z → Z) (b : bytes) (j : Z) (js : list Z) : res Z :=
  x ← index_at b j; or_bytes T b js (T (first x)).

Definition U8 (b : bytes) : res Z := index_at b 0.
Definition U16BE (b : bytes) : res Z := get_bytes u16 id b 0 [1].
Definition I16BE (b : bytes) : res Z := get_bytes i16 id b 0 [1].
Definition I24BE (b : bytes) : res Z := get_bytes i32 i8 b 0 [1; 2].
Definition U24BE (b : bytes) : res Z := get_bytes u32 id b 0 [1; 2].
Definition I32BE (b : bytes) : res Z := get_bytes i32 i8 b 0 [1; 2; 3].
Definition U32LE (b : bytes) : res Z := get_bytes u32 id b 3 [2; 1; 0].
Definition U32BE (b : bytes) : res Z := get_bytes u32 id b 0 [1; 2; 3].
Definition U40BE (b : bytes) : res Z := get_bytes u64 id b 0 [1; 2; 3; 4].
Definition U64BE (b : bytes) : res Z := get_bytes u64 id b 0 [1; 2; 3; 4; 5; 6; 7].
Definition I64BE (b : bytes) : res Z := get_bytes i64 i8 b 0 [1; 2; 3; 4; 5; 6; 7].

(** [b[j] = byte(v >> s)] for each [(j, s)], in order. *)
Fixpoint put_shifts (b : bytes) (v : Z) (l : list (Z * Z)) : res bytes :=
  match l with
  | [] => Ok b
  | (j, s) :: l => b' ← set_at b j (u8 (Z.shiftr v s)); put_shifts b' v l
  end.

Definition PutU8 (b : bytes) (v : Z) : res bytes := set_at b 0 v.
Definition PutI16BE (b : bytes) (v : Z) : res bytes := put_shifts b v [(0, 8); (1, 0)].
Definition PutU16BE (b : bytes) (v : Z) : res bytes := put_shifts b v [(0, 8); (1, 0)].
Definition PutI24BE (b : bytes) (v : Z) : res bytes :=
  put_shifts b v [(0, 16); (1, 8); (2, 0)].
Definition PutU24BE (b : bytes) (v : Z) : res bytes :=
  put_shifts b v [(0, 16); (1, 8); (2, 0)].
Definition PutI32BE (b : bytes) (v : Z) : res bytes :=
  put_shifts b v [(0, 24); (1, 16); (2, 8); (3, 0)].
Definition PutU32BE (b : bytes) (v : Z) : res bytes :=
  put_shifts b v [(0, 24); (1, 16); (2, 8); (3, 0)].
Definition PutU32LE (b : bytes) (v : Z) : res bytes :=
  put_shifts b v [(3, 24); (2, 16); (1, 8); (0, 0)].
Definition PutU40BE (b : bytes) (v : Z) : res bytes :=
  put_shifts b v [(0, 32); (1, 24); (2, 16); (3, 8); (4, 0)].
Definition PutU48BE (b : bytes) (v : Z) : res bytes :=
  put_shifts b v [(0, 40); (1, 32); (2, 24); (3, 16); (4, 8); (5, 0)].
Definition PutU64BE (b : bytes) (v : Z) : res bytes :=
  put_shifts b v [(0, 56); (1, 48); (2, 40); (3, 32); (4, 24); (5, 16); (6, 8); (7, 0)].
Definition PutI64BE (b : bytes) (v : Z) : res bytes :=
  put_shifts b v [(0, 56); (1, 48); (2, 40); (3, 32); (4, 24); (5, 16); (6, 8); (7, 0)].

(** ** Readers *)

(** The accumulator stays in [[-c 256^k, d 256^k)] after [k] bytes, so [T] never
    truncates: unsigned readers start in [[0, 256)], signed ones in [[-128, 128)]. *)
Lemma or_bytes_be T l : Forall is_byte l → ∀ c d pre r acc,
  (∀ z, - c * 256 ^ len l ≤ z < d * 256 ^ len l → T z = z) →
  (∀ x, is_byte x → T x = x) → 0 ≤ c → 0 ≤ d → - c ≤ acc < d →
  or_bytes T (pre ++ l ++ r) (seqZ (len pre) (len l)) acc
    = Ok (acc * 256 ^ len l + be_combine l).
Proof.
  induction 1 as [|x l Hx Hl IH]; intros c d pre r acc HT HTb Hc Hd Hacc.
  { change (or_bytes _ _ _ _) with (Ok acc). f_equal.
    change (256 ^ len []) with 1. change (be_combine []) with 0. lia. }
  assert (Hlen : len (x :: l) = Z.succ (len l)) by (unfold len; simpl; lia).
  rewrite Hlen in *. pose proof (len_nonneg l) as Hl0. rewrite Z.pow_succ_r in HT by done.
  assert (Hp : 1 ≤ 256 ^ len l) by (pose proof (Z.pow_pos_nonneg 256 (len l)); lia).
  rewrite seqZ_cons by lia. cbn [or_bytes].
  rewrite (index_at_lookup _ _ x); [|apply len_nonneg|].
  2: { unfold len. rewrite Nat2Z.id. cbn [app]. by rewrite list_lookup_middle. }
  unfold mbind, res_bind.
  assert (HT1 : T (Z.shiftl acc 8) = acc * 256).
  { rewrite Z.shiftl_mul_pow2 by lia. change (2 ^ 8) with 256. apply HT. nia. }
  rewrite HT1, HTb, (lor_low 8) by done. change (2 ^ 8) with 256.
  replace (Z.succ (len pre)) with (len (pre ++ [x]))
    by (rewrite len_app; unfold len; simpl; lia).
  rewrite Z.pred_succ.
  replace (pre ++ (x :: l) ++ r) with ((pre ++ [x]) ++ l ++ r) by (by rewrite <- app_assoc).
  unfold is_byte in Hx. rewrite (IH (c * 256) (d * 256)); [|..].
  - rewrite be_combine_cons, Z.pow_succ_r by done. f_equal. lia.
  - intros z Hz. apply HT. lia.
  - done.
  - lia.
  - lia.
  - lia.
Qed.

(** Unsigned and signed readers of [x :: l ++ r]. *)
Lemma get_bytes_unsigned w x l r :
  is_byte x → Forall is_byte l → 256 ^ len (x :: l) ≤ 2 ^ w →
  get_bytes (wrap w) id (x :: l ++ r) 0 (seqZ 1 (len l)) = Ok (be_combine (x :: l)).
Proof.
  intros Hx Hl Hw. unfold get_bytes. rewrite (index_at_lookup _ _ x) by done.
  assert (Hlen : len (x :: l) = Z.succ (len l)) by (unfold len; simpl; lia).
  pose proof (len_nonneg l). rewrite Hlen, Z.pow_succ_r in Hw by done.
  assert (Hp : 1 ≤ 256 ^ len l) by (pose proof (Z.pow_pos_nonneg 256 (len l)); lia).
  assert (Hs : ∀ z, is_byte z → wrap w z = z).
  { intros z Hz. apply wrap_small. unfold is_byte, fits in *. lia. }
  unfold mbind, res_bind. unfold id. rewrite Hs by done.
  change (x :: l ++ r) with ([x] ++ l ++ r).
  change (seqZ 1 (len l)) with (seqZ (len [x]) (len l)).
  rewrite (or_bytes_be (wrap w) l Hl 0 256 [x]); [by rewrite be_combine_cons|..|exact Hs|done|done|done].
  intros z Hz. apply wrap_small. unfold fits. lia.
Qed.

Lemma get_bytes_signed w x l r :
  is_byte x → Forall is_byte l → 0 < w → 2 * 128 * 256 ^ len l ≤ 2 ^ w →
  l ≠ [] →
  get_bytes (swrap w) i8 (x :: l ++ r) 0 (seqZ 1 (len l))
    = Ok (i8 x * 256 ^ len l + be_combine l).
Proof.
  intros Hx Hl Hw0 Hw Hne. unfold get_bytes. rewrite (index_at_lookup _ _ x) by done.
  assert (Hp : 256 ≤ 256 ^ len l).
  { destruct l as [|y l]; [done|]. unfold len.
    replace (Z.of_nat (length (y :: l))) with (Z.succ (Z.of_nat (length l))) by (simpl; lia).
    rewrite Z.pow_succ_r by lia. pose proof (Z.pow_pos_nonneg 256 (Z.of_nat (length l))). lia. }
  assert (H2 : 2 ^ w = 2 * 2 ^ (w - 1)) by (rewrite <- Z.pow_succ_r by lia; f_equal; lia).
  assert (Hs : ∀ z, - 128 * 256 ^ len l ≤ z < 128 * 256 ^ len l → swrap w z = z).
  { intros z Hz. apply swrap_small; lia. }
  assert (Hi : -128 ≤ i8 x < 128) by go_arith.
  unfold mbind, res_bind. rewrite (Hs (i8 x)) by nia.
  change (x :: l ++ r) with ([x] ++ l ++ r).
  change (seqZ 1 (len l)) with (seqZ (len [x]) (len l)).
  rewrite (or_bytes_be (swrap w) l Hl 128 128 [x]); try done.
  intros y Hy. apply Hs. unfold is_byte in Hy. lia.
Qed.

(** ** Writers *)

Fixpoint be_shifts (j : Z) (n : nat) : list (Z * Z) :=
  match n with
  | O => []
  | S n => (j, 8 * Z.of_nat n) :: be_shifts (j + 1) n
  end.

(** The shifts of the source write [be_split n v] over the first [n] bytes. *)
Lemma put_shifts_be n v : ∀ pre old r, length old = n →
  put_shifts (pre ++ old ++ r) v (be_shifts (len pre) n) = Ok (pre ++ be_split n v ++ r).
Proof.
  induction n as [|n IH]; intros pre old r Hold.
  { destruct old; done. }
  destruct old as [|x old]; [done|]. injection Hold as Hold.
  cbn [be_shifts put_shifts be_split].
  rewrite set_at_ok by (pose proof (len_nonneg pre); rewrite !len_app; unfold len; simpl; lia).
  unfold mbind, res_bind.
  set (y := u8 (Z.shiftr v (8 * Z.of_nat n))).
  replace (<[Z.to_nat (len pre):=y]> (pre ++ (x :: old) ++ r))
    with ((pre ++ [y]) ++ old ++ r).
  2: { unfold len. rewrite Nat2Z.id, <- app_assoc. simpl.
       by rewrite insert_app_r_alt, Nat.sub_diag by lia. }
  replace (len pre + 1) with (len (pre ++ [y])) by (rewrite len_app; unfold len; simpl; lia).
  rewrite (IH _ old) by done. f_equal. by rewrite <- app_assoc.
Qed.

Lemma put_be n v old r : length old = n →
  put_shifts (old ++ r) v (be_shifts 0 n) = Ok (be_split n v ++ r).
Proof. apply (put_shifts_be n v []). Qed.

(** ** Round trips *)

Definition sfits (w z : Z) : Prop := - 2 ^ (w - 1) ≤ z < 2 ^ (w - 1).

(** [put] writes the first [n] bytes, [get] reads the value back. *)
Definition roundtrips (n : nat) (put : bytes → Z → res bytes) (get : bytes → res Z)
    (range : Z → Prop) : Prop :=
  ∀ b v, (n ≤ length b)%nat → range v →
    ∃ b', put b v = Ok b' ∧ get b' = Ok v ∧ drop n b' = drop n b.

Lemma roundtrips_intro n put get range :
  (∀ old r v, length old = n → put (old ++ r) v = Ok (be_split n v ++ r)) →
  (∀ v r, range v → get (be_split n v ++ r) = Ok v) →
  roundtrips n put get range.
Proof.
  intros Hput Hget b v Hb Hv. exists (be_split n v ++ drop n b). split; [|split].
  - rewrite <- (take_drop n b) at 1. apply Hput. rewrite length_take. lia.
  - by apply Hget.
  - by rewrite drop_app_length' by (by rewrite length_be_split).
Qed.

(** Reading back what [be_split] wrote, unsigned and signed. *)
Lemma get_split_unsigned w n v r : fits (8 * Z.of_nat (S n)) v → 8 * Z.of_nat (S n) ≤ w →
  get_bytes (wrap w) id (be_split (S n) v ++ r) 0 (seqZ 1 (Z.of_nat n)) = Ok v.
Proof.
  intros Hv Hw. cbn [be_split].
  replace (seqZ 1 (Z.of_nat n)) with (seqZ 1 (len (be_split n v)))
    by (unfold len; by rewrite length_be_split).
  rewrite <- app_comm_cons, get_bytes_unsigned; auto with go.
  - change (be_combine _) with (be_combine (be_split (S n) v)).
    rewrite be_combine_split_small; [done|]. unfold fits in Hv. by rewrite Z.pow_mul_r in Hv by lia.
  - unfold len. cbn [length]. rewrite length_be_split. rewrite <- (Z.pow_mul_r 2 8) by lia.
    apply Z.pow_le_mono_r; lia.
Qed.

Lemma get_split_signed w n v r :
  sfits (8 * Z.of_nat (S n)) v → 8 * Z.of_nat (S n) ≤ w → (0 < n)%nat →
  get_bytes (swrap w) i8 (be_split (S n) v ++ r) 0 (seqZ 1 (Z.of_nat n)) = Ok v.
Proof.
  intros Hv Hw Hn. cbn [be_split].
  replace (seqZ 1 (Z.of_nat n)) with (seqZ 1 (len (be_split n v)))
    by (unfold len; by rewrite length_be_split).
  assert (H8 : 8 * Z.of_nat (S n) - 1 = 7 + 8 * Z.of_nat n) by lia.
  assert (Hp : 0 < 256 ^ Z.of_nat n) by (apply Z.pow_pos_nonneg; lia).
  unfold sfits in Hv. rewrite H8, Z.pow_add_r, (Z.pow_mul_r 2 8) in Hv by lia.
  change (2 ^ 7) with 128 in Hv. change (2 ^ 8) with 256 in Hv.
  rewrite <- app_comm_cons, get_bytes_signed; auto with go; try lia.
  - unfold len. rewrite length_be_split, be_combine_split, u8_shiftr, Z.pow_mul_r by lia.
    change (2 ^ 8) with 256. f_equal.
    assert (Hq : -128 ≤ v / 256 ^ Z.of_nat n < 128).
    { split; [apply Z.div_le_lower_bound|apply Z.div_lt_upper_bound]; lia. }
    replace (i8 ((v / 256 ^ Z.of_nat n) `mod` 256)) with (v / 256 ^ Z.of_nat n).
    + pose proof (Z.div_mod v (256 ^ Z.of_nat n)). lia.
    + generalize dependent (v / 256 ^ Z.of_nat n). intros q Hq. go_arith.
  - unfold len. rewrite length_be_split. change 256 with (2 ^ 8).
    rewrite <- Z.pow_mul_r by lia. change (2 * 128) with (2 ^ 8).
    rewrite <- Z.pow_add_r by lia. apply Z.pow_le_mono_r; lia.
  - destruct n; [lia|done].
Qed.

Lemma U32LE_rev x0 x1 x2 x3 r : U32LE (x0 :: x1 :: x2 :: x3 :: r) = U32BE (x3 :: x2 :: x1 :: x0 :: r).
Proof. reflexivity. Qed.

(** [I16BE] starts from [int16(b[0])], without the sign extension of its siblings:
    the shift left is what brings the sign in. *)
Lemma I16BE_split v r : sfits 16 v → I16BE (be_split 2 v ++ r) = Ok v.
Proof.
  intros Hv. unfold sfits in Hv.
  change (Ok (Z.lor (i16 (Z.shiftl (i16 (u8 (Z.shiftr v 8))) 8)) (i16 (u8 (Z.shiftr v 0))))
    = Ok v). f_equal.
  rewrite !u8_shiftr, Z.shiftl_mul_pow2 by lia.
  replace (i16 (i16 ((v / 2 ^ 8) `mod` 256) * 2 ^ 8)) with (v / 256 * 2 ^ 8) by go_arith.
  replace (i16 ((v / 2 ^ 0) `mod` 256)) with (v `mod` 256) by go_arith.
  rewrite lor_low; [|lia|go_arith]. go_arith.
Qed.

(** Every [PutX] of [writer.go] is undone by the [X] of [reader.go] on the whole
    range of its type, and leaves the bytes after it alone. *)
Theorem pio_roundtrip :
  roundtrips 1 PutU8 U8 is_byte ∧
  roundtrips 2 PutU16BE U16BE (fits 16) ∧ roundtrips 2 PutI16BE I16BE (sfits 16) ∧
  roundtrips 3 PutU24BE U24BE (fits 24) ∧ roundtrips 3 PutI24BE I24BE (sfits 24) ∧
  roundtrips 4 PutU32BE U32BE (fits 32) ∧ roundtrips 4 PutI32BE I32BE (sfits 32) ∧
  roundtrips 4 PutU32LE U32LE (fits 32) ∧ roundtrips 5 PutU40BE U40BE (fits 40) ∧
  roundtrips 8 PutU64BE U64BE (fits 64) ∧ roundtrips 8 PutI64BE I64BE (sfits 64).
Proof.
  assert (Hput : ∀ n old r v, length old = n →
    put_shifts (old ++ r) v (be_shifts 0 n) = Ok (be_split n v ++ r)) by (intros; by apply put_be).
  repeat split.
  - intros [|x b] v Hb Hv; [simpl in Hb; lia|]. by exists (v :: b).
  - apply roundtrips_intro; [apply (Hput 2%nat)|]. intros v r Hv. by apply (get_split_unsigned 16 1).
  - apply roundtrips_intro; [apply (Hput 2%nat)|]. intros v r Hv. by apply I16BE_split.
  - apply roundtrips_intro; [apply (Hput 3%nat)|]. intros v r Hv. by apply (get_split_unsigned 32 2).
  - apply roundtrips_intro; [apply (Hput 3%nat)|]. intros v r Hv. by apply (get_split_signed 32 2); [..|lia].
  - apply roundtrips_intro; [apply (Hput 4%nat)|]. intros v r Hv. by apply (get_split_unsigned 32 3).
  - apply roundtrips_intro; [apply (Hput 4%nat)|]. intros v r Hv. by apply (get_split_signed 32 3); [..|lia].
  - intros b v Hb Hv.
    destruct b as [|b0 [|b1 [|b2 [|b3 b]]]]; try (simpl in Hb; lia).
    exists (u8 (Z.shiftr v 0) :: u8 (Z.shiftr v 8) :: u8 (Z.shiftr v 16) :: u8 (Z.shiftr v 24) :: b).
    split; [reflexivity|]. split; [|done]. rewrite U32LE_rev.
    by apply (get_split_unsigned 32 3).
  - apply roundtrips_intro; [apply (Hput 5%nat)|]. intros v r Hv. by apply (get_split_unsigned 64 4).
  - apply roundtrips_intro; [apply (Hput 8%nat)|]. intros v r Hv. by apply (get_split_unsigned 64 7).
  - apply roundtrips_intro; [apply (Hput 8%nat)|]. intros v r Hv. by apply (get_split_signed 64 7); [..|lia].
Qed.

(** ** Reading from the front of a longer buffer *)

Lemma U24BE_split v r : fits 24 v → U24BE (be_split 3 v ++ r) = Ok v.
Proof. intros Hv. by apply (get_split_unsigned 32 2). Qed.

Lemma U32BE_split v r : fits 32 v → U32BE (be_split 4 v ++ r) = Ok v.
Proof. intros Hv. by apply (get_split_unsigned 32 3). Qed.

Lemma U32LE_split v r : fits 32 v → U32LE (le_split 4 v ++ r) = Ok v.
Proof.
  intros Hv. rewrite <- (U32BE_split v r Hv). unfold le_split. cbn [be_split].
  apply U32LE_rev.
Qed.

(** Long enough buffers never make a reader panic. *)
Lemma U24BE_total b : (3 ≤ length b)%nat → Forall is_byte b →
  ∃ v, U24BE b = Ok v ∧ fits 24 v.
Proof.
  intros Hl Hb. rewrite <- (take_drop 3 b) in Hb |- *. apply Forall_app in Hb as [Hb _].
  assert (Hl3 : length (take 3 b) = 3%nat) by (rewrite length_take; lia).
  revert Hb Hl3. generalize (take 3 b). intros l Hb Hl3. exists (be_combine l).
  rewrite <- (be_split_combine l Hb) at 1. rewrite Hl3.
  pose proof (be_combine_bound l Hb) as Hbd. unfold len in Hbd. rewrite Hl3 in Hbd.
  split; [|exact Hbd]. by apply U24BE_split.
Qed.

Lemma U32BE_total b : (4 ≤ length b)%nat → Forall is_byte b →
  ∃ v, U32BE b = Ok v ∧ fits 32 v.
Proof.
  intros Hl Hb. rewrite <- (take_drop 4 b) in Hb |- *. apply Forall_app in Hb as [Hb _].
  assert (Hl3 : length (take 4 b) = 4%nat) by (rewrite length_take; lia).
  revert Hb Hl3. generalize (take 4 b). intros l Hb Hl3. exists (be_combine l).
  rewrite <- (be_split_combine l Hb) at 1. rewrite Hl3.
  pose proof (be_combine_bound l Hb) as Hbd. unfold len in Hbd. rewrite Hl3 in Hbd.
  split; [|exact Hbd]. by apply U32BE_split.
Qed.

Lemma U32LE_total b : (4 ≤ length b)%nat → Forall is_byte b →
  ∃ v, U32LE b = Ok v ∧ fits 32 v.
Proof.
  intros Hl Hb. destruct b as [|x0 [|x1 [|x2 [|x3 b]]]]; try (simpl in Hl; lia).
  rewrite U32LE_rev. apply U32BE_total; [simpl; lia|].
  rewrite !Forall_cons in Hb |- *. tauto.
Qed.

Lemma U32BE_short b : (length b < 4)%nat → U32BE b = Panic IndexOutOfRange.
Proof. intros Hl. destruct b as [|x0 [|x1 [|x2 [|x3 b]]]]; try done. simpl in Hl. lia. Qed.
