(* ===== verification/GoIO.v ===== *)
(** * The parts of Go's io, bytes and bufio packages the program uses

    - [bytes.Reader]: the bytes that have not been read yet;
    - [io.Writer] as a class, with its law for writers that do not fail;
      [bytes.Buffer] and [bufio.Writer] are its instances;
    - [bufio.Writer] over a connection that may stop accepting bytes. *)
From S2P Require Import Prelude.

(** ** bytes.Reader *)

(** [Read(p)] with [len(p) = n]: an exhausted reader answers [EOF] even when
    [n = 0]; otherwise up to [n] bytes are copied and no error is returned. *)
Definition Reader_Read (n : Z) : go bytes bytes := λ s,
  match s with
  | [] => (Err EOF, s)
  | _ => (Ok (take (Z.to_nat n) s), drop (Z.to_nat n) s)
  end.

Definition Reader_ReadByte : go bytes Z := λ s,
  match s with
  | [] => (Err EOF, s)
  | b :: s' => (Ok b, s')
  end.

(** [io.ReadFull], which [binary.Read] calls. *)
Definition io_ReadFull (n : Z) : go bytes bytes := λ s,
  if n <=? len s then (Ok (take (Z.to_nat n) s), drop (Z.to_nat n) s)
  else match s with
       | [] => (Err EOF, s)
       | _ => (Err ErrUnexpectedEOF, [])
       end.

(** [binary.Read(r, binary.BigEndian, &x)] for an unsigned [x] of [n] bytes. *)
Definition binary_Read_BE (n : Z) : go bytes Z := be_combine <$> io_ReadFull n.

(** [binary.BigEndian.Uint32(b)]: too short a slice is an index out of range. *)
Definition BigEndian_Uint32 (b : bytes) : res Z :=
  if 4 <=? len b then Ok (be_combine (take 4 b)) else Panic IndexOutOfRange.

(** ** io.Writer *)

(** [Write(p)] returns the number of bytes accepted; the count that comes with an
    error is not modelled, no caller in the program reads it. *)
Class IoWriter (W : Type) := io_Write : bytes → go W Z.

(** A writer that keeps what it accepts: the promise the encoders are proved against. *)
Class LawfulWriter (W : Type) `{IoWriter W} := {
  wr_stream : W → bytes;
  wr_ok : W → Prop;
  io_Write_ok : ∀ p w, wr_ok w →
    ∃ w', io_Write p w = (Ok (len p), w') ∧ wr_ok w' ∧ wr_stream w' = wr_stream w ++ p;
}.

#[export] Instance buffer_writer : IoWriter bytes := λ p s, (Ok (len p), s ++ p).

#[export] Instance buffer_lawful : LawfulWriter bytes.
Proof.
  refine {| wr_stream := id; wr_ok := λ _, True |}.
  intros p w _. by exists (w ++ p).
Defined.

(** ** bufio.Writer over a connection *)

Record BufioWriter := mkBufio {
  bw_sent : bytes;           (* what the connection has accepted *)
  bw_room : option nat;      (* bytes it accepts before failing; [None]: no limit *)
  bw_buf : bytes;            (* buffered bytes *)
  bw_size : Z;               (* size of the buffer *)
  bw_err : option error;     (* the sticky error *)
}.

Definition conn_error : error := ErrConn 0.

(** [wr.Write(p)] on the connection: bytes accepted, and the error. *)
Definition conn_Write (p : bytes) (b : BufioWriter) : Z * option error * BufioWriter :=
  match bw_room b with
  | None => (len p, None,
      mkBufio (bw_sent b ++ p) None (bw_buf b) (bw_size b) (bw_err b))
  | Some k =>
      if (length p <=? k)%nat then
        (len p, None,
         mkBufio (bw_sent b ++ p) (Some (k - length p)%nat) (bw_buf b) (bw_size b) (bw_err b))
      else
        (Z.of_nat k, Some conn_error,
         mkBufio (bw_sent b ++ take k p) (Some O) (bw_buf b) (bw_size b) (bw_err b))
  end.

Definition bw_set (buf : bytes) (err : option error) (b : BufioWriter) : BufioWriter :=
  mkBufio (bw_sent b) (bw_room b) buf (bw_size b) err.

Definition bw_Buffered (b : BufioWriter) : Z := len (bw_buf b).
Definition bw_Available (b : BufioWriter) : Z := bw_size b - len (bw_buf b).

Definition bw_Flush : go BufioWriter unit := λ b,
  match bw_err b with
  | Some e => (Err e, b)
  | None =>
      if bw_Buffered b =? 0 then (Ok tt, b)
      else match conn_Write (bw_buf b) b with
           | (n, Some e, b') => (Err e, bw_set (drop (Z.to_nat n) (bw_buf b)) (Some e) b')
           | (_, None, b') => (Ok tt, bw_set [] None b')
           end
  end.

Definition bw_WriteByte (c : Z) : go BufioWriter unit := λ b,
  match bw_err b with
  | Some e => (Err e, b)
  | None =>
      if bw_Available b <=? 0 then
        match bw_Flush b with
        | (Ok _, b') => (Ok tt, bw_set (bw_buf b' ++ [c]) (bw_err b') b')
        | r => r
        end
      else (Ok tt, bw_set (bw_buf b ++ [c]) (bw_err b) b)
  end.

(** One pass of the loop of [Write]: with an empty buffer [p] goes to the connection,
    otherwise the buffer is filled and flushed.  Returns what is left of [p]. *)
Definition bw_Write_pass (p : bytes) (b : BufioWriter) : bytes * BufioWriter :=
  if bw_Buffered b =? 0 then
    match conn_Write p b with
    | (n, e, b') => (drop (Z.to_nat n) p, bw_set (bw_buf b') e b')
    end
  else
    let n := Z.to_nat (bw_Available b) in
    (drop n p, snd (bw_Flush (bw_set (bw_buf b ++ take n p) (bw_err b) b))).

(** The loop runs while [len(p) > Available() && err == nil]; two passes empty [p]
    (one fills and flushes the buffer, one writes the rest through). *)
Fixpoint bw_Write_loop (fuel : nat) (p : bytes) (b : BufioWriter) : bytes * BufioWriter :=
  match fuel with
  | O => (p, b)
  | S fuel =>
      match bw_err b with
      | Some _ => (p, b)
      | None =>
          if bw_Available b <? len p then
            let '(p', b') := bw_Write_pass p b in bw_Write_loop fuel p' b'
          else (p, b)
      end
  end.

#[export] Instance bufio_writer : IoWriter BufioWriter := λ p b,
  let '(p', b') := bw_Write_loop 3 p b in
  match bw_err b' with
  | Some e => (Err e, b')
  | None => (Ok (len p), bw_set (bw_buf b' ++ p') None b')
  end.

(** *** Laws *)

Definition bw_stream (b : BufioWriter) : bytes := bw_sent b ++ bw_buf b.

Definition bw_ok (b : BufioWriter) : Prop :=
  bw_err b = None ∧ bw_room b = None ∧ 0 < bw_size b ∧ len (bw_buf b) ≤ bw_size b.

Lemma bw_Flush_ok b : bw_ok b →
  ∃ b', bw_Flush b = (Ok tt, b') ∧ bw_ok b' ∧ bw_buf b' = [] ∧ bw_sent b' = bw_stream b.
Proof.
  destruct b as [sent room buf size err]. intros (He & Hr & Hs & Hb).
  unfold bw_Flush, bw_Buffered, conn_Write, bw_stream, bw_ok, len in *. simpl in *. subst.
  destruct (_ =? 0) eqn:E.
  - apply Z.eqb_eq in E. destruct buf; [|simpl in E; lia].
    eexists. rewrite app_nil_r. simpl. by repeat split.
  - eexists. simpl. repeat split; try done. simpl. lia.
Qed.

Lemma bw_WriteByte_ok c b : bw_ok b →
  ∃ b', bw_WriteByte c b = (Ok tt, b') ∧ bw_ok b' ∧ bw_stream b' = bw_stream b ++ [c].
Proof.
  intros Hok. pose proof Hok as (He & Hr & Hs & Hb). unfold bw_WriteByte. rewrite He.
  destruct (bw_Available b <=? 0) eqn:E.
  - destruct (bw_Flush_ok b Hok) as (b' & -> & (He' & Hr' & Hs' & Hb') & Hbuf & Hsent).
    eexists. split; [done|]. unfold bw_ok, bw_stream, len in *. simpl.
    rewrite Hbuf, Hsent. simpl. repeat split; try done. lia.
  - go_bool. eexists. split; [done|]. unfold bw_ok, bw_stream, bw_Available, len in *. simpl.
    rewrite length_app, app_assoc. simpl. repeat split; try done. lia.
Qed.

(** A pass hands a prefix of [p] over and leaves the buffer empty. *)
Lemma bw_Write_pass_ok p b : bw_ok b → bw_Available b < len p →
  ∃ k b', bw_Write_pass p b = (drop k p, b') ∧ bw_ok b' ∧ bw_buf b' = [] ∧
    bw_stream b' = bw_stream b ++ take k p ∧ (bw_buf b = [] → (length p ≤ k)%nat).
Proof.
  intros Hok Hp. pose proof Hok as (He & Hr & Hs & Hb).
  unfold bw_Write_pass, bw_Buffered. destruct (_ =? 0) eqn:E; go_bool.
  - assert (Hbuf : bw_buf b = []) by (destruct (bw_buf b); [done|unfold len in E; simpl in E; lia]).
    unfold conn_Write. rewrite Hr. exists (length p). eexists. unfold len. rewrite Nat2Z.id.
    split; [done|]. unfold bw_ok, bw_stream. simpl. rewrite Hbuf, !app_nil_r, take_ge by lia.
    repeat split; try done. unfold len. simpl. lia.
  - set (n := Z.to_nat (bw_Available b)).
    destruct (bw_Flush_ok (bw_set (bw_buf b ++ take n p) (bw_err b) b)) as (b' & Hf & Hok' & Hbuf & Hsent).
    { unfold bw_ok, bw_Available, len in *. simpl. rewrite length_app, length_take.
      repeat split; try done. subst n. lia. }
    exists n, b'. rewrite Hf. split; [done|]. split; [done|]. split; [done|]. split.
    + unfold bw_stream in *. rewrite Hbuf, app_nil_r, Hsent. simpl. by rewrite app_assoc.
    + intros Hnil. by rewrite Hnil in E.
Qed.

Lemma bw_Write_loop_ok p b : bw_ok b →
  ∃ p' b', bw_Write_loop 3 p b = (p', b') ∧ bw_ok b' ∧ len p' ≤ bw_Available b' ∧
    bw_stream b' ++ p' = bw_stream b ++ p.
Proof.
  intros Hok. pose proof Hok as (He & _). cbn [bw_Write_loop]. rewrite He.
  destruct (bw_Available b <? len p) eqn:E; go_bool; [|by exists p, b].
  destruct (bw_Write_pass_ok p b Hok E) as (k & b1 & -> & Hok1 & Hb1 & Hst1 & _).
  pose proof Hok1 as (He1 & _ & Hs1 & _). rewrite He1.
  assert (Hcat : bw_stream b1 ++ drop k p = bw_stream b ++ p).
  { by rewrite Hst1, <- app_assoc, take_drop. }
  destruct (bw_Available b1 <? len (drop k p)) eqn:E1; go_bool; [|by eexists _, _].
  destruct (bw_Write_pass_ok _ b1 Hok1 E1) as (j & b2 & -> & Hok2 & Hb2 & Hst2 & Hj).
  pose proof Hok2 as (He2 & _ & Hs2 & _). rewrite He2.
  rewrite (drop_ge (drop k p)) by auto. rewrite (take_ge (drop k p)) in Hst2 by auto.
  replace (bw_Available b2 <? len []) with false
    by (unfold bw_Available, len; rewrite Hb2; simpl; symmetry; apply Z.ltb_ge; lia).
  eexists _, _. split; [done|]. split; [done|]. split.
  - unfold bw_Available, len. rewrite Hb2. simpl. lia.
  - by rewrite app_nil_r, Hst2.
Qed.

#[export] Instance bufio_lawful : LawfulWriter BufioWriter.
Proof.
  refine {| wr_stream := bw_stream; wr_ok := bw_ok |}.
  intros p b Hok. unfold io_Write, bufio_writer.
  destruct (bw_Write_loop_ok p b Hok) as (p' & b' & -> & Hok' & Hlen & Hcat).
  pose proof Hok' as (-> & Hr & Hs & Hb). eexists. split; [done|].
  unfold bw_ok, bw_stream, bw_Available, len in *. simpl.
  rewrite length_app, app_assoc. repeat split; try done. lia.
Defined.

(** *** Failing connections

    Whatever the connection does, what it has accepted is a prefix of the bytes the
    program wrote, and equals them while no error is reported. *)
Definition bw_tracks (w : bytes) (b : BufioWriter) : Prop :=
  bw_sent b `prefix_of` w ∧ (bw_err b = None → bw_stream b = w).

Lemma bw_tracks_app w p b : bw_err b ≠ None → bw_tracks w b → bw_tracks (w ++ p) b.
Proof.
  intros Hne [Hpre _]. split; [by apply prefix_app_r|]. done.
Qed.

Lemma prefix_take_app (s : bytes) k p w : s ++ p = w → s ++ take k p `prefix_of` w.
Proof. intros <-. apply prefix_app. apply prefix_take. Qed.

Lemma bw_Flush_tracks w b : bw_tracks w b → bw_tracks w (bw_Flush b).2.
Proof.
  destruct b as [sent room buf size err]. intros [Hpre Hst].
  unfold bw_Flush, bw_Buffered, conn_Write, bw_tracks, bw_stream in *. simpl in *.
  destruct err as [e|]; [done|]. specialize (Hst eq_refl).
  destruct (_ =? 0); [done|]. destruct room as [k|]; simpl.
  - destruct (length buf <=? k)%nat; simpl.
    + subst w. by rewrite app_nil_r.
    + split; [by apply prefix_take_app|done].
  - subst w. by rewrite app_nil_r.
Qed.

Lemma bw_Flush_err b e b' : bw_Flush b = (Err e, b') → bw_err b' ≠ None.
Proof.
  destruct b as [sent room buf size err]. unfold bw_Flush, bw_Buffered, conn_Write. simpl.
  destruct err as [e'|]; [by intros [= <- <-]|].
  destruct (_ =? 0); [done|]. destruct room as [k|]; [|done].
  destruct (length buf <=? k)%nat; [done|]. by intros [= <- <-].
Qed.

Lemma bw_WriteByte_tracks w c b : bw_tracks w b → bw_tracks (w ++ [c]) (bw_WriteByte c b).2.
Proof.
  intros Ht. unfold bw_WriteByte. destruct (bw_err b) as [e|] eqn:He.
  { simpl. apply bw_tracks_app; [by rewrite He|done]. }
  assert (Hadd : ∀ b1, bw_tracks w b1 →
    bw_tracks (w ++ [c]) (bw_set (bw_buf b1 ++ [c]) (bw_err b1) b1)).
  { intros b1 [Hpre Hst]. split; [by apply prefix_app_r|]. intros Hn. simpl in Hn.
    rewrite <- Hst by done. unfold bw_stream. simpl. by rewrite app_assoc. }
  destruct (bw_Available b <=? 0).
  - pose proof (bw_Flush_tracks w b Ht) as Hf. destruct (bw_Flush b) as [[|e| |] b1] eqn:Hb1.
    + by apply Hadd.
    + apply bw_tracks_app; [by eapply bw_Flush_err|done].
    + exfalso. revert Hb1. unfold bw_Flush. repeat case_match; done.
    + exfalso. revert Hb1. unfold bw_Flush. repeat case_match; done.
  - replace (bw_set (bw_buf b ++ [c]) None b) with (bw_set (bw_buf b ++ [c]) (bw_err b) b)
      by (by rewrite He). by apply Hadd.
Qed.

Lemma bw_Write_pass_tracks p b w : bw_err b = None → bw_tracks w b →
  ∃ k, (bw_Write_pass p b).1 = drop k p ∧ bw_tracks (w ++ take k p) (bw_Write_pass p b).2.
Proof.
  intros He [Hpre Hst]. specialize (Hst He). unfold bw_Write_pass, bw_Buffered.
  destruct (_ =? 0) eqn:E; go_bool.
  - assert (Hbuf : bw_buf b = []) by (destruct (bw_buf b); [done|unfold len in E; simpl in E; lia]).
    unfold bw_stream in Hst. rewrite Hbuf, app_nil_r in Hst. subst w. unfold conn_Write.
    destruct (bw_room b) as [k|]; [destruct (length p <=? k)%nat|]; simpl;
      [exists (length p)|exists k|exists (length p)]; unfold len; rewrite Nat2Z.id;
      (split; [done|]); unfold bw_tracks, bw_stream; simpl; rewrite Hbuf, ?app_nil_r, ?take_ge by lia;
      by repeat split.
  - exists (Z.to_nat (bw_Available b)). split; [done|]. simpl. apply bw_Flush_tracks.
    split; simpl; [by apply prefix_app_r|]. intros _. subst w. unfold bw_stream. simpl.
    by rewrite app_assoc.
Qed.

Lemma bw_Write_loop_tracks n : ∀ p b w, bw_tracks w b →
  ∃ k, (bw_Write_loop n p b).1 = drop k p ∧ bw_tracks (w ++ take k p) (bw_Write_loop n p b).2.
Proof.
  induction n as [|n IH]; intros p b w Ht; simpl.
  { exists O. rewrite app_nil_r. by split. }
  destruct (bw_err b) as [e|] eqn:He; [exists O; rewrite app_nil_r; by split|].
  destruct (bw_Available b <? len p); [|exists O; rewrite app_nil_r; by split].
  destruct (bw_Write_pass_tracks p b w He Ht) as (k & Hk & Ht1).
  destruct (bw_Write_pass p b) as [p1 b1]. simpl in *. subst p1.
  destruct (IH (drop k p) b1 _ Ht1) as (j & -> & Ht2). exists (k + j)%nat.
  rewrite drop_drop. split; [done|]. by rewrite <- app_assoc, take_take_drop in Ht2.
Qed.

Lemma bw_Write_tracks w p b : bw_tracks w b → bw_tracks (w ++ p) (io_Write p b).2.
Proof.
  intros Ht. unfold io_Write, bufio_writer.
  destruct (bw_Write_loop_tracks 3 p b w Ht) as (k & Hp & [Hpre Hst]).
  destruct (bw_Write_loop 3 p b) as [p' b']. simpl in *. subst p'.
  assert (Hpre' : bw_sent b' `prefix_of` w ++ p).
  { etrans; [exact Hpre|]. apply prefix_app, prefix_take. }
  destruct (bw_err b') as [e|] eqn:He; simpl; split; try done.
  - simpl. by rewrite He.
  - intros _. unfold bw_stream in *. simpl. rewrite app_assoc, Hst by done.
    by rewrite <- app_assoc, take_drop.
Qed.


(** ** An object that writes to a caller's writer *)

Section emit.
Context {W : Type} `{LawfulWriter W}.

Definition on_w {P A} (m : go W A) : go (P * W) A := λ '(p, w),
  let '(r, w') := m w in (r, (p, w')).
Definition on_p {P A} (m : go P A) : go (P * W) A := λ '(p, w),
  let '(r, p') := m p in (r, (p', w)).

(** [if _, err := w.Write(b); err != nil { return err }] *)
Definition write_w {P} (b : bytes) : go (P * W) unit := on_w (_ ← io_Write b; mret tt).

(** [m] started in [p] returns [a] in [p'] and writes [out] to a writer that works. *)
Definition emits {P A} (m : go (P * W) A) (p : P) (a : A) (p' : P) (out : bytes) : Prop :=
  ∀ w, wr_ok w → ∃ w', m (p, w) = (Ok a, (p', w')) ∧ wr_ok w' ∧
    wr_stream w' = wr_stream w ++ out.

Context {P : Type}.
Implicit Types (p : P) (out : bytes).

Lemma emits_ret {A} (a : A) p : emits (mret a) p a p [].
Proof. intros w Hw. exists w. by rewrite app_nil_r. Qed.

Lemma emits_bind {A B} (m : go (P * W) A) (k : A → go (P * W) B) p1 a p2 o1 b p3 o2 :
  emits m p1 a p2 o1 → emits (k a) p2 b p3 o2 → emits (m ≫= k) p1 b p3 (o1 ++ o2).
Proof.
  intros Hm Hk w Hw. destruct (Hm w Hw) as (w1 & Hm1 & Hw1 & Hs1).
  destruct (Hk w1 Hw1) as (w2 & Hk2 & Hw2 & Hs2). exists w2.
  erewrite go_bind_ok by exact Hm1. by rewrite Hs2, Hs1, <- app_assoc.
Qed.

Lemma emits_write p b : emits (write_w b) p tt p b.
Proof.
  intros w Hw. destruct (io_Write_ok b w Hw) as (w' & Heq & Hw' & Hs). exists w'.
  unfold write_w, on_w, mbind, go_bind. by rewrite Heq.
Qed.

Lemma emits_bind_write {B} (b : bytes) (k : unit → go (P * W) B) p r p' out :
  emits (k tt) p r p' out → emits (write_w b ≫= k) p r p' (b ++ out).
Proof. intros Hk. eapply emits_bind; [apply emits_write|exact Hk]. Qed.

Lemma emits_write_ret {B} (b : bytes) (r : B) p : emits (write_w b ≫= λ _, mret r) p r p b.
Proof. rewrite <- (app_nil_r b) at 2. apply emits_bind_write, emits_ret. Qed.

Lemma emits_bind_nil {A B} (m : go (P * W) A) (k : A → go (P * W) B) p a p1 b p' out :
  emits m p a p1 [] → emits (k a) p1 b p' out → emits (m ≫= k) p b p' out.
Proof. intros Hm Hk. apply (emits_bind m k p a p1 [] b p' out Hm Hk). Qed.

Lemma emits_lift {A} (r : res A) a p : r = Ok a → emits (lift r) p a p [].
Proof. intros -> w Hw. exists w. by rewrite app_nil_r. Qed.

Lemma emits_on_p {A} (m : go P A) p a p' : m p = (Ok a, p') → emits (on_p m) p a p' [].
Proof. intros Hm w Hw. exists w. unfold on_p. by rewrite Hm, app_nil_r. Qed.

Lemma emits_bind_lift {A B} (r : res A) (k : A → go (P * W) B) p a b p' out :
  r = Ok a → emits (k a) p b p' out → emits (lift r ≫= k) p b p' out.
Proof. by intros ->. Qed.

Lemma emits_bind_on_p {A B} (m : go P A) (k : A → go (P * W) B) p a p1 b p' out :
  m p = (Ok a, p1) → emits (k a) p1 b p' out → emits (on_p m ≫= k) p b p' out.
Proof. intros Hm Hk. apply (emits_bind _ _ p a p1 [] b p' out); [by apply emits_on_p|done]. Qed.
End emit.
