(* ===== verification/ReadWriter.v ===== *)
(** * core.ReadWriter (src/protocol/core/read_writer.go)

    A buffered connection with sticky read and write errors.  The input is the list of
    bytes the connection still delivers, followed by the error its [Read] then returns;
    the output is a [BufioWriter]. *)
From S2P Require Import Prelude GoIO.

Record ReadWriter := mkRW {
  rw_in : bytes;
  rw_in_err : error;
  rw_w : BufioWriter;
  readError : option error;
  writeError : option error;
}.

Definition set_in (i : bytes) (rw : ReadWriter) : ReadWriter :=
  mkRW i (rw_in_err rw) (rw_w rw) (readError rw) (writeError rw).
Definition set_w (w : BufioWriter) (rw : ReadWriter) : ReadWriter :=
  mkRW (rw_in rw) (rw_in_err rw) w (readError rw) (writeError rw).
Definition set_readError (e : option error) (rw : ReadWriter) : ReadWriter :=
  mkRW (rw_in rw) (rw_in_err rw) (rw_w rw) e (writeError rw).
Definition set_writeError (e : option error) (rw : ReadWriter) : ReadWriter :=
  mkRW (rw_in rw) (rw_in_err rw) (rw_w rw) (readError rw) e.

(** [NewReadWriter]: nothing read, nothing written. *)
Definition NewReadWriter (input : bytes) (input_err : error) (room : option nat)
    (bufSize : Z) : ReadWriter :=
  mkRW input input_err (mkBufio [] room [] bufSize None) None None.

(** ** The embedded bufio.ReadWriter *)

Definition rw_ReadByte : go ReadWriter Z := λ rw,
  match rw_in rw with
  | [] => (Err (rw_in_err rw), rw)
  | b :: i => (Ok b, set_in i rw)
  end.

(** [io.ReadAtLeast(rw, p, len(p))] for [len(p) = n]: the bytes stored in [p] and the
    error; a short read of a closed connection is [ErrUnexpectedEOF]. *)
Definition io_ReadAtLeast (n : Z) (rw : ReadWriter) : bytes * option error * ReadWriter :=
  if n <=? len (rw_in rw) then
    (take (Z.to_nat n) (rw_in rw), None, set_in (drop (Z.to_nat n) (rw_in rw)) rw)
  else
    let e := match rw_in rw, rw_in_err rw with
             | _ :: _, EOF => ErrUnexpectedEOF
             | _, e => e
             end in
    (rw_in rw, Some e, set_in [] rw).

Definition rw_Peek (n : Z) : go ReadWriter bytes := λ rw,
  if n <=? len (rw_in rw) then (Ok (take (Z.to_nat n) (rw_in rw)), rw)
  else (Err (rw_in_err rw), rw).

Definition rw_Discard (n : Z) : go ReadWriter unit := λ rw,
  if n <=? len (rw_in rw) then (Ok tt, set_in (drop (Z.to_nat n) (rw_in rw)) rw)
  else (Err (rw_in_err rw), set_in [] rw).

(** Runs an operation of the embedded writer. *)
Definition on_writer {A} (m : go BufioWriter A) : go ReadWriter A := λ rw,
  let '(r, w) := m (rw_w rw) in (r, set_w w rw).

(** ** Methods of ReadWriter *)

(** [Read(p)] with [len(p) = n]: what was stored in [p], and the error. *)
Definition RW_Read (n : Z) (rw : ReadWriter) : bytes * option error * ReadWriter :=
  match readError rw with
  | Some e => ([], Some e, rw)
  | None => let '(p, e, rw') := io_ReadAtLeast n rw in (p, e, set_readError e rw')
  end.

(** [if _, err := r.Read(p); err != nil { return ... }] when [p] is a local buffer. *)
Definition RW_ReadFull (n : Z) : go ReadWriter bytes := λ rw,
  match RW_Read n rw with
  | (p, None, rw') => (Ok p, rw')
  | (_, Some e, rw') => (Err e, rw')
  end.

Definition RW_ReadError (rw : ReadWriter) : option error := readError rw.

(** [for i := 0; i < n; i++ { ... step(ret, i, b) ... }] of the two integer readers. *)
Fixpoint read_uint (step : Z → Z → Z → Z) (n : nat) (i ret : Z) : go ReadWriter Z :=
  match n with
  | O => mret ret
  | S n => λ rw,
      match rw_ReadByte rw with
      | (Ok b, rw') => read_uint step n (i + 1) (step ret i b) rw'
      | (Err e, rw') => (Err e, set_readError (Some e) rw')
      | r => r
      end
  end.

Definition ReadUintBE (n : Z) : go ReadWriter Z := λ rw,
  match readError rw with
  | Some e => (Err e, rw)
  | None =>
      read_uint (λ ret _ b, u32 (u32 (Z.shiftl ret 8) + b)) (Z.to_nat n) 0 0 rw
  end.

Definition ReadUintLE (n : Z) : go ReadWriter Z := λ rw,
  match readError rw with
  | Some e => (Err e, rw)
  | None =>
      read_uint (λ ret i b, u32 (ret + u32 (Z.shiftl b (i * 8)))) (Z.to_nat n) 0 0 rw
  end.

Definition RW_Flush : go ReadWriter unit := λ rw,
  match writeError rw with
  | Some e => (Err e, rw)
  | None =>
      if bw_Buffered (rw_w rw) =? 0 then (Ok tt, rw) else on_writer bw_Flush rw
  end.

Definition RW_Write (p : bytes) : go ReadWriter Z := λ rw,
  match writeError rw with
  | Some e => (Err e, rw)
  | None => on_writer (io_Write p) rw
  end.

Definition WriteError (rw : ReadWriter) : option error := writeError rw.

(** Writes the bytes [byte_of i v] for [i = 0, 1, ...]; an error sticks. *)
Fixpoint write_uint (byte_of : Z → Z → Z) (next : Z → Z) (n : nat) (i v : Z)
    : go ReadWriter unit :=
  match n with
  | O => mret tt
  | S n => λ rw,
      match on_writer (bw_WriteByte (byte_of i v)) rw with
      | (Ok _, rw') => write_uint byte_of next n (i + 1) (next v) rw'
      | (Err e, rw') => (Err e, set_writeError (Some e) rw')
      | r => r
      end
  end.

Definition WriteUintBE (v n : Z) : go ReadWriter unit := λ rw,
  match writeError rw with
  | Some e => (Err e, rw)
  | None =>
      write_uint (λ i v, Z.land (u8 (Z.shiftr v (u32 (Z.shiftl (n - i - 1) 3)))) 0xff)
        id (Z.to_nat n) 0 v rw
  end.

Definition WriteUintLE (v n : Z) : go ReadWriter unit := λ rw,
  match writeError rw with
  | Some e => (Err e, rw)
  | None =>
      write_uint (λ _ v, Z.land (u8 v) 0xff) (λ v, Z.shiftr v 8) (Z.to_nat n) 0 v rw
  end.

(** ** Reading *)

(** [rw] has [p] in front of its input and no read error. *)
Definition rw_has (p rest : bytes) (rw : ReadWriter) : Prop :=
  readError rw = None ∧ rw_in rw = p ++ rest.

Lemma rw_Read_has p rest rw : rw_has p rest rw →
  RW_Read (len p) rw = (p, None, set_in rest rw).
Proof.
  destruct rw as [i ie w re we]. intros [Hre Hin]. simpl in *. subst.
  unfold RW_Read, io_ReadAtLeast. simpl.
  rewrite (proj2 (Z.leb_le _ _)) by (rewrite len_app; pose proof (len_nonneg rest); lia).
  unfold len. rewrite Nat2Z.id, take_app_length, drop_app_length. done.
Qed.

Lemma rw_ReadFull_has p rest rw : rw_has p rest rw →
  RW_ReadFull (len p) rw = (Ok p, set_in rest rw).
Proof. intros H. unfold RW_ReadFull. by rewrite (rw_Read_has p rest). Qed.

Lemma read_uint_has step p rest : ∀ i ret rw, rw_has p rest rw →
  read_uint step (length p) i ret rw
    = (Ok (foldl (λ '(ret, i) b, (step ret i b, i + 1)) (ret, i) p).1, set_in rest rw).
Proof.
  induction p as [|b p IH]; intros i ret rw [Hre Hin]; simpl.
  - unfold mret, go_ret. f_equal. destruct rw. simpl in *. by subst.
  - unfold rw_ReadByte. rewrite Hin. simpl. rewrite IH by done. by destruct rw.
Qed.

(** Big-endian: the loop computes [be_combine]. *)
Lemma ReadUintBE_has p rest rw : rw_has p rest rw → Forall is_byte p →
  len p ≤ 4 → ReadUintBE (len p) rw = (Ok (be_combine p), set_in rest rw).
Proof.
  intros Hrw Hp Hlen. unfold ReadUintBE. destruct Hrw as [Hre Hin]. rewrite Hre.
  unfold len at 1. rewrite Nat2Z.id, (read_uint_has _ p rest) by done. f_equal. f_equal.
  destruct p as [|b0 [|b1 [|b2 [|b3 [|b4 p]]]]]; try (unfold len in Hlen; simpl in Hlen; lia);
    repeat match goal with H : Forall _ (_ :: _) |- _ => apply Forall_cons in H as [? H] end;
    unfold is_byte in *; cbn [foldl fst be_combine fold_left];
    rewrite ?Z.shiftl_mul_pow2, ?lor_low by (lia || go_arith); try done; go_arith.
Qed.

Lemma ReadUintLE_has p rest rw : rw_has p rest rw → Forall is_byte p →
  len p ≤ 4 → ReadUintLE (len p) rw = (Ok (le_combine p), set_in rest rw).
Proof.
  intros Hrw Hp Hlen. unfold ReadUintLE. destruct Hrw as [Hre Hin]. rewrite Hre.
  unfold len at 1. rewrite Nat2Z.id, (read_uint_has _ p rest) by done. f_equal. f_equal.
  unfold le_combine.
  destruct p as [|b0 [|b1 [|b2 [|b3 [|b4 p]]]]]; try (unfold len in Hlen; simpl in Hlen; lia);
    repeat match goal with H : Forall _ (_ :: _) |- _ => apply Forall_cons in H as [? H] end;
    unfold is_byte in *; cbn -[Z.add Z.shiftl Z.lor Z.mul u32];
    rewrite ?Z.shiftl_mul_pow2, ?lor_low by (lia || go_arith); try done; go_arith.
Qed.

(** ** Writing to a connection that does not fail *)

Definition rw_stream (rw : ReadWriter) : bytes := bw_stream (rw_w rw).

Definition rw_wok (rw : ReadWriter) : Prop := writeError rw = None ∧ bw_ok (rw_w rw).

(** [rw'] is [rw] after [p] was written to it; the reading side is untouched. *)
Definition rw_wrote (p : bytes) (rw rw' : ReadWriter) : Prop :=
  rw_wok rw' ∧ rw_stream rw' = rw_stream rw ++ p ∧
  rw_in rw' = rw_in rw ∧ rw_in_err rw' = rw_in_err rw ∧ readError rw' = readError rw.

Lemma rw_wrote_nil rw : rw_wok rw → rw_wrote [] rw rw.
Proof. intros H. unfold rw_wrote. by rewrite app_nil_r. Qed.

Lemma rw_wrote_trans p q rw rw1 rw2 :
  rw_wrote p rw rw1 → rw_wrote q rw1 rw2 → rw_wrote (p ++ q) rw rw2.
Proof.
  intros (? & ? & ? & ? & ?) (? & ? & ? & ? & ?). unfold rw_wrote. rewrite app_assoc.
  intuition congruence.
Qed.

Lemma RW_Write_ok p rw : rw_wok rw →
  ∃ rw', RW_Write p rw = (Ok (len p), rw') ∧ rw_wrote p rw rw'.
Proof.
  intros [Hwe Hok]. unfold RW_Write. rewrite Hwe. unfold on_writer.
  destruct (@io_Write_ok _ _ bufio_lawful p (rw_w rw) Hok) as (w' & -> & Hok' & Hst).
  eexists. split; [done|]. unfold rw_wrote, rw_wok, rw_stream. simpl in *. auto.
Qed.

Lemma write_uint_ok byte_of next n : ∀ i v rw, rw_wok rw →
  ∃ rw', write_uint byte_of next n i v rw = (Ok tt, rw') ∧
    rw_wrote (imap (λ k _, byte_of (i + Z.of_nat k) (Nat.iter k next v)) (replicate n ())) rw rw'.
Proof.
  induction n as [|n IH]; intros i v rw Hok.
  { exists rw. split; [done|]. by apply rw_wrote_nil. }
  cbn [write_uint]. unfold on_writer. pose proof Hok as [Hwe Hbok].
  destruct (bw_WriteByte_ok (byte_of i v) (rw_w rw) Hbok) as (w' & -> & Hok' & Hst).
  destruct (IH (i + 1) (next v) (set_w w' rw)) as (rw' & -> & Hwr); [by split|].
  exists rw'. split; [done|]. cbn [replicate]. rewrite imap_cons.
  apply (rw_wrote_trans [_] _ _ (set_w w' rw)).
  - unfold rw_wrote, rw_wok, rw_stream. simpl. rewrite Z.add_0_r. by split_and!.
  - erewrite imap_ext; [exact Hwr|]. intros k x _. simpl. f_equal; [lia|].
    rewrite <- Nat.iter_succ_r. done.
Qed.

Lemma land_ff z : Z.land (u8 z) 0xff = u8 z.
Proof.
  change 0xff with (Z.ones 8). rewrite Z.land_ones by lia. change (2 ^ 8) with 256. go_arith.
Qed.

Lemma WriteUintBE_ok v n rw : (n ≤ 4)%nat → rw_wok rw →
  ∃ rw', WriteUintBE v (Z.of_nat n) rw = (Ok tt, rw') ∧ rw_wrote (be_split n v) rw rw'.
Proof.
  intros Hn Hok. unfold WriteUintBE. pose proof Hok as [-> _]. rewrite Nat2Z.id.
  destruct (write_uint_ok (λ i v, Z.land (u8 (Z.shiftr v
    (u32 (Z.shiftl (Z.of_nat n - i - 1) 3)))) 0xff) id n 0 v rw Hok) as (rw' & -> & Hwr).
  exists rw'. split; [done|].
  destruct n as [|[|[|[|[|n]]]]]; try lia; cbn in Hwr; rewrite ?land_ff in Hwr; exact Hwr.
Qed.

Lemma WriteUintLE_ok v n rw : (n ≤ 4)%nat → rw_wok rw →
  ∃ rw', WriteUintLE v (Z.of_nat n) rw = (Ok tt, rw') ∧ rw_wrote (le_split n v) rw rw'.
Proof.
  intros Hn Hok. unfold WriteUintLE. pose proof Hok as [-> _]. rewrite Nat2Z.id.
  destruct (write_uint_ok (λ _ v, Z.land (u8 v) 0xff) (λ v, Z.shiftr v 8) n 0 v rw Hok)
    as (rw' & -> & Hwr).
  exists rw'. split; [done|].
  destruct n as [|[|[|[|[|n]]]]]; try lia; cbn -[Z.shiftr u8] in Hwr |- *;
    rewrite ?land_ff, ?Z.shiftr_shiftr in Hwr by lia; exact Hwr.
Qed.

Lemma RW_Flush_ok rw : rw_wok rw →
  ∃ rw', RW_Flush rw = (Ok tt, rw') ∧ rw_wrote [] rw rw' ∧ bw_sent (rw_w rw') = rw_stream rw.
Proof.
  intros Hok. pose proof Hok as [Hwe Hbok]. unfold RW_Flush, on_writer. rewrite Hwe.
  destruct (bw_Flush_ok _ Hbok) as (b' & Hf & Hok' & Hbuf & Hsent).
  destruct (_ =? 0) eqn:E.
  - exists rw. split; [done|]. split; [by apply rw_wrote_nil|].
    unfold bw_Flush in Hf. destruct Hbok as (He & _). rewrite He, E in Hf.
    injection Hf as <-. done.
  - rewrite Hf. eexists. split; [done|]. unfold rw_wrote, rw_wok, rw_stream. simpl.
    rewrite app_nil_r. unfold bw_stream at 1. rewrite Hbuf, app_nil_r, Hsent. repeat split; done || apply Hok'.
Qed.

(** [m] returns [a] and writes [p], on every connection that does not fail. *)
Definition writes {A} (m : go ReadWriter A) (a : A) (p : bytes) : Prop :=
  ∀ rw, rw_wok rw → ∃ rw', m rw = (Ok a, rw') ∧ rw_wrote p rw rw'.

Lemma writes_ret {A} (a : A) : writes (mret a) a [].
Proof. intros rw Hok. exists rw. split; [done|]. by apply rw_wrote_nil. Qed.

Lemma writes_bind {A B} (m : go ReadWriter A) (k : A → go ReadWriter B) a b p q :
  writes m a p → writes (k a) b q → writes (m ≫= k) b (p ++ q).
Proof.
  intros Hm Hk rw Hok. destruct (Hm rw Hok) as (rw1 & Hm1 & Hw1).
  destruct (Hk rw1) as (rw2 & Hk1 & Hw2); [by destruct Hw1|].
  exists rw2. unfold mbind, go_bind. rewrite Hm1, Hk1. split; [done|].
  by eapply rw_wrote_trans.
Qed.

Lemma writes_ignore {A} (d a : A) m p : writes m a p → writes (ignore_err d m) a p.
Proof.
  intros Hm rw Hok. destruct (Hm rw Hok) as (rw' & Heq & Hw). exists rw'.
  unfold ignore_err. by rewrite Heq.
Qed.

Lemma writes_Write p : writes (RW_Write p) (len p) p.
Proof. intros rw Hok. by apply RW_Write_ok. Qed.

Lemma writes_WriteUintBE v n : (n ≤ 4)%nat → writes (WriteUintBE v (Z.of_nat n)) tt (be_split n v).
Proof. intros Hn rw Hok. by apply WriteUintBE_ok. Qed.

Lemma writes_WriteUintLE v n : (n ≤ 4)%nat → writes (WriteUintLE v (Z.of_nat n)) tt (le_split n v).
Proof. intros Hn rw Hok. by apply WriteUintLE_ok. Qed.
