(* ===== verification/Av.v ===== *)
(** * Packets and their constants (src/av/av.go), time stamps of a stream (src/av/rwbase.go) *)
From S2P Require Import Prelude.

Definition TAG_AUDIO : Z := 8.
Definition TAG_VIDEO : Z := 9.
Definition TAG_SCRIPTDATAAMF0 : Z := 18.
Definition TAG_SCRIPTDATAAMF3 : Z := 0xf.

Definition SOUND_MP3 : Z := 2.
Definition SOUND_AAC : Z := 10.

Definition SOUND_RATE_5_5Khz : Z := 0.
Definition SOUND_RATE_11Khz : Z := 1.
Definition SOUND_RATE_22Khz : Z := 2.
Definition SOUND_RATE_44Khz : Z := 3.
Definition SOUND_RATE_7Khz : Z := 4.
Definition SOUND_RATE_8Khz : Z := 5.
Definition SOUND_RATE_12Khz : Z := 6.
Definition SOUND_RATE_16Khz : Z := 7.
Definition SOUND_RATE_24Khz : Z := 8.
Definition SOUND_RATE_32Khz : Z := 9.
Definition SOUND_RATE_48Khz : Z := 10.
Definition SOUND_RATE_64Khz : Z := 11.
Definition SOUND_RATE_88Khz : Z := 12.
Definition SOUND_RATE_96Khz : Z := 13.

Definition SOUND_MONO : Z := 0.
Definition SOUND_STEREO : Z := 1.
Definition AAC_SEQHDR : Z := 0.
Definition AAC_RAW : Z := 1.

Definition FRAME_KEY : Z := 1.
Definition FRAME_INTER : Z := 2.
Definition AVC_SEQHDR : Z := 0.
Definition AVC_NALU : Z := 1.
Definition AVC_EOS : Z := 2.
Definition VIDEO_JPEG : Z := 1.
Definition VideoH263 : Z := 2.
Definition VIDEO_H264 : Z := 7.

Definition PacketTypeUnknow : Z := 0.
Definition PacketTypeVideo : Z := 1.
Definition PacketTypeAudio : Z := 2.
Definition PacketTypeMetadata : Z := 3.

Record AudioPacketHeader := mkAHeader {
  SoundFormat : Z; SoundRate : Z; SoundSize : Z; SoundType : Z; AACPacketType : Z;
}.

Record VideoPacketHeader := mkVHeader {
  FrameType : Z; AVCPacketType : Z; CodecID : Z; CompositionTime : Z;
}.

(** [Data] is a slice: the bytes themselves, or where the packet is shared while its buffer
    changes, a reference to them. *)
Record PacketOf (D : Type) := mkPacket {
  PacketType : Z; TimeStamp : Z; pkt_StreamID : Z;
  VHeader : VideoPacketHeader; AHeader : AudioPacketHeader; pkt_Data : D;
}.
Arguments mkPacket {D}.
Arguments PacketType {D}.
Arguments TimeStamp {D}.
Arguments pkt_StreamID {D}.
Arguments VHeader {D}.
Arguments AHeader {D}.
Arguments pkt_Data {D}.

Abbreviation Packet := (PacketOf bytes).

#[export] Instance AudioPacketHeader_eq_dec : EqDecision AudioPacketHeader.
Proof. solve_decision. Defined.
#[export] Instance VideoPacketHeader_eq_dec : EqDecision VideoPacketHeader.
Proof. solve_decision. Defined.
#[export] Instance Packet_eq_dec `{EqDecision D} : EqDecision (PacketOf D).
Proof. solve_decision. Defined.

Definition no_AHeader : AudioPacketHeader := mkAHeader 0 0 0 0 0.
Definition no_VHeader : VideoPacketHeader := mkVHeader 0 0 0 0.

Definition set_pkt_Data (d : bytes) (p : Packet) : Packet :=
  mkPacket (PacketType p) (TimeStamp p) (pkt_StreamID p) (VHeader p) (AHeader p) d.
Definition set_VHeader (h : VideoPacketHeader) (p : Packet) : Packet :=
  mkPacket (PacketType p) (TimeStamp p) (pkt_StreamID p) h (AHeader p) (pkt_Data p).
Definition set_AHeader (h : AudioPacketHeader) (p : Packet) : Packet :=
  mkPacket (PacketType p) (TimeStamp p) (pkt_StreamID p) (VHeader p) h (pkt_Data p).

(** The same packet with other data. *)
Definition with_data {D E} (d : E) (p : PacketOf D) : PacketOf E :=
  mkPacket (PacketType p) (TimeStamp p) (pkt_StreamID p) (VHeader p) (AHeader p) d.

(** ** RWBaser: the clock and the time stamps of one side of a stream *)

Record RWBaser := mkRWBaser {
  rb_timeout : Z;
  PreTime : Z;
  BaseTimestamp : Z;
  LastVideoTimestamp : Z;
  LastAudioTimestamp : Z;
}.

(** [now] is the value of [time.Now()]. *)
Definition NewRWBaser (duration now : Z) : RWBaser := mkRWBaser duration now 0 0 0.

Definition BaseTimeStamp (rw : RWBaser) : Z := BaseTimestamp rw.

Definition CalcBaseTimestamp (rw : RWBaser) : RWBaser :=
  mkRWBaser (rb_timeout rw) (PreTime rw)
    (if LastVideoTimestamp rw <? LastAudioTimestamp rw
     then LastAudioTimestamp rw else LastVideoTimestamp rw)
    (LastVideoTimestamp rw) (LastAudioTimestamp rw).

Definition RecTimeStamp (timestamp typeID : Z) (rw : RWBaser) : RWBaser :=
  if typeID =? TAG_VIDEO then
    mkRWBaser (rb_timeout rw) (PreTime rw) (BaseTimestamp rw) timestamp (LastAudioTimestamp rw)
  else if typeID =? TAG_AUDIO then
    mkRWBaser (rb_timeout rw) (PreTime rw) (BaseTimestamp rw) (LastVideoTimestamp rw) timestamp
  else rw.

Definition SetPreTime (now : Z) (rw : RWBaser) : RWBaser :=
  mkRWBaser (rb_timeout rw) now (BaseTimestamp rw) (LastVideoTimestamp rw)
    (LastAudioTimestamp rw).

Definition Alive (now : Z) (rw : RWBaser) : bool := negb (rb_timeout rw <=? now - PreTime rw).
