(* ===== verification/Chunk.v ===== *)
(** * RTMP chunks (src/protocol/core/chunk_stream.go)

    A [ChunkStream] is one message while it is cut into chunks or put together again.
    The reader keeps the message bytes in buffers that outlive the call, so its [Data]
    is a reference into a heap of buffers; the writer only reads [Data]. *)
From S2P Require Import Prelude Pio GoIO ReadWriter Av.

(** ** Buffers shared between messages *)

Abbreviation heap := (list bytes).

(** A Go slice: the buffer, the offset of its first element and its length. *)
Record sref := mkSref { sr_buf : option nat; sr_off : Z; sr_len : Z }.

Definition nil_ref : sref := mkSref None 0 0.

Definition buf_of (h : heap) (r : sref) : bytes :=
  match sr_buf r with
  | Some i => default [] (h !! i)
  | None => []
  end.

Definition sr_get (h : heap) (r : sref) : bytes :=
  take (Z.to_nat (sr_len r)) (drop (Z.to_nat (sr_off r)) (buf_of h r)).

(** [s[lo:hi]]: the upper bound is the capacity of [s], not its length. *)
Definition sr_slice (h : heap) (r : sref) (lo hi : Z) : res sref :=
  if (0 <=? lo) && (lo <=? hi) && (hi <=? len (buf_of h r) - sr_off r)
  then Ok (mkSref (sr_buf r) (sr_off r + lo) (hi - lo))
  else Panic SliceBounds.

(** [data] is stored from the start of the slice. *)
Definition sr_store (h : heap) (r : sref) (data : bytes) : heap :=
  match sr_buf r with
  | Some i =>
      alter (λ b, take (Z.to_nat (sr_off r)) b ++ data
                    ++ drop (Z.to_nat (sr_off r) + length data) b) i h
  | None => h
  end.

(** ** ChunkStream *)

Record ChunkStream (D : Type) := mkCS {
  Format : Z;
  CSID : Z;
  Timestamp : Z;
  Length : Z;
  TypeID : Z;
  StreamID : Z;
  Data : D;
  Pts : Z;
  Dts : Z;
  timeDelta : Z;
  exted : bool;
  index : Z;
  remain : Z;
  complete : bool;
  tmpFromat : Z;
}.
Arguments mkCS {D}.
Arguments Format {D}.
Arguments CSID {D}.
Arguments Timestamp {D}.
Arguments Length {D}.
Arguments TypeID {D}.
Arguments StreamID {D}.
Arguments Data {D}.
Arguments Pts {D}.
Arguments Dts {D}.
Arguments timeDelta {D}.
Arguments exted {D}.
Arguments index {D}.
Arguments remain {D}.
Arguments complete {D}.
Arguments tmpFromat {D}.

(** The composite literal [ChunkStream{Format: f, ..., Data: d}]. *)
Definition newCS {D} (f csid ts l ty sid : Z) (d : D) : ChunkStream D :=
  mkCS f csid ts l ty sid d 0 0 0 false 0 0 false 0.

Section setters.
Context {D : Type}.
Implicit Type cs : ChunkStream D.

Definition set_Format v cs := mkCS v (CSID cs) (Timestamp cs) (Length cs) (TypeID cs)
  (StreamID cs) (Data cs) (Pts cs) (Dts cs) (timeDelta cs) (exted cs) (index cs)
  (remain cs) (complete cs) (tmpFromat cs).
Definition set_CSID v cs := mkCS (Format cs) v (Timestamp cs) (Length cs) (TypeID cs)
  (StreamID cs) (Data cs) (Pts cs) (Dts cs) (timeDelta cs) (exted cs) (index cs)
  (remain cs) (complete cs) (tmpFromat cs).
Definition set_Timestamp v cs := mkCS (Format cs) (CSID cs) v (Length cs) (TypeID cs)
  (StreamID cs) (Data cs) (Pts cs) (Dts cs) (timeDelta cs) (exted cs) (index cs)
  (remain cs) (complete cs) (tmpFromat cs).
Definition set_Length v cs := mkCS (Format cs) (CSID cs) (Timestamp cs) v (TypeID cs)
  (StreamID cs) (Data cs) (Pts cs) (Dts cs) (timeDelta cs) (exted cs) (index cs)
  (remain cs) (complete cs) (tmpFromat cs).
Definition set_TypeID v cs := mkCS (Format cs) (CSID cs) (Timestamp cs) (Length cs) v
  (StreamID cs) (Data cs) (Pts cs) (Dts cs) (timeDelta cs) (exted cs) (index cs)
  (remain cs) (complete cs) (tmpFromat cs).
Definition set_StreamID v cs := mkCS (Format cs) (CSID cs) (Timestamp cs) (Length cs)
  (TypeID cs) v (Data cs) (Pts cs) (Dts cs) (timeDelta cs) (exted cs) (index cs)
  (remain cs) (complete cs) (tmpFromat cs).
Definition set_Data (v : D) cs := mkCS (Format cs) (CSID cs) (Timestamp cs) (Length cs)
  (TypeID cs) (StreamID cs) v (Pts cs) (Dts cs) (timeDelta cs) (exted cs) (index cs)
  (remain cs) (complete cs) (tmpFromat cs).
Definition set_Pts v cs := mkCS (Format cs) (CSID cs) (Timestamp cs) (Length cs)
  (TypeID cs) (StreamID cs) (Data cs) v (Dts cs) (timeDelta cs) (exted cs) (index cs)
  (remain cs) (complete cs) (tmpFromat cs).
Definition set_timeDelta v cs := mkCS (Format cs) (CSID cs) (Timestamp cs) (Length cs)
  (TypeID cs) (StreamID cs) (Data cs) (Pts cs) (Dts cs) v (exted cs) (index cs)
  (remain cs) (complete cs) (tmpFromat cs).
Definition set_exted v cs := mkCS (Format cs) (CSID cs) (Timestamp cs) (Length cs)
  (TypeID cs) (StreamID cs) (Data cs) (Pts cs) (Dts cs) (timeDelta cs) v (index cs)
  (remain cs) (complete cs) (tmpFromat cs).
Definition set_progress i r c cs := mkCS (Format cs) (CSID cs) (Timestamp cs) (Length cs)
  (TypeID cs) (StreamID cs) (Data cs) (Pts cs) (Dts cs) (timeDelta cs) (exted cs) i r c
  (tmpFromat cs).
Definition set_tmpFromat v cs := mkCS (Format cs) (CSID cs) (Timestamp cs) (Length cs)
  (TypeID cs) (StreamID cs) (Data cs) (Pts cs) (Dts cs) (timeDelta cs) (exted cs)
  (index cs) (remain cs) (complete cs) v.

Definition isComplete cs : bool := complete cs.
End setters.

(** [cs.alloc()]: a new buffer only when the old one is too short. *)
Definition alloc (h : heap) (cs : ChunkStream sref) : heap * ChunkStream sref :=
  let cs := set_progress 0 (Length cs) false cs in
  if sr_len (Data cs) <? Length cs
  then (h ++ [make_bytes (Length cs)],
        set_Data (mkSref (Some (length h)) 0 (Length cs)) cs)
  else (h, cs).

(** ** Writing *)

(** Statements [w.WriteUintBE(v, n)] whose error is only looked at by [WriteError]. *)
Definition putBE (v n : Z) : go ReadWriter unit := ignore_err tt (WriteUintBE v n).
Definition putLE (v n : Z) : go ReadWriter unit := ignore_err tt (WriteUintLE v n).

Definition writeBasicHeader (h csid : Z) : go ReadWriter unit :=
  if csid <? 64 then putBE (Z.lor h csid) 1
  else if u32 (csid - 64) <? 256 then
    _ ← putBE (Z.lor h 0) 1; putLE (u32 (csid - 64)) 1
  else if u32 (csid - 64) <? 65536 then
    _ ← putBE (Z.lor h 1) 1; putLE (u32 (csid - 64)) 2
  else mret tt.

(** The code after the label [END]. *)
Definition writeHeader_end (ts timestamp : Z) : go ReadWriter unit :=
  _ ← (if 0xffffff <=? ts then putBE timestamp 4 else mret tt);
  e ← gets WriteError;
  match e with
  | Some e => fail e
  | None => mret tt
  end.

Definition writeHeader {D} (cs : ChunkStream D) : go ReadWriter unit :=
  _ ← writeBasicHeader (u32 (Z.shiftl (Format cs) 6)) (CSID cs);
  if Format cs =? 3 then writeHeader_end (Timestamp cs) (Timestamp cs)
  else
    let ts := if 0xffffff <? Timestamp cs then 0xffffff else Timestamp cs in
    _ ← putBE ts 3;
    if Format cs =? 2 then writeHeader_end ts (Timestamp cs)
    else if 0xffffff <? Length cs then fail (Errorf "length=%d")
    else
      _ ← putBE (Length cs) 3;
      _ ← putBE (TypeID cs) 1;
      if Format cs =? 1 then writeHeader_end ts (Timestamp cs)
      else
        _ ← putLE (StreamID cs) 4;
        writeHeader_end ts (Timestamp cs).

(** The chunk stream id that [writeChunk] forces on media messages. *)
Definition writeChunk_csid {D} (cs : ChunkStream D) : ChunkStream D :=
  if TypeID cs =? TAG_AUDIO then set_CSID 4 cs
  else if (TypeID cs =? TAG_VIDEO) || (TypeID cs =? TAG_SCRIPTDATAAMF0)
          || (TypeID cs =? TAG_SCRIPTDATAAMF3)
  then set_CSID 6 cs
  else cs.

(** [n] more passes of the loop of [writeChunk], from pass [i]. *)
Fixpoint writeChunk_loop (n : nat) (i totalLen chunkSize : Z) (cs : ChunkStream bytes)
    : go ReadWriter (ChunkStream bytes) :=
  match n with
  | O => mret cs
  | S n =>
      if totalLen =? Length cs then mret cs
      else
        let cs := set_Format (if i =? 0 then 0 else 3) cs in
        _ ← writeHeader cs;
        let start := u32 (i * chunkSize) in
        let left := u32 (u32 (len (Data cs)) - start) in
        let inc := if left <=? chunkSize then left else chunkSize in
        buf ← lift (slice (Data cs) start (u32 (start + inc)));
        _ ← RW_Write buf;
        writeChunk_loop n (u32 (i + 1)) (u32 (totalLen + inc)) chunkSize cs
  end.

(** [writeChunk] assigns to [*cs]: the message as it is left is returned. *)
Definition writeChunk (cs : ChunkStream bytes) (chunkSize : Z)
    : go ReadWriter (ChunkStream bytes) :=
  let cs := writeChunk_csid cs in
  if u32 chunkSize =? 0 then crash DivideByZero
  else
    let numChunks := Length cs / u32 chunkSize in
    writeChunk_loop (S (Z.to_nat numChunks)) 0 0 (u32 chunkSize) cs.

(** ** Reading *)

(** What [readChunk] works on: the buffers, the message and the connection. *)
Record RState := mkR { r_heap : heap; r_cs : ChunkStream sref; r_rw : ReadWriter }.

Definition on_cs (f : ChunkStream sref → ChunkStream sref) : go RState unit :=
  modify (λ s, mkR (r_heap s) (f (r_cs s)) (r_rw s)).

Definition on_rw {A} (m : go ReadWriter A) : go RState A := λ s,
  let '(r, rw) := m (r_rw s) in (r, mkR (r_heap s) (r_cs s) rw).

(** [r.Read(messageHeader[0:n])]: the array keeps its other bytes. *)
Definition read_header_bytes (hdr : bytes) (n : Z) (msg : string) : go RState bytes :=
  p ← on_err (on_rw (RW_ReadFull n)) (Wrapf msg);
  mret (copy_bytes hdr p).

Definition msg_header : string := "read message header failed, %v".

(** The message header of a chunk of type [tmpFromat]: the array [messageHeader] and
    [timeExtend]. *)
Definition readMessageHeader : go RState (bytes * bool) :=
  let hdr0 := make_bytes 11 in
  fmt ← gets (λ s, tmpFromat (r_cs s));
  if fmt =? 0 then
    hdr ← read_header_bytes hdr0 11 msg_header;
    ts ← lift (U24BE hdr);
    l ← lift (slice_from hdr 3 ≫= U24BE);
    ty ← lift (index_at hdr 6);
    sid ← lift (slice_from hdr 7 ≫= U32LE);
    _ ← on_cs (λ cs, set_StreamID sid (set_TypeID ty (set_Length l (set_Timestamp ts
          (set_Format fmt cs)))));
    mret (hdr, ts =? 0xffffff)
  else if fmt =? 1 then
    hdr ← read_header_bytes hdr0 7 msg_header;
    dt ← lift (U24BE hdr);
    l ← lift (slice_from hdr 3 ≫= U24BE);
    ty ← lift (index_at hdr 6);
    _ ← on_cs (λ cs, set_TypeID ty (set_Length l (set_timeDelta dt (set_Format fmt cs))));
    mret (hdr, dt =? 0xffffff)
  else if fmt =? 2 then
    hdr ← read_header_bytes hdr0 3 msg_header;
    dt ← lift (U24BE hdr);
    _ ← on_cs (λ cs, set_timeDelta dt (set_Format fmt cs));
    mret (hdr, dt =? 0xffffff)
  else if fmt =? 3 then
    dt ← gets (λ s, timeDelta (r_cs s));
    mret (hdr0, dt =? 0xffffff)
  else fail (Errorf "invalid fmt type:%d").

(** [if rmark { cs.alloc(); switch cs.tmpFromat { ... } }] *)
Definition startMessage (hdr : bytes) (timeExtend : bool) : go RState unit :=
  _ ← modify (λ s, let '(h, cs) := alloc (r_heap s) (r_cs s) in mkR h cs (r_rw s));
  ext ← lift (U32BE hdr);
  on_cs (λ cs,
    if tmpFromat cs =? 0 then set_Pts (if timeExtend then ext else Timestamp cs) cs
    else if (tmpFromat cs =? 1) || (tmpFromat cs =? 2) || (tmpFromat cs =? 3) then
      set_Pts (u32 (Pts cs + (if timeExtend then ext else timeDelta cs))) cs
    else cs).

(** [cs.Data[cs.index : cs.index+size]] is filled from the connection. *)
Definition readChunkData (chunkSize : Z) : go RState unit :=
  cs ← gets r_cs;
  h ← gets r_heap;
  let size := if chunkSize <? remain cs then chunkSize else remain cs in
  dataBuf ← lift (sr_slice h (Data cs) (index cs) (u32 (index cs + u32 size)));
  _ ← (λ s,
    match RW_Read size (r_rw s) with
    | (p, None, rw) => (Ok tt, mkR (sr_store (r_heap s) dataBuf p) (r_cs s) rw)
    | (p, Some e, rw) => (Err (Wrapf "read chunk data failed, %v" e),
        mkR (sr_store (r_heap s) dataBuf p) (r_cs s) rw)
    end);
  on_cs (λ cs,
    let left := u32 (remain cs - u32 size) in
    set_progress (u32 (index cs + u32 size)) left
      (if left =? 0 then true else complete cs) cs).

Definition readChunk (chunkSize : Z) : go RState unit :=
  rmark ← gets (λ s, remain (r_cs s) =? 0);
  '(hdr, timeExtend) ← readMessageHeader;
  hdr ← (if timeExtend : bool
         then read_header_bytes hdr 4 "read time extend failed, %v" else mret hdr);
  _ ← (if rmark : bool then startMessage hdr timeExtend else mret tt);
  readChunkData chunkSize.

(** *** readChunk1, the earlier version of the reader *)

(** [v, _ := r.ReadUintBE(n)]: the error stays in [readError] and the value is 0. *)
Definition getBE (n : Z) : go RState Z := ignore_err 0 (on_rw (ReadUintBE n)).
Definition getLE (n : Z) : go RState Z := ignore_err 0 (on_rw (ReadUintLE n)).

Definition alloc_cs : go RState unit :=
  modify (λ s, let '(h, cs) := alloc (r_heap s) (r_cs s) in mkR h cs (r_rw s)).

(** The time stamp of a header of type 1 or 2, with its extension. *)
Definition readTimeDelta (timeStamp : Z) : go RState unit :=
  ts ← (if timeStamp =? 0xffffff
        then t ← getBE 4; _ ← on_cs (set_exted true); mret t
        else _ ← on_cs (set_exted false); mret timeStamp);
  _ ← on_cs (λ cs, set_Timestamp (u32 (Timestamp cs + ts)) (set_timeDelta ts cs));
  alloc_cs.

(** The case of a chunk of type 3. *)
Definition readHeader3 (cs : ChunkStream sref) : go RState unit :=
  if remain cs =? 0 then
    _ ← (if Format cs =? 0 then
           if exted cs then t ← getBE 4; on_cs (set_Timestamp t) else mret tt
         else if (Format cs =? 1) || (Format cs =? 2) then
           timedet ← (if exted cs then getBE 4 else mret (timeDelta cs));
           on_cs (λ cs, set_Timestamp (u32 (Timestamp cs + timedet)) cs)
         else mret tt);
    alloc_cs
  else if exted cs then
    b ← on_rw (rw_Peek 4);
    tmpts ← lift (BigEndian_Uint32 b);
    if tmpts =? Timestamp cs then ignore_err tt (on_rw (rw_Discard 4)) else mret tt
  else mret tt.

Definition readHeader1 : go RState unit :=
  cs ← gets r_cs;
  let fmt := tmpFromat cs in
  if negb (remain cs =? 0) && negb (fmt =? 3) then fail (Errorf "inlaid remin = %d")
  else if fmt =? 0 then
    ts ← getBE 3; l ← getBE 3; ty ← getBE 1; sid ← getLE 4;
    _ ← on_cs (λ cs, set_StreamID sid (set_TypeID ty (set_Length l (set_Timestamp ts
          (set_Format fmt cs)))));
    _ ← (if ts =? 0xffffff
         then t ← getBE 4; on_cs (λ cs, set_exted true (set_Timestamp t cs))
         else on_cs (set_exted false));
    alloc_cs
  else if fmt =? 1 then
    timeStamp ← getBE 3; l ← getBE 3; ty ← getBE 1;
    _ ← on_cs (λ cs, set_TypeID ty (set_Length l (set_Format fmt cs)));
    readTimeDelta timeStamp
  else if fmt =? 2 then
    timeStamp ← getBE 3;
    _ ← on_cs (set_Format fmt);
    readTimeDelta timeStamp
  else if fmt =? 3 then readHeader3 cs
  else fail (Errorf "invalid format=%d").

Definition readChunk1 (chunkSize : Z) : go RState unit :=
  _ ← readHeader1;
  cs ← gets r_cs;
  h ← gets r_heap;
  let size := if chunkSize <? remain cs then chunkSize else remain cs in
  buf ← lift (sr_slice h (Data cs) (index cs) (u32 (index cs + u32 size)));
  _ ← (λ s,
    match RW_Read size (r_rw s) with
    | (p, None, rw) => (Ok tt, mkR (sr_store (r_heap s) buf p) (r_cs s) rw)
    | (p, Some e, rw) => (Err e, mkR (sr_store (r_heap s) buf p) (r_cs s) rw)
    end);
  _ ← on_cs (λ cs,
    let left := u32 (remain cs - u32 size) in
    set_progress (u32 (index cs + u32 size)) left
      (if left =? 0 then true else complete cs) cs);
  e ← gets (λ s, RW_ReadError (r_rw s));
  match e with
  | Some e => fail e
  | None => mret tt
  end.

(** ** The wire format

    The bytes of a message, stated without the loops of the code. *)

Definition basic_header (fmt csid : Z) : bytes :=
  if csid <? 64 then [fmt * 64 + csid]
  else if csid - 64 <? 256 then [fmt * 64; csid - 64]
  else fmt * 64 + 1 :: le_split 2 (csid - 64).

Definition extended_timestamp (ts timestamp : Z) : bytes :=
  if 0xffffff <=? ts then be_split 4 timestamp else [].

Definition message_header {D} (cs : ChunkStream D) : bytes :=
  if Format cs =? 3 then extended_timestamp (Timestamp cs) (Timestamp cs)
  else
    let ts := Z.min (Timestamp cs) 0xffffff in
    be_split 3 ts ++
    (if Format cs =? 2 then []
     else be_split 3 (Length cs) ++ be_split 1 (TypeID cs) ++
          (if Format cs =? 1 then [] else le_split 4 (StreamID cs))) ++
    extended_timestamp ts (Timestamp cs).

Definition chunk_header {D} (cs : ChunkStream D) : bytes :=
  basic_header (Format cs) (CSID cs) ++ message_header cs.

(** The chunks of type 3 that carry what is left of a message. *)
Fixpoint wire_rest (n : nat) (hdr3 : bytes) (k : nat) (d : bytes) : bytes :=
  match n, d with
  | S n, _ :: _ => hdr3 ++ take k d ++ wire_rest n hdr3 k (drop k d)
  | _, _ => []
  end.

Definition message_wire (k : nat) (cs : ChunkStream bytes) : bytes :=
  let d := Data cs in
  chunk_header (set_Format 0 cs) ++ take k d
    ++ wire_rest (length d) (chunk_header (set_Format 3 cs)) k (drop k d).

(** *** writeHeader writes the header *)

Lemma writes_putBE v n z : z = Z.of_nat n → (n ≤ 4)%nat → writes (putBE v z) tt (be_split n v).
Proof. intros -> Hn. by apply writes_ignore, writes_WriteUintBE. Qed.

Lemma writes_putLE v n z : z = Z.of_nat n → (n ≤ 4)%nat → writes (putLE v z) tt (le_split n v).
Proof. intros -> Hn. by apply writes_ignore, writes_WriteUintLE. Qed.

(** Closes [writes (putBE v 4) _ (be_split 4 v)] and its little-endian sibling. *)
Ltac wr_put :=
  first [apply (writes_putBE _ 1) | apply (writes_putBE _ 2) | apply (writes_putBE _ 3)
        | apply (writes_putBE _ 4) | apply (writes_putLE _ 1) | apply (writes_putLE _ 2)
        | apply (writes_putLE _ 4)]; [reflexivity|lia].

Lemma basic_header_byte fmt c : 0 ≤ fmt < 4 → 0 ≤ c < 64 →
  be_split 1 (Z.lor (u32 (Z.shiftl fmt 6)) c) = [fmt * 64 + c].
Proof.
  intros Hf Hc. rewrite Z.shiftl_mul_pow2 by lia. change (2 ^ 6) with 64.
  rewrite u32_small by (unfold fits; lia). rewrite (lor_low 6) by (unfold fits; lia).
  cbn [be_split]. rewrite u8_shiftr by lia. f_equal. change (2 ^ (8 * Z.of_nat 0)) with 1.
  change (2 ^ 6) with 64. rewrite Z.div_1_r, Z.mod_small; lia.
Qed.

Lemma writes_basic_header fmt csid : 0 ≤ fmt < 4 → 2 ≤ csid < 65600 →
  writes (writeBasicHeader (u32 (Z.shiftl fmt 6)) csid) tt (basic_header fmt csid).
Proof.
  intros Hf Hc. unfold writeBasicHeader, basic_header.
  destruct (csid <? 64) eqn:E; go_bool.
  { rewrite <- (basic_header_byte fmt csid) by lia. wr_put. }
  rewrite !(u32_small (csid - 64)) by (unfold fits; lia).
  destruct (csid - 64 <? 256) eqn:E1; go_bool.
  - apply (writes_bind _ _ tt _ [fmt * 64] [_]).
    + rewrite <- (Z.add_0_r (fmt * 64)), <- basic_header_byte by lia. wr_put.
    + replace [csid - 64] with (le_split 1 (csid - 64)); [wr_put|].
      unfold le_split, be_split. change (Z.shiftr _ _) with (csid - 64).
      rewrite u8_small by (unfold is_byte; lia). done.
  - rewrite (proj2 (Z.ltb_lt _ _)) by lia.
    apply (writes_bind _ _ tt _ [fmt * 64 + 1]).
    + rewrite <- basic_header_byte by lia. wr_put.
    + wr_put.
Qed.

Lemma writes_header_end ts timestamp :
  writes (writeHeader_end ts timestamp) tt (extended_timestamp ts timestamp).
Proof.
  unfold writeHeader_end. rewrite <- (app_nil_r (extended_timestamp _ _)).
  eapply writes_bind with (a := tt).
  - unfold extended_timestamp. destruct (_ <=? _); [wr_put|apply writes_ret].
  - intros rw Hok. exists rw. unfold mbind, go_bind, gets, WriteError.
    destruct Hok as [Hwe Hok]. rewrite Hwe. split; [done|]. by apply rw_wrote_nil.
Qed.

Lemma writes_header {D} (cs : ChunkStream D) :
  0 ≤ Format cs < 4 → 2 ≤ CSID cs < 65600 → Length cs ≤ 0xffffff →
  writes (writeHeader cs) tt (chunk_header cs).
Proof.
  intros Hf Hc Hl. unfold writeHeader, chunk_header, message_header.
  eapply writes_bind; [by apply writes_basic_header|].
  destruct (Format cs =? 3); [apply writes_header_end|].
  replace (if 0xffffff <? Timestamp cs then 0xffffff else Timestamp cs)
    with (Z.min (Timestamp cs) 0xffffff)
    by (destruct (0xffffff <? Timestamp cs) eqn:E; go_bool; lia).
  eapply writes_bind; [wr_put|].
  destruct (Format cs =? 2); [apply writes_header_end|].
  rewrite (proj2 (Z.ltb_ge _ _)) by lia. rewrite <- !app_assoc.
  eapply writes_bind; [wr_put|].
  eapply writes_bind; [wr_put|].
  destruct (Format cs =? 1); [apply writes_header_end|].
  eapply writes_bind; [wr_put|]. apply writes_header_end.
Qed.

(** *** writeChunk writes the message *)

(** A message [writeChunk] can send: its length is that of its data and fits the header. *)
Record msg_wf (cs : ChunkStream bytes) : Prop := {
  msg_len : Length cs = len (Data cs);
  msg_len_max : Length cs ≤ 0xffffff;
  msg_csid : 2 ≤ CSID cs < 65600;
}.

Lemma writeChunk_csid_wf cs : msg_wf cs → msg_wf (writeChunk_csid cs).
Proof.
  intros [? ? ?]. unfold writeChunk_csid.
  destruct (_ =? _); [|destruct (_ || _)]; by constructor.
Qed.

Lemma slice_app_take (d0 d : bytes) k : 0 ≤ k →
  slice (d0 ++ d) (len d0) (len d0 + Z.min k (len d)) = Ok (take (Z.to_nat k) d).
Proof.
  intros Hk. pose proof (len_nonneg d). pose proof (len_nonneg d0).
  rewrite slice_ok by (rewrite ?len_app; lia). f_equal.
  unfold len in *. rewrite Nat2Z.id, drop_app_length.
  replace (Z.of_nat (length d0) + Z.min k (Z.of_nat (length d)) - Z.of_nat (length d0))
    with (Z.min k (Z.of_nat (length d))) by lia.
  destruct (Z.le_ge_cases k (Z.of_nat (length d))).
  - by rewrite Z.min_l.
  - rewrite Z.min_r by done. rewrite Nat2Z.id, !take_ge; [done|lia|done].
Qed.

(** One pass: the header, then at most [k] bytes from the ones that are left. *)
Lemma writeChunk_pass n i k cs d0 d :
  msg_wf cs → Data cs = d0 ++ d → d ≠ [] → 0 < k < 2 ^ 32 → i * k = len d0 →
  ∀ b q, writes (writeChunk_loop n (i + 1) (len d0 + Z.min k (len d)) k
                  (set_Format (if i =? 0 then 0 else 3) cs)) b q →
  writes (writeChunk_loop (S n) i (len d0) k cs) b
    (chunk_header (set_Format (if i =? 0 then 0 else 3) cs) ++ take (Z.to_nat k) d ++ q).
Proof.
  intros [Hl Hmax Hc] Hd Hne Hk Hi b q Hrest. cbn [writeChunk_loop].
  assert (Hlen : 0 < len d) by (destruct d; [done|]; unfold len; simpl; lia).
  pose proof (len_nonneg d0). rewrite Hl, Hd, len_app in *.
  assert (Hi0 : 0 ≤ i) by nia. assert (Hi1 : i ≤ len d0) by nia.
  rewrite (proj2 (Z.eqb_neq _ _)) by lia.
  eapply writes_bind; [apply writes_header; simpl; [destruct (i =? 0)|..]; lia|].
  simpl. rewrite Hd, len_app, Hi, (u32_small (len d0)), (u32_small (len d0 + len d)),
    (u32_small (len d0 + len d - len d0)) by (unfold fits; lia).
  replace (if len d0 + len d - len d0 <=? k then len d0 + len d - len d0 else k)
    with (Z.min k (len d)) by (destruct (_ <=? _) eqn:E; go_bool; lia).
  rewrite (u32_small (len d0 + Z.min k (len d))), slice_app_take by (unfold fits; lia).
  rewrite (u32_small (i + 1)) by (unfold fits; lia).
  unfold mbind at 1, go_bind, lift at 1. simpl.
  eapply writes_bind; [apply writes_Write|]. exact Hrest.
Qed.

Lemma writeChunk_loop_wire k cs : msg_wf cs → 0 < k < 2 ^ 32 →
  ∀ n m i d0 d cs1, set_Format 0 cs1 = set_Format 0 cs →
  Data cs = d0 ++ d → (d ≠ [] → i * k = len d0) → 0 < i →
  len d ≤ Z.of_nat n * k → (length d ≤ m)%nat →
  ∃ cs', set_Format 0 cs' = set_Format 0 cs ∧
    writes (writeChunk_loop n i (len d0) k cs1) cs'
      (wire_rest m (chunk_header (set_Format 3 cs)) (Z.to_nat k) d).
Proof.
  intros Hwf Hk. induction n as [|n IH]; intros m i d0 d cs1 Hcs1 Hd Hi Hpos Hn Hm.
  { destruct d; [|unfold len in Hn; simpl in Hn; lia]. exists cs1. split; [done|].
    destruct m; apply writes_ret. }
  assert (Hf : set_Format 3 cs1 = set_Format 3 cs)
    by exact (f_equal (set_Format 3) Hcs1).
  assert (HD : Data cs1 = d0 ++ d) by (rewrite <- Hd; exact (f_equal Data Hcs1)).
  assert (Hwf1 : msg_wf cs1).
  { destruct Hwf as [H1 H2 H3]. constructor.
    - change (Length (set_Format 0 cs1) = len (Data (set_Format 0 cs1))). by rewrite Hcs1.
    - change (Length (set_Format 0 cs1) ≤ 0xffffff). by rewrite Hcs1.
    - change (2 ≤ CSID (set_Format 0 cs1) < 65600). by rewrite Hcs1. }
  destruct d as [|x d'] eqn:Hdd.
  { exists cs1. split; [done|]. cbn [writeChunk_loop].
    pose proof (msg_len _ Hwf1) as Hl. rewrite HD, app_nil_r in Hl.
    rewrite Hl, Z.eqb_refl. destruct m; apply writes_ret. }
  rewrite <- Hdd in *. assert (Hne : d ≠ []) by (by rewrite Hdd).
  assert (Hlen : 0 < len d) by (rewrite Hdd; unfold len; simpl; lia).
  destruct m as [|m]; [unfold len in Hlen; lia|].
  set (kn := Z.to_nat k). assert (Hkn : k = Z.of_nat kn) by lia.
  assert (Htk : len (take kn d) = Z.min k (len d)) by (unfold len; rewrite length_take; lia).
  destruct (IH m (i + 1) (d0 ++ take kn d) (drop kn d) (set_Format 3 cs1)) as (cs' & Hcs' & Hw).
  - exact Hcs1.
  - by rewrite <- app_assoc, take_drop.
  - intros Hdne. rewrite len_app, Htk. destruct (Z.le_gt_cases (len d) k).
    + exfalso. apply Hdne, drop_ge. unfold len in *. lia.
    + rewrite Z.min_l, <- Hi by (done || lia). lia.
  - lia.
  - unfold len in *. rewrite length_drop. lia.
  - rewrite length_drop. lia.
  - exists cs'. split; [done|]. rewrite Hdd. cbn [wire_rest]. rewrite <- Hdd, <- Hf.
    replace 3 with (if i =? 0 then 0 else 3) at 1 by (by rewrite (proj2 (Z.eqb_neq _ _)) by lia).
    apply writeChunk_pass; auto. rewrite <- Htk, <- len_app.
    rewrite (proj2 (Z.eqb_neq _ _)) by lia. rewrite Hf in Hw |- *. exact Hw.
Qed.

(** A message without data is not sent at all. *)
Lemma writeChunk_empty cs k : Length cs = 0 → 0 < k < 2 ^ 32 →
  writeChunk cs k = mret (writeChunk_csid cs).
Proof.
  intros Hl Hk. unfold writeChunk. rewrite u32_small by (unfold fits; lia).
  rewrite (proj2 (Z.eqb_neq _ _)) by lia.
  assert (Hl' : Length (writeChunk_csid cs) = 0).
  { unfold writeChunk_csid. destruct (_ =? _); [|destruct (_ || _)]; done. }
  cbn [writeChunk_loop]. by rewrite Hl'.
Qed.

Lemma writeChunk_writes cs k : msg_wf cs → Data cs ≠ [] → 0 < k < 2 ^ 32 →
  ∃ cs', writes (writeChunk cs k) cs' (message_wire (Z.to_nat k) (writeChunk_csid cs)).
Proof.
  intros Hwf0 Hne0 Hk. unfold writeChunk, message_wire.
  pose proof (writeChunk_csid_wf cs Hwf0) as Hwf.
  assert (Hne : Data (writeChunk_csid cs) ≠ []).
  { unfold writeChunk_csid. destruct (_ =? _); [|destruct (_ || _)]; done. }
  revert Hwf Hne. generalize (writeChunk_csid cs). clear cs Hwf0 Hne0. intros cs Hwf Hne.
  rewrite u32_small by (unfold fits; lia). rewrite (proj2 (Z.eqb_neq _ _)) by lia.
  pose proof (msg_len _ Hwf) as Hl. set (d := Data cs) in *.
  set (kn := Z.to_nat k). assert (Hkn : k = Z.of_nat kn) by lia.
  assert (Htk : len (take kn d) = Z.min k (len d)) by (unfold len; rewrite length_take; lia).
  pose proof (Z.div_mod (Length cs) k) as Hdm.
  pose proof (Z.mod_pos_bound (Length cs) k) as Hmod.
  assert (Hlen : 0 ≤ len d) by apply len_nonneg.
  assert (Hq : 0 ≤ Length cs / k) by (apply Z.div_pos; lia).
  destruct (writeChunk_loop_wire k cs Hwf Hk (Z.to_nat (Length cs / k)) (length d) 1
    (take kn d) (drop kn d) (set_Format 0 cs)) as (cs' & _ & Hw).
  - done.
  - by rewrite take_drop.
  - intros Hdne. rewrite Htk. destruct (Z.le_gt_cases (len d) k).
    + exfalso. apply Hdne, drop_ge. unfold len in *. lia.
    + lia.
  - lia.
  - unfold len in *. rewrite length_drop. lia.
  - rewrite length_drop. lia.
  - exists cs'. change (set_Format 0 cs) with (set_Format (if 0 =? 0 then 0 else 3) cs) in Hw |- *.
    apply (writeChunk_pass _ 0 k cs [] d); auto.
    change (len []) with 0. by rewrite Z.add_0_l, <- Htk.
Qed.

(** ** Buffers *)

(** A [Data] field: a whole buffer of the heap, or nil. *)
Definition data_wf (h : heap) (r : sref) : Prop :=
  sr_off r = 0 ∧ sr_len r = len (buf_of h r) ∧
  match sr_buf r with Some i => is_Some (h !! i) | None => True end.

(** What [readChunk] needs to store the next bytes inside the buffer. *)
Record cs_wf (h : heap) (cs : ChunkStream sref) : Prop := {
  cw_data : data_wf h (Data cs);
  cw_index : 0 ≤ index cs;
  cw_remain : 0 ≤ remain cs;
  cw_room : index cs + remain cs ≤ sr_len (Data cs);
  cw_len : sr_len (Data cs) < 2 ^ 32;
}.

Lemma sr_get_whole h r : data_wf h r → sr_get h r = buf_of h r.
Proof.
  intros (Hoff & Hlen & _). unfold sr_get. rewrite Hoff, Hlen. unfold len.
  by rewrite Nat2Z.id, drop_0, take_ge.
Qed.

Lemma buf_of_store h r i n p : data_wf h r → 0 ≤ i → i + len p ≤ sr_len r →
  buf_of (sr_store h (mkSref (sr_buf r) i n) p) r
    = take (Z.to_nat i) (buf_of h r) ++ p ++ drop (Z.to_nat i + length p) (buf_of h r).
Proof.
  intros (_ & Hlen & Hb) Hi Hp. unfold buf_of, sr_store in *. simpl.
  destruct (sr_buf r) as [j|].
  - destruct Hb as [b Hb]. rewrite list_lookup_alter, Hb. rewrite decide_True by done. done.
  - unfold len in *. simpl in *. assert (length p = 0%nat) as Hp0 by lia.
    apply length_zero_iff_nil in Hp0. subst p. by rewrite take_nil, drop_nil.
Qed.

Lemma length_store h r p : length (sr_store h r p) = length h.
Proof. unfold sr_store. destruct (sr_buf r); [|done]. by rewrite length_alter. Qed.

Lemma store_other h r p j : sr_buf r ≠ Some j → sr_store h r p !! j = h !! j.
Proof.
  intros Hj. unfold sr_store. destruct (sr_buf r) as [i|]; [|done].
  rewrite list_lookup_alter_ne; [done|congruence].
Qed.

Lemma data_wf_store h r i n p : data_wf h r → 0 ≤ i → i + len p ≤ sr_len r →
  data_wf (sr_store h (mkSref (sr_buf r) i n) p) r.
Proof.
  intros Hwf Hi Hp. pose proof Hwf as (Hoff & Hlen & Hb). split; [done|]. split.
  - rewrite buf_of_store by done. rewrite Hlen in *. unfold len in *.
    rewrite !length_app, length_take, length_drop. lia.
  - destruct (sr_buf r) as [j|] eqn:E; [|done].
    apply lookup_lt_is_Some_2. rewrite length_store. by apply lookup_lt_is_Some_1.
Qed.

(** A fresh buffer leaves the old ones alone. *)
Lemma buf_of_grow h r b : data_wf h r → buf_of (h ++ [b]) r = buf_of h r.
Proof.
  intros (_ & _ & Hb). unfold buf_of. destruct (sr_buf r) as [i|]; [|done].
  destruct Hb as [x Hx]. by rewrite lookup_app_l by (by apply lookup_lt_Some in Hx).
Qed.

Lemma data_wf_grow h r b : data_wf h r → data_wf (h ++ [b]) r.
Proof.
  intros Hwf. pose proof Hwf as (Hoff & Hlen & Hb). split; [done|].
  rewrite buf_of_grow by done. split; [done|].
  destruct (sr_buf r) as [i|]; [|done]. destruct Hb as [x Hx]. exists x.
  by apply lookup_app_l_Some.
Qed.

Lemma data_wf_new h n : 0 ≤ n →
  data_wf (h ++ [make_bytes n]) (mkSref (Some (length h)) 0 n).
Proof.
  intros Hn. unfold data_wf, buf_of. simpl.
  rewrite lookup_app_r, Nat.sub_diag by lia. simpl. split; [done|]. split; [|by eexists].
  unfold len. rewrite length_make_bytes. lia.
Qed.

(** [alloc] makes room for the whole message. *)
Lemma alloc_wf h cs h' cs' : data_wf h (Data cs) → sr_len (Data cs) < 2 ^ 32 →
  fits 32 (Length cs) → alloc h cs = (h', cs') →
  cs_wf h' cs' ∧ index cs' = 0 ∧ remain cs' = Length cs ∧ complete cs' = false ∧
  Length cs' = Length cs ∧ set_progress 0 (Length cs) false cs = set_Data (Data cs) cs' ∧
  (∃ l, h' = h ++ l) ∧ (Data cs' = Data cs ∨ sr_buf (Data cs') = Some (length h)).
Proof.
  intros Hwf Hlt Hl. unfold alloc. simpl. unfold fits in Hl.
  destruct (_ <? _) eqn:E; go_bool; intros [= <- <-]; simpl.
  - split_and!; try done; [|by eexists|by right].
    constructor; simpl; try lia. apply data_wf_new. lia.
  - split_and!; try done; [|by exists []; rewrite app_nil_r|by left].
    constructor; simpl; try done; try lia.
Qed.

(** ** Reading one chunk *)

Lemma copy_bytes_same dst p : length p = length dst → copy_bytes dst p = p.
Proof.
  intros H. unfold copy_bytes. rewrite <- H. rewrite take_ge by lia.
  by rewrite drop_ge, app_nil_r by lia.
Qed.

Lemma read_header_has hdr n msg p rest s : rw_has p rest (r_rw s) → n = len p →
  read_header_bytes hdr n msg s
    = (Ok (copy_bytes hdr p), mkR (r_heap s) (r_cs s) (set_in rest (r_rw s))).
Proof.
  intros Hp ->. unfold read_header_bytes, on_err, on_rw, mbind, go_bind.
  by rewrite (rw_ReadFull_has p rest).
Qed.

(** A full header is read into the fields it carries. *)
Lemma readMessageHeader_full ts l ty sid rest s :
  tmpFromat (r_cs s) = 0 → fits 24 ts → fits 24 l → is_byte ty → fits 32 sid →
  rw_has (be_split 3 ts ++ be_split 3 l ++ be_split 1 ty ++ le_split 4 sid) rest (r_rw s) →
  ∃ hdr, length hdr = 11%nat ∧ Forall is_byte hdr ∧
    readMessageHeader s = (Ok (hdr, ts =? 0xffffff),
      mkR (r_heap s) (set_StreamID sid (set_TypeID ty (set_Length l (set_Timestamp ts
        (set_Format 0 (r_cs s)))))) (set_in rest (r_rw s))).
Proof.
  intros Hfmt Hts Hl Hty Hsid Hrw.
  set (hdr := be_split 3 ts ++ be_split 3 l ++ be_split 1 ty ++ le_split 4 sid) in *.
  assert (Hlen : length hdr = 11%nat)
    by (subst hdr; rewrite !length_app, !length_be_split, length_le_split; done).
  exists hdr. split; [done|]. split; [subst hdr; rewrite !Forall_app; auto with go|].
  assert (HU : U24BE hdr = Ok ts) by (by apply U24BE_split).
  assert (HL : slice_from hdr 3 ≫= U24BE = Ok l).
  { change 3 with (len (be_split 3 ts)) at 1. subst hdr. rewrite slice_suffix.
    by apply (U24BE_split l). }
  assert (HT : index_at hdr 6 = Ok ty).
  { change (Ok (u8 (Z.shiftr ty 0)) = Ok ty). by rewrite Z.shiftr_0_r, u8_small. }
  assert (HS : slice_from hdr 7 ≫= U32LE = Ok sid).
  { subst hdr. rewrite !app_assoc.
    change 7 with (len ((be_split 3 ts ++ be_split 3 l) ++ be_split 1 ty)) at 1.
    rewrite slice_suffix. change (U32LE (le_split 4 sid) = Ok sid).
    rewrite <- (app_nil_r (le_split 4 sid)). by apply U32LE_split. }
  unfold readMessageHeader. rewrite go_bind_gets, Hfmt. simpl (0 =? 0). cbv iota.
  erewrite go_bind_ok by (apply (read_header_has _ 11 _ hdr rest); [done|];
    unfold len; by rewrite Hlen).
  rewrite copy_bytes_same by (rewrite length_make_bytes; done).
  erewrite go_bind_lift by exact HU. erewrite go_bind_lift by exact HL.
  erewrite go_bind_lift by exact HT. erewrite go_bind_lift by exact HS. done.
Qed.

(** The bytes of the chunk are stored after the ones already there. *)
Lemma readChunkData_has k p rest s :
  cs_wf (r_heap s) (r_cs s) → 0 ≤ k → len p = Z.min k (remain (r_cs s)) →
  rw_has p rest (r_rw s) →
  ∃ h', readChunkData k s = (Ok tt, mkR h'
      (set_progress (index (r_cs s) + len p) (remain (r_cs s) - len p)
        (if remain (r_cs s) - len p =? 0 then true else complete (r_cs s)) (r_cs s))
      (set_in rest (r_rw s))) ∧
    let b := buf_of (r_heap s) (Data (r_cs s)) in
    buf_of h' (Data (r_cs s)) = take (Z.to_nat (index (r_cs s))) b ++ p
        ++ drop (Z.to_nat (index (r_cs s)) + length p) b ∧
    data_wf h' (Data (r_cs s)) ∧ length h' = length (r_heap s) ∧
    (∀ j, sr_buf (Data (r_cs s)) ≠ Some j → h' !! j = r_heap s !! j).
Proof.
  intros [Hd Hi Hr Hroom Hlt] Hk Hp Hrw. unfold readChunkData. rewrite !go_bind_gets.
  set (cs := r_cs s) in *. set (h := r_heap s) in *.
  replace (if k <? remain cs then k else remain cs) with (len p)
    by (rewrite Hp; destruct (_ <? _) eqn:E; go_bool; lia).
  pose proof (len_nonneg p).
  rewrite !(u32_small (len p)), (u32_small (index cs + len p)) by (unfold fits; lia).
  pose proof Hd as (Hoff & Hsl & _).
  erewrite go_bind_lift. 2: { unfold sr_slice. rewrite Hoff, <- Hsl.
    rewrite !(proj2 (Z.leb_le _ _)) by lia. cbn [andb]. reflexivity. }
  rewrite Z.add_0_l, Z.add_simpl_l.
  erewrite go_bind_ok. 2: { rewrite (rw_Read_has p rest) by exact Hrw. reflexivity. }
  unfold on_cs, modify. cbn [r_cs r_heap r_rw]. fold cs h.
  rewrite (u32_small (remain cs - len p)), (u32_small (index cs + len p))
    by (unfold fits; lia).
  eexists. split; [reflexivity|]. cbv zeta. rewrite buf_of_store by (done || lia).
  split; [done|]. split; [apply data_wf_store; done || lia|].
  split; [apply length_store|]. intros j Hj. apply store_other. exact Hj.
Qed.

(** ** Reading a whole message *)

(** The first [n] bytes of the message [m] are in the buffer of the chunk stream. *)
Record msg_state (m : ChunkStream bytes) (n : nat) (h : heap) (cs : ChunkStream sref)
    : Prop := {
  ms_format : Format cs = 0;
  ms_csid : CSID cs = CSID m;
  ms_ts : Timestamp cs = Timestamp m;
  ms_length : Length cs = Length m;
  ms_type : TypeID cs = TypeID m;
  ms_sid : StreamID cs = StreamID m;
  ms_index : index cs = Z.of_nat n;
  ms_remain : remain cs = Length m - Z.of_nat n;
  ms_complete : complete cs = (remain cs =? 0);
  ms_buf : take n (buf_of h (Data cs)) = take n (Data m);
  ms_wf : cs_wf h cs;
  ms_delta : timeDelta cs ≠ 0xffffff;
}.

(** Only the buffer of [cs] and new buffers change. *)
Definition heap_frame (h : heap) (r : sref) (h' : heap) : Prop :=
  (length h ≤ length h')%nat ∧
  ∀ j, (j < length h)%nat → sr_buf r ≠ Some j → h' !! j = h !! j.

(** A message the reader gives back unchanged: the time stamp fits in three bytes
    (below the escape value 0xffffff) and the other fields fit in the header. *)
Record msg_readable (m : ChunkStream bytes) : Prop := {
  mr_len : Length m = len (Data m);
  mr_len_fits : fits 24 (Length m);
  mr_ts : 0 ≤ Timestamp m < 0xffffff;
  mr_type : is_byte (TypeID m);
  mr_sid : fits 32 (StreamID m);
  mr_csid : 2 ≤ CSID m < 65600;
}.

Lemma message_header_0 m : msg_readable m →
  message_header (set_Format 0 m)
    = be_split 3 (Timestamp m) ++ be_split 3 (Length m) ++ be_split 1 (TypeID m)
        ++ le_split 4 (StreamID m).
Proof.
  intros [_ _ Hts _ _ _]. unfold message_header, extended_timestamp. simpl.
  rewrite Z.min_l by lia. rewrite (proj2 (Z.leb_gt _ _)) by lia. reflexivity.
Qed.

Lemma message_header_3 m : msg_readable m → message_header (set_Format 3 m) = [].
Proof.
  intros [_ _ Hts _ _ _]. unfold message_header, extended_timestamp. simpl.
  by rewrite (proj2 (Z.leb_gt _ _)) by lia.
Qed.

Lemma take_app_store (p b : bytes) n k d : take n b = take n d → p = take k (drop n d) →
  (n ≤ length b)%nat → (n ≤ length d)%nat →
  take (n + length p) (take n b ++ p ++ drop (n + length p) b) = take (n + length p) d.
Proof.
  intros Hb Hp Hnb Hnd.
  assert (Hl : length (take n b) = n) by (rewrite length_take; lia).
  rewrite app_assoc, take_app_length' by (rewrite length_app, Hl; done).
  rewrite Hb. subst p. rewrite length_take, length_drop.
  rewrite <- (take_take_drop d n (k `min` (length d - n))). f_equal.
  destruct (Nat.le_ge_cases k (length d - n)).
  - by rewrite Nat.min_l.
  - rewrite Nat.min_r, !take_ge; rewrite ?length_drop; done || lia.
Qed.

(** Storing the next [k] bytes of the message. *)
Lemma readChunkData_msg m n k rest s :
  msg_readable m → msg_state m n (r_heap s) (r_cs s) → (n < length (Data m))%nat →
  rw_has (take k (drop n (Data m))) rest (r_rw s) →
  ∃ h' cs', readChunkData (Z.of_nat k) s = (Ok tt, mkR h' cs' (set_in rest (r_rw s))) ∧
    msg_state m ((n + k) `min` length (Data m)) h' cs' ∧
    heap_frame (r_heap s) (Data (r_cs s)) h' ∧ Data cs' = Data (r_cs s) ∧
    length h' = length (r_heap s).
Proof.
  intros [Hl _ _ _ _ _] [? ? ? ? ? ? Hi Hr Hc Hb Hwf ?] Hn Hrw.
  set (p := take k (drop n (Data m))) in *.
  assert (Hp : length p = (k `min` (length (Data m) - n))%nat)
    by (subst p; by rewrite length_take, length_drop).
  unfold len in Hl. pose proof Hwf as [Hd Hi0 Hr0 Hroom Hlt].
  destruct (readChunkData_has (Z.of_nat k) p rest s)
    as (h' & Heq & Hbuf & Hwf' & Hlen & Hfr); try done; [lia|unfold len; lia|].
  exists h'. eexists. split; [exact Heq|]. rewrite Hi, Hr in *.
  assert (Hmin : ((n + k) `min` length (Data m) = n + length p)%nat) by lia.
  rewrite Hmin. split; [|split; [split; [lia|auto]|done]].
  constructor; simpl; try done; unfold len.
  - lia.
  - lia.
  - rewrite Hc, (proj2 (Z.eqb_neq (Length m - Z.of_nat n) 0)) by lia.
    by destruct (Length m - Z.of_nat n - Z.of_nat (length p) =? 0).
  - rewrite Hbuf, Nat2Z.id. eapply take_app_store; [done|done| |lia].
    destruct Hd as (_ & Hsl & _). rewrite Hsl in Hroom. unfold len in Hroom. lia.
  - constructor; simpl; done || lia.
Qed.

Lemma startMessage_first hdr s :
  length hdr = 11%nat → Forall is_byte hdr → tmpFromat (r_cs s) = 0 →
  data_wf (r_heap s) (Data (r_cs s)) → sr_len (Data (r_cs s)) < 2 ^ 32 →
  fits 32 (Length (r_cs s)) →
  ∃ h' cs', startMessage hdr false s = (Ok tt, mkR h' cs' (r_rw s)) ∧ cs_wf h' cs' ∧
    cs' = set_Pts (Timestamp (r_cs s)) (set_Data (Data cs')
            (set_progress 0 (Length (r_cs s)) false (r_cs s))) ∧
    (∃ l, h' = r_heap s ++ l) ∧
    (Data cs' = Data (r_cs s) ∨ sr_buf (Data cs') = Some (length (r_heap s))).
Proof.
  intros Hhlen Hhb Hfmt Hwf Hlt Hl. unfold startMessage, on_cs. rewrite go_bind_modify.
  destruct (alloc (r_heap s) (r_cs s)) as [h2 cs2] eqn:Halloc.
  destruct (alloc_wf _ _ _ _ Hwf Hlt Hl Halloc) as ([? ? ? ? ?] & _ & _ & _ & _ & Hsame & Hh2 & Hbuf2).
  destruct (U32BE_total hdr) as (ext & Hext & _); [lia|done|].
  erewrite go_bind_lift by exact Hext. unfold modify. cbn [r_heap r_cs r_rw].
  assert (Hcs2 : cs2 = set_Data (Data cs2) (set_progress 0 (Length (r_cs s)) false (r_cs s)))
    by (rewrite Hsame; by destruct cs2).
  assert (Hf2 : tmpFromat cs2 = 0) by (by rewrite Hcs2). rewrite Hf2. simpl (0 =? 0). cbv iota.
  assert (Ht2 : Timestamp cs2 = Timestamp (r_cs s)) by (by rewrite Hcs2).
  exists h2. eexists. split; [reflexivity|]. split; [by constructor|].
  split; [|done]. rewrite Ht2, Hcs2 at 1. done.
Qed.

(** The first chunk: the header, then at most [k] bytes. *)
Lemma readChunk_first m k rest s :
  msg_readable m → Data m ≠ [] → data_wf (r_heap s) (Data (r_cs s)) →
  sr_len (Data (r_cs s)) < 2 ^ 32 → remain (r_cs s) = 0 → tmpFromat (r_cs s) = 0 →
  CSID (r_cs s) = CSID m → timeDelta (r_cs s) ≠ 0xffffff →
  rw_has (message_header (set_Format 0 m) ++ take k (Data m)) rest (r_rw s) →
  ∃ h' cs', readChunk (Z.of_nat k) s = (Ok tt, mkR h' cs' (set_in rest (r_rw s))) ∧
    msg_state m (k `min` length (Data m)) h' cs' ∧
    heap_frame (r_heap s) (Data (r_cs s)) h' ∧
    (Data cs' = Data (r_cs s) ∨ sr_buf (Data cs') = Some (length (r_heap s))).
Proof.
  intros Hm Hne Hwf Hlt Hrem Hfmt Hcsid Hdelta Hrw. pose proof Hm as [Hl Hlf Hts Hty Hsid Hc].
  rewrite (message_header_0 _ Hm) in Hrw. destruct Hrw as [Hre Hin]. rewrite <- app_assoc in Hin.
  unfold readChunk. rewrite go_bind_gets, Hrem, Z.eqb_refl.
  destruct (readMessageHeader_full (Timestamp m) (Length m) (TypeID m) (StreamID m)
    (take k (Data m) ++ rest) s) as (hdr & Hhlen & Hhb & Hhdr); try done.
  { unfold fits. change (2 ^ 24) with 16777216. lia. }
  erewrite go_bind_ok by exact Hhdr. rewrite (proj2 (Z.eqb_neq _ _)) by lia.
  rewrite go_bind_ret. set (cs1 := set_StreamID (StreamID m) _) in *.
  destruct (startMessage_first hdr (mkR (r_heap s) cs1 (set_in (take k (Data m) ++ rest) (r_rw s))))
    as (h2 & cs2 & Hst & Hwf2 & Hcs2 & [l Hh2] & Hbuf2); try done.
  { by apply (fits_mono 24). }
  erewrite go_bind_ok by exact Hst.
  assert (Hpos : 0 < Length m) by (rewrite Hl; destruct (Data m); [done|unfold len; simpl; lia]).
  destruct (readChunkData_msg m 0 k rest (mkR h2 cs2 (set_in (take k (Data m) ++ rest) (r_rw s))))
    as (h3 & cs3 & Hd3 & Hms & [Hfl Hfr] & HD & Hlen3); try done.
  - rewrite Hcs2. constructor; simpl; try done; [lia|symmetry; apply Z.eqb_neq; lia|].
    rewrite Hcs2 in Hwf2. exact Hwf2.
  - destruct (Data m); [done|simpl; lia].
  - exists h3, cs3. split; [exact Hd3|]. split; [exact Hms|]. simpl in *. split.
    + subst h2. rewrite length_app in *. split; [lia|]. intros j Hj Hne'.
      rewrite Hfr; [by rewrite lookup_app_l|lia|].
      destruct Hbuf2 as [->| ->]; [done|]. intros [= <-]. lia.
    + by rewrite HD.
Qed.

(** A later chunk: no message header, then at most [k] more bytes. *)
Lemma readChunk_next m n k rest s :
  msg_readable m → msg_state m n (r_heap s) (r_cs s) → (n < length (Data m))%nat →
  rw_has (message_header (set_Format 3 m) ++ take k (drop n (Data m))) rest (r_rw s) →
  tmpFromat (r_cs s) = 3 →
  ∃ h' cs', readChunk (Z.of_nat k) s = (Ok tt, mkR h' cs' (set_in rest (r_rw s))) ∧
    msg_state m ((n + k) `min` length (Data m)) h' cs' ∧
    heap_frame (r_heap s) (Data (r_cs s)) h' ∧ Data cs' = Data (r_cs s).
Proof.
  intros Hm Hms Hn Hrw Hfmt. rewrite (message_header_3 _ Hm) in Hrw.
  pose proof Hms as [_ _ _ _ _ _ Hi Hr _ _ _ Hdelta]. pose proof (mr_len _ Hm) as Hl.
  unfold readChunk, readMessageHeader. rewrite go_bind_gets, Hr.
  rewrite (proj2 (Z.eqb_neq _ _)) by (unfold len in Hl; lia).
  erewrite go_bind_ok. 2: { rewrite go_bind_gets, Hfmt. simpl (3 =? _). cbv iota.
    rewrite go_bind_gets, (proj2 (Z.eqb_neq _ _)) by exact Hdelta. reflexivity. }
  cbv iota beta. rewrite !go_bind_ret.
  destruct (readChunkData_msg m n k rest s) as (h' & cs' & Hd' & Hms' & Hfr & HD & _); try done.
  by exists h', cs'.
Qed.

(** *** Any input: no panic, and the buffer stays well formed *)

(** What a chunk does to the connection and to the message, whatever bytes arrive: the
    input only gets shorter, and the writing side is not touched. *)
Record chunk_frame (s s' : RState) : Prop := {
  cf_wf : cs_wf (r_heap s') (r_cs s');
  cf_length : fits 32 (Length (r_cs s'));
  cf_bytes : Forall is_byte (rw_in (r_rw s'));
  cf_heap_bytes : Forall (Forall is_byte) (r_heap s');
  cf_shorter : (length (rw_in (r_rw s')) ≤ length (rw_in (r_rw s)))%nat;
  cf_out : rw_w (r_rw s') = rw_w (r_rw s) ∧ writeError (r_rw s') = writeError (r_rw s);
  cf_heap : heap_frame (r_heap s) (Data (r_cs s)) (r_heap s');
  cf_data : sr_buf (Data (r_cs s')) = sr_buf (Data (r_cs s)) ∨
    ∃ i, sr_buf (Data (r_cs s')) = Some i ∧ (length (r_heap s) ≤ i)%nat;
  cf_id : CSID (r_cs s') = CSID (r_cs s);
}.

Definition chunk_inv (s : RState) : Prop :=
  cs_wf (r_heap s) (r_cs s) ∧ fits 32 (Length (r_cs s)) ∧
  Forall is_byte (rw_in (r_rw s)) ∧ Forall (Forall is_byte) (r_heap s).

Lemma heap_frame_refl h r : heap_frame h r h.
Proof. split; [done|auto]. Qed.

Lemma chunk_frame_refl s : chunk_inv s → chunk_frame s s.
Proof. intros (? & ? & ? & ?). constructor; auto using heap_frame_refl. Qed.

Lemma chunk_frame_inv s s' : chunk_frame s s' → chunk_inv s'.
Proof. by intros []. Qed.

Lemma chunk_frame_trans s1 s2 s3 :
  chunk_frame s1 s2 → chunk_frame s2 s3 → chunk_frame s1 s3.
Proof.
  intros [_ _ _ _ Hs1 [Ho1 Ho1'] [Hl1 Hf1] Hd1 Hid1]
    [Hwf Hlen Hby Hhb Hs2 [Ho2 Ho2'] [Hl2 Hf2] Hd2 Hid2].
  constructor; try done; [lia|split; congruence| | |congruence].
  - split; [lia|]. intros j Hj Hne. rewrite Hf2; [by apply Hf1|lia|].
    destruct Hd1 as [->|(i & -> & Hi)]; [done|]. intros [= ->]. lia.
  - destruct Hd2 as [->|(i & -> & Hi)]; [done|]. right. exists i. split; [done|lia].
Qed.

(** Only the fields of the header change. *)
Lemma chunk_frame_cs s f :
  chunk_inv s → cs_wf (r_heap s) (f (r_cs s)) → fits 32 (Length (f (r_cs s))) →
  Data (f (r_cs s)) = Data (r_cs s) → CSID (f (r_cs s)) = CSID (r_cs s) →
  chunk_frame s (mkR (r_heap s) (f (r_cs s)) (r_rw s)).
Proof.
  intros (_ & _ & Hby & Hhb) Hwf Hl Hd Hid. constructor; simpl; try done.
  rewrite Hd. by left.
Qed.

Lemma io_ReadAtLeast_safe n rw p e rw' : 0 ≤ n → Forall is_byte (rw_in rw) →
  io_ReadAtLeast n rw = (p, e, rw') →
  Forall is_byte p ∧ len p ≤ n ∧ (e = None → len p = n) ∧ Forall is_byte (rw_in rw') ∧
  length (rw_in rw) = (length p + length (rw_in rw'))%nat ∧
  rw_w rw' = rw_w rw ∧ writeError rw' = writeError rw.
Proof.
  intros Hn Hb. unfold io_ReadAtLeast. destruct (_ <=? _) eqn:E; go_bool; intros [= <- <- <-].
  - assert (Hl : len (take (Z.to_nat n) (rw_in rw)) = n).
    { unfold len in *. rewrite length_take. lia. }
    simpl. rewrite Hl. split_and!; try done.
    + by apply Forall_take.
    + by apply Forall_drop.
    + rewrite length_take, length_drop. lia.
  - simpl. split_and!; try done; lia.
Qed.

Lemma RW_Read_safe n rw p e rw' : 0 ≤ n → Forall is_byte (rw_in rw) →
  RW_Read n rw = (p, e, rw') →
  Forall is_byte p ∧ len p ≤ n ∧ (e = None → len p = n) ∧ Forall is_byte (rw_in rw') ∧
  length (rw_in rw) = (length p + length (rw_in rw'))%nat ∧
  rw_w rw' = rw_w rw ∧ writeError rw' = writeError rw.
Proof.
  intros Hn Hb. unfold RW_Read. destruct (readError rw) as [e0|].
  { intros [= <- <- <-]. split_and!; done || lia. }
  destruct (io_ReadAtLeast n rw) as [[p0 e0] rw0] eqn:Hio. intros [= <- <- <-].
  by apply io_ReadAtLeast_safe in Hio.
Qed.

Lemma chunk_frame_rw s rw' : chunk_inv s → Forall is_byte (rw_in rw') →
  (length (rw_in rw') ≤ length (rw_in (r_rw s)))%nat →
  rw_w rw' = rw_w (r_rw s) → writeError rw' = writeError (r_rw s) →
  chunk_frame s (mkR (r_heap s) (r_cs s) rw').
Proof.
  intros (Hwf & Hl & Hby & Hhb) ? ? ? ?. constructor; simpl; auto using heap_frame_refl.
Qed.

Lemma copy_bytes_is_bytes d p : Forall is_byte d → Forall is_byte p → Forall is_byte (copy_bytes d p).
Proof. intros Hd Hp. apply Forall_app; split; [by apply Forall_take|by apply Forall_drop]. Qed.

Lemma read_header_safe hdr n msg s : chunk_inv s → 0 ≤ n → Forall is_byte hdr →
  runs (chunk_frame s) (λ h s', length h = length hdr ∧ Forall is_byte h ∧ chunk_frame s s')
    (read_header_bytes hdr n msg) s.
Proof.
  intros Hinv Hn Hhdr. pose proof Hinv as (_ & _ & Hby & _).
  unfold read_header_bytes. eapply runs_bind; [apply runs_on_err|].
  - unfold outcome, on_rw, RW_ReadFull. destruct (RW_Read n (r_rw s)) as [[p e] rw'] eqn:Hr.
    apply RW_Read_safe in Hr as (Hp & _ & _ & Hb' & Hl & Hw & Hwe); [|done..].
    assert (Hf : chunk_frame s (mkR (r_heap s) (r_cs s) rw')) by (apply chunk_frame_rw; done || lia).
    instantiate (1 := λ p s', Forall is_byte p ∧ chunk_frame s s'). destruct e; done.
  - intros p s' [Hp Hf]. apply runs_ret. rewrite length_copy_bytes.
    split_and!; try done. by apply copy_bytes_is_bytes.
Qed.


Lemma slice_from_drop h (n : nat) : (n ≤ length h)%nat → slice_from h (Z.of_nat n) = Ok (drop n h).
Proof.
  intros Hn. rewrite <- (take_drop n h) at 1.
  replace (Z.of_nat n) with (len (take n h)) by (unfold len; rewrite length_take; lia).
  apply slice_suffix.
Qed.

Lemma U24BE_at h (n : nat) : (n + 3 ≤ length h)%nat → Forall is_byte h →
  ∃ v, slice_from h (Z.of_nat n) ≫= U24BE = Ok v ∧ fits 24 v.
Proof.
  intros Hn Hb. rewrite slice_from_drop by lia. apply U24BE_total.
  - rewrite length_drop. lia.
  - by apply Forall_drop.
Qed.

Lemma U32LE_at h (n : nat) : (n + 4 ≤ length h)%nat → Forall is_byte h →
  ∃ v, slice_from h (Z.of_nat n) ≫= U32LE = Ok v ∧ fits 32 v.
Proof.
  intros Hn Hb. rewrite slice_from_drop by lia. apply U32LE_total.
  - rewrite length_drop. lia.
  - by apply Forall_drop.
Qed.

Definition header_post (s : RState) (r : bytes * bool) (s' : RState) : Prop :=
  length r.1 = 11%nat ∧ Forall is_byte r.1 ∧ chunk_frame s s'.

Lemma on_cs_safe s s' f : chunk_frame s s' →
  cs_wf (r_heap s') (f (r_cs s')) → fits 32 (Length (f (r_cs s'))) →
  Data (f (r_cs s')) = Data (r_cs s') → CSID (f (r_cs s')) = CSID (r_cs s') →
  runs (chunk_frame s) (λ _, chunk_frame s) (on_cs f) s'.
Proof.
  intros Hfr ? ? ? ?. eapply chunk_frame_trans; [done|].
  apply chunk_frame_cs; try done. by eapply chunk_frame_inv.
Qed.

Lemma header_update s s' h b f : length h = 11%nat → Forall is_byte h → chunk_frame s s' →
  cs_wf (r_heap s') (f (r_cs s')) → fits 32 (Length (f (r_cs s'))) →
  Data (f (r_cs s')) = Data (r_cs s') → CSID (f (r_cs s')) = CSID (r_cs s') →
  runs (chunk_frame s) (header_post s) (_ ← on_cs f; mret (h, b)) s'.
Proof. intros. eapply runs_bind; [by apply on_cs_safe|].
  intros ? ? ?. by split_and!. Qed.

Lemma readMessageHeader_safe s : chunk_inv s →
  runs (chunk_frame s) (header_post s) readMessageHeader s.
Proof.
  intros Hinv. unfold readMessageHeader.
  assert (Hmk : Forall is_byte (make_bytes 11)) by (apply Forall_replicate; done).
  assert (Hread : ∀ n, 0 ≤ n → runs (chunk_frame s) (λ h s', length h = 11%nat ∧
    Forall is_byte h ∧ chunk_frame s s') (read_header_bytes (make_bytes 11) n msg_header) s)
    by (intros n Hn; by apply (read_header_safe (make_bytes 11))).
  apply runs_bind_gets.
  assert (Htake : ∀ h s', length h = 11%nat → Forall is_byte h → chunk_frame s s' →
    cs_wf (r_heap s') (r_cs s') ∧ fits 32 (Length (r_cs s')) ∧
    (∃ v0 v3 v6 v7, U24BE h = Ok v0 ∧ slice_from h 3 ≫= U24BE = Ok v3 ∧ index_at h 6 = Ok v6 ∧
      slice_from h 7 ≫= U32LE = Ok v7 ∧ fits 32 v3)).
  { intros h s' Hl Hb [? ? ? ? ? ? ? ? ?]. split_and!; [done..|].
    destruct (U24BE_total h) as (v0 & E0 & F0); [lia|done|].
    destruct (U24BE_at h 3) as (v3 & E3 & F3); [lia|done|].
    destruct (U32LE_at h 7) as (v7 & E7 & F7); [lia|done|].
    destruct (index_at_ok h 6) as (v6 & E6); [unfold len; lia|].
    exists v0, v3, v6, v7. split_and!; try done. by apply (fits_mono 24). }
  repeat (apply runs_if; intros _).
  1-3: eapply runs_bind; [by apply Hread|]; intros h s' (Hl & Hb & Hfr);
    destruct (Htake h s' Hl Hb Hfr) as ([] & ? & v0 & v3 & v6 & v7 & E0 & E3 & E6 & E7 & ?);
    repeat (eapply runs_bind_lift; [eassumption|]);
    apply header_update; try done; by constructor.
  - apply runs_bind_gets, runs_ret. split_and!; try done. by apply chunk_frame_refl.
  - apply runs_fail. by apply chunk_frame_refl.
Qed.

Lemma alloc_bytes h cs h' cs' : Forall (Forall is_byte) h → alloc h cs = (h', cs') →
  Forall (Forall is_byte) h'.
Proof.
  unfold alloc. intros Hh. destruct (_ <? _); intros [= <- _]; [|done].
  apply Forall_app. split; [done|]. apply Forall_singleton, Forall_replicate. done.
Qed.

Lemma store_bytes h r p : Forall (Forall is_byte) h → Forall is_byte p →
  Forall (Forall is_byte) (sr_store h r p).
Proof.
  intros Hh Hp. unfold sr_store. destruct (sr_buf r); [|done].
  apply Forall_alter; [done|]. intros b _ Hb. rewrite !Forall_app.
  auto using Forall_take, Forall_drop.
Qed.

Lemma startMessage_safe s hdr b : chunk_inv s → length hdr = 11%nat → Forall is_byte hdr →
  runs (chunk_frame s) (λ _, chunk_frame s) (startMessage hdr b) s.
Proof.
  intros (Hwf & Hl & Hby & Hhb) Hlen Hb. unfold startMessage. apply runs_bind_modify.
  destruct (alloc (r_heap s) (r_cs s)) as [h2 cs2] eqn:Ha. pose proof Hwf as [].
  destruct (alloc_wf _ _ _ _ cw_data0 cw_len0 Hl Ha)
    as (Hwf2 & _ & _ & _ & Hl2 & Hsame & (l & Hh2) & Hd2).
  destruct (U32BE_total hdr) as (ext & He & _); [lia|done|].
  eapply runs_bind_lift; [exact He|].
  assert (Hid2 : CSID cs2 = CSID (r_cs s)) by exact (eq_sym (f_equal CSID Hsame)).
  assert (Hf2 : chunk_frame s (mkR h2 cs2 (r_rw s))).
  { constructor; simpl; try done; [congruence| | |destruct Hd2 as [->| ->]; eauto].
    - by eapply alloc_bytes.
    - subst h2. split; [rewrite length_app; lia|]. intros j Hj _. by apply lookup_app_l. }
  destruct Hwf2.
  apply on_cs_safe; [done|..]; simpl;
    (destruct (_ =? 0); [|destruct (_ || _)]); simpl; try done; try congruence; by constructor.
Qed.

Lemma readChunkData_safe k s : chunk_inv s → 0 ≤ k →
  runs (chunk_frame s) (λ _, chunk_frame s) (readChunkData k) s.
Proof.
  intros (Hwf & Hl & Hby & Hhb) Hk. pose proof Hwf as [Hd Hi Hr Hroom Hlt].
  unfold readChunkData. do 2 apply runs_bind_gets.
  set (n := if k <? remain (r_cs s) then k else remain (r_cs s)).
  assert (Hn : 0 ≤ n ≤ remain (r_cs s)) by (subst n; destruct (_ <? _) eqn:E; go_bool; lia).
  rewrite (u32_small n), (u32_small (index (r_cs s) + n)) by (unfold fits; lia).
  pose proof Hd as (Hoff & Hsl & _).
  eapply runs_bind_lift.
  { unfold sr_slice. rewrite Hoff, <- Hsl. rewrite !(proj2 (Z.leb_le _ _)) by lia. reflexivity. }
  rewrite Z.add_0_l, Z.add_simpl_l.
  set (s1 := λ p rw, mkR (sr_store (r_heap s) (mkSref (sr_buf (Data (r_cs s))) (index (r_cs s)) n) p)
    (r_cs s) rw).
  eapply (runs_bind _ _ (λ _ s', r_cs s' = r_cs s ∧ chunk_frame s s')).
  - unfold outcome. destruct (RW_Read n (r_rw s)) as [[p e] rw'] eqn:Hread.
    apply RW_Read_safe in Hread as (Hp & Hpl & _ & Hb' & Hle & Hw & Hwe); [|lia|done].
    assert (chunk_frame s (s1 p rw')); [|by destruct e].
    constructor; simpl; try done; [| |lia| |by left].
    + constructor; simpl; try done. apply data_wf_store; done || lia.
    + by apply store_bytes.
    + split; [by rewrite length_store|]. intros j _ Hne. by apply store_other.
  - intros _ s' [HE Hf]. pose proof Hf as [[] Hl' _ _ _ _ _ _ _]. rewrite HE in *.
    apply on_cs_safe; [done|..]; rewrite HE; try done.
    rewrite (u32_small (index (r_cs s) + n)), (u32_small (remain (r_cs s) - n))
      by (unfold fits; lia).
    constructor; simpl; done || lia.
Qed.

(** One chunk of any input: no panic; the message stays inside its buffer, and the other
    buffers of the connection keep their contents. *)
Lemma readChunk_safe k s : chunk_inv s → 0 ≤ k →
  runs (chunk_frame s) (λ _, chunk_frame s) (readChunk k) s.
Proof.
  intros Hinv Hk. unfold readChunk. apply runs_bind_gets.
  eapply runs_bind; [by apply readMessageHeader_safe|].
  intros [hdr te] s1 (Hl & Hb & Hf1).
  eapply (runs_bind _ _ (λ h s', length h = 11%nat ∧ Forall is_byte h ∧ chunk_frame s s')).
  { apply runs_if; intros _; [|by apply runs_ret].
    eapply runs_mono; [apply read_header_safe; [by eapply chunk_frame_inv|done..]| |].
    - intros s'. by apply chunk_frame_trans.
    - intros h s' (-> & ? & ?). split_and!; try done. by eapply chunk_frame_trans. }
  intros h2 s2 (Hl2 & Hb2 & Hf2).
  eapply (runs_bind _ _ (λ _, chunk_frame s)).
  { apply runs_if; intros _; [|by apply runs_ret].
    eapply runs_mono; [apply startMessage_safe; [by eapply chunk_frame_inv|done..]| |];
      simpl; intros; by eapply chunk_frame_trans. }
  intros _ s3 Hf3.
  eapply runs_mono; [apply readChunkData_safe; [by eapply chunk_frame_inv|done]| |];
    simpl; intros; by eapply chunk_frame_trans.
Qed.
