(* ===== verification/Conn.v ===== *)
(** * RTMP connections (src/protocol/core/rtmp_conn.go)

    A connection multiplexes messages over chunk streams: [Write] cuts a message into
    chunks, [Read] puts the chunks of every chunk stream together again, obeys the
    protocol control messages and acknowledges what it received.

    After the definitions, [AConn] is the abstract demultiplexer a connection promises
    to be; [Read_chunk] and [Read_refines_*] show that the code implements it. *)
From S2P Require Import Prelude Pio GoIO ReadWriter Av Chunk.

Definition idSetChunkSize : Z := 1.
Definition idAbortMessage : Z := 2.
Definition idAck : Z := 3.
Definition idUserControlMessages : Z := 4.
Definition idWindowAckSize : Z := 5.
Definition idSetPeerBandwidth : Z := 6.

(** The [pool] of the code is never used. *)
Record RtmpConn := mkConn {
  chunkSize : Z;
  remoteChunkSize : Z;
  windowAckSize : Z;
  remoteWindowAckSize : Z;
  received : Z;
  ackReceived : Z;
  c_rw : ReadWriter;
  c_heap : heap;
  chunks : gmap Z (ChunkStream sref);
}.

Definition NewRtmpConn (rw : ReadWriter) : RtmpConn :=
  mkConn 128 128 2500000 2500000 0 0 rw [] ∅.

Definition set_chunkSize v c := mkConn v (remoteChunkSize c) (windowAckSize c)
  (remoteWindowAckSize c) (received c) (ackReceived c) (c_rw c) (c_heap c) (chunks c).
Definition set_remoteChunkSize v c := mkConn (chunkSize c) v (windowAckSize c)
  (remoteWindowAckSize c) (received c) (ackReceived c) (c_rw c) (c_heap c) (chunks c).
Definition set_remoteWindowAckSize v c := mkConn (chunkSize c) (remoteChunkSize c)
  (windowAckSize c) v (received c) (ackReceived c) (c_rw c) (c_heap c) (chunks c).
Definition set_received v a c := mkConn (chunkSize c) (remoteChunkSize c) (windowAckSize c)
  (remoteWindowAckSize c) v a (c_rw c) (c_heap c) (chunks c).
Definition set_rw v c := mkConn (chunkSize c) (remoteChunkSize c) (windowAckSize c)
  (remoteWindowAckSize c) (received c) (ackReceived c) v (c_heap c) (chunks c).
Definition set_chunks h v c := mkConn (chunkSize c) (remoteChunkSize c) (windowAckSize c)
  (remoteWindowAckSize c) (received c) (ackReceived c) (c_rw c) h v.

(** Runs an operation of [rtmpConn.rw]. *)
Definition conn_rw {A} (m : go ReadWriter A) : go RtmpConn A := λ c,
  let '(r, rw) := m (c_rw c) in (r, set_rw rw c).

(** ** Control messages *)

Definition initControlMsg (id size value : Z) : res (ChunkStream bytes) :=
  d ← PutU32BE (make_bytes size) value;
  mret (newCS 0 2 0 size id 0 d).

Definition NewAck (size : Z) : res (ChunkStream bytes) := initControlMsg idAck 4 size.
Definition NewSetChunkSize (size : Z) : res (ChunkStream bytes) :=
  initControlMsg idSetChunkSize 4 size.
Definition NewWindowAckSize (size : Z) : res (ChunkStream bytes) :=
  initControlMsg idWindowAckSize 4 size.
Definition NewSetPeerBandwidth (size : Z) : res (ChunkStream bytes) :=
  ret ← initControlMsg idSetPeerBandwidth 5 size;
  d ← set_at (Data ret) 4 2;
  mret (set_Data d ret).

Definition streamBegin : Z := 0.
Definition streamEOF : Z := 1.
Definition streamDry : Z := 2.
Definition setBufferLen : Z := 3.
Definition streamIsRecorded : Z := 4.
Definition pingRequest : Z := 6.
Definition pingResponse : Z := 7.

Definition userControlMsg (eventType buflen : Z) : res (ChunkStream bytes) :=
  let buflen := u32 (buflen + 2) in
  let d := make_bytes buflen in
  d ← set_at d 0 (u8 (Z.land (Z.shiftr eventType 8) 0xff));
  d ← set_at d 1 (u8 (Z.land eventType 0xff));
  mret (newCS 0 2 0 buflen 4 1 d).

(** [for i := 0; i < 4; i++ { ret.Data[2+i] = byte(1 >> uint32((3-i)*8) & 0xff) }] *)
Definition put_stream_id (d : bytes) : res bytes :=
  foldl (λ r i, d ← r; set_at d (2 + i) (u8 (Z.land (Z.shiftr 1 ((3 - i) * 8)) 0xff)))
    (Ok d) [0; 1; 2; 3].

(** ** Writing *)

(** The message is left as [writeChunk] leaves it. *)
Definition RtmpConn_Write (m : ChunkStream bytes) : go RtmpConn (ChunkStream bytes) :=
  _ ← (if TypeID m =? idSetChunkSize
       then v ← lift (BigEndian_Uint32 (Data m)); modify (set_chunkSize v)
       else mret tt);
  k ← gets chunkSize;
  conn_rw (writeChunk m k).

Definition RtmpConn_Flush : go RtmpConn unit := conn_rw RW_Flush.

Definition SetBegin : go RtmpConn unit :=
  ret ← lift (userControlMsg streamBegin 4);
  d ← lift (put_stream_id (Data ret));
  ignore_err tt (_ ← RtmpConn_Write (set_Data d ret); mret tt).

Definition SetRecorded : go RtmpConn unit :=
  ret ← lift (userControlMsg streamIsRecorded 4);
  d ← lift (put_stream_id (Data ret));
  ignore_err tt (_ ← RtmpConn_Write (set_Data d ret); mret tt).

(** ** Reading *)

(** The control messages act on the whole buffer [c.Data]. *)
Definition handleControlMsg (cs : ChunkStream sref) : go RtmpConn bool :=
  if TypeID cs =? idSetChunkSize then
    h ← gets c_heap;
    v ← lift (BigEndian_Uint32 (sr_get h (Data cs)));
    _ ← modify (set_remoteChunkSize v); mret true
  else if TypeID cs =? idAbortMessage then mret true
  else if TypeID cs =? idAck then mret true
  else if TypeID cs =? idUserControlMessages then mret true
  else if TypeID cs =? idWindowAckSize then
    h ← gets c_heap;
    v ← lift (BigEndian_Uint32 (sr_get h (Data cs)));
    _ ← modify (set_remoteWindowAckSize v); mret true
  else if TypeID cs =? idSetPeerBandwidth then mret true
  else mret false.

Definition ack (size : Z) : go RtmpConn unit :=
  _ ← modify (λ c, set_received (u32 (received c + size)) (u32 (ackReceived c + size)) c);
  _ ← modify (λ c, if 0xf0000000 <=? received c then set_received 0 (ackReceived c) c else c);
  c ← get;
  if remoteWindowAckSize c <=? ackReceived c then
    cs ← lift (NewAck (ackReceived c));
    _ ← ignore_err tt (_ ← conn_rw (writeChunk cs (chunkSize c)); mret tt);
    modify (λ c, set_received (received c) 0 c)
  else mret tt.

(** The basic header: the chunk type and the chunk stream id. *)
Definition readBasicHeader : go ReadWriter (Z * Z) :=
  rb ← rw_ReadByte;
  let format := Z.shiftr rb 6 in
  let csid := Z.land rb 0x3f in
  if csid =? 0 then rb ← rw_ReadByte; mret (format, u32 (rb + 64))
  else if csid =? 1 then csid ← ReadUintLE 2; mret (format, u32 (csid + 64))
  else mret (format, csid).

(** Runs [readChunk] on the chunk stream [csid] of the table. *)
Definition conn_readChunk (csid format : Z) : go RtmpConn (ChunkStream sref) := λ c,
  let cs := default (newCS 0 csid 0 0 0 0 nil_ref) (chunks c !! csid) in
  let '(r, s) := readChunk (remoteChunkSize c)
                   (mkR (c_heap c) (set_tmpFromat format cs) (c_rw c)) in
  ((λ _, r_cs s) <$> r, set_rw (r_rw s) (set_chunks (r_heap s) (<[csid := r_cs s]> (chunks c)) c)).

(** The message a complete chunk stream gives to the caller; it shares the buffer. *)
Definition completeMessage (cs : ChunkStream sref) : go RtmpConn (ChunkStream sref) :=
  h ← gets c_heap;
  d ← lift (sr_slice h (Data cs) 0 (Length cs));
  mret (newCS (Format cs) (CSID cs) (Timestamp cs) (Length cs) (TypeID cs) (StreamID cs) d).

(** One pass of the loop of [Read]: a message for the caller, or none yet. *)
Definition Read_pass : go RtmpConn (option (ChunkStream sref)) :=
  '(format, csid) ← conn_rw readBasicHeader;
  cs ← conn_readChunk csid format;
  if isComplete cs then
    m ← completeMessage cs;
    isHandled ← handleControlMsg cs;
    _ ← ack (Length cs);
    mret (if isHandled : bool then None else Some m)
  else mret None.

Fixpoint Read_loop (fuel : nat) : go RtmpConn (ChunkStream sref) :=
  match fuel with
  | O => λ c, (OutOfFuel, c)
  | S fuel =>
      r ← Read_pass;
      match r with
      | Some m => mret m
      | None => Read_loop fuel
      end
  end.

(** Every pass takes at least one byte from the connection. *)
Definition RtmpConn_Read : go RtmpConn (ChunkStream sref) := λ c,
  Read_loop (S (length (rw_in (c_rw c)))) c.

(** ** The abstract demultiplexer

    What the two ends agree on: the chunk size, the window, and the messages of which
    some chunks have arrived, with the number of their bytes. *)
Record AConn := mkA {
  a_size : Z;
  a_window : Z;
  a_part : gmap Z (ChunkStream bytes * nat);
}.

(** A chunk: the first one of a message, or the next one on a chunk stream. *)
Inductive chunk_ev := Start (m : ChunkStream bytes) | Cont (csid : Z).

Definition is_control (ty : Z) : bool := (1 <=? ty) && (ty <=? 6).

Definition a_control (m : ChunkStream bytes) (a : AConn) : AConn :=
  let v := be_combine (take 4 (Data m)) in
  if TypeID m =? idSetChunkSize then mkA v (a_window a) (a_part a)
  else if TypeID m =? idWindowAckSize then mkA (a_size a) v (a_part a)
  else a.

(** The chunk of [m] after its first [n] bytes: its bytes, the new state, and the
    message if it is complete and not a control message. *)
Definition a_chunk (a : AConn) (m : ChunkStream bytes) (n : nat)
    : bytes * AConn * option (ChunkStream bytes) :=
  let k := Z.to_nat (a_size a) in
  let w := chunk_header (set_Format (if Nat.eqb n 0 then 0 else 3) m)
             ++ take k (drop n (Data m)) in
  if Nat.leb (length (Data m)) (n + k) then
    (w, a_control m (mkA (a_size a) (a_window a) (delete (CSID m) (a_part a))),
     if is_control (TypeID m) then None else Some m)
  else (w, mkA (a_size a) (a_window a) (<[CSID m := (m, (n + k)%nat)]> (a_part a)), None).

Definition a_step (a : AConn) (e : chunk_ev)
    : option (bytes * AConn * option (ChunkStream bytes)) :=
  match e with
  | Start m => match a_part a !! CSID m with
               | None => Some (a_chunk a m 0)
               | Some _ => None
               end
  | Cont c => match a_part a !! c with
              | Some (m, n) => Some (a_chunk a m n)
              | None => None
              end
  end.

(** A message a connection can carry: not empty, and a control message whose value the
    receiver looks at has the four bytes it needs. *)
Record sendable (m : ChunkStream bytes) : Prop := {
  sd_readable : msg_readable m;
  sd_data : Data m ≠ [];
  sd_bytes : Forall is_byte (Data m);
  sd_control : TypeID m = 1 ∨ TypeID m = 5 → (4 ≤ length (Data m))%nat;
  sd_size : TypeID m = 1 → 0 < be_combine (take 4 (Data m));
}.

Definition ev_sendable (e : chunk_ev) : Prop :=
  match e with Start m => sendable m | Cont _ => True end.

(** A chunk stream between two messages. *)
Record idle (csid : Z) (h : heap) (cs : ChunkStream sref) : Prop := {
  id_csid : CSID cs = csid;
  id_remain : remain cs = 0;
  id_data : data_wf h (Data cs);
  id_len : sr_len (Data cs) < 2 ^ 32;
  id_delta : timeDelta cs ≠ 0xffffff;
}.

(** The chunk stream [csid] holds what the abstract state says. *)
Definition slot_ok (h : heap) (csid : Z) (part : option (ChunkStream bytes * nat))
    (slot : option (ChunkStream sref)) : Prop :=
  match part with
  | Some (m, n) => sendable m ∧ CSID m = csid ∧ (0 < n < length (Data m))%nat ∧
                   ∃ cs, slot = Some cs ∧ msg_state m n h cs
  | None => match slot with Some cs => idle csid h cs | None => True end
  end.

(** No two chunk streams share a buffer. *)
Definition disjoint_buffers (t : gmap Z (ChunkStream sref)) : Prop :=
  ∀ i j ci cj b, t !! i = Some ci → t !! j = Some cj →
    sr_buf (Data ci) = Some b → sr_buf (Data cj) = Some b → i = j.

Definition table_wf (h : heap) (t : gmap Z (ChunkStream sref)) : Prop :=
  disjoint_buffers t ∧ ∀ i ci, t !! i = Some ci → data_wf h (Data ci).

(** The writing side can answer with acknowledgements. *)
Definition can_write (c : RtmpConn) : Prop :=
  rw_wok (c_rw c) ∧ 0 < chunkSize c < 2 ^ 32.

Record conn_refines (a : AConn) (c : RtmpConn) : Prop := {
  cr_size : remoteChunkSize c = a_size a;
  cr_size_range : 0 < a_size a < 2 ^ 32;
  cr_window : remoteWindowAckSize c = a_window a;
  cr_slots : ∀ i, slot_ok (c_heap c) i (a_part a !! i) (chunks c !! i);
  cr_table : table_wf (c_heap c) (chunks c);
  cr_write : can_write c;
  cr_read : readError (c_rw c) = None;
}.

(** ** The basic header *)

Lemma rw_ReadByte_has b rest rw : rw_has [b] rest rw → rw_ReadByte rw = (Ok b, set_in rest rw).
Proof. intros [_ Hin]. unfold rw_ReadByte. by rewrite Hin. Qed.

Lemma basic_byte fmt c : 0 ≤ fmt < 4 → 0 ≤ c < 64 →
  Z.shiftr (fmt * 64 + c) 6 = fmt ∧ Z.land (fmt * 64 + c) 0x3f = c.
Proof.
  intros Hf Hc. rewrite Z.shiftr_div_pow2 by lia. change 0x3f with (Z.ones 6).
  rewrite Z.land_ones by lia. change (2 ^ 6) with 64.
  split; [rewrite Z.div_add_l by lia; rewrite Z.div_small by lia; lia|].
  rewrite Z.add_comm, Z.mod_add, Z.mod_small by lia. done.
Qed.

Lemma readBasicHeader_has fmt csid rest rw : 0 ≤ fmt < 4 → 2 ≤ csid < 65600 →
  rw_has (basic_header fmt csid) rest rw →
  readBasicHeader rw = (Ok (fmt, csid), set_in rest rw).
Proof.
  intros Hf Hc [Hre Hin]. unfold readBasicHeader, basic_header in *.
  destruct (csid <? 64) eqn:E1; [|destruct (csid - 64 <? 256) eqn:E2]; go_bool.
  - destruct (basic_byte fmt csid) as [Hsh Hla]; [lia..|].
    erewrite go_bind_ok by (apply (rw_ReadByte_has _ rest); split; done).
    rewrite Hsh, Hla. rewrite !(proj2 (Z.eqb_neq _ _)) by lia. done.
  - destruct (basic_byte fmt 0) as [Hsh Hla]; [lia..|]. rewrite Z.add_0_r in *.
    erewrite go_bind_ok by (apply (rw_ReadByte_has _ ((csid - 64) :: rest)); split; done).
    rewrite Hsh, Hla. simpl (0 =? 0). cbv iota.
    erewrite go_bind_ok by (apply (rw_ReadByte_has _ rest); split; done).
    rewrite u32_small by (unfold fits; lia). by rewrite Z.sub_add.
  - destruct (basic_byte fmt 1) as [Hsh Hla]; [lia..|].
    erewrite go_bind_ok by (apply (rw_ReadByte_has _ (le_split 2 (csid - 64) ++ rest)); split; done).
    rewrite Hsh, Hla. simpl (1 =? _). cbv iota.
    erewrite go_bind_ok. 2: { change 2 with (len (le_split 2 (csid - 64))).
      apply (ReadUintLE_has _ rest); [split; done|auto with go|done]. }
    rewrite le_combine_split_small by lia.
    rewrite u32_small by (unfold fits; lia). by rewrite Z.sub_add.
Qed.

(** ** Acknowledgements *)

Lemma initControlMsg_4 id v : initControlMsg id 4 v = Ok (newCS 0 2 0 4 id 0 (be_split 4 v)).
Proof.
  unfold initControlMsg. change (PutU32BE (make_bytes 4) v) with
    (put_shifts (make_bytes 4 ++ []) v (be_shifts 0 4)).
  by rewrite put_be, app_nil_r.
Qed.

Lemma NewAck_ok v : NewAck v = Ok (newCS 0 2 0 4 idAck 0 (be_split 4 v)).
Proof. apply initControlMsg_4. Qed.

(** [c'] is [c] after the writing side and the counters moved. *)
Record ack_frame (c c' : RtmpConn) : Prop := {
  af_can : can_write c';
  af_eq : ∃ r a w, c' = set_received r a (set_rw w c);
  af_in : rw_in (c_rw c') = rw_in (c_rw c);
  af_err : readError (c_rw c') = readError (c_rw c);
}.

(** An acknowledgement is sent only when the window is used up; until then nothing is
    written and [n] more bytes are counted. *)
Definition quiet (n : Z) (c c' : RtmpConn) : Prop :=
  0 ≤ ackReceived c → 0 ≤ n → ackReceived c + n < Z.min (remoteWindowAckSize c') (2 ^ 32) →
  rw_w (c_rw c') = rw_w (c_rw c) ∧ ackReceived c' = ackReceived c + n.

(** Nothing written and nothing counted. *)
Definition still (c c' : RtmpConn) : Prop :=
  rw_w (c_rw c') = rw_w (c_rw c) ∧ ackReceived c' = ackReceived c.

Lemma still_quiet n c c1 c2 : still c c1 → quiet n c1 c2 → quiet n c c2.
Proof. intros [Hw Ha] Hq. unfold quiet in *. by rewrite Hw, Ha in Hq. Qed.

Lemma ack_quiet n c c' : ack n c = (Ok tt, c') → quiet n c c'.
Proof.
  intros E Ha Hn Hlt. revert E. unfold ack. rewrite !go_bind_modify. cbv beta.
  set (c1 := set_received _ _ c).
  assert (Hc2 : ∃ r, (if 0xf0000000 <=? received c1 then set_received 0 (ackReceived c1) c1
    else c1) = set_received r (u32 (ackReceived c + n)) c) by (destruct (_ <=? _); by eexists).
  destruct Hc2 as [r ->]. unfold get, mbind at 1, go_bind at 1. cbn [remoteWindowAckSize ackReceived set_received].
  destruct (_ <=? _) eqn:E1; go_bool.
  - intros E. assert (Hwin : remoteWindowAckSize c' = remoteWindowAckSize c).
    { revert E. rewrite (go_bind_lift _ _ _ _ (NewAck_ok _)).
      unfold ignore_err, conn_rw, mbind, go_bind, modify. cbn -[writeChunk be_split].
      destruct (writeChunk _ _ _) as [[?|?|?|] rw']; intros [= <-]; done. }
    rewrite u32_small in E1 by (unfold fits; lia). lia.
  - unfold mret, go_ret. intros [= <-]. cbn. rewrite u32_small; [done|]. unfold fits. lia.
Qed.

Lemma ack_ok n c : can_write c → ∃ c', ack n c = (Ok tt, c') ∧ ack_frame c c'.
Proof.
  intros [Hw Hk]. unfold ack. rewrite !go_bind_modify. cbv beta.
  set (c1 := set_received _ _ c).
  assert (Hc2 : ∃ r a, (if 0xf0000000 <=? received c1 then set_received 0 (ackReceived c1) c1
    else c1) = set_received r a c) by (destruct (_ <=? _); by eexists _, _).
  destruct Hc2 as (r & a & ->). unfold get, mbind at 1, go_bind at 1.
  destruct (_ <=? _).
  - erewrite go_bind_lift by apply NewAck_ok.
    destruct (writeChunk_writes (newCS 0 2 0 4 idAck 0 (be_split 4 a)) (chunkSize c))
      as (m' & Hwr); [by constructor|done|done|].
    destruct (Hwr (c_rw c) Hw) as (rw' & Heq & Hwok & _ & Hin & Hie & Hre).
    unfold ignore_err, conn_rw, mbind, go_bind. cbn -[be_split]. rewrite Heq.
    eexists. split; [done|]. constructor; try done. by eexists _, _, rw'.
  - eexists. split; [done|]. constructor; try done. exists r, a, (c_rw c). by destruct c.
Qed.

(** ** One chunk *)

Lemma buf_starts m n h cs : msg_state m n h cs → (length (Data m) ≤ n)%nat →
  ∃ r, buf_of h (Data cs) = Data m ++ r.
Proof.
  intros Hms Hn. exists (drop n (buf_of h (Data cs))).
  pose proof (ms_buf _ _ _ _ Hms) as Hb. rewrite (take_ge (Data m)) in Hb by done.
  by rewrite <- Hb, take_drop.
Qed.

(** The message handed out is the one that was sent. *)
Lemma completeMessage_ok m n cs c :
  msg_readable m → msg_state m n (c_heap c) cs → (length (Data m) ≤ n)%nat →
  ∃ d, completeMessage cs c
    = (Ok (newCS 0 (CSID m) (Timestamp m) (Length m) (TypeID m) (StreamID m) d), c) ∧
    sr_get (c_heap c) d = Data m ∧ sr_buf d = sr_buf (Data cs).
Proof.
  intros Hm Hms Hn. destruct (buf_starts _ _ _ _ Hms Hn) as [r Hr].
  pose proof Hms as [Hf Hc Ht Hl Hty Hs _ _ _ _ [(Hoff & Hlen & _) _ _ _ _] _].
  unfold completeMessage. rewrite go_bind_gets. rewrite Hl, (mr_len _ Hm).
  eexists. split; [|split].
  - erewrite go_bind_lift.
    + by rewrite Hf, Hc, Ht, Hty, Hs, ?Hl, ?(mr_len _ Hm).
    + unfold sr_slice. rewrite Hoff, Hr, len_app. pose proof (len_nonneg (Data m)).
      pose proof (len_nonneg r). rewrite !(proj2 (Z.leb_le _ _)) by lia. reflexivity.
  - unfold sr_get, buf_of in *. simpl. rewrite Hr, Z.sub_0_r.
    unfold len. by rewrite Nat2Z.id, drop_0, take_app_length.
  - done.
Qed.

Definition control_effect (m : ChunkStream bytes) (c : RtmpConn) : RtmpConn :=
  let v := be_combine (take 4 (Data m)) in
  if TypeID m =? idSetChunkSize then set_remoteChunkSize v c
  else if TypeID m =? idWindowAckSize then set_remoteWindowAckSize v c
  else c.

Lemma BigEndian_Uint32_app d r : (4 ≤ length d)%nat →
  BigEndian_Uint32 (d ++ r) = Ok (be_combine (take 4 d)).
Proof.
  intros Hd. unfold BigEndian_Uint32. rewrite (proj2 (Z.leb_le _ _)).
  - by rewrite take_app_le.
  - unfold len. rewrite length_app. lia.
Qed.

Lemma handleControlMsg_ok m n cs c :
  sendable m → msg_state m n (c_heap c) cs → (length (Data m) ≤ n)%nat →
  handleControlMsg cs c = (Ok (is_control (TypeID m)), control_effect m c).
Proof.
  intros Hm Hms Hn. destruct (buf_starts _ _ _ _ Hms Hn) as [r Hr].
  pose proof (ms_type _ _ _ _ Hms) as Hty. pose proof (ms_wf _ _ _ _ Hms) as [Hd _ _ _ _].
  unfold handleControlMsg, control_effect, idSetChunkSize, idAbortMessage, idAck,
    idUserControlMessages, idWindowAckSize, idSetPeerBandwidth. rewrite Hty.
  assert (Hv : TypeID m = 1 ∨ TypeID m = 5 →
    BigEndian_Uint32 (sr_get (c_heap c) (Data cs)) = Ok (be_combine (take 4 (Data m)))).
  { intros H. rewrite sr_get_whole, Hr by done. by apply BigEndian_Uint32_app, (sd_control _ Hm). }
  repeat match goal with
  | |- context [TypeID m =? ?k] => destruct (Z.eqb_spec (TypeID m) k) as [E|?]; rewrite ?E
  end; try done.
  1,2: rewrite go_bind_gets; erewrite go_bind_lift by auto; done.
  unfold is_control. destruct (1 <=? _) eqn:E1, (_ <=? 6) eqn:E2; go_bool; done || lia.
Qed.

(** *** The other chunk streams *)

(** A chunk on one chunk stream: [h'] and [d'] come from [h] and [d]. *)
Definition chunk_step (h : heap) (d : sref) (h' : heap) (d' : sref) : Prop :=
  heap_frame h d h' ∧ data_wf h' d' ∧
  (sr_buf d' = sr_buf d ∨ ∃ i, sr_buf d' = Some i ∧ (length h ≤ i)%nat).

Lemma heap_frame_buf h r h' d : heap_frame h r h' → data_wf h d →
  (∀ b, sr_buf d = Some b → sr_buf r ≠ Some b) →
  buf_of h' d = buf_of h d ∧ data_wf h' d.
Proof.
  intros [Hl Hf] (Hoff & Hlen & Hb) Hne.
  assert (Hbuf : buf_of h' d = buf_of h d ∧
    match sr_buf d with Some i => is_Some (h' !! i) | None => True end).
  { unfold buf_of. destruct (sr_buf d) as [i|]; [|done].
    rewrite Hf; [done|by apply lookup_lt_is_Some|by apply Hne]. }
  destruct Hbuf as [Hbuf Hs]. split; [done|]. split; [done|]. by rewrite Hbuf.
Qed.

Lemma slot_frame h r h' i part slot : heap_frame h r h' →
  (∀ cs, slot = Some cs → data_wf h (Data cs) ∧
     ∀ b, sr_buf (Data cs) = Some b → sr_buf r ≠ Some b) →
  slot_ok h i part slot → slot_ok h' i part slot.
Proof.
  intros Hf Hne. destruct part as [[m n]|]; simpl.
  - intros (? & ? & ? & cs & -> & [? ? ? ? ? ? ? ? ? Hb [? ? ? ? ?] ?]).
    destruct (Hne cs) as [Hd Hb']; [done|].
    destruct (heap_frame_buf h r h' (Data cs)) as [HB HD]; [done..|].
    split_and!; try (done || lia). exists cs. split; [done|].
    constructor; try done. by rewrite HB.
  - destruct slot as [cs|]; [|done]. intros []. destruct (Hne cs) as [Hd Hb']; [done|].
    destruct (heap_frame_buf h r h' (Data cs)) as [HB HD]; [done..|]. by constructor.
Qed.

Lemma table_wf_insert h t i cs h' cs' : table_wf h t →
  (t !! i = Some cs ∨ t !! i = None ∧ sr_buf (Data cs) = None) →
  chunk_step h (Data cs) h' (Data cs') → table_wf h' (<[i := cs']> t).
Proof.
  intros [Hdis Hwf] Ht (Hf & Hd' & Hb').
  assert (Hne : ∀ j cj b, j ≠ i → t !! j = Some cj → sr_buf (Data cj) = Some b →
    sr_buf (Data cs) ≠ Some b ∧ sr_buf (Data cs') ≠ Some b).
  { intros j cj b Hji Hj Hb.
    assert (Hcs : sr_buf (Data cs) ≠ Some b).
    { destruct Ht as [Ht|[_ ->]]; [|done]. intros Hcs. by apply Hji, (Hdis j i cj cs b). }
    split; [done|]. destruct Hb' as [->|(k & -> & Hk)]; [done|]. intros [= ->].
    destruct (Hwf j cj Hj) as (_ & _ & Hs). rewrite Hb in Hs.
    apply lookup_lt_is_Some_1 in Hs. lia. }
  split.
  - intros j1 j2 c1 c2 b H1 H2 Hb1 Hb2.
    apply lookup_insert_Some in H1 as [[<- <-]|[? H1]], H2 as [[<- <-]|[? H2]]; try done.
    + by destruct (Hne j2 c2 b).
    + by destruct (Hne j1 c1 b).
    + by eapply Hdis.
  - intros j cj Hj. apply lookup_insert_Some in Hj as [[<- <-]|[? Hj]]; [done|].
    eapply heap_frame_buf; [done|by eapply Hwf|]. intros b Hb. by eapply Hne.
Qed.

(** A step on the chunk stream [i] keeps what the others hold. *)
Lemma slots_insert h t i cs h' cs' (part part' : gmap Z (ChunkStream bytes * nat)) :
  table_wf h t → (t !! i = Some cs ∨ t !! i = None ∧ sr_buf (Data cs) = None) →
  chunk_step h (Data cs) h' (Data cs') →
  (∀ j, j ≠ i → part' !! j = part !! j) →
  slot_ok h' i (part' !! i) (Some cs') →
  (∀ j, slot_ok h j (part !! j) (t !! j)) →
  ∀ j, slot_ok h' j (part' !! j) (<[i := cs']> t !! j).
Proof.
  intros [Hdis Hwf] Ht (Hf & Hd' & Hb') Hpart Hi Hs j.
  destruct (decide (j = i)) as [->|Hji]; [by rewrite lookup_insert_eq|].
  rewrite lookup_insert_ne, Hpart by done. eapply slot_frame; [done| |apply Hs].
  intros cj Hj. split; [by eapply Hwf|]. intros b Hb Hcs.
  destruct Ht as [Ht|[_ Hn]]; [|congruence]. by apply Hji, (Hdis j i cj cs b).
Qed.

(** *** One chunk of a message *)

Definition ev_fmt (n : nat) : Z := if Nat.eqb n 0 then 0 else 3.

(** [m] has [n] bytes in the abstract state (none before its first chunk). *)
Definition progress (a : AConn) (m : ChunkStream bytes) (n : nat) : Prop :=
  match a_part a !! CSID m with None => n = 0%nat | Some p => p = (m, n) end.

Definition conn_slot (csid : Z) (c : RtmpConn) : ChunkStream sref :=
  default (newCS 0 csid 0 0 0 0 nil_ref) (chunks c !! csid).

Lemma conn_slot_in csid c : chunks c !! csid = Some (conn_slot csid c) ∨
  chunks c !! csid = None ∧ sr_buf (Data (conn_slot csid c)) = None.
Proof. unfold conn_slot. destruct (_ !! _) as [cs|]; [by left|by right]. Qed.

Lemma conn_slot_idle a c csid : conn_refines a c → a_part a !! csid = None →
  idle csid (c_heap c) (conn_slot csid c).
Proof.
  intros Hr Hp. pose proof (cr_slots _ _ Hr csid) as Hs. rewrite Hp in Hs. unfold conn_slot.
  destruct (chunks c !! csid) as [cs|]; [done|]. constructor; simpl; done || lia.
Qed.

Lemma conn_readChunk_ev a c m n rest : conn_refines a c → sendable m → progress a m n →
  rw_has (message_header (set_Format (ev_fmt n) m)
          ++ take (Z.to_nat (a_size a)) (drop n (Data m))) rest (c_rw c) →
  ∃ h' cs', conn_readChunk (CSID m) (ev_fmt n) c
      = (Ok cs', set_rw (set_in rest (c_rw c)) (set_chunks h' (<[CSID m := cs']> (chunks c)) c)) ∧
    msg_state m ((n + Z.to_nat (a_size a)) `min` length (Data m)) h' cs' ∧
    chunk_step (c_heap c) (Data (conn_slot (CSID m) c)) h' (Data cs').
Proof.
  intros Hr Hm Hp Hrw. unfold conn_readChunk. fold (conn_slot (CSID m) c).
  pose proof (cr_size_range _ _ Hr) as Hk. rewrite (cr_size _ _ Hr).
  set (k := Z.to_nat (a_size a)) in *. replace (a_size a) with (Z.of_nat k) by lia.
  set (cs := conn_slot (CSID m) c). set (s := mkR _ _ _).
  assert (Hstep : ∃ h' cs', readChunk (Z.of_nat k) s = (Ok tt, mkR h' cs' (set_in rest (c_rw c))) ∧
    msg_state m ((n + k) `min` length (Data m)) h' cs' ∧ heap_frame (c_heap c) (Data cs) h' ∧
    (Data cs' = Data cs ∨ sr_buf (Data cs') = Some (length (c_heap c)))).
  { unfold progress in Hp. destruct (a_part a !! CSID m) as [p|] eqn:Ha.
    - subst p. pose proof (cr_slots _ _ Hr (CSID m)) as Hs. rewrite Ha in Hs.
      destruct Hs as (_ & _ & Hn & cs0 & Hc0 & Hms).
      assert (cs0 = cs) as -> by (subst cs; unfold conn_slot; by rewrite Hc0).
      assert (Hfmt : ev_fmt n = 3) by (unfold ev_fmt; by rewrite (proj2 (Nat.eqb_neq n 0)) by lia).
      rewrite Hfmt in Hrw.
      destruct (readChunk_next m n k rest s) as (h' & cs' & Heq & Hms' & Hf & HD);
        [by apply Hm|by destruct Hms as [? ? ? ? ? ? ? ? ? ? [] ?]|lia|done|exact Hfmt|].
      exists h', cs'. split_and!; auto.
    - subst n. assert (Hidle : idle (CSID m) (c_heap c) cs) by (by eapply conn_slot_idle).
      destruct Hidle.
      destruct (readChunk_first m k rest s) as (h' & cs' & Heq & Hms' & Hf & HD);
        try done; [by apply Hm|by apply Hm|].
      exists h', cs'. split_and!; auto. }
  destruct Hstep as (h' & cs' & Heq & Hms & Hf & HD). rewrite Heq. exists h', cs'.
  split; [done|]. split; [done|]. split_and!; [done|by destruct Hms as [? ? ? ? ? ? ? ? ? ? [] ?]|].
  destruct HD as [->|HD]; [by left|right; eauto].
Qed.

(** *** What the steps of a pass keep *)

Lemma conn_refines_rw a c rw : conn_refines a c → rw_wok rw → readError rw = None →
  conn_refines a (set_rw rw c).
Proof. intros [? ? ? ? ? [? ?] ?] ? ?. by constructor. Qed.

Lemma conn_refines_chunk a c i h' cs' part' : conn_refines a c →
  chunk_step (c_heap c) (Data (conn_slot i c)) h' (Data cs') →
  (∀ j, j ≠ i → part' !! j = a_part a !! j) → slot_ok h' i (part' !! i) (Some cs') →
  conn_refines (mkA (a_size a) (a_window a) part') (set_chunks h' (<[i := cs']> (chunks c)) c).
Proof.
  intros [? ? ? Hs Ht ? ?] Hstep Hpart Hi. pose proof (conn_slot_in i c) as Hin.
  constructor; try done.
  - by eapply slots_insert.
  - by eapply table_wf_insert.
Qed.

Lemma conn_refines_control a c m : conn_refines a c → sendable m →
  conn_refines (a_control m a) (control_effect m c).
Proof.
  intros Hr Hm. unfold a_control, control_effect, idSetChunkSize, idWindowAckSize.
  pose proof Hr as [? ? ? Hs Ht [? ?] ?]. destruct (Z.eqb_spec (TypeID m) 1) as [E|?].
  - constructor; try done. simpl. split; [by apply Hm|].
    pose proof (be_combine_bound (take 4 (Data m)) (Forall_take _ _ _ (sd_bytes _ Hm))) as Hb.
    unfold len in Hb. rewrite length_take, Nat.min_l in Hb by (apply Hm; auto). apply Hb.
  - destruct (_ =? 5); [by constructor|done].
Qed.

Lemma conn_refines_ack a c c' : conn_refines a c → ack_frame c c' → conn_refines a c'.
Proof.
  intros [? ? ? Hs Ht ? Hre] [Hcan (r & x & w & ->) Hin Herr].
  constructor; try done. by rewrite Herr.
Qed.

(** The message a caller sees when it looks at the buffer right away. *)
Definition message_at (h : heap) (r : ChunkStream sref) : ChunkStream bytes :=
  newCS (Format r) (CSID r) (Timestamp r) (Length r) (TypeID r) (StreamID r)
    (sr_get h (Data r)).

Definition delivered (m : ChunkStream bytes) : ChunkStream bytes :=
  newCS 0 (CSID m) (Timestamp m) (Length m) (TypeID m) (StreamID m) (Data m).

(** What follows [readChunk] when it completed the message [m]. *)
Lemma Read_complete a c m cs : conn_refines a c → sendable m →
  msg_state m (length (Data m)) (c_heap c) cs →
  ∃ r c', (msg ← completeMessage cs; isHandled ← handleControlMsg cs; _ ← ack (Length cs);
      mret (if isHandled : bool then None else Some msg)) c
    = (Ok r, c') ∧ conn_refines (a_control m a) c' ∧
    rw_in (c_rw c') = rw_in (c_rw c) ∧
    option_map (message_at (c_heap c')) r
      = option_map delivered (if is_control (TypeID m) then None else Some m) ∧
    quiet (len (Data m)) c c'.
Proof.
  intros Hr Hm Hms. pose proof (sd_readable _ Hm) as Hmr.
  destruct (completeMessage_ok m _ cs c Hmr Hms) as (d & Heq & Hd & _); [done|].
  erewrite go_bind_ok by exact Heq.
  erewrite go_bind_ok by by eapply handleControlMsg_ok.
  pose proof (conn_refines_control a c m Hr Hm) as Hr'.
  destruct (ack_ok (Length cs) _ (cr_write _ _ Hr')) as (c' & Hack & Hf).
  erewrite go_bind_ok by exact Hack.
  pose proof Hf as [_ (r & x & w & Hc') Hin _].
  assert (Hctl : c_heap (control_effect m c) = c_heap c ∧ c_rw (control_effect m c) = c_rw c)
    by (unfold control_effect; destruct (_ =? _); [|destruct (_ =? _)]; done).
  destruct Hctl as [Hh Hw]. eexists _, c'. split; [done|].
  split; [by eapply conn_refines_ack|]. split; [by rewrite Hin, Hw|].
  apply and_comm. split.
  { rewrite (ms_length _ _ _ _ Hms), (mr_len _ Hmr) in Hack. apply ack_quiet in Hack.
    eapply still_quiet, Hack. split; [by rewrite Hw|].
    unfold control_effect. by repeat case_match. }
  destruct (is_control _); [done|]. simpl. unfold message_at. simpl.
  replace (c_heap c') with (c_heap c) by (by rewrite Hc', <- Hh).
  by rewrite Hd.
Qed.

(** One pass of [Read] on one chunk does what the abstract demultiplexer does. *)
Lemma Read_pass_chunk a c m n w a' out rest :
  conn_refines a c → sendable m → progress a m n → (n < length (Data m))%nat →
  a_chunk a m n = (w, a', out) → rw_in (c_rw c) = w ++ rest →
  ∃ r c', Read_pass c = (Ok r, c') ∧ conn_refines a' c' ∧ rw_in (c_rw c') = rest ∧
    option_map (message_at (c_heap c')) r = option_map delivered out ∧
    (if Nat.leb (length (Data m)) (n + Z.to_nat (a_size a)) then quiet (len (Data m)) c c'
     else still c c').
Proof.
  intros Hr Hm Hp Hn Ha Hin. set (k := Z.to_nat (a_size a)).
  pose proof (sd_readable _ Hm) as Hmr. pose proof (mr_csid _ Hmr) as Hcs.
  set (body := message_header (set_Format (ev_fmt n) m) ++ take k (drop n (Data m))).
  assert (Hw : w = basic_header (ev_fmt n) (CSID m) ++ body).
  { unfold a_chunk in Ha. change (if Nat.eqb n 0 then 0 else 3) with (ev_fmt n) in Ha.
    fold k in Ha. unfold chunk_header in Ha. simpl in Ha. rewrite <- app_assoc in Ha.
    destruct (Nat.leb _ _); by injection Ha as <- _ _. }
  assert (Hf : 0 ≤ ev_fmt n < 4) by (unfold ev_fmt; destruct (Nat.eqb n 0); lia).
  unfold Read_pass, conn_rw.
  erewrite go_bind_ok. 2: { rewrite (readBasicHeader_has (ev_fmt n) (CSID m) (body ++ rest));
    [done|done|done|]. split; [apply Hr|]. by rewrite Hin, Hw, <- app_assoc. }
  set (c1 := set_rw _ c). assert (Hr1 : conn_refines a c1)
    by (apply conn_refines_rw; [done|apply Hr..]).
  destruct (conn_readChunk_ev a c1 m n rest Hr1 Hm Hp) as (h' & cs' & Heq & Hms & Hstep).
  { split; [apply Hr1|done]. }
  erewrite go_bind_ok by exact Heq. fold k in Hms.
  set (c2 := set_chunks h' _ c1). set (c3 := set_rw _ _).
  assert (Hc3 : rw_in (c_rw c3) = rest) by done.
  unfold isComplete. rewrite (ms_complete _ _ _ _ Hms), (ms_remain _ _ _ _ Hms), (mr_len _ Hmr).
  unfold a_chunk in Ha. fold k in Ha. destruct (Nat.leb_spec (length (Data m)) (n + k)).
  - rewrite Nat.min_r in * by lia. unfold len. rewrite Z.sub_diag. simpl (0 =? 0). cbv iota.
    set (a2 := mkA (a_size a) (a_window a) (delete (CSID m) (a_part a))) in *.
    assert (Hr3 : conn_refines a2 c3).
    { apply conn_refines_rw; [|apply Hr|apply Hr]. apply conn_refines_chunk; try done.
      - intros j Hj. by rewrite lookup_delete_ne.
      - rewrite lookup_delete_eq. destruct Hms as [? ? ? ? ? ? ? Hrem ? ? [] ?].
        constructor; try done. rewrite Hrem, (mr_len _ Hmr). unfold len. lia. }
    destruct (Read_complete a2 c3 m cs' Hr3 Hm Hms) as (r & c' & He & Hr' & Hi & Hout & Hq).
    exists r, c'. split; [exact He|]. injection Ha as _ <- <-. by split_and!.
  - rewrite (proj2 (Z.eqb_neq _ _)) by (unfold len; lia). injection Ha as _ <- <-.
    exists None, c3. rewrite Nat.min_l in Hms by lia. split_and!; try done.
    apply conn_refines_rw; [|apply Hr|apply Hr]. apply conn_refines_chunk; try done.
    + intros j Hj. by rewrite lookup_insert_ne.
    + pose proof (cr_size_range _ _ Hr). rewrite lookup_insert_eq.
      split_and!; try (done || lia). by exists cs'.
Qed.

(** ** Sequences of chunks *)

(** The bytes of a schedule of chunks, the state after it and the messages it completes. *)
Fixpoint a_run (a : AConn) (evs : list chunk_ev)
    : option (bytes * AConn * list (ChunkStream bytes)) :=
  match evs with
  | [] => Some ([], a, [])
  | e :: evs =>
      match a_step a e with
      | None => None
      | Some (w, a1, out) =>
          match a_run a1 evs with
          | None => None
          | Some (w', a', ms) =>
              Some (w ++ w', a', match out with Some m => m :: ms | None => ms end)
          end
      end
  end.

(** [n] calls of [Read], each message looked at when it is returned. *)
Fixpoint receive (n : nat) : go RtmpConn (list (ChunkStream bytes)) :=
  match n with
  | O => mret []
  | S n =>
      r ← RtmpConn_Read;
      m ← gets (λ c, message_at (c_heap c) r);
      ms ← receive n;
      mret (m :: ms)
  end.

Lemma a_step_pass a c e w a' out rest : conn_refines a c → ev_sendable e →
  a_step a e = Some (w, a', out) → rw_in (c_rw c) = w ++ rest →
  ∃ r c', Read_pass c = (Ok r, c') ∧ conn_refines a' c' ∧ rw_in (c_rw c') = rest ∧
    option_map (message_at (c_heap c')) r = option_map delivered out.
Proof.
  intros Hr He Ha Hin. destruct e as [m|i]; simpl in *.
  - destruct (a_part a !! CSID m) eqn:Hp; [done|]. injection Ha as Ha.
    destruct (Read_pass_chunk a c m 0 w a' out rest) as (r & c' & ? & ? & ? & ? & _);
      try done; [unfold progress; by rewrite Hp| |by exists r, c'].
    pose proof (sd_data _ He). destruct (Data m); [done|simpl; lia].
  - pose proof (cr_slots _ _ Hr i) as Hs. destruct (a_part a !! i) as [[m n]|] eqn:Hp; [|done].
    destruct Hs as (Hm & <- & Hn & _). injection Ha as Ha.
    destruct (Read_pass_chunk a c m n w a' out rest) as (r & c' & ? & ? & ? & ? & _);
      try done; [unfold progress; by rewrite Hp|lia|by exists r, c'].
Qed.

Lemma a_step_nonempty a e w a' out : a_step a e = Some (w, a', out) → (0 < length w)%nat.
Proof.
  assert (Hc : ∀ m n w a' out, a_chunk a m n = (w, a', out) → (0 < length w)%nat).
  { intros m n w0 a0 out0. unfold a_chunk, chunk_header, basic_header. simpl.
    destruct (Nat.leb _ _); intros [= <- _ _]; rewrite !length_app;
      destruct (CSID m <? 64); [simpl; lia|destruct (_ <? 256); simpl; lia|
        simpl; lia|destruct (_ <? 256); simpl; lia]. }
  destruct e as [m|i]; simpl.
  - destruct (a_part a !! CSID m); [done|]. intros [= H]. by eapply Hc.
  - destruct (a_part a !! i) as [[m n]|]; [|done]. intros [= H]. by eapply Hc.
Qed.

(** Reading up to the first message that a schedule completes. *)
Lemma Read_loop_run evs : ∀ a c w a' m ms rest fuel,
  conn_refines a c → Forall ev_sendable evs → a_run a evs = Some (w, a', m :: ms) →
  rw_in (c_rw c) = w ++ rest → (length w < fuel)%nat →
  ∃ r c' evs1 a1 w1, Read_loop fuel c = (Ok r, c') ∧ conn_refines a1 c' ∧
    message_at (c_heap c') r = delivered m ∧ Forall ev_sendable evs1 ∧
    a_run a1 evs1 = Some (w1, a', ms) ∧ rw_in (c_rw c') = w1 ++ rest.
Proof.
  induction evs as [|e evs IH]; intros a c w a' m ms rest fuel Hr He Ha Hin Hfuel; [done|].
  apply Forall_cons in He as [He Hes]. simpl in Ha.
  destruct (a_step a e) as [[[w0 a0] out]|] eqn:Hstep; [|done].
  destruct (a_run a0 evs) as [[[w1 a1] ms1]|] eqn:Hrun; [|done].
  injection Ha as <- <- Hms. rewrite <- app_assoc in Hin.
  pose proof (a_step_nonempty _ _ _ _ _ Hstep) as Hne. rewrite length_app in Hfuel.
  destruct (a_step_pass a c e w0 a0 out (w1 ++ rest) Hr He Hstep Hin)
    as (r & c1 & Hpass & Hr1 & Hin1 & Hout).
  destruct fuel as [|fuel]; [lia|]. cbn [Read_loop]. erewrite go_bind_ok by exact Hpass.
  destruct out as [m0|], r as [r|]; try done.
  - injection Hms as -> ->. exists r, c1, evs, a0, w1. simpl in Hout.
    split_and!; try done. congruence.
  - subst ms1. eapply IH; try done. lia.
Qed.

Lemma receive_run ms : ∀ evs a c w a' rest,
  conn_refines a c → Forall ev_sendable evs → a_run a evs = Some (w, a', ms) →
  rw_in (c_rw c) = w ++ rest →
  ∃ c', receive (length ms) c = (Ok (delivered <$> ms), c').
Proof.
  induction ms as [|m ms IH]; intros evs a c w a' rest Hr He Ha Hin; [by exists c|].
  destruct (Read_loop_run evs a c w a' m ms rest (S (length (rw_in (c_rw c)))))
    as (r & c1 & evs1 & a1 & w1 & Heq & Hr1 & Hm & He1 & Ha1 & Hin1); try done.
  { rewrite Hin, length_app. lia. }
  cbn [length receive]. erewrite go_bind_ok by exact Heq. rewrite go_bind_gets, Hm.
  destruct (IH evs1 a1 c1 w1 a' rest Hr1 He1 Ha1 Hin1) as (c2 & Heq2).
  erewrite go_bind_ok by exact Heq2. by exists c2.
Qed.

(** ** The chunks of one message *)

Lemma a_run_app a e1 e2 w1 a1 m1 w2 a2 m2 :
  a_run a e1 = Some (w1, a1, m1) → a_run a1 e2 = Some (w2, a2, m2) →
  a_run a (e1 ++ e2) = Some (w1 ++ w2, a2, m1 ++ m2).
Proof.
  revert a w1 m1. induction e1 as [|e e1 IH]; intros a w1 m1 H1 H2; simpl in *.
  - by injection H1 as <- -> <-.
  - destruct (a_step a e) as [[[w a3] out]|]; [|done].
    destruct (a_run a3 e1) as [[[w3 a4] m3]|] eqn:E; [|done].
    injection H1 as <- -> <-. rewrite (IH _ _ _ E H2), app_assoc. by destruct out.
Qed.

(** What the caller of [Read] gets of a message. *)
Definition visible (m : ChunkStream bytes) : list (ChunkStream bytes) :=
  if is_control (TypeID m) then [] else [m].

Lemma run_rest m p s w : sendable m → 0 < s → p !! CSID m = None →
  ∀ j n, (0 < n < length (Data m))%nat → (length (Data m) - n ≤ j)%nat →
  ∃ evs, Forall ev_sendable evs ∧
    a_run (mkA s w (<[CSID m := (m, n)]> p)) evs
      = Some (wire_rest j (chunk_header (set_Format 3 m)) (Z.to_nat s) (drop n (Data m)),
              a_control m (mkA s w p), visible m).
Proof.
  intros Hm Hs Hp. induction j as [|j IH]; intros n Hn Hj; [lia|].
  set (k := Z.to_nat s). assert (Hk : (0 < k)%nat) by lia.
  assert (Hdrop : ∃ x d, drop n (Data m) = x :: d).
  { destruct (drop n (Data m)) as [|x d] eqn:E; [|eauto].
    apply (f_equal length) in E. rewrite length_drop in E. simpl in E. lia. }
  destruct Hdrop as (x & d & Hd). cbn [wire_rest]. rewrite Hd, <- Hd, drop_drop.
  assert (Hstep : ∀ r, a_step (mkA s w (<[CSID m := (m, n)]> p)) (Cont (CSID m)) = Some r ↔
    a_chunk (mkA s w (<[CSID m := (m, n)]> p)) m n = r).
  { intros r. simpl. rewrite lookup_insert_eq. split; congruence. }
  unfold a_chunk in Hstep. rewrite (proj2 (Nat.eqb_neq n 0)) in Hstep by lia.
  simpl a_size in Hstep. fold k in Hstep.
  destruct (Nat.leb_spec (length (Data m)) (n + k)) as [Hle|Hgt].
  - exists [Cont (CSID m)]. split; [by repeat constructor|]. cbn [a_run].
    rewrite (proj2 (Hstep _) eq_refl). simpl a_part. rewrite delete_insert_id by done.
    rewrite (drop_ge (Data m) (n + k)) by lia.
    unfold visible. rewrite !app_nil_r. destruct j, (is_control _); simpl; by rewrite ?app_nil_r.
  - destruct (IH (n + k)%nat) as (evs & Hevs & Hrun); [lia|lia|].
    exists (Cont (CSID m) :: evs). split; [by constructor|]. cbn [a_run].
    rewrite (proj2 (Hstep _) eq_refl). simpl a_part. rewrite insert_insert_eq.
    simpl a_size. simpl a_window. rewrite Hrun. by rewrite <- app_assoc.
Qed.

(** The chunks [writeChunk] cuts a message into, as a schedule. *)
Lemma run_message a m : sendable m → 0 < a_size a → a_part a !! CSID m = None →
  ∃ evs, Forall ev_sendable evs ∧
    a_run a evs = Some (message_wire (Z.to_nat (a_size a)) m, a_control m a, visible m).
Proof.
  destruct a as [s w p]. simpl. intros Hm Hs Hp. set (k := Z.to_nat s).
  assert (Hstep : a_step (mkA s w p) (Start m) = Some (a_chunk (mkA s w p) m 0))
    by (simpl; by rewrite Hp).
  unfold a_chunk in Hstep. simpl a_size in Hstep. simpl a_part in Hstep.
  simpl a_window in Hstep. simpl Nat.eqb in Hstep. cbv iota in Hstep.
  rewrite drop_0, Nat.add_0_l in Hstep. fold k in Hstep. unfold message_wire.
  destruct (Nat.leb_spec (length (Data m)) k) as [Hle|Hgt].
  - exists [Start m]. split; [by apply Forall_singleton|]. cbn [a_run]. rewrite Hstep.
    rewrite delete_id by done. rewrite (drop_ge (Data m) k) by lia.
    unfold visible. rewrite app_assoc, app_nil_r.
    destruct (length (Data m)), (is_control _); simpl; by rewrite ?app_nil_r.
  - destruct (run_rest m p s w Hm Hs Hp (length (Data m)) k) as (evs & Hevs & Hrun); [lia|lia|].
    exists (Start m :: evs). split; [by constructor|]. cbn [a_run]. rewrite Hstep, Hrun.
    by rewrite <- app_assoc.
Qed.

(** ** Sessions *)

(** The value a SetChunkSize message carries. *)
Definition size_value (m : ChunkStream bytes) : Z := be_combine (take 4 (Data m)).

(** The chunk size changes on the two sides at the two ends of a SetChunkSize message:
    it must be one chunk under both. *)
Fixpoint session_ok (k : Z) (ms : list (ChunkStream bytes)) : Prop :=
  match ms with
  | [] => True
  | m :: ms =>
      sendable m ∧ (TypeID m = 1 → len (Data m) ≤ Z.min k (size_value m)) ∧
      session_ok (if TypeID m =? 1 then size_value m else k) ms
  end.

Fixpoint write_all (ms : list (ChunkStream bytes)) : go RtmpConn unit :=
  match ms with
  | [] => mret tt
  | m :: ms => _ ← RtmpConn_Write m; write_all ms
  end.

(** The messages of a session the reader hands to its caller. *)
Definition media (ms : list (ChunkStream bytes)) : list (ChunkStream bytes) :=
  ms ≫= λ m, visible (writeChunk_csid m).

Lemma writeChunk_csid_cases (m : ChunkStream bytes) : ∃ c, writeChunk_csid m = set_CSID c m ∧
  (c = CSID m ∨ 2 ≤ c < 65600).
Proof.
  unfold writeChunk_csid. destruct (_ =? _); [exists 4; split; [done|right; lia]|].
  destruct (_ || _); [exists 6; split; [done|right; lia]|].
  exists (CSID m). split; [by destruct m|by left].
Qed.

Lemma sendable_csid m : sendable m → sendable (writeChunk_csid m).
Proof.
  intros [[? ? ? ? ? ?] ? ? ? ?]. destruct (writeChunk_csid_cases m) as (c & -> & Hc).
  constructor; try done. constructor; try done. simpl. by destruct Hc as [->|].
Qed.

Lemma message_wire_single k m : (length (Data m) ≤ k)%nat →
  message_wire k m = chunk_header (set_Format 0 m) ++ Data m.
Proof.
  intros Hk. unfold message_wire. rewrite drop_ge, take_ge by done.
  destruct (length _); simpl; by rewrite app_nil_r.
Qed.

Lemma sendable_wf m : sendable m → msg_wf m.
Proof.
  intros [[? [? ?] ? ? ? ?] ? ? ? ?]. constructor; try done.
  change (2 ^ 24) with 16777216 in *. lia.
Qed.

Lemma BigEndian_Uint32_value m : sendable m → TypeID m = 1 →
  BigEndian_Uint32 (Data m) = Ok (size_value m) ∧ 0 < size_value m < 2 ^ 32.
Proof.
  intros Hm Ht. assert (Hl : (4 ≤ length (Data m))%nat) by (apply (sd_control _ Hm); auto).
  split.
  - rewrite <- (app_nil_r (Data m)). by rewrite BigEndian_Uint32_app.
  - split; [by apply (sd_size _ Hm)|].
    pose proof (be_combine_bound (take 4 (Data m)) (Forall_take _ _ _ (sd_bytes _ Hm))) as Hb.
    unfold len in Hb. rewrite length_take, Nat.min_l in Hb by done. apply Hb.
Qed.

(** One [Write]: the size it leaves, and the bytes; nothing else changes. *)
Definition next_size (k : Z) (m : ChunkStream bytes) : Z :=
  if TypeID m =? 1 then size_value m else k.

Lemma RtmpConn_Write_sends m c : can_write c → sendable m →
  let k := next_size (chunkSize c) m in
  0 < k < 2 ^ 32 ∧
  ∃ m' rw', RtmpConn_Write m c = (Ok m', set_rw rw' (set_chunkSize k c)) ∧
    rw_wrote (message_wire (Z.to_nat k) (writeChunk_csid m)) (c_rw c) rw'.
Proof.
  intros [Hw Hk] Hm k.
  assert (Hk' : 0 < k < 2 ^ 32).
  { subst k. unfold next_size. destruct (Z.eqb_spec (TypeID m) 1); [|done].
    by apply BigEndian_Uint32_value. }
  split; [done|].
  destruct (writeChunk_writes m k) as (m' & Hwr); [by apply sendable_wf|by apply Hm|done|].
  destruct (Hwr (c_rw c) Hw) as (rw' & Heq & Hwrote).
  assert (Hsize : (if TypeID m =? idSetChunkSize
    then v ← lift (BigEndian_Uint32 (Data m)); modify (set_chunkSize v) else mret tt) c
    = (Ok tt, set_chunkSize k c)).
  { subst k. unfold next_size, idSetChunkSize. destruct (Z.eqb_spec (TypeID m) 1).
    - by erewrite go_bind_lift by by apply BigEndian_Uint32_value.
    - by destruct c. }
  exists m', rw'. split; [|done]. unfold RtmpConn_Write.
  erewrite go_bind_ok by exact Hsize. rewrite go_bind_gets. unfold conn_rw. simpl.
  by rewrite Heq.
Qed.

Lemma RtmpConn_Write_ok m c : can_write c → sendable m →
  let k := if TypeID m =? 1 then size_value m else chunkSize c in
  ∃ m' c', RtmpConn_Write m c = (Ok m', c') ∧ can_write c' ∧ chunkSize c' = k ∧
    rw_stream (c_rw c') = rw_stream (c_rw c) ++ message_wire (Z.to_nat k) (writeChunk_csid m).
Proof.
  intros Hc Hm k.
  destruct (RtmpConn_Write_sends m c Hc Hm) as (Hk & m' & rw' & E & Hw & Hst & _).
  exists m', (set_rw rw' (set_chunkSize k c)). by split_and!.
Qed.

Lemma write_all_ok ms : ∀ a c, can_write c → chunkSize c = a_size a → a_part a = ∅ →
  session_ok (a_size a) ms →
  ∃ c' w evs a', write_all ms c = (Ok tt, c') ∧ can_write c' ∧
    rw_stream (c_rw c') = rw_stream (c_rw c) ++ w ∧
    Forall ev_sendable evs ∧ a_run a evs = Some (w, a', media ms).
Proof.
  induction ms as [|m ms IH]; intros a c Hc Hsz Hp Hok.
  { exists c, [], [], a. rewrite app_nil_r. by split_and!. }
  destruct Hok as (Hm & Hfit & Hok). rewrite <- Hsz in *.
  destruct (RtmpConn_Write_ok m c Hc Hm) as (m' & c1 & Hw & Hc1 & Hk1 & Hst).
  destruct (writeChunk_csid_cases m) as (i & Hi & _).
  pose proof (sendable_csid m Hm) as Hm'. destruct Hc as [Hwok Hk].
  destruct (run_message a (writeChunk_csid m)) as (evs1 & He1 & Hr1);
    [done|lia|by rewrite Hp|].
  set (a1 := a_control (writeChunk_csid m) a) in *.
  assert (Ha1 : a_size a1 = chunkSize c1 ∧ a_part a1 = ∅).
  { rewrite Hk1. subst a1. unfold a_control, idSetChunkSize. rewrite Hi. simpl.
    destruct (TypeID m =? 1); [done|]. destruct (TypeID m =? _); done. }
  destruct Ha1 as [Hs1 Hp1].
  destruct (IH a1 c1) as (c2 & w2 & evs2 & a2 & Hw2 & Hc2 & Hst2 & He2 & Hr2); try done.
  { by rewrite Hs1, Hk1. }
  exists c2, (message_wire (Z.to_nat (a_size a)) (writeChunk_csid m) ++ w2), (evs1 ++ evs2), a2.
  split; [by cbn [write_all]; erewrite go_bind_ok by exact Hw|]. split; [done|].
  split; [|split; [by apply Forall_app|by eapply a_run_app]].
  rewrite Hst2, Hst, <- app_assoc. f_equal. f_equal.
  destruct (Z.eqb_spec (TypeID m) 1) as [E|]; [|by rewrite Hsz].
  specialize (Hfit E). unfold len in Hfit. rewrite Hi, <- Hsz.
  by rewrite !message_wire_single by (simpl; lia).
Qed.

Lemma NewRtmpConn_refines rw : rw_wok rw → readError rw = None →
  conn_refines (mkA 128 2500000 ∅) (NewRtmpConn rw).
Proof.
  intros Hw Hr. by constructor.
Qed.

(** What a connection that ended properly leaves on the wire. *)
Definition session (ms : list (ChunkStream bytes)) : go RtmpConn unit :=
  _ ← write_all ms; RtmpConn_Flush.

(** C4: Two connections agree on a session of messages that chunks can carry: all messages
    written to one connection (media messages cut into chunks, SetChunkSize and window
    messages in between), then flushed, are what the reader at the other end gets from its
    calls of [Read], in order and with their contents, while it obeys the control messages;
    the bytes that follow on the wire do not matter.  [session_ok] says which messages:
    with a time stamp below 0xffffff, so that it is not extended; with data that is not
    empty, that consists of bytes and whose length is that in the header and fits into
    24 bits; with type, stream and chunk stream in their widths; a SetChunkSize or a window
    message of four bytes at least, and a SetChunkSize of a positive size, that fits into
    one chunk under the size before it and under its own.  With an extended time stamp the
    two ends get out of step ([extended_timestamp_desync]). *)
Theorem session_roundtrip ms rww :
  session_ok 128 ms → rw_wok rww → rw_stream rww = [] →
  ∃ cw, session ms (NewRtmpConn rww) = (Ok tt, cw) ∧
    ∀ rwr rest, rw_wok rwr → readError rwr = None →
      rw_in rwr = bw_sent (rw_w (c_rw cw)) ++ rest →
      ∃ c, receive (length (media ms)) (NewRtmpConn rwr) = (Ok (delivered <$> media ms), c).
Proof.
  intros Hok Hww Hst.
  destruct (write_all_ok ms (mkA 128 2500000 ∅) (NewRtmpConn rww))
    as (c1 & w & evs & a' & Hw & [Hw1 _] & Hst1 & Hevs & Hrun); try done.
  destruct (RW_Flush_ok (c_rw c1) Hw1) as (rw' & Hf & _ & Hsent).
  exists (set_rw rw' c1). split.
  { unfold session. erewrite go_bind_ok by exact Hw. unfold RtmpConn_Flush, conn_rw.
    by rewrite Hf. }
  intros rwr rest Hwr Hre Hin. simpl in Hin, Hst1. rewrite Hsent, Hst1, Hst in Hin.
  eapply receive_run; [by apply NewRtmpConn_refines|exact Hevs|exact Hrun|exact Hin].
Qed.

(** C5: Chunks of different messages may be interleaved in any way: the reader returns
    the messages of a schedule in the order in which their last chunks arrive, each with
    the bytes that were sent for it. *)
Theorem interleaved_chunks evs rw w a ms rest :
  rw_wok rw → readError rw = None → Forall ev_sendable evs →
  a_run (mkA 128 2500000 ∅) evs = Some (w, a, ms) → rw_in rw = w ++ rest →
  ∃ c, receive (length ms) (NewRtmpConn rw) = (Ok (delivered <$> ms), c).
Proof.
  intros Hw Hr He Hrun Hin.
  eapply receive_run; [by apply NewRtmpConn_refines|exact He|exact Hrun|exact Hin].
Qed.

(** *** Witnesses *)

(** An audio message of two chunks, a new chunk size, and a command. *)
Definition sample_session : list (ChunkStream bytes) :=
  [newCS 0 4 0 200 8 1 (replicate 200 7); newCS 0 2 0 4 1 0 [0; 0; 16; 0];
   newCS 0 3 10 5 20 0 [1; 2; 3; 4; 5]].

Definition sample_rw (input : bytes) : ReadWriter := NewReadWriter input EOF None 4096.

Lemma sample_rw_wok input : rw_wok (sample_rw input).
Proof. repeat split; simpl; done || lia. Qed.

Ltac sendable_sample :=
  constructor; [constructor; simpl; done || lia|done| |simpl; lia|simpl; done];
  repeat (apply Forall_cons; split; [done|]); apply Forall_nil; done.

Lemma session_roundtrip_witness :
  ∃ cw c, session sample_session (NewRtmpConn (sample_rw [])) = (Ok tt, cw) ∧
    receive 2 (NewRtmpConn (sample_rw (bw_sent (rw_w (c_rw cw)))))
      = (Ok [newCS 0 4 0 200 8 1 (replicate 200 7); newCS 0 3 10 5 20 0 [1; 2; 3; 4; 5]], c).
Proof.
  destruct (session_roundtrip sample_session (sample_rw [])) as (cw & Hs & H);
    [|apply sample_rw_wok|reflexivity|].
  { simpl. split_and!; try done; sendable_sample. }
  destruct (H (sample_rw (bw_sent (rw_w (c_rw cw)))) []) as [c Hc];
    [apply sample_rw_wok|reflexivity| |].
  - symmetry. apply app_nil_r.
  - exists cw, c. split; [exact Hs|exact Hc].
Defined.

(** Two messages whose chunks alternate; the shorter one is complete first. *)
Definition sample_schedule : list chunk_ev :=
  [Start (newCS 0 4 0 200 8 1 (replicate 200 7)); Start (newCS 0 6 5 130 9 1 (replicate 130 8));
   Cont 6; Cont 4].

Lemma interleaved_chunks_witness :
  ∃ c, receive 2 (NewRtmpConn (sample_rw (match a_run (mkA 128 2500000 ∅) sample_schedule with
      Some (w, _, _) => w | None => [] end)))
    = (Ok [newCS 0 6 5 130 9 1 (replicate 130 8); newCS 0 4 0 200 8 1 (replicate 200 7)], c).
Proof.
  eapply (interleaved_chunks sample_schedule _ _ _
    [newCS 0 6 5 130 9 1 (replicate 130 8); newCS 0 4 0 200 8 1 (replicate 200 7)] []);
    [apply sample_rw_wok|reflexivity| |vm_compute; reflexivity|].
  - apply Forall_cons; split; [simpl; sendable_sample|].
    apply Forall_cons; split; [simpl; sendable_sample|]. by repeat constructor.
  - vm_compute. reflexivity.
Defined.
