(* ===== verification/ConnSafe.v ===== *)
(** * Connections under any input and any failure of the output

    [Read] is shown to end on every byte stream, to keep its chunk streams inside their
    buffers, and to panic only for the reasons [read_panic] lists; then
    come inputs that make it panic, and the type of a connection under any sequence of
    operations. *)
From S2P Require Import Prelude Pio GoIO ReadWriter Av Chunk Conn.

(** ** Writing never disturbs the reading side and never panics *)

Definition rw_frame (rw rw' : ReadWriter) : Prop :=
  rw_in rw' = rw_in rw ∧ rw_in_err rw' = rw_in_err rw ∧ readError rw' = readError rw.

Definition writer_safe {A} (m : go ReadWriter A) : Prop :=
  ∀ rw, runs (rw_frame rw) (λ _, rw_frame rw) m rw.

Lemma rw_frame_trans a b c : rw_frame a b → rw_frame b c → rw_frame a c.
Proof. intros (? & ? & ?) (? & ? & ?). unfold rw_frame. intuition congruence. Qed.

Lemma rw_frame_refl rw : rw_frame rw rw.
Proof. done. Qed.

Lemma writer_safe_ret {A} (a : A) : writer_safe (mret a).
Proof. intros rw. apply rw_frame_refl. Qed.

Lemma writer_safe_bind {A B} (m : go ReadWriter A) (k : A → go ReadWriter B) :
  writer_safe m → (∀ a, writer_safe (k a)) → writer_safe (m ≫= k).
Proof.
  intros Hm Hk rw. eapply runs_bind; [apply Hm|]. intros a rw' Hf. simpl in Hf.
  eapply runs_mono; [apply Hk|..]; simpl; intros; (eapply rw_frame_trans; eassumption).
Qed.

Lemma writer_safe_if {A} (b : bool) (m1 m2 : go ReadWriter A) :
  writer_safe m1 → writer_safe m2 → writer_safe (if b then m1 else m2).
Proof. by destruct b. Qed.

Lemma writer_safe_ignore {A} (d : A) m : writer_safe m → writer_safe (ignore_err d m).
Proof.
  intros Hm rw. specialize (Hm rw). unfold outcome, ignore_err in *.
  by destruct (m rw) as [[a|e|p|] rw'].
Qed.

Lemma writer_safe_lift {A} (r : res A) a : r = Ok a → writer_safe (lift r).
Proof. intros -> rw. apply rw_frame_refl. Qed.

(** The writer of bufio returns a value or an error. *)
Definition never_panics {A} (m : go BufioWriter A) : Prop :=
  ∀ b, match (m b).1 with Ok _ | Err _ => True | _ => False end.

Lemma writer_safe_on {A} (m : go BufioWriter A) : never_panics m → writer_safe (on_writer m).
Proof.
  intros Hm rw. specialize (Hm (rw_w rw)). unfold outcome, on_writer.
  by destruct (m (rw_w rw)) as [[a|e|p|] w'].
Qed.

Lemma never_panics_Flush : never_panics bw_Flush.
Proof.
  intros b. unfold bw_Flush. destruct (bw_err b); [done|]. destruct (_ =? 0); [done|].
  destruct (conn_Write _ _) as [[n e] b']. repeat case_match; done.
Qed.

Lemma never_panics_WriteByte c : never_panics (bw_WriteByte c).
Proof.
  intros b. unfold bw_WriteByte. destruct (bw_err b); [done|].
  pose proof (never_panics_Flush b). repeat case_match; simpl in *; done.
Qed.

Lemma never_panics_Write p : never_panics (io_Write p).
Proof. intros b. unfold io_Write, bufio_writer. repeat case_match; done. Qed.


(** ** writeChunk on any connection *)

Lemma write_uint_safe byte_of next n : ∀ i v, writer_safe (write_uint byte_of next n i v).
Proof.
  induction n as [|n IH]; intros i v rw; [apply rw_frame_refl|].
  unfold outcome. cbn [write_uint].
  pose proof (writer_safe_on _ (never_panics_WriteByte (byte_of i v)) rw) as Hb.
  unfold outcome in Hb. destruct (on_writer _ rw) as [[a|e|p|] rw']; try done.
  specialize (IH (i + 1) (next v) rw'). unfold outcome in IH.
  destruct (write_uint _ _ _ _ _ rw') as [[a'|e|p|] rw2]; try done; by eapply rw_frame_trans.
Qed.

Lemma putBE_safe v n : writer_safe (putBE v n).
Proof.
  apply writer_safe_ignore. intros rw. unfold outcome, WriteUintBE.
  destruct (writeError rw); [apply rw_frame_refl|]. apply write_uint_safe.
Qed.

Lemma putLE_safe v n : writer_safe (putLE v n).
Proof.
  apply writer_safe_ignore. intros rw. unfold outcome, WriteUintLE.
  destruct (writeError rw); [apply rw_frame_refl|]. apply write_uint_safe.
Qed.

Lemma RW_Write_safe p : writer_safe (RW_Write p).
Proof.
  intros rw. unfold outcome, RW_Write. destruct (writeError rw); [apply rw_frame_refl|].
  apply writer_safe_on, never_panics_Write.
Qed.

Lemma RW_Flush_safe : writer_safe RW_Flush.
Proof.
  intros rw. unfold outcome, RW_Flush. destruct (writeError rw); [apply rw_frame_refl|].
  destruct (_ =? 0); [apply rw_frame_refl|]. apply writer_safe_on, never_panics_Flush.
Qed.

Lemma writeHeader_end_safe ts t : writer_safe (writeHeader_end ts t).
Proof.
  apply writer_safe_bind; [apply writer_safe_if; [apply putBE_safe|apply writer_safe_ret]|].
  intros _ rw. apply runs_bind_gets. destruct (WriteError rw); apply rw_frame_refl.
Qed.

Create HintDb wsafe.
#[local] Hint Resolve writer_safe_ret writer_safe_bind writer_safe_if putBE_safe putLE_safe
  RW_Write_safe writeHeader_end_safe : wsafe.

Lemma writeHeader_safe {D} (cs : ChunkStream D) : writer_safe (writeHeader cs).
Proof.
  assert (Hfail : ∀ e, writer_safe (fail (A := unit) e)) by (intros e rw; apply rw_frame_refl).
  unfold writeHeader, writeBasicHeader. auto 20 with wsafe.
Qed.

(** A message whose length is that of its data goes out without a panic whatever the
    connection does. *)
Lemma writeChunk_loop_safe n k : ∀ i tot cs,
  Length cs = len (Data cs) → len (Data cs) < 2 ^ 32 → 0 < k < 2 ^ 32 →
  (tot = Length cs ∨ tot = i * k ∧ 0 ≤ i ∧ tot < Length cs) →
  writer_safe (writeChunk_loop n i tot k cs).
Proof.
  induction n as [|n IH]; intros i tot cs Hl Hmax Hk Htot; [apply writer_safe_ret|].
  cbn [writeChunk_loop]. destruct (Z.eqb_spec tot (Length cs)); [apply writer_safe_ret|].
  destruct Htot as [|(-> & Hi & Hlt)]; [done|]. pose proof (len_nonneg (Data cs)).
  assert (Hi' : i < 2 ^ 32) by nia.
  apply writer_safe_bind; [apply writeHeader_safe|]. intros _. simpl.
  rewrite !(u32_small (i * k)), (u32_small (len (Data cs))) by (unfold fits; nia).
  rewrite (u32_small (len (Data cs) - i * k)) by (unfold fits; nia).
  replace (if _ <=? k then _ else k) with (Z.min k (len (Data cs) - i * k))
    by (destruct (_ <=? k) eqn:E; go_bool; lia).
  rewrite (u32_small (i * k + _)) by (unfold fits; nia).
  eapply writer_safe_bind.
  { eapply writer_safe_lift. apply slice_ok; nia. }
  intros buf. apply writer_safe_bind; [apply RW_Write_safe|]. intros _.
  apply IH; simpl; try done.
  destruct (Z.le_gt_cases (len (Data cs) - i * k) k); [left; lia|right].
  rewrite u32_small by (unfold fits; nia). nia.
Qed.

Lemma writeChunk_safe cs k : Length cs = len (Data cs) → len (Data cs) < 2 ^ 32 →
  0 < k < 2 ^ 32 → writer_safe (writeChunk cs k).
Proof.
  intros Hl Hmax Hk. unfold writeChunk. rewrite u32_small by (unfold fits; lia).
  rewrite (proj2 (Z.eqb_neq _ _)) by lia.
  destruct (writeChunk_csid_cases cs) as (c & -> & _).
  apply writeChunk_loop_safe; simpl; try done. pose proof (len_nonneg (Data cs)). lia.
Qed.

(** ** Reading any input *)

(** What [Read] needs of a connection, whatever arrives on it. *)
Record conn_inv (c : RtmpConn) : Prop := {
  ci_slots : ∀ i cs, chunks c !! i = Some cs →
    cs_wf (c_heap c) cs ∧ fits 32 (Length cs);
  ci_table : table_wf (c_heap c) (chunks c);
  ci_in : Forall is_byte (rw_in (c_rw c));
  ci_heap : Forall (Forall is_byte) (c_heap c);
  ci_remote : 0 ≤ remoteChunkSize c;
  ci_size : 0 ≤ chunkSize c < 2 ^ 32;
}.

(** The only reasons [Read] panics for: a header that changed the length of a message
    after its first chunk, a control message shorter than its value, and an
    acknowledgement on a connection whose own chunk size is 0. *)
Definition read_panic (c : RtmpConn) (p : panic) : Prop :=
  p = SliceBounds ∨ p = IndexOutOfRange ∨ (p = DivideByZero ∧ chunkSize c = 0).

(** [c'] comes after [c]: still a good connection, with no more input than before. *)
Record conn_frame (c c' : RtmpConn) : Prop := {
  fr_inv : conn_inv c';
  fr_size : chunkSize c' = chunkSize c;
  fr_in : (length (rw_in (c_rw c')) ≤ length (rw_in (c_rw c)))%nat;
}.

Lemma conn_frame_refl c : conn_inv c → conn_frame c c.
Proof. by constructor. Qed.

Lemma conn_frame_trans a b c : conn_frame a b → conn_frame b c → conn_frame a c.
Proof. intros [_ Hs1 Hi1] [Hinv Hs2 Hi2]. constructor; [done|congruence|lia]. Qed.

Lemma conn_frame_rw c rw : conn_inv c → Forall is_byte (rw_in rw) →
  (length (rw_in rw) ≤ length (rw_in (c_rw c)))%nat → conn_frame c (set_rw rw c).
Proof. intros [] ? ?. constructor; [by constructor|done..]. Qed.

Definition rd_frame (rw rw' : ReadWriter) : Prop :=
  Forall is_byte (rw_in rw') ∧ (length (rw_in rw') ≤ length (rw_in rw))%nat.

Lemma rw_ReadByte_safe rw : Forall is_byte (rw_in rw) →
  runs (rd_frame rw) (λ _ rw', Forall is_byte (rw_in rw') ∧
    (length (rw_in rw') < length (rw_in rw))%nat) rw_ReadByte rw.
Proof.
  intros Hb. unfold outcome, rw_ReadByte, rd_frame. destruct (rw_in rw) as [|b i] eqn:E.
  - by rewrite E.
  - apply Forall_cons in Hb as [_ Hb]. simpl. split; [done|lia].
Qed.

Lemma read_uint_safe step n : ∀ i r rw, Forall is_byte (rw_in rw) →
  runs (rd_frame rw) (λ _, rd_frame rw) (read_uint step n i r) rw.
Proof.
  induction n as [|n IH]; intros i r rw Hb; [by split|].
  unfold outcome. cbn [read_uint]. pose proof (rw_ReadByte_safe rw Hb) as H.
  unfold outcome in H. destruct (rw_ReadByte rw) as [[b|e|p|] rw1]; try done.
  destruct H as [Hb1 Hl1]. specialize (IH (i + 1) (step r i b) rw1 Hb1). unfold outcome in IH.
  unfold rd_frame in *. destruct (read_uint _ _ _ _ rw1) as [[?|?|?|] ?]; try done;
    split; try lia; apply IH.
Qed.

Lemma readBasicHeader_safe rw : Forall is_byte (rw_in rw) →
  runs (rd_frame rw) (λ _ rw', Forall is_byte (rw_in rw') ∧
    (length (rw_in rw') < length (rw_in rw))%nat) readBasicHeader rw.
Proof.
  intros Hb. unfold readBasicHeader. eapply runs_bind; [by apply rw_ReadByte_safe|].
  intros b rw1 [Hb1 Hl1]. apply runs_if; intros _; [|apply runs_if; intros _].
  - eapply runs_bind; [|by intros ? ? H; apply runs_ret; exact H].
    eapply runs_mono; [by apply rw_ReadByte_safe|..]; unfold rd_frame; simpl;
      intros; intuition lia.
  - eapply runs_bind; [|by intros ? ? H; apply runs_ret; exact H].
    assert (Hu : runs (rd_frame rw1) (λ _, rd_frame rw1) (ReadUintLE 2) rw1).
    { unfold outcome, ReadUintLE. destruct (readError rw1); [by split|].
      by apply read_uint_safe. }
    eapply runs_mono; [exact Hu|..]; unfold rd_frame; simpl; intros; intuition lia.
  - by apply runs_ret.
Qed.

(** ** The steps of a pass *)

Lemma conn_readChunk_safe i f c : conn_inv c →
  runs (conn_frame c) (λ cs c', conn_frame c c' ∧ chunks c' !! i = Some cs)
    (conn_readChunk i f) c.
Proof.
  intros Hinv. pose proof Hinv as [Hs Ht Hin Hheap Hrem Hsz]. unfold outcome, conn_readChunk.
  fold (conn_slot i c). set (cs := conn_slot i c). set (s := mkR _ _ _).
  assert (Hs0 : chunk_inv s).
  { assert (cs_wf (c_heap c) cs ∧ fits 32 (Length cs)) as [[] ?].
    { subst cs. unfold conn_slot. destruct (chunks c !! i) as [cs|] eqn:E; [by eapply Hs|].
      split; [constructor; simpl; done || lia|done]. }
    split_and!; try done. }
  pose proof (readChunk_safe (remoteChunkSize c) s Hs0 Hrem) as Hsafe. unfold outcome in Hsafe.
  destruct (readChunk _ s) as [r s']. set (c' := set_rw _ _).
  assert (Hf : chunk_frame s s' → conn_frame c c' ∧ chunks c' !! i = Some (r_cs s')).
  { intros [Hwf Hlen Hby Hhb Hsh _ Hfr Hd _]. split; [|apply lookup_insert_eq].
    assert (Hstep : chunk_step (c_heap c) (Data cs) (r_heap s') (Data (r_cs s')))
      by (split_and!; [done|by destruct Hwf|done]).
    constructor; [constructor|done..]; simpl; try done.
    - intros j cj Hj. apply lookup_insert_Some in Hj as [[<- <-]|[Hne Hj]]; [done|].
      destruct (Hs j cj Hj) as [[Hd' ? ? ? ?] ?]. split; [|done].
      constructor; try done. eapply heap_frame_buf; [exact Hfr|done|].
      intros b Hb Hcs. destruct (conn_slot_in i c) as [Hi|[_ Hi]];
        [|fold cs in Hi; change (r_cs s) with (set_tmpFromat f cs) in Hcs; simpl in Hcs; congruence].
      apply Hne. destruct Ht as [Hdis _]. by eapply Hdis.
    - eapply table_wf_insert; [done|apply conn_slot_in|done]. }
  destruct r as [a|e|p|]; simpl; try done; by apply Hf.
Qed.

(** A message the caller can look at: its bytes are all in the buffer. *)
Definition message_ok (c : RtmpConn) (m : ChunkStream sref) : Prop :=
  len (sr_get (c_heap c) (Data m)) = Length m ∧ fits 32 (Length m).

Lemma completeMessage_safe c cs : cs_wf (c_heap c) cs → fits 32 (Length cs) →
  outcome (read_panic c) (λ _, False) (λ m c', c' = c ∧ message_ok c m) (completeMessage cs) c.
Proof.
  intros [(Hoff & Hsl & Hb) _ _ _ _] Hl. unfold completeMessage. apply runs_bind_gets.
  unfold outcome, mbind, go_bind, lift, sr_slice. rewrite Hoff, Z.sub_0_r, Z.add_0_l.
  destruct (_ && _) eqn:E; [|by left]. simpl. split; [done|]. split; [|done].
  go_bool. unfold sr_get, buf_of in *. simpl. unfold len, fits in *.
  rewrite Z.sub_0_r, drop_0, length_take. lia.
Qed.

Lemma be_combine_32 b : Forall is_byte b → 4 ≤ len b → fits 32 (be_combine (take 4 b)).
Proof.
  intros Hb H4. pose proof (be_combine_bound (take 4 b) (Forall_take _ _ _ Hb)) as H.
  unfold len in *. rewrite length_take, Nat.min_l in H by lia. exact H.
Qed.

Lemma BigEndian_Uint32_safe (C : panic → Prop) E (Q : Z → RtmpConn → Prop) b c :
  C IndexOutOfRange → Forall is_byte b → (∀ v, fits 32 v → Q v c) →
  outcome C E Q (lift (BigEndian_Uint32 b)) c.
Proof.
  intros HC Hb HQ. unfold outcome, lift, BigEndian_Uint32.
  destruct (4 <=? len b) eqn:E4; [|done]. go_bool. by apply HQ, be_combine_32.
Qed.

Lemma sr_get_bytes h r : Forall (Forall is_byte) h → Forall is_byte (sr_get h r).
Proof.
  intros Hh. unfold sr_get. apply Forall_take, Forall_drop. unfold buf_of.
  destruct (sr_buf r) as [i|]; [|done]. destruct (h !! i) as [b|] eqn:E; [|done].
  by eapply (Forall_lookup_1 _ h).
Qed.

Lemma handleControlMsg_safe cs c : conn_inv c →
  outcome (read_panic c) (λ _, False) (λ _ c', conn_frame c c' ∧ c_heap c' = c_heap c)
    (handleControlMsg cs) c.
Proof.
  intros Hinv. pose proof Hinv as [? ? ? ? ? ?]. pose proof (conn_frame_refl c Hinv) as Hr.
  assert (Hb : Forall is_byte (sr_get (c_heap c) (Data cs))) by by apply sr_get_bytes.
  assert (Hfit : ∀ v, fits 32 v → 0 ≤ v) by (intros v []; done).
  unfold handleControlMsg. repeat (apply runs_if; intros _); try by split.
  all: apply runs_bind_gets; eapply (runs_bind _ _ (λ v c', fits 32 v ∧ c' = c));
    [apply BigEndian_Uint32_safe; [by right; left|done|done]|].
  all: intros v c' [Hv ->]; apply runs_bind_modify, runs_ret; split; [|done].
  all: constructor; [constructor|done|done]; try done; by apply Hfit.
Qed.

Lemma ack_safe n c : conn_inv c →
  outcome (read_panic c) (λ _, False) (λ _ c', conn_frame c c' ∧ c_heap c' = c_heap c)
    (ack n) c.
Proof.
  intros Hinv. unfold ack. apply runs_bind_modify, runs_bind_modify.
  set (c1 := set_received _ _ c).
  assert (Hc2 : ∃ r a, (if 0xf0000000 <=? received c1 then set_received 0 (ackReceived c1) c1
    else c1) = set_received r a c) by (destruct (_ <=? _); by eexists _, _).
  destruct Hc2 as (r & a & ->). set (c2 := set_received r a c).
  assert (Hf2 : conn_frame c c2) by (destruct Hinv; constructor; [by constructor|done..]).
  unfold get, mbind at 1, go_bind at 1. apply (runs_if _ _ _ _ _ _ c2); intros _; [|done].
  eapply runs_bind_lift; [apply NewAck_ok|]. set (m := newCS _ _ _ _ _ _ _).
  eapply (runs_bind _ _ (λ _ c', conn_frame c c' ∧ c_heap c' = c_heap c)).
  - unfold outcome, ignore_err, conn_rw, mbind, go_bind.
    destruct (Z.eq_dec (chunkSize c2) 0) as [E|E].
    + rewrite E. unfold writeChunk. simpl (u32 0 =? 0). cbv iota. simpl. right. right. done.
    + assert (Hw : writer_safe (writeChunk m (chunkSize c2))).
      { pose proof (ci_size _ Hinv). simpl in E. apply writeChunk_safe; simpl; try done; lia. }
      specialize (Hw (c_rw c2)). unfold outcome in Hw.
      destruct (writeChunk m _ (c_rw c2)) as [[x|e|p|] rw']; try done;
        destruct Hw as (Hin & _ & _); (split; [|done]);
        (eapply conn_frame_trans; [exact Hf2|]);
        (apply conn_frame_rw; [apply Hf2|rewrite Hin; apply Hinv|by rewrite Hin]).
  - intros _ c3 [Hf3 Hh3]. apply runs_modify. split; [|done].
    eapply conn_frame_trans; [exact Hf3|]. destruct Hf3 as [[] _ _].
    constructor; [by constructor|done..].
Qed.

Lemma Read_pass_safe c : conn_inv c →
  outcome (read_panic c) (conn_frame c) (λ r c', conn_frame c c' ∧
      (length (rw_in (c_rw c')) < length (rw_in (c_rw c)))%nat ∧
      ∀ m, r = Some m → message_ok c' m) Read_pass c.
Proof.
  intros Hinv. unfold Read_pass.
  eapply (runs_bind _ _ (λ _ c', conn_frame c c' ∧
    (length (rw_in (c_rw c')) < length (rw_in (c_rw c)))%nat)).
  { pose proof (readBasicHeader_safe (c_rw c) (ci_in _ Hinv)) as H. unfold outcome, conn_rw in *.
    destruct (readBasicHeader (c_rw c)) as [[?|?|?|] rw']; try done; destruct H as [Hb Hl].
    - split; [|done]. apply conn_frame_rw; [done..|lia].
    - by apply conn_frame_rw. }
  intros [f i] c1 [Hf1 Hl1]. pose proof (fr_inv _ _ Hf1) as Hinv1.
  eapply (runs_bind _ _ (λ cs c', conn_frame c1 c' ∧ chunks c' !! i = Some cs)).
  { apply runs_outcome.
    eapply runs_mono; [by apply conn_readChunk_safe|..]; simpl; [|done].
    intros c2 Hf2. by eapply conn_frame_trans. }
  intros cs c2 [Hf2 Hcs]. pose proof (conn_frame_trans _ _ _ Hf1 Hf2) as Hf.
  pose proof (fr_inv _ _ Hf2) as Hinv2. pose proof (fr_in _ _ Hf2) as Hl2.
  destruct (ci_slots _ Hinv2 i cs Hcs) as [Hwf Hlen].
  assert (Hp : ∀ c', conn_frame c c' → ∀ p, read_panic c' p → read_panic c p).
  { intros c' [_ Hs _] p. unfold read_panic. by rewrite Hs. }
  apply runs_if; intros _.
  2: { apply runs_ret. split_and!; [done|lia|done]. }
  eapply (runs_bind _ _ (λ m c', c' = c2 ∧ message_ok c2 m)).
  { eapply outcome_weaken; [eapply runs_mono; [by apply completeMessage_safe|done..]|by apply Hp]. }
  intros m c2' [-> Hm].
  eapply (runs_bind _ _ (λ _ c', conn_frame c2 c' ∧ c_heap c' = c_heap c2)).
  { eapply outcome_weaken; [eapply runs_mono; [by apply handleControlMsg_safe|done..]|by apply Hp]. }
  intros b c3 [Hf3 Hh3]. pose proof (conn_frame_trans _ _ _ Hf Hf3) as Hf'.
  eapply (runs_bind _ _ (λ _ c', conn_frame c3 c' ∧ c_heap c' = c_heap c3)).
  { eapply outcome_weaken; [eapply runs_mono; [apply ack_safe, Hf3|done..]|by apply Hp]. }
  intros _ c4 [Hf4 Hh4]. apply runs_ret. pose proof (fr_in _ _ Hf3). pose proof (fr_in _ _ Hf4).
  split_and!; [by eapply conn_frame_trans|lia|].
  intros m' Hm'. destruct b; [done|]. injection Hm' as <-. destruct Hm as [Hm Hm'].
  split; [|done]. by rewrite Hh4, Hh3.
Qed.

Lemma Read_loop_safe fuel : ∀ c, conn_inv c → (length (rw_in (c_rw c)) < fuel)%nat →
  outcome (read_panic c) (conn_frame c) (λ m c', conn_frame c c' ∧ message_ok c' m)
    (Read_loop fuel) c.
Proof.
  induction fuel as [|fuel IH]; intros c Hinv Hfuel; [lia|]. cbn [Read_loop].
  eapply runs_bind; [by apply Read_pass_safe|].
  intros [m|] c1 (Hf & Hl & Hm); [by split; [done|apply Hm]|].
  eapply outcome_weaken; [eapply runs_mono; [apply IH; [apply Hf|lia]|..]|].
  - intros c2. by apply conn_frame_trans.
  - intros m c2 [Hf2 Hm2]. split; [by eapply conn_frame_trans|done].
  - intros p. unfold read_panic. by rewrite (fr_size _ _ Hf).
Qed.

Lemma NewRtmpConn_inv rw : Forall is_byte (rw_in rw) → conn_inv (NewRtmpConn rw).
Proof.
  intros Hb. constructor; simpl; done || lia.
Qed.

(** C9: On every byte stream [Read] ends: it returns a message whose bytes are all
    there, or an error, in a connection that is still well formed (every chunk stream
    inside its buffer, no two sharing one); it panics only for a reason of
    [read_panic]. *)
Theorem Read_total c : conn_inv c →
  outcome (read_panic c) (conn_frame c) (λ m c', conn_frame c c' ∧ message_ok c' m)
    RtmpConn_Read c.
Proof. intros Hinv. apply Read_loop_safe; [done|lia]. Qed.

(** ** Inputs on which the reader goes wrong *)

(** A connection that has just received [input]. *)
Definition conn_on (input : bytes) : RtmpConn :=
  NewRtmpConn (NewReadWriter input EOF None 4096).

(** The header of a chunk of type 0 on chunk stream [csid]. *)
Definition hdr0 (csid ts l ty : Z) : bytes :=
  csid :: be_split 3 ts ++ be_split 3 l ++ [ty] ++ [0; 0; 0; 0].

(** A SetChunkSize message of three bytes: the value is read past the end. *)
Example short_control_panics :
  (RtmpConn_Read (conn_on (hdr0 2 0 3 1 ++ [1; 2; 3]))).1 = Panic IndexOutOfRange.
Proof. vm_compute. reflexivity. Qed.

(** A second header on the same chunk stream announces a longer message. *)
Example longer_header_panics :
  (RtmpConn_Read (conn_on (hdr0 3 0 129 8 ++ replicate 128 7 ++ hdr0 3 0 9999 8 ++ [7]))).1
    = Panic SliceBounds.
Proof. vm_compute. reflexivity. Qed.

(** The time stamp of a message returned for an extended header is the escape value. *)
Example extended_timestamp_lost :
  Timestamp <$> (RtmpConn_Read
    (conn_on (hdr0 3 0xffffff 1 8 ++ be_split 4 0x1234567 ++ [7]))).1 = Ok 0xffffff.
Proof. vm_compute. reflexivity. Qed.

(** What [writeChunk] sends for a message of two chunks with such a time stamp is read
    back with four bytes of the second header in place of its last bytes. *)
Definition long_late_message : ChunkStream bytes :=
  newCS 0 4 0x1000000 130 8 1 (replicate 130 7).

Example extended_timestamp_desync :
  let wire := rw_stream (c_rw (session [long_late_message] (conn_on [])).2) in
  let '(r, c) := RtmpConn_Read (conn_on wire) in
  r ≫= (λ m, Ok (drop 128 (sr_get (c_heap c) (Data m)))) = Ok [1; 0] ∧
  rw_in (c_rw c) = [0; 0; 7; 7].
Proof. vm_compute. split; reflexivity. Qed.

(** The two messages of a chunk stream share a buffer: the first one, still in the
    hands of the caller, changes when the second one is read. *)
Example message_overwritten :
  let c := conn_on (hdr0 6 0 2 18 ++ [1; 2] ++ hdr0 6 0 2 9 ++ [3; 4]) in
  let '(r1, c1) := RtmpConn_Read c in
  let '(_, c2) := RtmpConn_Read c1 in
  r1 ≫= (λ m, Ok (sr_get (c_heap c1) (Data m), sr_get (c_heap c2) (Data m)))
    = Ok ([1; 2], [3; 4]).
Proof. vm_compute. reflexivity. Qed.

(** [Write] of a SetChunkSize message that carries 0 divides by zero. *)
Example zero_chunk_size_panics :
  ((m ← lift (NewSetChunkSize 0); RtmpConn_Write m) (conn_on [])).1 = Panic DivideByZero.
Proof. vm_compute. reflexivity. Qed.

Lemma Read_total_witness :
  conn_inv (conn_on [200; 1; 255]) ∧
  outcome (read_panic (conn_on [200; 1; 255])) (conn_frame (conn_on [200; 1; 255]))
    (λ m c', conn_frame (conn_on [200; 1; 255]) c' ∧ message_ok c' m)
    RtmpConn_Read (conn_on [200; 1; 255]).
Proof.
  assert (H : conn_inv (conn_on [200; 1; 255])).
  { apply NewRtmpConn_inv. by repeat (apply Forall_cons; split). }
  split; [exact H|]. apply (Read_total _ H).
Defined.

(** ** Any use of a connection *)

(** What a caller may do with a connection; it goes on after an error. *)
Inductive conn_op := OpRead | OpWrite (m : ChunkStream bytes) | OpFlush | OpSetBegin | OpSetRecorded.

Definition do_op (op : conn_op) : go RtmpConn unit :=
  match op with
  | OpRead => ignore_err tt (_ ← RtmpConn_Read; mret tt)
  | OpWrite m => ignore_err tt (_ ← RtmpConn_Write m; mret tt)
  | OpFlush => ignore_err tt RtmpConn_Flush
  | OpSetBegin => SetBegin
  | OpSetRecorded => SetRecorded
  end.

Fixpoint do_ops (ops : list conn_op) : go RtmpConn unit :=
  match ops with
  | [] => mret tt
  | op :: ops => _ ← do_op op; do_ops ops
  end.

(** The messages a caller may write: the length is that of the data, and a chunk size is
    there and not zero. *)
Definition op_ok (op : conn_op) : Prop :=
  match op with
  | OpWrite m => Length m = len (Data m) ∧ len (Data m) < 2 ^ 32 ∧ Forall is_byte (Data m) ∧
      (TypeID m = idSetChunkSize → 4 ≤ len (Data m) ∧ 0 < be_combine (take 4 (Data m)))
  | _ => True
  end.

Definition short_or_cut (p : panic) : Prop := p = SliceBounds ∨ p = IndexOutOfRange.

(** A connection with a chunk size to write with. *)
Definition conn_wf (c : RtmpConn) : Prop := conn_inv c ∧ 0 < chunkSize c.

(** After [c], with no more input than before. *)
Definition wf_frame (c c' : RtmpConn) : Prop :=
  conn_wf c' ∧ (length (rw_in (c_rw c')) ≤ length (rw_in (c_rw c)))%nat.

Lemma wf_frame_refl c : conn_wf c → wf_frame c c.
Proof. by split. Qed.

Lemma wf_frame_trans a b c : wf_frame a b → wf_frame b c → wf_frame a c.
Proof. intros [_ H1] [Hc H2]. split; [done|lia]. Qed.

Lemma conn_write_safe {A} (m : go ReadWriter A) c : conn_wf c → writer_safe m →
  runs (wf_frame c) (λ _, wf_frame c) (conn_rw m) c.
Proof.
  intros [Hi Hk] Hm. specialize (Hm (c_rw c)). unfold outcome, conn_rw in *.
  destruct (m (c_rw c)) as [[a|e|p|] rw']; try done; destruct Hm as (Hin & _ & _);
    (split; [split; [apply (conn_frame_rw c); [done|by rewrite Hin; apply Hi|by rewrite Hin]|done]|cbn; by rewrite Hin]).
Qed.

Lemma RtmpConn_Write_safe m c : conn_wf c → op_ok (OpWrite m) →
  runs (wf_frame c) (λ _, wf_frame c) (RtmpConn_Write m) c.
Proof.
  intros Hc (Hl & Hmax & Hb & Hsize). unfold RtmpConn_Write.
  eapply (runs_bind _ _ (λ _ c', wf_frame c c')).
  { apply runs_if; intros Ht; [|by apply wf_frame_refl]. destruct Hsize as [H4 Hpos]; [go_bool; done|].
    eapply runs_bind_lift.
    { rewrite <- (app_nil_r (Data m)). apply BigEndian_Uint32_app. unfold len in H4. lia. }
    apply runs_modify. destruct Hc as [[] Hk]. split; [|done]. split; [|done]. constructor; try done. simpl.
    destruct (be_combine_32 (Data m)); [done..|lia]. }
  intros _ c1 Hf. pose proof (proj1 Hf) as [Hi1 Hk1]. apply runs_bind_gets.
  eapply runs_mono; [apply conn_write_safe; [done|]|..].
  - pose proof (ci_size _ Hi1). apply writeChunk_safe; [done|done|lia].
  - intros c'. by apply wf_frame_trans.
  - intros m' c'. by apply wf_frame_trans.
Qed.

Lemma writes_data {A} (d : res A) m c v : d = Ok v → conn_wf c → op_ok (OpWrite (m v)) →
  runs (λ _, False) (λ _, wf_frame c) (d ← lift d; ignore_err tt (_ ← RtmpConn_Write (m d); mret tt)) c.
Proof.
  intros -> Hc Hm. apply runs_bind_lift with v; [done|].
  pose proof (RtmpConn_Write_safe (m v) c Hc Hm) as H. unfold outcome, ignore_err, mbind, go_bind in *.
  by destruct (RtmpConn_Write (m v) c) as [[]].
Qed.

Lemma do_op_safe op c : conn_wf c → op_ok op →
  outcome short_or_cut (λ _, False) (λ _, wf_frame c) (do_op op) c.
Proof.
  intros Hc Hop. destruct op as [|m| | |]; cbn [do_op].
  - assert (H : outcome (read_panic c) (conn_frame c) (λ m c', conn_frame c c' ∧ message_ok c' m) RtmpConn_Read c)
      by (apply Read_loop_safe; [apply Hc|lia]).
    assert (Hf : ∀ c', conn_frame c c' → wf_frame c c').
    { intros c' [Hi Hk Hl]. split; [|done]. split; [done|]. rewrite Hk. apply Hc. }
    unfold outcome, ignore_err, mbind, go_bind, read_panic, short_or_cut in *.
    destruct (RtmpConn_Read c) as [[a|e|p|] c']; try done; [apply Hf, H|by apply Hf|].
    destruct H as [|[|[_ H]]]; [by left|by right|]. destruct Hc as [_ Hc]. lia.
  - apply runs_outcome. by apply (writes_data (Ok m) id c m).
  - pose proof (conn_write_safe RW_Flush c Hc RW_Flush_safe) as H. unfold RtmpConn_Flush.
    unfold outcome, ignore_err in *. by destruct (conn_rw RW_Flush c) as [[]].
  - apply runs_outcome. unfold SetBegin. eapply runs_bind_lift; [reflexivity|].
    eapply writes_data; [reflexivity|done|]. split_and!; [done|done|by repeat (apply Forall_cons; split)|done].
  - apply runs_outcome. unfold SetRecorded. eapply runs_bind_lift; [reflexivity|].
    eapply writes_data; [reflexivity|done|]. split_and!; [done|done|by repeat (apply Forall_cons; split)|done].
Qed.


