(* ===== verification/Safe.v ===== *)
(** * Code that is safe on any input

    Both sides of a connection are built from the same pieces: reading, writing, decoding,
    and changes of their own fields.  What it means that such a piece is safe is stated once,
    for every state that holds a connection, with the rules that put pieces together. *)
From S2P Require Import Prelude Pio GoIO ReadWriter Av Chunk Conn ConnSafe.

(** ** The interface *)

(** States from which code may be run, the states it may lead to, and the panics it may end
    with. *)
Class Safety (S : Type) := {
  good : S → Prop;
  onward : S → S → Prop;
  may_panic : panic → Prop;
  onward_refl s : good s → onward s s;
  onward_trans s1 s2 s3 : onward s1 s2 → onward s2 s3 → onward s1 s3;
  onward_good s1 s2 : onward s1 s2 → good s2;
}.

Section safe.
Context {S : Type} `{Safety S}.

(** From a good state the code ends, in a good state unless it panics. *)
Definition safe {A} (m : go S A) : Prop := ∀ s, good s →
  outcome may_panic (onward s) (λ _, onward s) m s.

Definition safe_res {A} (r : res A) : Prop :=
  match r with Panic p => may_panic p | OutOfFuel => False | _ => True end.

Lemma safe_ret {A} (a : A) : safe (mret a).
Proof. intros s Hs. by apply onward_refl. Qed.

Lemma safe_fail {A} e : safe (fail (A := A) e).
Proof. intros s Hs. by apply onward_refl. Qed.

Lemma safe_crash {A} p : may_panic p → safe (crash (A := A) p).
Proof. by intros Hp s Hs. Qed.

Lemma safe_get : safe get.
Proof. intros s Hs. by apply onward_refl. Qed.

Lemma safe_gets {A} (f : S → A) : safe (gets f).
Proof. intros s Hs. by apply onward_refl. Qed.

Lemma safe_lift {A} (r : res A) : safe_res r → safe (lift r).
Proof. intros Hr s Hs. unfold outcome, lift. by destruct r; [apply onward_refl|apply onward_refl|..]. Qed.

Lemma safe_modify f : (∀ s, good s → onward s (f s)) → safe (modify f).
Proof. intros Hf s Hs. by apply Hf. Qed.

(** What ends well later ends well from the start. *)
Lemma outcome_onward {A} (m : go S A) s s' : onward s s' →
  outcome may_panic (onward s') (λ _, onward s') m s' → outcome may_panic (onward s) (λ _, onward s) m s'.
Proof. intros Hs Hm. eapply runs_mono; [exact Hm|..]; simpl; intros; by eapply onward_trans. Qed.

Lemma safe_later {A} (m : go S A) s s' : onward s s' → safe m →
  outcome may_panic (onward s) (λ _, onward s) m s'.
Proof. intros Hs Hm. by apply outcome_onward, Hm, (onward_good s). Qed.

Lemma safe_bind {A B} (m : go S A) (k : A → go S B) : safe m → (∀ a, safe (k a)) → safe (m ≫= k).
Proof.
  intros Hm Hk s Hs. eapply runs_bind; [by apply Hm|]. intros a s' Hf. by apply safe_later.
Qed.

(** The next piece may use what is known of the result. *)
Lemma safe_bind_res {A B} (r : res A) (k : A → go S B) :
  safe_res r → (∀ a, r = Ok a → safe (k a)) → safe (lift r ≫= k).
Proof.
  intros Hr Hk s Hs. unfold outcome, mbind, go_bind, lift. destruct r as [a|e|p|]; try done.
  - by apply Hk.
  - by apply onward_refl.
Qed.

(** What is read from a good state may be used. *)
Lemma safe_bind_get {A} (k : S → go S A) : (∀ s, good s → safe (k s)) → safe (get ≫= k).
Proof. intros Hk s Hs. by apply Hk. Qed.

Lemma safe_on_err {A} (m : go S A) g : safe m → safe (on_err m g).
Proof. intros Hm s Hs. by apply runs_on_err, Hm. Qed.

Lemma ignore_ends {A} (d : A) m s : safe m → good s →
  outcome may_panic (λ _, False) (λ _, onward s) (ignore_err d m) s.
Proof. intros Hm Hs. specialize (Hm s Hs). unfold outcome, ignore_err in *. by destruct (m s) as [[]]. Qed.

Lemma safe_ignore {A} (d : A) m : safe m → safe (ignore_err d m).
Proof. intros Hm s Hs. by eapply runs_mono; [apply ignore_ends|..]. Qed.

Lemma safe_if {A} (b : bool) (m1 m2 : go S A) : safe m1 → safe m2 → safe (if b then m1 else m2).
Proof. by destruct b. Qed.

Lemma safe_decide {A} P `{Decision P} (m1 m2 : go S A) : safe m1 → safe m2 → safe (if decide P then m1 else m2).
Proof. by case_decide. Qed.
End safe.

Create HintDb safe.
#[export] Hint Resolve safe_ret safe_fail safe_get safe_gets safe_lift safe_bind safe_on_err safe_ignore
  safe_if safe_decide : safe.

(** Results that are values or errors. *)
Definition no_panic {A} (r : res A) : Prop := match r with Ok _ | Err _ => True | _ => False end.

Lemma no_panic_safe {S A} `{Safety S} (r : res A) : no_panic r → safe_res r.
Proof. by destruct r. Qed.
#[export] Hint Resolve no_panic_safe : safe.

Lemma runs_try {S A} (C : panic → Prop) (E : S → Prop) (Q : A → S → Prop) m s : outcome C E Q m s →
  outcome C (λ _, False) (λ r, match r with inl a => Q a | inr _ => E end) (try m) s.
Proof. unfold outcome, try. by destruct (m s) as [[]]. Qed.

(** ** What holds however code ends, by a panic too *)

Section keeps.
Context {S : Type} (P : S → Prop).

Definition keeps {A} (m : go S A) : Prop := ∀ s, P s → P (m s).2.

Lemma keeps_ret {A} (a : A) : keeps (mret a).
Proof. by intros s. Qed.

Lemma keeps_fail {A} e : keeps (fail (A := A) e).
Proof. by intros s. Qed.

Lemma keeps_lift {A} (r : res A) : keeps (lift r).
Proof. by intros s. Qed.

Lemma keeps_bind {A B} (m : go S A) (k : A → go S B) : keeps m → (∀ a, keeps (k a)) → keeps (m ≫= k).
Proof.
  intros Hm Hk s Hs. specialize (Hm s Hs). unfold mbind, go_bind.
  destruct (m s) as [[a|e|p|] s']; try done. by apply Hk.
Qed.

Lemma keeps_on_err {A} (m : go S A) g : keeps m → keeps (on_err m g).
Proof. intros Hm s Hs. specialize (Hm s Hs). unfold on_err. by destruct (m s) as [[]]. Qed.

Lemma keeps_ignore {A} (d : A) m : keeps m → keeps (ignore_err d m).
Proof. intros Hm s Hs. specialize (Hm s Hs). unfold ignore_err. by destruct (m s) as [[]]. Qed.

Lemma keeps_try {A} (m : go S A) : keeps m → keeps (try m).
Proof. intros Hm s Hs. specialize (Hm s Hs). unfold try. by destruct (m s) as [[]]. Qed.

Lemma keeps_if {A} (b : bool) (m1 m2 : go S A) : keeps m1 → keeps m2 → keeps (if b then m1 else m2).
Proof. by destruct b. Qed.

Lemma keeps_decide {A} Q `{Decision Q} (m1 m2 : go S A) : keeps m1 → keeps m2 → keeps (if decide Q then m1 else m2).
Proof. by case_decide. Qed.
End keeps.
#[export] Hint Resolve keeps_ret keeps_fail keeps_lift keeps_bind keeps_on_err keeps_ignore keeps_try keeps_if
  keeps_decide : safe.

(** ** Connections *)

#[export] Program Instance conn_safety : Safety RtmpConn := {
  good := conn_wf; onward := wf_frame; may_panic := short_or_cut;
}.
Next Obligation. apply wf_frame_refl. Qed.
Next Obligation. apply wf_frame_trans. Qed.
Next Obligation. by intros c c' []. Qed.

Lemma safe_op op m : op_ok op → (∀ c, m c = do_op op c) → safe (S := RtmpConn) m.
Proof.
  intros Hop Hm c Hc. pose proof (do_op_safe op c Hc Hop) as H. unfold outcome in *. rewrite Hm.
  by destruct (do_op op c) as [[u|e|p|] c'].
Qed.

Lemma safe_flush : safe RtmpConn_Flush.
Proof. intros c Hc. apply runs_outcome, conn_write_safe; [done|apply RW_Flush_safe]. Qed.

Lemma safe_write m : op_ok (OpWrite m) → safe (RtmpConn_Write m).
Proof. intros Hm c Hc. by apply runs_outcome, RtmpConn_Write_safe. Qed.

(** Reading takes at least a byte. *)
Lemma Read_strict c : conn_inv c →
  outcome (read_panic c) conn_inv (λ _ c', conn_inv c' ∧ chunkSize c' = chunkSize c ∧
    (length (rw_in (c_rw c')) < length (rw_in (c_rw c)))%nat) RtmpConn_Read c.
Proof.
  intros Hinv. unfold RtmpConn_Read. cbn [Read_loop].
  eapply runs_bind; [eapply runs_mono; [by apply Read_pass_safe|intros c' Hf; apply Hf|intros r c' H; exact H]|].
  intros [m|] c1 (Hf & Hl & Hm); [split_and!; [apply Hf|apply Hf|done]|].
  pose proof (Read_loop_safe (length (rw_in (c_rw c))) c1 (fr_inv _ _ Hf) Hl) as H.
  eapply outcome_weaken; [eapply runs_mono; [exact H|..]|].
  - intros c' Hf'. apply Hf'.
  - intros m c' [Hf' _]. split_and!; [apply Hf'|by rewrite (fr_size _ _ Hf'), (fr_size _ _ Hf)|].
    pose proof (fr_in _ _ Hf'). lia.
  - intros p. unfold read_panic. by rewrite (fr_size _ _ Hf).
Qed.

(** A message with its data, as a caller that looks at it right away finds it. *)
Definition read_message : go RtmpConn (ChunkStream bytes) :=
  r ← RtmpConn_Read; gets (λ c, message_at (c_heap c) r).

Lemma read_message_safe c : conn_wf c →
  outcome short_or_cut (wf_frame c) (λ m c', wf_frame c c' ∧ Forall is_byte (Data m) ∧
    (length (rw_in (c_rw c')) < length (rw_in (c_rw c)))%nat) read_message c.
Proof.
  intros [Hi Hk]. pose proof (Read_strict _ Hi) as H1.
  assert (H2 : outcome (read_panic c) (conn_frame c) (λ _ _, True) RtmpConn_Read c)
    by (eapply runs_mono; [apply Read_loop_safe; [done|lia]|done..]).
  unfold outcome, read_message, mbind, go_bind, gets in *.
  destruct (RtmpConn_Read c) as [[m|e|p|] c']; try done.
  - destruct H1 as (Hi' & Hs & Hl). split; [|split; [|done]].
    + split; [split; [done|by rewrite Hs]|lia].
    + apply sr_get_bytes, (ci_heap c' Hi').
  - destruct H2 as [Hi' Hs Hl]. split; [split; [done|by rewrite Hs]|exact Hl].
  - destruct H1 as [->|[->|[_ H]]]; [by left|by right|lia].
Qed.
