(* ===== verification/Exchange.v ===== *)
(** * Messages between two connections that take turns

    When the two ends of a connection take turns, each message is written, flushed and
    read as a whole.  The lemmas of this file say what one [Write] puts on the wire and
    what one [Read] makes of it, with the acknowledgements: as long as the window is not
    used up a reader writes nothing. *)
From S2P Require Import Prelude Pio GoIO ReadWriter Av Chunk Conn.

Implicit Types (m : ChunkStream bytes) (a : AConn) (c : RtmpConn).

(** ** Reading whole messages *)

(** While fewer than [W] bytes are unacknowledged, nothing is written and [n] more bytes
    are counted. *)
Definition counted (W n : Z) (c c' : RtmpConn) : Prop :=
  0 ≤ ackReceived c → ackReceived c + n < W →
  rw_w (c_rw c') = rw_w (c_rw c) ∧ ackReceived c' = ackReceived c + n.

Lemma counted_trans W n1 n2 c c1 c2 : 0 ≤ n1 → 0 ≤ n2 →
  counted W n1 c c1 → counted W n2 c1 c2 → counted W (n1 + n2) c c2.
Proof.
  intros H1 H2 Hc1 Hc2 Ha Hlt. destruct Hc1 as [Hw1 Ha1]; [done|lia|].
  destruct Hc2 as [Hw2 Ha2]; [lia|lia|]. split; [congruence|lia].
Qed.

(** No window the message announces is smaller than [W]. *)
Definition window_ok (W : Z) (m : ChunkStream bytes) : Prop :=
  TypeID m = idWindowAckSize → W ≤ be_combine (take 4 (Data m)).

Lemma a_control_window W m a : W ≤ a_window a → window_ok W m → W ≤ a_window (a_control m a).
Proof.
  intros Ha Hm. unfold a_control. destruct (_ =? idSetChunkSize); [done|].
  destruct (Z.eqb_spec (TypeID m) idWindowAckSize); [by apply Hm|done].
Qed.

Lemma a_control_part m a : a_part (a_control m a) = a_part a.
Proof. unfold a_control. by repeat case_match. Qed.

Lemma quiet_counted W a m c c' : W ≤ a_window a → W ≤ 2 ^ 32 → conn_refines a c' →
  quiet (len (Data m)) c c' → counted W (len (Data m)) c c'.
Proof.
  intros Ha HW Hr Hq H0 Hlt. pose proof (cr_window _ _ Hr). apply Hq; [done|apply len_nonneg|lia].
Qed.

(** What [Read_loop] does with the wire of one message: it goes on after a control
    message and returns any other. *)
Definition loop_reads (W : Z) (m : ChunkStream bytes) (a' : AConn) (rest : bytes)
    (fuel : nat) (c : RtmpConn) : Prop :=
  ∃ c', conn_refines a' c' ∧ rw_in (c_rw c') = rest ∧ counted W (len (Data m)) c c' ∧
    if is_control (TypeID m) then
      ∃ fuel', (length rest < fuel')%nat ∧ Read_loop fuel c = Read_loop fuel' c'
    else ∃ r, Read_loop fuel c = (Ok r, c') ∧ message_at (c_heap c') r = delivered m.

Section read_message.
Variable W : Z.
Hypothesis HW : W ≤ 2 ^ 32.

(** One chunk of [m]: the last one, or one that leaves the loop running. *)
Lemma loop_chunk a m n fuel c w a' out rest :
  conn_refines a c → sendable m → progress a m n → (n < length (Data m))%nat →
  W ≤ a_window a' → a_chunk a m n = (w, a', out) → rw_in (c_rw c) = w ++ rest →
  (length (rw_in (c_rw c)) < fuel)%nat →
  if Nat.leb (length (Data m)) (n + Z.to_nat (a_size a)) then loop_reads W m a' rest fuel c
  else ∃ fuel' c1, Read_loop fuel c = Read_loop fuel' c1 ∧ (length rest < fuel')%nat ∧
    conn_refines a' c1 ∧ rw_in (c_rw c1) = rest ∧ still c c1.
Proof.
  intros Hr Hm Hp Hn Hwin Ha Hin Hfuel.
  destruct (Read_pass_chunk a c m n w a' out rest Hr Hm Hp Hn Ha Hin)
    as (r & c' & E & Hr' & Hin' & Hout & Hq).
  assert (Hw : (0 < length w)%nat).
  { unfold a_chunk, chunk_header, basic_header in Ha.
    destruct (Nat.leb _ _); injection Ha as <- _ _; rewrite !length_app;
      destruct (CSID m <? 64); [simpl; lia|destruct (_ <? 256); simpl; lia|
      simpl; lia|destruct (_ <? 256); simpl; lia]. }
  rewrite Hin, length_app in Hfuel. destruct fuel as [|fuel]; [lia|].
  unfold a_chunk in Ha. destruct (Nat.leb _ _).
  - injection Ha as _ _ <-. exists c'. split_and!; try done.
    { eapply quiet_counted; [exact Hwin|exact HW|exact Hr'|exact Hq]. }
    cbn [Read_loop]. rewrite (go_bind_ok _ _ _ _ _ E). destruct (is_control _), r as [r|]; try done.
    + exists fuel. split; [lia|done].
    + exists r. split; [done|]. simpl in Hout. congruence.
  - injection Ha as _ _ <-. exists fuel, c'. destruct r as [r|]; [done|].
    split; [|by split_and!; try lia].
    cbn [Read_loop]. by rewrite (go_bind_ok _ _ _ _ _ E).
Qed.

Lemma loop_reads_still m a' rest fuel c fuel1 c1 : still c c1 →
  Read_loop fuel c = Read_loop fuel1 c1 → loop_reads W m a' rest fuel1 c1 →
  loop_reads W m a' rest fuel c.
Proof.
  intros [Hw Ha] E (c' & Hr & Hin & Hc & H). exists c'. split_and!; try done.
  - unfold counted in *. by rewrite Hw, Ha in Hc.
  - by rewrite E.
Qed.

Lemma loop_rest m s w p rest : sendable m → 0 < s → p !! CSID m = None →
  W ≤ w → window_ok W m → ∀ j n fuel c,
  (0 < n < length (Data m))%nat → (length (Data m) - n ≤ j)%nat →
  conn_refines (mkA s w (<[CSID m := (m, n)]> p)) c →
  rw_in (c_rw c) = wire_rest j (chunk_header (set_Format 3 m)) (Z.to_nat s) (drop n (Data m)) ++ rest →
  (length (rw_in (c_rw c)) < fuel)%nat →
  loop_reads W m (a_control m (mkA s w p)) rest fuel c.
Proof.
  intros Hm Hs Hp Hw Hwm. set (k := Z.to_nat s).
  induction j as [|j IH]; intros n fuel c Hn Hj Hr Hin Hf; [lia|].
  assert (Hd : ∃ x d, drop n (Data m) = x :: d).
  { destruct (drop n (Data m)) as [|x d] eqn:E; [|eauto].
    apply (f_equal length) in E. rewrite length_drop in E. simpl in E. lia. }
  destruct Hd as (x & d & Hd). cbn [wire_rest] in Hin. rewrite Hd, <- Hd, drop_drop in Hin.
  set (a := mkA s w _) in Hr. set (hdr := chunk_header (set_Format 3 m)) in *.
  rewrite <- !app_assoc, (app_assoc hdr) in Hin.
  assert (Hprog : progress a m n) by (unfold progress; simpl; by rewrite lookup_insert_eq).
  assert (Ha : a_chunk a m n = if Nat.leb (length (Data m)) (n + k)
    then (hdr ++ take k (drop n (Data m)), a_control m (mkA s w p),
          if is_control (TypeID m) then None else Some m)
    else (hdr ++ take k (drop n (Data m)), mkA s w (<[CSID m := (m, (n + k)%nat)]> p), None)).
  { unfold a_chunk. rewrite (proj2 (Nat.eqb_neq n 0)) by lia. subst a. simpl.
    by rewrite delete_insert_id, insert_insert_eq by done. }
  destruct (Nat.leb (length (Data m)) (n + k)) eqn:E.
  - apply Nat.leb_le in E as El. rewrite (drop_ge _ (n + k)) in Hin by done.
    replace (wire_rest j hdr k []) with (@nil Z) in Hin by (by destruct j).
    pose proof (loop_chunk a m n fuel c _ _ _ rest Hr Hm Hprog ltac:(lia)
      (a_control_window W m (mkA s w p) Hw Hwm) Ha Hin Hf) as H.
    change (Z.to_nat (a_size a)) with k in H. by rewrite E in H.
  - apply Nat.leb_gt in E as El.
    pose proof (loop_chunk a m n fuel c _ (mkA s w (<[CSID m := (m, (n + k)%nat)]> p)) _ _ Hr Hm
      Hprog ltac:(lia) Hw Ha Hin Hf) as H.
    change (Z.to_nat (a_size a)) with k in H. rewrite E in H.
    destruct H as (fuel1 & c1 & Eq & Hf1 & Hr1 & Hin1 & Hst).
    eapply loop_reads_still; [exact Hst|exact Eq|].
    apply (IH (n + k)%nat); [lia|lia|exact Hr1|exact Hin1|by rewrite Hin1].
Qed.

Lemma loop_message a m fuel c rest : conn_refines a c → sendable m →
  a_part a !! CSID m = None → W ≤ a_window a → window_ok W m →
  rw_in (c_rw c) = message_wire (Z.to_nat (a_size a)) m ++ rest →
  (length (rw_in (c_rw c)) < fuel)%nat → loop_reads W m (a_control m a) rest fuel c.
Proof.
  destruct a as [s w p]. simpl. intros Hr Hm Hp Hw Hwm Hin Hf. set (k := Z.to_nat s) in *.
  pose proof (cr_size_range _ _ Hr) as Hs. simpl in Hs.
  set (a := mkA s w p) in *. set (hdr := chunk_header (set_Format 0 m)).
  unfold message_wire in Hin. fold hdr in Hin. rewrite <- !app_assoc, (app_assoc hdr) in Hin.
  assert (Hd : (0 < length (Data m))%nat) by (pose proof (sd_data _ Hm); destruct (Data m); [done|simpl; lia]).
  assert (Hprog : progress a m 0) by (unfold progress; simpl; by rewrite Hp).
  assert (Ha : a_chunk a m 0 = if Nat.leb (length (Data m)) (0 + k)
    then (hdr ++ take k (Data m), a_control m a, if is_control (TypeID m) then None else Some m)
    else (hdr ++ take k (Data m), mkA s w (<[CSID m := (m, k)]> p), None)).
  { unfold a_chunk. subst a. simpl. by rewrite delete_id, drop_0 by done. }
  destruct (Nat.leb (length (Data m)) (0 + k)) eqn:E.
  - apply Nat.leb_le in E as El. simpl in El. rewrite (drop_ge _ k) in Hin by done.
    replace (wire_rest _ _ k []) with (@nil Z) in Hin by (by destruct (length (Data m))).
    pose proof (loop_chunk a m 0 fuel c _ _ _ rest Hr Hm Hprog Hd
      (a_control_window W m a Hw Hwm) Ha Hin Hf) as H.
    change (Z.to_nat (a_size a)) with k in H. by rewrite E in H.
  - apply Nat.leb_gt in E as El.
    pose proof (loop_chunk a m 0 fuel c _ (mkA s w (<[CSID m := (m, k)]> p)) _ _ Hr Hm
      Hprog Hd Hw Ha Hin Hf) as H.
    change (Z.to_nat (a_size a)) with k in H. rewrite E in H.
    destruct H as (fuel1 & c1 & Eq & Hf1 & Hr1 & Hin1 & Hst).
    eapply loop_reads_still; [exact Hst|exact Eq|].
    simpl in El. assert (Hk : (0 < k)%nat) by (subst k; lia).
    apply (loop_rest m s w p rest Hm ltac:(lia) Hp Hw Hwm (length (Data m)) k);
      [lia|lia|exact Hr1|exact Hin1|by rewrite Hin1].
Qed.
End read_message.

(** ** Sequences of messages *)

(** The wire of a sequence, read or written with the chunk size [k]. *)
Fixpoint wire_of (k : Z) (ms : list (ChunkStream bytes)) : bytes :=
  match ms with
  | [] => []
  | m :: ms => message_wire (Z.to_nat k) m ++ wire_of (next_size k m) ms
  end.

Definition total (ms : list (ChunkStream bytes)) : Z := foldr (λ m t, len (Data m) + t) 0 ms.

Definition after (a : AConn) (ms : list (ChunkStream bytes)) : AConn :=
  foldl (λ a m, a_control m a) a ms.

Lemma wire_of_app ms1 : ∀ k ms2,
  wire_of k (ms1 ++ ms2) = wire_of k ms1 ++ wire_of (foldl next_size k ms1) ms2.
Proof. induction ms1 as [|m ms1 IH]; intros k ms2; [done|]. simpl. by rewrite IH, app_assoc. Qed.

Lemma total_nonneg ms : 0 ≤ total ms.
Proof. induction ms as [|m ms IH]; simpl; [done|]. pose proof (len_nonneg (Data m)). lia. Qed.

Lemma total_app ms1 ms2 : total (ms1 ++ ms2) = total ms1 + total ms2.
Proof. induction ms1 as [|m ms1 IH]; simpl; lia. Qed.

Lemma a_control_size m a : a_size (a_control m a) = next_size (a_size a) m.
Proof. unfold a_control, next_size, idSetChunkSize. by repeat case_match. Qed.

Lemma after_part ms : ∀ a, a_part (after a ms) = a_part a.
Proof. induction ms as [|m ms IH]; intros a; [done|]. simpl. by rewrite IH, a_control_part. Qed.

Lemma after_size ms : ∀ a, a_size (after a ms) = foldl next_size (a_size a) ms.
Proof. induction ms as [|m ms IH]; intros a; [done|]. simpl. by rewrite IH, a_control_size. Qed.

Lemma after_window W ms : ∀ a, W ≤ a_window a → Forall (window_ok W) ms → W ≤ a_window (after a ms).
Proof.
  induction ms as [|m ms IH]; intros a Ha; [done|]. intros [Hm Hms]%Forall_cons. simpl.
  by apply IH; [apply a_control_window|].
Qed.

(** [Read] passes over the control messages before [m]. *)
Lemma loop_messages W m rest : W ≤ 2 ^ 32 → sendable m → is_control (TypeID m) = false →
  ∀ ctl a fuel c, conn_refines a c → a_part a = ∅ → W ≤ a_window a →
  Forall sendable ctl → Forall (λ m, is_control (TypeID m) = true) ctl → Forall (window_ok W) ctl →
  rw_in (c_rw c) = wire_of (a_size a) (ctl ++ [m]) ++ rest → (length (rw_in (c_rw c)) < fuel)%nat →
  ∃ r c', Read_loop fuel c = (Ok r, c') ∧ conn_refines (after a (ctl ++ [m])) c' ∧
    rw_in (c_rw c') = rest ∧ counted W (total (ctl ++ [m])) c c' ∧
    message_at (c_heap c') r = delivered m.
Proof.
  intros HW Hm Hmc. induction ctl as [|x ctl IH]; intros a fuel c Hr Hp Ha Hs Hc Hw Hin Hf.
  - simpl in Hin. rewrite app_nil_r in Hin.
    destruct (loop_message W HW a m fuel c rest) as (c' & Hr' & Hin' & Hct & Hloop); try done.
    { by rewrite Hp. }
    { intros E. by rewrite E in Hmc. }
    rewrite Hmc in Hloop. destruct Hloop as (r & E & Hat). exists r, c'. simpl. by rewrite Z.add_0_r.
  - apply Forall_cons in Hs as [Hx Hs], Hc as [Hxc Hc], Hw as [Hxw Hw].
    simpl in Hin. rewrite <- app_assoc in Hin.
    destruct (loop_message W HW a x fuel c _ Hr Hx ltac:(by rewrite Hp) Ha Hxw Hin Hf)
      as (c1 & Hr1 & Hin1 & Hct1 & Hloop).
    rewrite Hxc in Hloop. destruct Hloop as (fuel1 & Hf1 & E1).
    destruct (IH (a_control x a) fuel1 c1) as (r & c' & E & Hr' & Hin' & Hct & Hat);
      rewrite ?a_control_part, ?a_control_size, ?Hin1; auto using a_control_window.
    exists r, c'. rewrite E1. split_and!; try done.
    simpl. apply (counted_trans _ _ _ _ c1); [apply len_nonneg|apply total_nonneg|done..].
Qed.

(** Reading leaves the chunk size of the writing side. *)
Definition keeps_size {A} (f : go RtmpConn A) : Prop := ∀ c, chunkSize (f c).2 = chunkSize c.

Lemma keeps_size_bind {A B} (f : go RtmpConn A) (k : A → go RtmpConn B) :
  keeps_size f → (∀ x, keeps_size (k x)) → keeps_size (f ≫= k).
Proof.
  intros Hf Hk c. specialize (Hf c). unfold mbind, go_bind.
  destruct (f c) as [[x|e|p|] c1]; simpl in *; try done. by rewrite Hk.
Qed.

Lemma keeps_size_rw {A} (f : go ReadWriter A) : keeps_size (conn_rw f).
Proof. intros c. unfold conn_rw. by destruct (f (c_rw c)). Qed.

Lemma keeps_size_readChunk i f : keeps_size (conn_readChunk i f).
Proof. intros c. unfold conn_readChunk. by destruct (readChunk _ _). Qed.

Lemma keeps_size_ignore {A} (d : A) f : keeps_size f → keeps_size (ignore_err d f).
Proof. intros Hf c. specialize (Hf c). unfold ignore_err. by destruct (f c) as [[x|e|p|] c1]. Qed.

Lemma keeps_size_ack n : keeps_size (ack n).
Proof.
  unfold ack. apply keeps_size_bind; [done|intros _].
  apply keeps_size_bind; [intros c; simpl; by case_match|intros _].
  apply keeps_size_bind; [done|intros c]. case_match; [|done].
  apply keeps_size_bind; [done|intros cs]. apply keeps_size_bind; [|done].
  apply keeps_size_ignore, keeps_size_bind; [apply keeps_size_rw|done].
Qed.

Lemma keeps_size_control cs : keeps_size (handleControlMsg cs).
Proof.
  unfold handleControlMsg. repeat case_match; try done;
    by repeat (apply keeps_size_bind; [done|intros ?]).
Qed.

Lemma Read_keeps_size c r c' : RtmpConn_Read c = (Ok r, c') → chunkSize c' = chunkSize c.
Proof.
  assert (Hloop : ∀ fuel, keeps_size (Read_loop fuel)).
  { induction fuel as [|fuel IH]; [done|]. cbn [Read_loop].
    apply keeps_size_bind; [|by intros [x|]]. unfold Read_pass.
    apply keeps_size_bind; [apply keeps_size_rw|intros [f i]].
    apply keeps_size_bind; [apply keeps_size_readChunk|intros cs]. case_match; [|done].
    apply keeps_size_bind.
    { unfold completeMessage. by repeat (apply keeps_size_bind; [done|intros ?]). }
    intros x. apply keeps_size_bind; [apply keeps_size_control|intros b].
    apply keeps_size_bind; [apply keeps_size_ack|by intros]. }
  intros E. specialize (Hloop (S (length (rw_in (c_rw c)))) c). unfold RtmpConn_Read in E.
  by rewrite E in Hloop.
Qed.

(** ** An end that takes turns

    [endpoint a k out inp n c]: nothing is half read; messages are read as [a] says and
    written with the chunk size [k]; [out] was written, [inp] is to be read and [n] bytes
    are unacknowledged. *)
Record endpoint (a : AConn) (k : Z) (out inp : bytes) (n : Z) (c : RtmpConn) : Prop := {
  ep_refines : conn_refines a c;
  ep_part : a_part a = ∅;
  ep_size : chunkSize c = k;
  ep_out : rw_stream (c_rw c) = out;
  ep_in : rw_in (c_rw c) = inp;
  ep_count : ackReceived c = n;
}.

Lemma endpoint_new rw : rw_wok rw → readError rw = None →
  endpoint (mkA 128 2500000 ∅) 128 (rw_stream rw) (rw_in rw) 0 (NewRtmpConn rw).
Proof. intros Hw Hr. by constructor; try apply NewRtmpConn_refines. Qed.

(** A handshake before the first message. *)
Lemma endpoint_rw a k out inp n c rw : endpoint a k out inp n c → rw_wok rw →
  readError rw = None → endpoint a k (rw_stream rw) (rw_in rw) n (set_rw rw c).
Proof. intros [] ? ?. by constructor; try apply conn_refines_rw. Qed.

(** A chunk size must reach the other side in one chunk. *)
Definition size_fits (k : Z) (m : ChunkStream bytes) : Prop :=
  TypeID m = 1 → len (Data m) ≤ Z.min k (size_value m).

Lemma wire_of_one k m : sendable m → size_fits k m →
  message_wire (Z.to_nat (next_size k m)) (writeChunk_csid m) = wire_of k [writeChunk_csid m].
Proof.
  intros Hm Hfit. simpl. rewrite app_nil_r. unfold next_size.
  destruct (Z.eqb_spec (TypeID m) 1) as [E|]; [|done]. specialize (Hfit E).
  destruct (writeChunk_csid_cases m) as (i & -> & _). unfold len in Hfit.
  by rewrite !message_wire_single by (simpl; lia).
Qed.

Lemma endpoint_write a k out inp n c m : endpoint a k out inp n c → sendable m → size_fits k m →
  ∃ m' c', RtmpConn_Write m c = (Ok m', c') ∧
    endpoint a (next_size k m) (out ++ wire_of k [writeChunk_csid m]) inp n c'.
Proof.
  intros [Hr Hp Hk Ho Hi Hn] Hm Hfit. pose proof (cr_write _ _ Hr) as Hcw.
  destruct (RtmpConn_Write_sends m c Hcw Hm) as (Hpos & m' & rw' & E & Hw & Hst & Hin & _ & Hre).
  exists m'. eexists. split; [exact E|]. rewrite Hk in *.
  constructor; try done.
  - destruct Hr as [? ? ? ? ? [? ?] ?]. constructor; try done. simpl. by rewrite Hre.
  - simpl. by rewrite Hst, Ho, wire_of_one.
  - simpl. by rewrite Hin.
Qed.

Lemma endpoint_flush a k out inp n c : endpoint a k out inp n c →
  ∃ c', RtmpConn_Flush c = (Ok tt, c') ∧ endpoint a k out inp n c' ∧
    bw_sent (rw_w (c_rw c')) = out.
Proof.
  intros [Hr Hp Hk Ho Hi Hn]. pose proof (cr_write _ _ Hr) as [Hw _].
  destruct (RW_Flush_ok (c_rw c) Hw) as (rw' & E & (Hw' & Hst & Hin & _ & Hre) & Hsent).
  exists (set_rw rw' c). unfold RtmpConn_Flush, conn_rw. rewrite E. split; [done|].
  split; [|by simpl; rewrite Hsent].
  constructor; try done.
  - apply conn_refines_rw; [done..|]. rewrite Hre. apply Hr.
  - simpl. by rewrite Hst, app_nil_r.
  - simpl. by rewrite Hin.
Qed.

(** Nothing of what was written is still in the buffer. *)
Definition flushed (c : RtmpConn) : Prop := bw_sent (rw_w (c_rw c)) = rw_stream (c_rw c).

Lemma endpoint_flushed a k out inp n c : endpoint a k out inp n c →
  bw_sent (rw_w (c_rw c)) = out → flushed c.
Proof. intros He Hs. unfold flushed. by rewrite Hs, (ep_out _ _ _ _ _ _ He). Qed.

Lemma flushed_read c c' : rw_w (c_rw c') = rw_w (c_rw c) → flushed c → flushed c'.
Proof. unfold flushed, rw_stream. by intros ->. Qed.

(** The window of a connection, and the bytes a conversation may take without an
    acknowledgement. *)
Abbreviation quota := 2500000.

Lemma endpoint_read a k out ctl m rest n c :
  endpoint a k out (wire_of (a_size a) (ctl ++ [m]) ++ rest) n c →
  sendable m → is_control (TypeID m) = false →
  Forall sendable ctl → Forall (λ m, is_control (TypeID m) = true) ctl →
  Forall (window_ok quota) ctl → quota ≤ a_window a →
  0 ≤ n → n + total (ctl ++ [m]) < quota →
  ∃ r c', RtmpConn_Read c = (Ok r, c') ∧ message_at (c_heap c') r = delivered m ∧
    endpoint (after a (ctl ++ [m])) k out rest (n + total (ctl ++ [m])) c' ∧
    rw_w (c_rw c') = rw_w (c_rw c).
Proof.
  intros [Hr Hp Hk Ho Hi Hn] Hm Hmc Hs Hc Hw Ha H0 Hlt.
  destruct (loop_messages quota m rest) with (ctl := ctl) (a := a) (c := c)
    (fuel := S (length (rw_in (c_rw c)))) as (r & c' & E & Hr' & Hin & Hct & Hat); try done; [lia|].
  destruct Hct as [Hww Han]; [by rewrite Hn|by rewrite Hn|].
  exists r, c'. split; [exact E|]. split; [exact Hat|]. split; [|exact Hww]. constructor; try done.
  - by rewrite after_part.
  - by rewrite (Read_keeps_size _ _ _ E).
  - unfold rw_stream. by rewrite Hww.
  - by rewrite Han, Hn.
Qed.
