(* ===== verification/Messages.v ===== *)
(** * Media messages on a connection

    What a publisher, a stream and a player share: the message of a tag, sent by one end
    and read by the other. *)
From S2P Require Import Prelude Pio GoIO ReadWriter Av Chunk Conn Exchange.

(** ** Sending *)

Lemma writeChunk_csid_idem {D} (m : ChunkStream D) : writeChunk_csid (writeChunk_csid m) = writeChunk_csid m.
Proof.
  unfold writeChunk_csid at 2 3. destruct (TypeID m =? TAG_AUDIO) eqn:E1; [|destruct (_ || _) eqn:E2];
    unfold writeChunk_csid; cbn [TypeID set_CSID]; by rewrite E1, ?E2.
Qed.

Lemma writeChunk_csid_TypeID {D} (m : ChunkStream D) : TypeID (writeChunk_csid m) = TypeID m.
Proof. unfold writeChunk_csid. destruct (_ =? _); [done|]. by destruct (_ || _). Qed.

Lemma writeChunk_csid_Data {D} (m : ChunkStream D) : Data (writeChunk_csid m) = Data m.
Proof. unfold writeChunk_csid. destruct (_ =? _); [done|]. by destruct (_ || _). Qed.

Lemma Write_csid m c : RtmpConn_Write (writeChunk_csid m) c = RtmpConn_Write m c.
Proof.
  unfold RtmpConn_Write. rewrite writeChunk_csid_TypeID, writeChunk_csid_Data.
  unfold writeChunk. by rewrite writeChunk_csid_idem.
Qed.

(** The message of a tag; [writeChunk] chooses the chunk stream. *)
Definition media_message (typeID timestamp sid : Z) (data : bytes) : ChunkStream bytes :=
  writeChunk_csid (newCS 0 0 timestamp (len data) typeID sid data).

Definition media_type (typeID : Z) : Prop := typeID = TAG_AUDIO ∨ typeID = TAG_VIDEO.

(** A tag as it fits into a message. *)
Record tag_ok (timestamp : Z) (data : bytes) : Prop := {
  to_some : data ≠ [];
  to_bytes : Forall is_byte data;
  to_len : len data < 2 ^ 24;
  to_ts : 0 ≤ timestamp < 0xffffff;
}.

Lemma media_sendable ty ts sid data : media_type ty → tag_ok ts data → fits 32 sid →
  sendable (media_message ty ts sid data).
Proof.
  intros Hty [Hne Hb Hl Ht] Hs. pose proof (len_nonneg data). unfold media_message.
  assert (Hc : 1 < ty < 256 ∧ ty ≠ 5) by (destruct Hty as [-> | ->]; by unfold TAG_AUDIO, TAG_VIDEO).
  constructor; rewrite ?writeChunk_csid_TypeID, ?writeChunk_csid_Data; cbn [TypeID Data newCS]; try done || lia.
  destruct Hty as [-> | ->]; unfold writeChunk_csid; cbn; constructor; cbn; try done || lia;
    unfold fits; lia.
Qed.

Lemma media_wire k ty ts sid d ms : media_type ty →
  wire_of k (media_message ty ts sid d :: ms) = wire_of k [media_message ty ts sid d] ++ wire_of k ms.
Proof.
  intros Hty. cbn [wire_of]. rewrite app_nil_r. f_equal. unfold next_size, media_message.
  rewrite writeChunk_csid_TypeID. by destruct Hty as [-> | ->].
Qed.

(** ** Reading *)

Lemma Read_at_end c : rw_in (c_rw c) = [] → ∃ e c', RtmpConn_Read c = (Err e, c').
Proof.
  intros Hin. unfold RtmpConn_Read. cbn [Read_loop]. unfold Read_pass, readBasicHeader.
  unfold mbind, go_bind, conn_rw, rw_ReadByte. rewrite Hin. by eexists _, _.
Qed.

(** A connection between two messages. *)
Record ready (a : AConn) (inp : bytes) (c : RtmpConn) : Prop := {
  rd_refines : conn_refines a c;
  rd_part : a_part a = ∅;
  rd_window : 0 ≤ a_window a;
  rd_in : rw_in (c_rw c) = inp;
}.

Lemma read_one a c m rest : sendable m → is_control (TypeID m) = false →
  ready a (wire_of (a_size a) [m] ++ rest) c →
  ∃ r c', RtmpConn_Read c = (Ok r, c') ∧ message_at (c_heap c') r = delivered m ∧ ready a rest c'.
Proof.
  intros Hs Hc [Hr Hp Hw Hin].
  destruct (loop_messages 0 m rest ltac:(lia) Hs Hc [] a (S (length (rw_in (c_rw c)))) c)
    as (r & c' & E & Hr' & Hin' & _ & Hat); try done || by apply Forall_nil_2.
  { lia. }
  exists r, c'. split; [exact E|]. split; [exact Hat|].
  assert (Ha : after a ([] ++ [m]) = a).
  { cbn. unfold a_control, idSetChunkSize, idWindowAckSize. unfold is_control in Hc.
    destruct (Z.eqb_spec (TypeID m) 1) as [E1|]; [by rewrite E1 in Hc|].
    destruct (Z.eqb_spec (TypeID m) 5) as [E5|]; [by rewrite E5 in Hc|done]. }
  rewrite Ha in Hr'. by constructor.
Qed.

Lemma read_media a c ty ts sid d ms : media_type ty → tag_ok ts d → fits 32 sid →
  ready a (wire_of (a_size a) (media_message ty ts sid d :: ms)) c →
  ∃ r c', RtmpConn_Read c = (Ok r, c') ∧
    message_at (c_heap c') r = delivered (media_message ty ts sid d) ∧
    ready a (wire_of (a_size a) ms) c'.
Proof.
  intros Hty Ht Hsid Hr. rewrite media_wire in Hr by done. apply read_one; [by apply media_sendable| |exact Hr].
  unfold media_message. rewrite writeChunk_csid_TypeID. by destruct Hty as [-> | ->].
Qed.
