(* ===== verification/Handshake.v ===== *)
(** * The handshake (src/protocol/core/handshake.go)

    Each side sends a version byte, a block of 1536 bytes, and an answer to the block of
    the other side.  A client that announces a version signs its block with HMAC-SHA256;
    the position of the signature depends on four bytes of the block. *)
From S2P Require Import Prelude Crypto Pio GoIO ReadWriter Av Chunk Conn ConnSafe.

Definition key_tail : bytes :=
  [0xF0; 0xEE; 0xC2; 0x4A; 0x80; 0x68; 0xBE; 0xE8; 0x2E; 0x00; 0xD0; 0xD1;
   0x02; 0x9E; 0x7E; 0x57; 0x6E; 0xEC; 0x5D; 0x2D; 0x29; 0x80; 0x6F; 0xAB;
   0x93; 0xB8; 0xE6; 0x36; 0xCF; 0xEB; 0x31; 0xAE].

Definition hsClientFullKey : bytes := str "Genuine Adobe Flash Player 001" ++ key_tail.
Definition hsServerFullKey : bytes := str "Genuine Adobe Flash Media Server 001" ++ key_tail.
Definition hsClientPartialKey : bytes := take 30 hsClientFullKey.
Definition hsServerPartialKey : bytes := take 36 hsServerFullKey.

(** The signature of [src], without the 32 bytes at [gap] if [gap > 0]. *)
Definition hsMakeDigest (key src : bytes) (gap : Z) : res bytes :=
  if gap <=? 0 then Ok (hmac key src)
  else
    a ← slice src 0 gap;
    b ← slice_from src (gap + 32);
    Ok (hmac key (a ++ b)).

Definition hsCalcDigestPos (p : bytes) (base : Z) : res Z :=
  pos ← foldl (λ r i, pos ← r; b ← index_at p (base + i); Ok (pos + b)) (Ok 0) [0; 1; 2; 3];
  Ok (pos mod 728 + base + 4).

Definition hsFindDigest (p key : bytes) (base : Z) : res Z :=
  gap ← hsCalcDigestPos p base;
  digest ← hsMakeDigest key p gap;
  sig ← slice p gap (gap + 32);
  Ok (if decide (sig = digest) then gap else -1).

Definition hsParse1 (p peerkey key : bytes) : res (bool * bytes) :=
  pos ← hsFindDigest p peerkey 772;
  pos ← (if pos =? -1 then hsFindDigest p peerkey 8 else Ok pos);
  if pos =? -1 then Ok (false, [])
  else
    sig ← slice p pos (pos + 32);
    digest ← hsMakeDigest key sig (-1);
    Ok (true, digest).

Section handshake.
(** [rand.Read] of [n] bytes, the [i]-th time. *)
Variable rand_Read : nat → Z → bytes.

(** The version byte and the block: time, version, random bytes and the signature. *)
Definition hsCreate01 (p : bytes) (time ver : Z) (key : bytes) : res bytes :=
  p0 ← set_at p 0 3;
  p1 ← slice_from p0 1;
  p1 ← copy_at p1 8 (rand_Read 0 (len p1 - 8));
  t ← PutU32BE (make_bytes 4) time;
  v ← PutU32BE (make_bytes 4) ver;
  p1 ← copy_at p1 0 t;
  p1 ← copy_at p1 4 v;
  gap ← hsCalcDigestPos p1 8;
  digest ← hsMakeDigest key p1 gap;
  p1 ← copy_at p1 gap digest;
  copy_at p0 1 p1.

Definition hsCreate2 (p key : bytes) : res bytes :=
  p ← copy_at p 0 (rand_Read 1 (len p));
  let gap := len p - 32 in
  digest ← hsMakeDigest key p gap;
  copy_at p gap digest.

(** The two sides send what is left of a zeroed array; a deadline that passes is an error
    of the connection. *)
Definition HandshakeClient : go RtmpConn unit :=
  let C0C1 := 3 :: make_bytes 1536 in
  _ ← conn_rw (RW_Write C0C1);
  _ ← conn_rw RW_Flush;
  S0S1S2 ← conn_rw (RW_ReadFull 3073);
  S1 ← lift (slice S0S1S2 1 1537);
  ver ← lift (slice S1 4 8);
  _ ← lift (U32BE ver);
  _ ← conn_rw (RW_Write S1);
  mret tt.

(** [S0S1] and [S2] for the block [C1] of the client. *)
Definition hs_answer (C1 : bytes) (clitime cliver : Z) : res (bytes * bytes) :=
  let srvtime := clitime in
  let srvver := 0x0d0e0a0d in
  if negb (cliver =? 0) then
    '(ok, digest) ← hsParse1 C1 hsClientPartialKey hsServerFullKey;
    if negb ok then Err (Errorf "rtmp: handshake server: C1 invalid")
    else
      S0S1 ← hsCreate01 (3 :: make_bytes 1536) srvtime srvver hsServerPartialKey;
      S2 ← hsCreate2 (make_bytes 1536) digest;
      Ok (S0S1, S2)
  else Ok (3 :: make_bytes 1536, C1).

Definition HandshakeServer : go RtmpConn unit :=
  C0C1 ← conn_rw (RW_ReadFull 1537);
  C0 ← lift (index_at C0C1 0);
  if negb (C0 =? 3) then fail (Errorf "rtmp: handshake version=%d invalid")
  else
    C1 ← lift (slice C0C1 1 1537);
    b ← lift (slice C1 0 4);
    clitime ← lift (U32BE b);
    b ← lift (slice C1 4 8);
    cliver ← lift (U32BE b);
    '(S0S1, S2) ← lift (hs_answer C1 clitime cliver);
    _ ← conn_rw (RW_Write (S0S1 ++ S2));
    _ ← conn_rw RW_Flush;
    _ ← conn_rw (RW_ReadFull 1536);
    mret tt.
End handshake.

(** ** Blocks cut at a position *)

Lemma slice_mid (a m b : bytes) lo hi : lo = len a → hi = len a + len m →
  slice (a ++ m ++ b) lo hi = Ok m.
Proof.
  intros -> ->. pose proof (len_nonneg a). pose proof (len_nonneg m). pose proof (len_nonneg b).
  rewrite slice_ok by (rewrite ?len_app; lia). unfold len. rewrite Nat2Z.id, drop_app_length.
  replace (Z.to_nat _) with (length m) by lia. by rewrite take_app_length.
Qed.

Lemma slice_tail (a b : bytes) lo : lo = len a → slice_from (a ++ b) lo = Ok b.
Proof. intros ->. apply slice_suffix. Qed.

Lemma copy_at_mid (a old b new : bytes) i : i = len a → length old = length new →
  copy_at (a ++ old ++ b) i new = Ok (a ++ new ++ b).
Proof.
  intros -> Hl. unfold copy_at, copy_bytes. pose proof (len_nonneg a).
  rewrite !(proj2 (Z.leb_le _ _)) by (rewrite ?len_app; pose proof (len_nonneg (old ++ b));
    rewrite ?len_app in *; lia). simpl. unfold len. rewrite Nat2Z.id.
  rewrite take_app_length, drop_app_length, <- Hl, drop_app_length.
  rewrite (take_ge new) by (rewrite length_app; lia). done.
Qed.

(** A block is what is before a position, [n] bytes, and what follows. *)
Lemma cut_at (p : bytes) (i n : Z) : 0 ≤ i → 0 ≤ n → i + n ≤ len p →
  ∃ a m b, p = a ++ m ++ b ∧ len a = i ∧ len m = n ∧ len b = len p - i - n.
Proof.
  intros Hi Hn Hp. exists (take (Z.to_nat i) p), (take (Z.to_nat n) (drop (Z.to_nat i) p)),
    (drop (Z.to_nat n) (drop (Z.to_nat i) p)).
  unfold len in *. rewrite !take_drop, !length_take, !length_drop. split_and!; lia || done.
Qed.

(** ** Positions *)

Lemma index_at_prefix p q i : i < len p → index_at (p ++ q) i = index_at p i.
Proof.
  intros Hi. unfold index_at. destruct (0 <=? i) eqn:E; [|done]. go_bool.
  rewrite lookup_app_l; [done|]. unfold len in Hi. lia.
Qed.

Lemma hsCalcDigestPos_app p q base : 0 ≤ base → base + 4 ≤ len p →
  hsCalcDigestPos (p ++ q) base = hsCalcDigestPos p base.
Proof.
  intros Hb Hp. unfold hsCalcDigestPos. cbn [foldl]. by rewrite !index_at_prefix by lia.
Qed.

Lemma hsCalcDigestPos_ok p base : 0 ≤ base → base + 4 ≤ len p →
  ∃ g, hsCalcDigestPos p base = Ok g ∧ base + 4 ≤ g < base + 732.
Proof.
  intros Hb Hp. unfold hsCalcDigestPos. cbn [foldl].
  destruct (index_at_ok p (base + 0)) as [x0 ->]; [lia|].
  destruct (index_at_ok p (base + 1)) as [x1 ->]; [lia|].
  destruct (index_at_ok p (base + 2)) as [x2 ->]; [lia|].
  destruct (index_at_ok p (base + 3)) as [x3 ->]; [lia|].
  eexists. split; [reflexivity|].
  pose proof (Z.mod_pos_bound (0 + x0 + x1 + x2 + x3) 728). lia.
Qed.

(** ** Signatures *)

Lemma hsMakeDigest_mid key (a sig b : bytes) g : len sig = 32 → g = len a → 0 < g →
  hsMakeDigest key (a ++ sig ++ b) g = Ok (hmac key (a ++ b)).
Proof.
  intros Hs -> Hg. unfold hsMakeDigest. rewrite (proj2 (Z.leb_gt _ _)) by done.
  rewrite slice_prefix. cbn [mbind res_bind].
  rewrite app_assoc, slice_tail by (rewrite len_app; lia). done.
Qed.

(** [p] carries the signature of [key] at the position its bytes from [base] on say. *)
Definition signed_at (key : bytes) (base : Z) (p a sig b : bytes) : Prop :=
  p = a ++ sig ++ b ∧ len sig = 32 ∧ hsCalcDigestPos p base = Ok (len a) ∧
  sig = hmac key (a ++ b).

Definition signed (key : bytes) (base : Z) (p : bytes) : Prop :=
  ∃ a sig b, signed_at key base p a sig b.

Lemma hsFindDigest_spec p key base : 0 ≤ base → base + 764 ≤ len p →
  (∃ a sig b, signed_at key base p a sig b ∧ hsFindDigest p key base = Ok (len a)) ∨
  (¬ signed key base p ∧ hsFindDigest p key base = Ok (-1)).
Proof.
  intros Hb Hp. destruct (hsCalcDigestPos_ok p base) as (g & Hg & Hr); [lia|lia|].
  destruct (cut_at p g 32) as (a & m & b & Hcut & Ha & Hm & _); [lia..|].
  unfold hsFindDigest. rewrite Hg. cbn [mbind res_bind].
  assert (Hd : hsMakeDigest key p g = Ok (hmac key (a ++ b)))
    by (rewrite Hcut; apply hsMakeDigest_mid; lia).
  assert (Hs : slice p g (g + 32) = Ok m) by (rewrite Hcut; apply slice_mid; lia).
  rewrite Hd. cbn [mbind res_bind]. rewrite Hs. cbn [mbind res_bind].
  destruct (decide (m = hmac key (a ++ b))) as [Heq|Hne].
  - left. exists a, m, b. split; [|by rewrite Ha]. unfold signed_at. rewrite Ha, Hg. done.
  - right. split; [|done]. intros (a' & m' & b' & Hp' & Hm' & Hg' & Heq). apply Hne.
    rewrite Hg in Hg'. injection Hg' as Ha'. rewrite Hcut in Hp'.
    assert (Hla : length a = length a') by (unfold len in *; lia).
    assert (Hlm : length m = length m') by (unfold len in *; lia).
    destruct (app_inj_1 _ _ _ _ Hla Hp') as [-> Hrest].
    by destruct (app_inj_1 _ _ _ _ Hlm Hrest) as [-> ->].
Qed.

Lemma hsParse1_spec C1 peerkey key : len C1 = 1536 →
  (∃ base a sig b, (base = 772 ∨ base = 8) ∧ signed_at peerkey base C1 a sig b ∧
     hsParse1 C1 peerkey key = Ok (true, hmac key sig)) ∨
  (¬ signed peerkey 772 C1 ∧ ¬ signed peerkey 8 C1 ∧ hsParse1 C1 peerkey key = Ok (false, [])).
Proof.
  intros Hl. unfold hsParse1.
  assert (Hfin : ∀ base a sig b, signed_at peerkey base C1 a sig b →
    (if len a =? -1 then Ok (false, []) else
      sig ← slice C1 (len a) (len a + 32); digest ← hsMakeDigest key sig (-1); Ok (true, digest))
    = Ok (true, hmac key sig)).
  { intros base a sig b (-> & Hs & _ & _). pose proof (len_nonneg a).
    rewrite (proj2 (Z.eqb_neq _ _)) by lia. rewrite slice_mid by lia. done. }
  destruct (hsFindDigest_spec C1 peerkey 772) as [(a & sig & b & Hs & ->)|[Hn ->]]; [lia|lia|..].
  - left. exists 772, a, sig, b. split; [auto|]. split; [done|]. cbn [mbind res_bind].
    rewrite (proj2 (Z.eqb_neq (len a) (-1))) by (pose proof (len_nonneg a); lia).
    cbn [mbind res_bind]. by rewrite <- (Hfin 772 a sig b Hs).
  - cbn [mbind res_bind]. change (-1 =? -1) with true. cbv iota.
    destruct (hsFindDigest_spec C1 peerkey 8) as [(a & sig & b & Hs & ->)|[Hn' ->]]; [lia|lia|..].
    + left. exists 8, a, sig, b. split; [auto|]. split; [done|]. cbn [mbind res_bind].
      by rewrite <- (Hfin 8 a sig b Hs).
    + right. done.
Qed.

(** ** The blocks the server creates *)

Section blocks.
Variable rand_Read : nat → Z → bytes.
Hypothesis rand_len : ∀ i n, 0 ≤ n → len (rand_Read i n) = n.

Lemma PutU32BE_4 v : PutU32BE (make_bytes 4) v = Ok (be_split 4 v).
Proof.
  change (PutU32BE (make_bytes 4) v) with (put_shifts (make_bytes 4 ++ []) v (be_shifts 0 4)).
  by rewrite put_be, app_nil_r.
Qed.

(** Signing leaves the bytes that say where the signature is. *)
Lemma sign_block key (p : bytes) : len p = 1536 →
  ∃ blk, (gap ← hsCalcDigestPos p 8; digest ← hsMakeDigest key p gap; copy_at p gap digest) = Ok blk ∧
    len blk = 1536 ∧ signed key 8 blk ∧ take 8 blk = take 8 p.
Proof.
  intros Hp. destruct (hsCalcDigestPos_ok p 8) as (g & Hg & Hr); [lia|lia|].
  destruct (cut_at p g 32) as (a & m & b & -> & Ha & Hm & Hb); [lia..|].
  rewrite Hg. cbn [mbind res_bind]. rewrite hsMakeDigest_mid by lia. cbn [mbind res_bind].
  set (sig := hmac key (a ++ b)). assert (Hs : len sig = 32) by (unfold len, sig; by rewrite length_hmac).
  exists (a ++ sig ++ b). split; [|split; [|split]].
  - apply copy_at_mid; [lia|]. unfold len in *. lia.
  - rewrite !len_app in *. lia.
  - exists a, sig, b. split_and!; try done. rewrite Ha, <- Hg.
    rewrite !hsCalcDigestPos_app by lia. done.
  - rewrite !take_app_le by (unfold len in *; lia). done.
Qed.

Lemma hsCreate01_ok time ver key :
  ∃ blk, hsCreate01 rand_Read (3 :: make_bytes 1536) time ver key = Ok (3 :: blk) ∧
    len blk = 1536 ∧ signed key 8 blk ∧ take 8 blk = be_split 4 time ++ be_split 4 ver.
Proof.
  unfold hsCreate01.
  change (set_at (3 :: make_bytes 1536) 0 3) with (Ok (3 :: make_bytes 1536)). cbn [mbind res_bind].
  assert (Hz : len (make_bytes 1536) = 1536) by done. set (z := make_bytes 1536) in *.
  change (3 :: z) with ([3] ++ z). rewrite slice_tail by done. cbn [mbind res_bind].
  destruct (cut_at z 8 1528) as (h & old & e & Hcut & Hh & Ho & He); [lia..|].
  assert (e = []) as -> by (destruct e; [done|unfold len in *; simpl in *; lia]).
  rewrite Hz. set (r := rand_Read 0 (1536 - 8)).
  assert (Hr : len r = 1528) by (apply rand_len; lia).
  assert (Hc1 : copy_at z 8 r = Ok (h ++ r ++ []))
    by (rewrite Hcut; apply copy_at_mid; [lia|unfold len in *; lia]).
  rewrite Hc1. cbn [mbind res_bind]. rewrite !PutU32BE_4. cbn [mbind res_bind].
  destruct (cut_at h 0 4) as (x & h1 & h2 & -> & Hx & Hh1 & Hh2); [lia..|].
  assert (x = []) as -> by (destruct x; [done|unfold len in *; simpl in *; lia]).
  rewrite !app_nil_r. cbn [app] in *. rewrite <- app_assoc.
  change (h1 ++ h2 ++ r) with ([] ++ h1 ++ h2 ++ r).
  rewrite copy_at_mid by (rewrite ?length_be_split; unfold len in *; simpl in *; lia).
  cbn [mbind res_bind app]. rewrite copy_at_mid
    by (rewrite ?length_be_split; unfold len in *; rewrite ?length_be_split; simpl in *; lia).
  cbn [mbind res_bind].
  set (p := be_split 4 time ++ be_split 4 ver ++ r).
  assert (Hp : len p = 1536).
  { unfold p, len in *. rewrite !length_app, !length_be_split. lia. }
  destruct (sign_block key p Hp) as (blk & Hblk & Hl & Hsig & Htake).
  exists blk. split; [|by split_and!].
  cbn [mbind res_bind] in Hblk. destruct (hsCalcDigestPos p 8) as [gap| | |]; try done.
  cbn [mbind res_bind] in *. destruct (hsMakeDigest key p gap) as [d| | |]; try done.
  cbn [mbind res_bind] in *. rewrite Hblk. cbn [mbind res_bind].
  rewrite <- (app_nil_r z). rewrite (copy_at_mid [3] z [] blk) by (done || (unfold len in *; lia)).
  by rewrite app_nil_r.
Qed.

Lemma hsCreate2_ok key : ∃ body, len body = 1504 ∧
  hsCreate2 rand_Read (make_bytes 1536) key = Ok (body ++ hmac key body).
Proof.
  unfold hsCreate2. assert (Hz : len (make_bytes 1536) = 1536) by done.
  set (z := make_bytes 1536) in *. rewrite Hz. set (r := rand_Read 1 1536).
  assert (Hr : len r = 1536) by (apply rand_len; lia).
  assert (Hc : copy_at z 0 r = Ok r).
  { rewrite <- (app_nil_r z) at 1. change (z ++ []) with ([] ++ z ++ []).
    rewrite copy_at_mid; [by rewrite app_nil_r|done|unfold len in *; lia]. }
  rewrite Hc. cbn [mbind res_bind]. rewrite Hr.
  destruct (cut_at r 1504 32) as (a & m & b & Hcut & Ha & Hm & Hb); [lia..|].
  assert (b = []) as -> by (destruct b; [done|unfold len in *; simpl in *; lia]).
  exists a. split; [done|]. change (1536 - 32) with 1504.
  assert (Hd : hsMakeDigest key r 1504 = Ok (hmac key a)).
  { rewrite Hcut. rewrite hsMakeDigest_mid by lia. by rewrite app_nil_r. }
  rewrite Hd. cbn [mbind res_bind]. rewrite Hcut, copy_at_mid; [by rewrite app_nil_r|done|].
  rewrite length_hmac. unfold len in Hm. lia.
Qed.

(** What the server may answer to the block [C1] of a client with version [cliver]. *)
Definition answer_ok (C1 : bytes) (clitime cliver : Z) (S1 S2 : bytes) : Prop :=
  if cliver =? 0 then S1 = make_bytes 1536 ∧ S2 = C1
  else
    signed hsServerPartialKey 8 S1 ∧
    take 8 S1 = be_split 4 clitime ++ be_split 4 0x0d0e0a0d ∧
    ∃ base a sig b body, (base = 772 ∨ base = 8) ∧
      signed_at hsClientPartialKey base C1 a sig b ∧
      S2 = body ++ hmac (hmac hsServerFullKey sig) body.

Definition client_signed (C1 : bytes) : Prop :=
  signed hsClientPartialKey 772 C1 ∨ signed hsClientPartialKey 8 C1.

Lemma hs_answer_spec C1 clitime cliver : len C1 = 1536 →
  (∃ S1 S2, hs_answer rand_Read C1 clitime cliver = Ok (3 :: S1, S2) ∧ len S1 = 1536 ∧ len S2 = 1536 ∧
     answer_ok C1 clitime cliver S1 S2) ∨
  (cliver ≠ 0 ∧ ¬ client_signed C1 ∧
   hs_answer rand_Read C1 clitime cliver = Err (Errorf "rtmp: handshake server: C1 invalid")).
Proof.
  intros Hl. unfold hs_answer, answer_ok, client_signed. destruct (Z.eqb_spec cliver 0) as [->|Hne].
  { left. by exists (make_bytes 1536), C1. }
  destruct (hsParse1_spec C1 hsClientPartialKey hsServerFullKey Hl)
    as [(base & a & sig & b & Hbase & Hs & ->)|(H1 & H2 & ->)]; cbn [mbind res_bind negb];
    [left|right; by split_and!; [|intros [?|?]|]].
  destruct (hsCreate01_ok clitime 0x0d0e0a0d hsServerPartialKey) as (blk & -> & Hb & Hsig & Ht).
  cbn [mbind res_bind].
  destruct (hsCreate2_ok (hmac hsServerFullKey sig)) as (body & Hbody & ->). cbn [mbind res_bind].
  eexists _, _. split; [reflexivity|]. split; [done|]. split.
  { rewrite len_app, Hbody. unfold len. by rewrite length_hmac. }
  split; [done|]. split; [done|]. by exists base, a, sig, b, body.
Qed.
End blocks.

(** ** The two sides on a connection *)

(** [rw'] is [rw] after [p] was written and all input but [rest] was read. *)
Definition rw_did (p rest : bytes) (rw rw' : ReadWriter) : Prop :=
  rw_wok rw' ∧ readError rw' = None ∧ rw_stream rw' = rw_stream rw ++ p ∧ rw_in rw' = rest ∧
  rw_in_err rw' = rw_in_err rw.

Lemma conn_rw_bind {A B} (m : go ReadWriter A) (k : A → go RtmpConn B) c a rw' :
  m (c_rw c) = (Ok a, rw') → (conn_rw m ≫= k) c = k a (set_rw rw' c).
Proof. intros H. unfold conn_rw, mbind, go_bind. by rewrite H. Qed.

Lemma set_rw_rw rw rw' c : set_rw rw (set_rw rw' c) = set_rw rw c.
Proof. done. Qed.

Lemma HandshakeClient_ok c S1 S2 rest : rw_wok (c_rw c) →
  rw_has (3 :: S1 ++ S2) rest (c_rw c) → Forall is_byte S1 → len S1 = 1536 → len S2 = 1536 →
  ∃ rw', HandshakeClient c = (Ok tt, set_rw rw' c) ∧
    rw_did (3 :: make_bytes 1536 ++ S1) rest (c_rw c) rw'.
Proof.
  intros Hw Hin Hb H1 H2. unfold HandshakeClient.
  destruct (RW_Write_ok (3 :: make_bytes 1536) (c_rw c) Hw) as (rw1 & E1 & Hw1 & Hs1 & Hi1 & He1 & Hr1).
  rewrite (conn_rw_bind _ _ _ _ _ E1).
  destruct (RW_Flush_ok rw1 Hw1) as (rw2 & E2 & (Hw2 & Hs2 & Hi2 & He2 & Hr2) & _).
  rewrite (conn_rw_bind _ _ (set_rw rw1 c) _ _ E2).
  assert (H3 : RW_ReadFull 3073 rw2 = (Ok (3 :: S1 ++ S2), set_in rest rw2)).
  { replace 3073 with (len (3 :: S1 ++ S2)) by (unfold len in *; simpl; rewrite length_app; lia).
    apply rw_ReadFull_has. destruct Hin. split; congruence. }
  rewrite (conn_rw_bind _ _ (set_rw rw2 _) _ _ H3).
  assert (Hsl : slice (3 :: S1 ++ S2) 1 1537 = Ok S1)
    by (apply (slice_mid [3] S1 S2); [done|unfold len in *; simpl; lia]).
  erewrite go_bind_lift by exact Hsl.
  destruct (cut_at S1 4 4) as (x & v & y & Hcut & Hx & Hv & _); [lia..|].
  erewrite go_bind_lift by (rewrite Hcut; apply slice_mid; lia).
  destruct (U32BE_total v) as (ver & Hver & _).
  { unfold len in Hv. lia. }
  { rewrite Hcut, !Forall_app in Hb. tauto. }
  erewrite go_bind_lift by exact Hver.
  destruct (RW_Write_ok S1 (set_in rest rw2) Hw2) as (rw3 & E3 & Hw3 & Hs3 & Hi3 & He3 & Hr3).
  rewrite (conn_rw_bind _ _ (set_rw (set_in rest rw2) _) _ _ E3).
  exists rw3. split; [done|]. destruct Hin as [Hre _]. unfold rw_did.
  assert (Hq : rw_stream (set_in rest rw2) = rw_stream rw2) by done.
  rewrite Hr3, Hi3, He3, Hs3, Hq, Hs2, Hs1, app_nil_r, <- app_assoc. simpl.
  split_and!; congruence || done.
Qed.

Section server.
Variable rand_Read : nat → Z → bytes.
Hypothesis rand_len : ∀ i n, 0 ≤ n → len (rand_Read i n) = n.

(** The time and the version in a block. *)
Definition block_time (C1 : bytes) : Z := be_combine (take 4 C1).
Definition block_version (C1 : bytes) : Z := be_combine (take 4 (drop 4 C1)).

Lemma U32BE_combine b : length b = 4%nat → Forall is_byte b → U32BE b = Ok (be_combine b).
Proof.
  intros Hl Hb. pose proof (be_combine_bound b Hb) as Hbd. unfold len in Hbd. rewrite Hl in Hbd.
  rewrite <- (be_split_combine b Hb) at 1. rewrite Hl, <- (app_nil_r (be_split 4 _)).
  by apply U32BE_split.
Qed.

(** What happens up to the answer, on a block of a client. *)
Lemma server_reads {B} (C1 rest : bytes) (k : bytes * bytes → go RtmpConn B) c :
  rw_has (3 :: C1) rest (c_rw c) → len C1 = 1536 → Forall is_byte C1 →
  (C0C1 ← conn_rw (RW_ReadFull 1537); C0 ← lift (index_at C0C1 0);
   if negb (C0 =? 3) then fail (Errorf "rtmp: handshake version=%d invalid")
   else
     C1 ← lift (slice C0C1 1 1537); b ← lift (slice C1 0 4); clitime ← lift (U32BE b);
     b ← lift (slice C1 4 8); cliver ← lift (U32BE b);
     r ← lift (hs_answer rand_Read C1 clitime cliver); k r) c
  = (r ← lift (hs_answer rand_Read C1 (block_time C1) (block_version C1)); k r)
      (set_rw (set_in rest (c_rw c)) c).
Proof.
  intros Hin Hl Hb.
  assert (H3 : RW_ReadFull 1537 (c_rw c) = (Ok (3 :: C1), set_in rest (c_rw c))).
  { replace 1537 with (len (3 :: C1)) by (unfold len in *; simpl; lia). by apply rw_ReadFull_has. }
  rewrite (conn_rw_bind _ _ _ _ _ H3).
  erewrite go_bind_lift by reflexivity. change (negb (3 =? 3)) with false. cbv iota.
  assert (Hs : slice (3 :: C1) 1 1537 = Ok C1).
  { rewrite <- (app_nil_r C1) at 1. apply (slice_mid [3] C1 []); [done|unfold len in *; simpl; lia]. }
  erewrite go_bind_lift by exact Hs.
  destruct (cut_at C1 4 4) as (x & v & y & Hcut & Hx & Hv & _); [lia..|].
  assert (Hbx : Forall is_byte x ∧ Forall is_byte v) by (rewrite Hcut, !Forall_app in Hb; tauto).
  unfold len in Hx, Hv.
  erewrite go_bind_lift by (rewrite Hcut; apply (slice_mid [] x (v ++ y)); unfold len; simpl; lia).
  assert (Ht : block_time C1 = be_combine x)
    by (unfold block_time; rewrite Hcut, take_app_length'; [done|lia]).
  assert (Hr : block_version C1 = be_combine v).
  { unfold block_version. by rewrite Hcut, drop_app_length', take_app_length' by lia. }
  erewrite go_bind_lift by (apply U32BE_combine; [lia|tauto]).
  erewrite go_bind_lift by (rewrite Hcut; apply slice_mid; unfold len; lia).
  erewrite go_bind_lift by (apply U32BE_combine; [lia|tauto]).
  by rewrite Ht, Hr.
Qed.

Lemma HandshakeServer_ok c C1 C2 S1 S2 rest :
  rw_wok (c_rw c) → rw_has (3 :: C1 ++ C2) rest (c_rw c) →
  Forall is_byte C1 → len C1 = 1536 → len C2 = 1536 →
  hs_answer rand_Read C1 (block_time C1) (block_version C1) = Ok (3 :: S1, S2) →
  ∃ rw', HandshakeServer rand_Read c = (Ok tt, set_rw rw' c) ∧
    rw_did (3 :: S1 ++ S2) rest (c_rw c) rw'.
Proof.
  intros Hw [Hre Hin] Hb H1 H2 Ha. unfold HandshakeServer.
  assert (Hreads : rw_has (3 :: C1) (C2 ++ rest) (c_rw c)) by (split; [done|by rewrite Hin, app_assoc]).
  destruct (RW_Write_ok (3 :: S1 ++ S2) (set_in (C2 ++ rest) (c_rw c)) Hw)
    as (rw1 & E1 & Hw1 & Hs1 & Hi1 & He1 & Hr1).
  destruct (RW_Flush_ok rw1 Hw1) as (rw2 & E2 & (Hw2 & Hs2 & Hi2 & He2 & Hr2) & _).
  assert (E3 : RW_ReadFull 1536 rw2 = (Ok C2, set_in rest rw2)).
  { rewrite <- H2. apply rw_ReadFull_has. split; [by rewrite Hr2, Hr1|]. by rewrite Hi2, Hi1. }
  exists (set_in rest rw2). split.
  { erewrite server_reads by done. erewrite go_bind_lift by exact Ha. cbv beta iota.
    rewrite (conn_rw_bind _ _ (set_rw _ c) _ _ E1), (conn_rw_bind _ _ (set_rw rw1 _) _ _ E2).
    by rewrite (conn_rw_bind _ _ (set_rw rw2 _) _ _ E3). }
  unfold rw_did. simpl. rewrite Hr2, Hr1, He2, He1. split_and!; try done.
  change (rw_stream rw2 = rw_stream (c_rw c) ++ 3 :: S1 ++ S2). by rewrite Hs2, Hs1, app_nil_r.
Qed.

(** C27: A server answers a client that sends no version with zeros and the client's block,
    and a client that signs its block with a signed block of its own, which carries the
    client's time, and a block signed with the client's signature; it has then read both
    blocks of the client and nothing else.  A version without a signature is refused. *)
Theorem server_handshake c C1 C2 rest :
  rw_wok (c_rw c) → rw_has (3 :: C1 ++ C2) rest (c_rw c) →
  Forall is_byte C1 → len C1 = 1536 → len C2 = 1536 →
  (block_version C1 = 0 ∨ client_signed C1) ∧
    (∃ S1 S2 rw', HandshakeServer rand_Read c = (Ok tt, set_rw rw' c) ∧
      len S1 = 1536 ∧ len S2 = 1536 ∧ rw_did (3 :: S1 ++ S2) rest (c_rw c) rw' ∧
      answer_ok C1 (block_time C1) (block_version C1) S1 S2) ∨
  block_version C1 ≠ 0 ∧ ¬ client_signed C1 ∧
    (∃ rw', HandshakeServer rand_Read c
        = (Err (Errorf "rtmp: handshake server: C1 invalid"), set_rw rw' c) ∧
      rw_stream rw' = rw_stream (c_rw c)).
Proof.
  intros Hw Hin Hb H1 H2.
  destruct (hs_answer_spec rand_Read rand_len C1 (block_time C1) (block_version C1) H1)
    as [(S1 & S2 & Ha & Hl1 & Hl2 & Hok)|(Hv & Hn & Ha)]; [left|right].
  - split.
    { unfold answer_ok, client_signed, signed in *. destruct (Z.eqb_spec (block_version C1) 0); [by left|].
      right. destruct Hok as (_ & _ & base & a & sig & b & _ & [-> | ->] & Hs & _); eauto. }
    destruct (HandshakeServer_ok c C1 C2 S1 S2 rest) as (rw' & E & Hdid); try done.
    by exists S1, S2, rw'.
  - split; [done|]. split; [done|]. exists (set_in (C2 ++ rest) (c_rw c)). split; [|done].
    destruct Hin as [Hre Hin]. unfold HandshakeServer. rewrite (server_reads C1 (C2 ++ rest))
      by (done || (split; [done|by rewrite Hin, app_assoc])).
    unfold mbind, go_bind, lift. by rewrite Ha.
Qed.

(** *** Any input *)

Lemma RW_ReadFull_runs n rw : 0 ≤ n → Forall is_byte (rw_in rw) →
  runs (λ _, True) (λ p rw', len p = n ∧ Forall is_byte p ∧ Forall is_byte (rw_in rw') ∧
    len (rw_in rw') = len (rw_in rw) - n) (RW_ReadFull n) rw.
Proof.
  intros Hn Hb. unfold outcome, RW_ReadFull, RW_Read, io_ReadAtLeast.
  destruct (readError rw); [done|]. destruct (n <=? len (rw_in rw)) eqn:E; [|by destruct (rw_in rw)].
  go_bool. cbn. unfold len in *. rewrite length_take, length_drop.
  split_and!; [lia|by apply Forall_take|by apply Forall_drop|lia].
Qed.

Lemma conn_rw_runs {A} (E : ReadWriter → Prop) (Q : A → ReadWriter → Prop) (m : go ReadWriter A) c :
  runs E Q m (c_rw c) →
  runs (λ c', E (c_rw c') ∧ c' = set_rw (c_rw c') c) (λ a c', Q a (c_rw c') ∧ c' = set_rw (c_rw c') c)
    (conn_rw m) c.
Proof. unfold outcome, conn_rw. by destruct (m (c_rw c)) as [[a|e|p|] rw']. Qed.

Lemma slice_sub (b : bytes) lo hi : 0 ≤ lo ≤ hi → hi ≤ len b → Forall is_byte b →
  ∃ x, slice b lo hi = Ok x ∧ len x = hi - lo ∧ Forall is_byte x.
Proof.
  intros H1 H2 Hb. rewrite slice_ok by done. eexists. split; [done|]. unfold len in *.
  rewrite length_take, length_drop. split; [lia|]. by apply Forall_take, Forall_drop.
Qed.

Lemma conn_runs {A B} (m : go ReadWriter A) (k : A → go RtmpConn B) c
    (E : RtmpConn → Prop) (Q : A → ReadWriter → Prop) (Q' : B → RtmpConn → Prop) :
  runs (λ _, True) Q m (c_rw c) → (∀ c', E c') →
  (∀ a rw', Q a rw' → runs E Q' (k a) (set_rw rw' c)) → runs E Q' (conn_rw m ≫= k) c.
Proof.
  intros Hm HE Hk. eapply runs_bind; [eapply runs_mono; [by apply conn_rw_runs|done|]|].
  - intros a c'. exact id.
  - intros a c' [HQ ->]. by apply Hk.
Qed.

Lemma writer_runs {A} (m : go ReadWriter A) rw : writer_safe m →
  runs (λ _, True) (λ _, rw_frame rw) m rw.
Proof. intros H. eapply runs_mono; [apply H|done..]. Qed.

Lemma HandshakeClient_runs c : Forall is_byte (rw_in (c_rw c)) →
  runs (λ _, True) (λ _ c', len (rw_in (c_rw c')) = len (rw_in (c_rw c)) - 3073 ∧
      ∃ rw, c' = set_rw rw c ∧ Forall is_byte (rw_in rw)) HandshakeClient c.
Proof.
  intros Hb. unfold HandshakeClient.
  eapply conn_runs; [apply writer_runs, RW_Write_safe|done|]. intros _ rw1 (Hi1 & _).
  eapply conn_runs; [apply writer_runs, RW_Flush_safe|done|]. intros _ rw2 (Hi2 & _).
  cbn [c_rw set_rw] in *. eapply conn_runs; [apply RW_ReadFull_runs; [done|cbn; congruence]|done|].
  intros p rw3 (Hl & Hp & Hb3 & H3).
  destruct (slice_sub p 1 1537) as (S1 & -> & Hl1 & Hb1); [lia|lia|done|].
  destruct (slice_sub S1 4 8) as (v & Hv & Hlv & Hbv); [lia|lia|done|].
  destruct (U32BE_total v) as (ver & Hver & _); [unfold len in *; lia|done|].
  eapply runs_bind_lift; [done|]. eapply runs_bind_lift; [exact Hv|]. eapply runs_bind_lift; [exact Hver|].
  eapply conn_runs; [apply writer_runs, RW_Write_safe|done|]. intros _ rw4 (Hi4 & _).
  apply runs_ret. cbn in *. split; [by rewrite Hi4, H3, Hi2, Hi1|]. exists rw4. split; [done|by rewrite Hi4].
Qed.

Lemma HandshakeServer_runs c : Forall is_byte (rw_in (c_rw c)) →
  runs (λ _, True) (λ _ c', len (rw_in (c_rw c')) = len (rw_in (c_rw c)) - 3073 ∧
      ∃ rw, c' = set_rw rw c ∧ Forall is_byte (rw_in rw)) (HandshakeServer rand_Read) c.
Proof.
  intros Hb. unfold HandshakeServer.
  eapply conn_runs; [by apply RW_ReadFull_runs|done|]. intros p rw1 (Hl & Hp & Hb1 & H1).
  destruct (index_at_ok p 0) as [C0 HC0]; [lia|]. eapply runs_bind_lift; [exact HC0|].
  apply runs_if; intros _; [done|].
  destruct (slice_sub p 1 1537) as (C1 & HC1 & Hl1 & Hbc); [lia|lia|done|].
  destruct (slice_sub C1 0 4) as (t & Ht & Hlt & Hbt); [lia|lia|done|].
  destruct (slice_sub C1 4 8) as (v & Hv & Hlv & Hbv); [lia|lia|done|].
  destruct (U32BE_total t) as (time & Htime & _); [unfold len in *; lia|done|].
  destruct (U32BE_total v) as (ver & Hver & _); [unfold len in *; lia|done|].
  eapply runs_bind_lift; [exact HC1|]. eapply runs_bind_lift; [exact Ht|].
  eapply runs_bind_lift; [exact Htime|]. eapply runs_bind_lift; [exact Hv|].
  eapply runs_bind_lift; [exact Hver|].
  destruct (hs_answer_spec rand_Read rand_len C1 time ver) as [(S1 & S2 & Ha & _)|(_ & _ & Ha)];
    [lia| |by unfold outcome, mbind, go_bind, lift; rewrite Ha].
  eapply runs_bind_lift; [exact Ha|].
  eapply conn_runs; [apply writer_runs, RW_Write_safe|done|]. intros _ rw2 (Hi2 & _).
  eapply conn_runs; [apply writer_runs, RW_Flush_safe|done|]. intros _ rw3 (Hi3 & _).
  cbn [c_rw set_rw] in *.
  eapply conn_runs; [apply RW_ReadFull_runs; [done|cbn; congruence]|done|].
  intros q rw4 (_ & _ & Hb4 & H4). apply runs_ret. split; [cbn in *; rewrite H4, Hi3, Hi2, H1; lia|].
  by exists rw4.
Qed.

(** C28: Whatever the peer sends and however the connection fails, neither side of the
    handshake panics; a side that succeeds has read exactly the 3073 bytes of the other. *)
Theorem handshake_total c : Forall is_byte (rw_in (c_rw c)) →
  let after := λ (_ : unit) c', len (rw_in (c_rw c')) = len (rw_in (c_rw c)) - 3073 in
  runs (λ _, True) after HandshakeClient c ∧ runs (λ _, True) after (HandshakeServer rand_Read) c.
Proof.
  intros Hb. split; (eapply runs_mono; [by apply HandshakeClient_runs || by apply HandshakeServer_runs|done|];
    by intros u c' []).
Qed.
End server.

(** Random bytes for the samples: a counter. *)
Definition sample_rand (i : nat) (n : Z) : bytes := (λ k, (k + Z.of_nat i) mod 256) <$> seqZ 0 n.

Lemma sample_rand_len i n : 0 ≤ n → len (sample_rand i n) = n.
Proof. intros Hn. unfold sample_rand, len. rewrite length_fmap, length_seqZ. lia. Qed.

Lemma server_handshake_witness :
  (∃ S1 S2 rw', HandshakeServer sample_rand (NewRtmpConn (sample_rw (3 :: make_bytes 3072 ++ [7])))
      = (Ok tt, set_rw rw' (NewRtmpConn (sample_rw (3 :: make_bytes 3072 ++ [7])))) ∧
     len S1 = 1536 ∧ len S2 = 1536 ∧
     rw_did (3 :: S1 ++ S2) [7] (sample_rw (3 :: make_bytes 3072 ++ [7])) rw' ∧
     S1 = make_bytes 1536 ∧ S2 = make_bytes 1536).
Proof.
  destruct (server_handshake sample_rand sample_rand_len
    (NewRtmpConn (sample_rw (3 :: make_bytes 3072 ++ [7]))) (make_bytes 1536) (make_bytes 1536) [7])
    as [[_ H]|[H _]].
  - apply sample_rw_wok.
  - split; reflexivity.
  - apply Forall_replicate. split; [exact (Z.le_refl 0)|reflexivity].
  - reflexivity.
  - reflexivity.
  - exact H.
  - exfalso. apply H. reflexivity.
Defined.

Lemma handshake_total_witness :
  let c := NewRtmpConn (sample_rw [3; 0; 1]) in
  let after := λ (_ : unit) c', len (rw_in (c_rw c')) = len (rw_in (c_rw c)) - 3073 in
  runs (λ _, True) after HandshakeClient c ∧ runs (λ _, True) after (HandshakeServer sample_rand) c.
Proof.
  apply (handshake_total sample_rand sample_rand_len (NewRtmpConn (sample_rw [3; 0; 1]))).
  repeat (apply Forall_cons; split; [done|]). apply Forall_nil. exact I.
Defined.
