(* ===== verification/Utils.v ===== *)
(** * Queue and Pool (src/utils/queue.go, src/utils/pool.go)

    The queue holds the messages a reader has not taken yet; the pool cuts message
    buffers out of one large buffer. *)
From S2P Require Import Prelude Chunk.

(** ** Queue *)

(** The elements are pointers: the model is polymorphic. *)
Record Queue (A : Type) := mkQueue { maxSize : Z; q_list : list A }.
Arguments mkQueue {A}.
Arguments maxSize {A}.
Arguments q_list {A}.

Section queue.
Context {A : Type}.
Implicit Types (q : Queue A) (l : list A).

Definition NewQueue (maxSize : Z) : Queue A := mkQueue maxSize [].

(** [q.list[x]] with [x = len - 1]: an empty list is an index out of range. *)
Definition queue_pop : go (Queue A) A := λ q,
  match last (q_list q) with
  | Some msg => (Ok msg, mkQueue (maxSize q) (take (pred (length (q_list q))) (q_list q)))
  | None => (Panic IndexOutOfRange, q)
  end.

Definition Push (msg : A) : go (Queue A) unit :=
  q ← get;
  _ ← (if Z.of_nat (length (q_list q)) =? maxSize q
       then _ ← queue_pop; mret tt else mret tt);
  modify (λ q, mkQueue (maxSize q) (q_list q ++ [msg])).

(** The nil pointer is [None]. *)
Definition Pop : go (Queue A) (option A) :=
  q ← get;
  match q_list q with
  | [] => mret None
  | _ => Some <$> queue_pop
  end.

Definition Queue_Len (q : Queue A) : Z := Z.of_nat (length (q_list q)).

Definition All : go (Queue A) (list A) := λ q, (Ok (q_list q), mkQueue (maxSize q) []).

Fixpoint push_all (l : list A) : go (Queue A) unit :=
  match l with
  | [] => mret tt
  | x :: l => _ ← Push x; push_all l
  end.

(** What is left of [old ++ l] in a queue of [n] places: the oldest messages, and the
    last one pushed in the last place. *)
Definition kept (n : nat) (l : list A) : list A :=
  if (length l <=? n)%nat then l
  else take (pred n) l ++ match last l with Some x => [x] | None => [] end.

Lemma queue_pop_snoc n l x : queue_pop (mkQueue n (l ++ [x])) = (Ok x, mkQueue n l).
Proof.
  unfold queue_pop. simpl. rewrite last_snoc, length_app, Nat.add_1_r. simpl.
  by rewrite take_app_length.
Qed.

Lemma Push_room n l x : Z.of_nat (length l) ≠ n → Push x (mkQueue n l) = (Ok tt, mkQueue n (l ++ [x])).
Proof.
  intros Hn. unfold Push, get, mbind at 1, go_bind at 1. simpl.
  by rewrite (proj2 (Z.eqb_neq (Z.of_nat (length l)) n) Hn).
Qed.

Lemma Push_full l y x :
  Push x (mkQueue (Z.of_nat (length (l ++ [y]))) (l ++ [y]))
    = (Ok tt, mkQueue (Z.of_nat (length (l ++ [y]))) (l ++ [x])).
Proof.
  unfold Push, get, mbind at 1, go_bind at 1. cbn [q_list maxSize].
  rewrite Z.eqb_refl. erewrite go_bind_ok; [|erewrite go_bind_ok by apply queue_pop_snoc; reflexivity].
  reflexivity.
Qed.

Lemma kept_snoc n l x : (0 < n)%nat →
  kept n (l ++ [x]) = if (length l <? n)%nat then l ++ [x] else take (pred n) l ++ [x].
Proof.
  intros Hn. unfold kept. rewrite last_snoc, length_app. simpl.
  destruct (Nat.leb_spec (length l + 1) n), (Nat.ltb_spec (length l) n); try lia; [done|].
  by rewrite take_app_le by lia.
Qed.

Lemma Push_kept (n : nat) l x : (0 < n)%nat →
  Push x (mkQueue (Z.of_nat n) (kept n l)) = (Ok tt, mkQueue (Z.of_nat n) (kept n (l ++ [x]))).
Proof.
  intros Hn. rewrite kept_snoc by done. unfold kept.
  destruct (Nat.leb_spec (length l) n).
  - destruct (Nat.ltb_spec (length l) n); [apply Push_room; lia|].
    assert (Hl : length l = n) by lia. destruct l as [|y l _] using rev_ind; [simpl in *; lia|].
    rewrite length_app in Hl. simpl in Hl.
    replace (Z.of_nat n) with (Z.of_nat (length (l ++ [y]))) by (rewrite length_app; simpl; lia).
    rewrite Push_full. rewrite take_app_length' by lia. done.
  - rewrite (proj2 (Nat.ltb_ge _ _)) by lia.
    destruct l as [|y l _] using rev_ind; [simpl in *; lia|]. rewrite last_snoc.
    rewrite length_app in *. simpl in *. rewrite (take_app_le l) by lia.
    assert (Hlen : length (take (pred n) l ++ [y]) = n)
      by (rewrite length_app, length_take; simpl; lia).
    rewrite <- Hlen at 1. rewrite Push_full, Hlen. done.
Qed.

Lemma push_all_kept (n : nat) l : ∀ old, (0 < n)%nat →
  push_all l (mkQueue (Z.of_nat n) (kept n old))
    = (Ok tt, mkQueue (Z.of_nat n) (kept n (old ++ l))).
Proof.
  induction l as [|x l IH]; intros old Hn; [by rewrite app_nil_r|].
  cbn [push_all]. erewrite go_bind_ok by by apply Push_kept.
  rewrite IH by done. by rewrite <- app_assoc.
Qed.
End queue.

(** A queue of [n] places that gets the messages [l] keeps all of them while there
    is room, and then the [n - 1] oldest ones and the newest one; [All] hands them over
    in the order of arrival and [Pop] takes the newest. *)
Theorem queue_behaviour (n : nat) (l : list Z) : (0 < n)%nat →
  ∃ q, push_all l (NewQueue (Z.of_nat n)) = (Ok tt, q) ∧
    (length (q_list q) ≤ n)%nat ∧
    All q = (Ok (kept n l), NewQueue (Z.of_nat n)) ∧
    (Pop q).1 = Ok (last (kept n l)).
Proof.
  intros Hn. exists (mkQueue (Z.of_nat n) (kept n l)).
  split; [exact (push_all_kept n l [] Hn)|]. split; [|split; [done|]].
  - simpl. unfold kept. destruct (Nat.leb_spec (length l) n); [done|].
    rewrite length_app, length_take. destruct (last l); simpl; lia.
  - unfold Pop, get, mbind at 1, go_bind at 1. simpl.
    destruct (kept n l) as [|x k] eqn:E; [done|]. unfold fmap, go_fmap, queue_pop.
    cbn [q_list]. destruct (last (x :: k)) eqn:El; [done|].
    by apply last_None in El.
Qed.

Lemma queue_behaviour_witness :
  ∃ q, push_all [1; 2; 3; 4] (NewQueue 2) = (Ok tt, q) ∧ (length (q_list q) ≤ 2)%nat ∧
    All q = (Ok [1; 4], NewQueue 2) ∧ (Pop q).1 = Ok (Some 4).
Proof. exact (queue_behaviour 2 [1; 2; 3; 4] ltac:(lia)). Defined.

(** The comment of [Pop] says "in first to last order". *)
Example pop_is_lifo :
  (r ← push_all [1; 2]; Pop) (NewQueue 8) = (Ok (Some 2), mkQueue 8 [1]).
Proof. reflexivity. Qed.

(** A queue made with no size, which its comment allows, cannot be pushed to. *)
Example unbounded_queue_panics : (Push 1 (NewQueue 0)).1 = Panic IndexOutOfRange.
Proof. reflexivity. Qed.

(** ** Pool *)

Definition maxpoolsize : Z := 50 * 1024.

Record Pool := mkPool { pool_heap : heap; pool_pos : Z; pool_buf : sref }.

(** [make([]byte, n)] *)
Definition heap_new (n : Z) (h : heap) : sref * heap :=
  (mkSref (Some (length h)) 0 n, h ++ [make_bytes n]).

Definition NewPool (h : heap) : Pool :=
  let '(buf, h) := heap_new maxpoolsize h in mkPool h 0 buf.

(** A new buffer when the old one has too little left. *)
Definition pool_refill (size : Z) (p : Pool) : Pool :=
  if maxpoolsize - pool_pos p <? size then
    let '(buf, h) := heap_new maxpoolsize (pool_heap p) in mkPool h 0 buf
  else p.

Definition Pool_Get (size : Z) : go Pool sref :=
  _ ← modify (pool_refill size);
  p ← get;
  b ← lift (sr_slice (pool_heap p) (pool_buf p) (pool_pos p) (pool_pos p + size));
  _ ← put (mkPool (pool_heap p) (pool_pos p + size) (pool_buf p));
  mret b.

Fixpoint get_all (sizes : list Z) : go Pool (list sref) :=
  match sizes with
  | [] => mret []
  | n :: sizes => r ← Pool_Get n; rs ← get_all sizes; mret (r :: rs)
  end.

(** Two slices that share no byte. *)
Definition sr_disjoint (r s : sref) : Prop :=
  sr_buf r ≠ sr_buf s ∨ sr_off r + sr_len r ≤ sr_off s ∨ sr_off s + sr_len s ≤ sr_off r.

(** [buf] is a whole buffer and [pos] is inside it. *)
Definition pool_wf (p : Pool) : Prop :=
  0 ≤ pool_pos p ≤ maxpoolsize ∧ sr_off (pool_buf p) = 0 ∧
  len (buf_of (pool_heap p) (pool_buf p)) = maxpoolsize ∧
  ∃ i, sr_buf (pool_buf p) = Some i ∧ (i < length (pool_heap p))%nat.

(** [r] is cut from what the pool has not handed out yet. *)
Definition pool_fresh (p : Pool) (r : sref) : Prop :=
  ∃ i, sr_buf r = Some i ∧
    ((length (pool_heap p) ≤ i)%nat ∨ sr_buf r = sr_buf (pool_buf p) ∧ pool_pos p ≤ sr_off r).

Lemma len_new_buf h n : 0 ≤ n →
  len (buf_of (h ++ [make_bytes n]) (mkSref (Some (length h)) 0 n)) = n.
Proof.
  intros Hn. unfold buf_of. simpl. rewrite lookup_app_r, Nat.sub_diag by done. simpl.
  unfold len. rewrite length_make_bytes. lia.
Qed.

Lemma NewPool_wf h : pool_wf (NewPool h).
Proof.
  unfold NewPool, heap_new. split; [simpl; unfold maxpoolsize; lia|]. split; [done|]. split.
  - by apply len_new_buf.
  - exists (length h). simpl. split; [done|]. rewrite length_app. simpl. lia.
Qed.

Lemma pool_refill_ok n p : pool_wf p → 0 ≤ n ≤ maxpoolsize →
  pool_wf (pool_refill n p) ∧ pool_pos (pool_refill n p) + n ≤ maxpoolsize ∧
  (∀ s, pool_fresh (pool_refill n p) s → pool_fresh p s).
Proof.
  intros Hp Hn. unfold pool_refill. destruct (_ <? _) eqn:E; go_bool.
  - split; [exact (NewPool_wf (pool_heap p))|]. split; [simpl; lia|].
    intros s (i & Hs & Hi). exists i. split; [done|]. left. simpl in Hi.
    rewrite length_app in Hi. rewrite Hs in Hi. destruct Hi as [Hi|[[= ->] _]]; lia.
  - split; [done|]. split; [lia|done].
Qed.

Lemma Pool_Get_ok n p : pool_wf p → 0 ≤ n ≤ maxpoolsize →
  ∃ r p', Pool_Get n p = (Ok r, p') ∧ pool_wf p' ∧ sr_len r = n ∧ pool_fresh p r ∧
    (∀ s, pool_fresh p' s → pool_fresh p s ∧ sr_disjoint r s).
Proof.
  intros Hp Hn. unfold Pool_Get. rewrite go_bind_modify.
  destruct (pool_refill_ok n p Hp Hn) as (Hwf & Hfit & Hmono).
  set (p1 := pool_refill n p) in *. clearbody p1.
  destruct Hwf as (Hpos & Hoff & Hlen & i & Hi & Hilt).
  unfold get, mbind at 1, go_bind at 1.
  erewrite go_bind_lift. 2: { unfold sr_slice. rewrite Hoff, Hlen, Z.sub_0_r, Z.add_0_l.
    rewrite !(proj2 (Z.leb_le _ _)) by lia. reflexivity. }
  rewrite Z.add_simpl_l. eexists _, _. split; [reflexivity|].
  split; [split; [simpl; lia|]; split; [done|]; split; [done|]; by exists i|].
  split; [done|]. split.
  - apply Hmono. exists i. simpl. split; [done|]. right. split; [done|lia].
  - intros s (j & Hs & Hj). simpl in Hj. split.
    + apply Hmono. exists j. split; [done|]. destruct Hj as [|[? ?]]; [by left|right].
      split; [done|lia].
    + unfold sr_disjoint. simpl. destruct Hj as [Hj|[_ Hj]]; [|right; left; lia].
      left. rewrite Hi, Hs. intros [= ->]. lia.
Qed.

(** C40: The pool never hands out the same byte twice: every slice has the size asked
    for, and no two slices overlap. *)
Theorem pool_disjoint h sizes : Forall (λ n, 0 ≤ n ≤ maxpoolsize) sizes →
  ∃ rs p, get_all sizes (NewPool h) = (Ok rs, p) ∧ sr_len <$> rs = sizes ∧
    ∀ i j r s, i ≠ j → rs !! i = Some r → rs !! j = Some s → sr_disjoint r s.
Proof.
  intros Hs. cut (∀ p, pool_wf p → ∃ rs p', get_all sizes p = (Ok rs, p') ∧
    sr_len <$> rs = sizes ∧ Forall (pool_fresh p) rs ∧
    ∀ i j r s, (i < j)%nat → rs !! i = Some r → rs !! j = Some s → sr_disjoint r s).
  { intros H. destruct (H _ (NewPool_wf h)) as (rs & p & Hg & Hl & _ & Hd).
    exists rs, p. split_and!; try done. intros i j r s Hij Hr Hs'.
    destruct (Nat.lt_total i j) as [Hlt|[->|Hlt]]; [by eapply Hd|done|].
    destruct (Hd j i s r Hlt Hs' Hr) as [Hb|[Ho|Ho]]; unfold sr_disjoint; auto. }
  induction Hs as [|n sizes Hn Hs IH]; intros p Hp.
  { exists [], p. split_and!; done. }
  destruct (Pool_Get_ok n p Hp Hn) as (r & p1 & Hg & Hp1 & Hl & Hf & Hnext).
  destruct (IH p1 Hp1) as (rs & p2 & Hg2 & Hl2 & Hf2 & Hd2).
  exists (r :: rs), p2. cbn [get_all]. erewrite go_bind_ok by exact Hg.
  erewrite go_bind_ok by exact Hg2. split; [done|]. split; [simpl; by f_equal|].
  split; [constructor; [done|]; eapply Forall_impl; [exact Hf2|]; intros s; apply Hnext|].
  intros [|i] [|j] a b Hij Ha Hb; try lia; simpl in *.
  - injection Ha as <-. apply Hnext. by eapply (Forall_lookup_1 _ rs j).
  - eapply (Hd2 i j); done || lia.
Qed.

Lemma pool_disjoint_witness :
  Forall (λ n, 0 ≤ n ≤ maxpoolsize) [51000; 300; 100] ∧
  ∃ rs p, get_all [51000; 300; 100] (NewPool []) = (Ok rs, p) ∧
    sr_len <$> rs = [51000; 300; 100] ∧
    ∀ i j r s, i ≠ j → rs !! i = Some r → rs !! j = Some s → sr_disjoint r s.
Proof.
  assert (H : Forall (λ n, 0 ≤ n ≤ maxpoolsize) [51000; 300; 100])
    by (unfold maxpoolsize; repeat (apply Forall_cons; split; [lia|]); apply Forall_nil; done).
  split; [exact H|]. exact (pool_disjoint [] [51000; 300; 100] H).
Defined.

(** A message larger than the pool. *)
Example pool_too_large : (Pool_Get (50 * 1024 + 1) (NewPool [])).1 = Panic SliceBounds.
Proof. vm_compute. reflexivity. Qed.
