(* ===== verification/Cache.v ===== *)
(** * The cache of a stream (src/protocol/cache/cache.go, gop.go)

    What a new player is sent first: the metadata, the sequence headers and the current
    group of pictures. *)
From S2P Require Import Prelude Av.

Section cache.
(** The packets are handed on, whatever their data is. *)
Context {D : Type}.
Implicit Types (p pkt : PacketOf D) (l pkts : list (PacketOf D)).

Record GopCache := mkGop { maxNumber : Z; gop_count : Z; gops : list (PacketOf D) }.

(** The argument is not stored: the limit is the zero of its type. *)
Definition NewGopCache (maxNumber : Z) : GopCache := mkGop 0 0 [].

Definition Gop_Write (p : PacketOf D) (bKeyFrame : bool) (gc : GopCache) : GopCache :=
  let gc := if bKeyFrame then mkGop (maxNumber gc) 0 [] else gc in
  if gop_count gc <? maxNumber gc
  then mkGop (maxNumber gc) (gop_count gc + 1) (gops gc ++ [p])
  else gc.

Record Cache := mkCache {
  gop : GopCache;
  videoSeq : option (PacketOf D);
  audioSeq : option (PacketOf D);
  metadata : option (PacketOf D);
}.

(** [gopNum] is the command-line flag, 1 by default. *)
Definition NewCache (gopNum : Z) : Cache := mkCache (NewGopCache gopNum) None None None.

Definition isAACSeqHeader (p : PacketOf D) : bool :=
  (SoundFormat (AHeader p) =? SOUND_AAC) && (AACPacketType (AHeader p) =? AAC_SEQHDR).

Definition Cache_Write (p : PacketOf D) (c : Cache) : Cache :=
  if PacketType p =? PacketTypeAudio then
    if isAACSeqHeader p then mkCache (gop c) (videoSeq c) (Some p) (metadata c) else c
  else if PacketType p =? PacketTypeVideo then
    if CodecID (VHeader p) =? VIDEO_H264 then
      let c :=
        if FrameType (VHeader p) =? FRAME_KEY then
          if AVCPacketType (VHeader p) =? AVC_SEQHDR
          then mkCache (gop c) (Some p) (audioSeq c) (metadata c)
          else mkCache (Gop_Write p true (gop c)) (videoSeq c) (audioSeq c) (metadata c)
        else c in
      mkCache (Gop_Write p false (gop c)) (videoSeq c) (audioSeq c) (metadata c)
    else c
  else if PacketType p =? PacketTypeMetadata then
    mkCache (gop c) (videoSeq c) (audioSeq c) (Some p)
  else c.

(** A channel with room for [ch_room] more packets; nobody receives during the call. *)
Record Chan := mkChan { ch_room : nat; ch_sent : list (PacketOf D); ch_closed : bool }.

(** [select { case ch <- pkt: ...; default: ... }], which panics on a closed channel. *)
Definition try_send (pkt : PacketOf D) : go Chan bool := λ ch,
  if ch_closed ch then (Panic SendOnClosedChannel, ch)
  else
    match ch_room ch with
    | O => (Ok false, ch)
    | S n => (Ok true, mkChan n (ch_sent ch ++ [pkt]) false)
    end.

Definition cachePkts (c : Cache) : list (PacketOf D) :=
  option_list (metadata c) ++ option_list (videoSeq c) ++ option_list (audioSeq c).

Fixpoint send_headers (pkts : list (PacketOf D)) : go Chan unit :=
  match pkts with
  | [] => mret tt
  | pkt :: pkts =>
      sent ← try_send pkt;
      if sent : bool then send_headers pkts else fail (Errorf "send sequence failed")
  end.

Fixpoint send_gops (pkts : list (PacketOf D)) : go Chan unit :=
  match pkts with
  | [] => mret tt
  | pkt :: pkts => _ ← try_send pkt; send_gops pkts
  end.

Definition Cache_Send (c : Cache) : go Chan unit :=
  _ ← send_headers (cachePkts c);
  send_gops (gops (gop c)).

(** ** What the cache holds after any packets *)

Definition is_metadata (p : PacketOf D) : bool := PacketType p =? PacketTypeMetadata.

Definition is_audio_header (p : PacketOf D) : bool :=
  (PacketType p =? PacketTypeAudio) && isAACSeqHeader p.

Definition is_video_header (p : PacketOf D) : bool :=
  (PacketType p =? PacketTypeVideo) && (CodecID (VHeader p) =? VIDEO_H264)
  && (FrameType (VHeader p) =? FRAME_KEY) && (AVCPacketType (VHeader p) =? AVC_SEQHDR).

(** The last packet of a kind. *)
Definition latest (kind : PacketOf D → bool) (l : list (PacketOf D)) : option (PacketOf D) :=
  last (filter (λ p, kind p = true) l).

Definition cache_of (l : list (PacketOf D)) : Cache :=
  mkCache (mkGop 0 0 []) (latest is_video_header l) (latest is_audio_header l)
    (latest is_metadata l).

Lemma latest_snoc kind l p :
  latest kind (l ++ [p]) = if kind p then Some p else latest kind l.
Proof.
  unfold latest. rewrite filter_app, filter_cons, filter_nil. destruct (kind p) eqn:E.
  - rewrite decide_True by done. by rewrite last_snoc.
  - rewrite decide_False by done. by rewrite app_nil_r.
Qed.

Lemma Cache_Write_latest l p : Cache_Write p (cache_of l) = cache_of (l ++ [p]).
Proof.
  unfold cache_of. rewrite !latest_snoc. unfold Cache_Write, is_metadata, is_audio_header,
    is_video_header, PacketTypeAudio, PacketTypeVideo, PacketTypeMetadata.
  destruct (Z.eqb_spec (PacketType p) 2) as [E|E];
    [rewrite E; simpl; by destruct (isAACSeqHeader p)|].
  destruct (Z.eqb_spec (PacketType p) 1) as [E1|E1].
  - rewrite E1. simpl. destruct (CodecID _ =? _); [|done].
    destruct (FrameType _ =? _); [|done]. by destruct (AVCPacketType _ =? _).
  - simpl. by destruct (PacketType p =? 3).
Qed.

Lemma Cache_Write_all gopNum l :
  foldl (λ c p, Cache_Write p c) (NewCache gopNum) l = cache_of l.
Proof.
  induction l as [|p l IH] using rev_ind; [done|].
  by rewrite foldl_app, IH, <- Cache_Write_latest.
Qed.

Lemma send_headers_ok pkts : ∀ n l,
  send_headers pkts (mkChan (length pkts + n) l false) = (Ok tt, mkChan n (l ++ pkts) false).
Proof.
  induction pkts as [|p pkts IH]; intros n l; [by rewrite app_nil_r|]. cbn [send_headers length].
  rewrite go_bind_ok with (a := true) (s' := mkChan (length pkts + n) (l ++ [p]) false) by done.
  rewrite IH. by rewrite <- app_assoc.
Qed.

(** C39: After any sequence of packets a new player is sent the latest metadata, then the
    latest video and audio sequence headers, and nothing else: no picture is ever in the
    cache, whatever the command line asks for. *)
Theorem cache_sends_latest gopNum l n sent :
  let c := foldl (λ c p, Cache_Write p c) (NewCache gopNum) l in
  let pkts := option_list (latest is_metadata l) ++ option_list (latest is_video_header l)
                ++ option_list (latest is_audio_header l) in
  Cache_Send c (mkChan (length pkts + n) sent false) = (Ok tt, mkChan n (sent ++ pkts) false).
Proof.
  cbv zeta. rewrite Cache_Write_all. unfold Cache_Send.
  erewrite go_bind_ok by apply send_headers_ok. done.
Qed.

(** A full channel ends the sending with an error. *)
Lemma cache_send_full c : cachePkts c ≠ [] → ∀ sent,
  Cache_Send c (mkChan 0 sent false) = (Err (Errorf "send sequence failed"), mkChan 0 sent false).
Proof.
  intros H sent. unfold Cache_Send. apply go_bind_err. by destruct (cachePkts c).
Qed.

(** The channel of a player that has left is closed. *)
Lemma cache_send_closed c : cachePkts c ≠ [] → ∀ room sent,
  Cache_Send c (mkChan room sent true) = (Panic SendOnClosedChannel, mkChan room sent true).
Proof.
  intros H room sent. unfold Cache_Send. apply go_bind_panic. by destruct (cachePkts c).
Qed.

End cache.
Arguments GopCache : clear implicits.
Arguments Cache : clear implicits.
Arguments Chan : clear implicits.

(** ** A cache with room for pictures *)

Definition key_frame : Packet := mkPacket PacketTypeVideo 0 0
  (mkVHeader FRAME_KEY AVC_NALU VIDEO_H264 0) no_AHeader [].

(** A key frame would be stored twice. *)
Example key_frame_twice :
  gops (gop (Cache_Write key_frame (mkCache (mkGop 10 0 []) None None None)))
    = [key_frame; key_frame].
Proof. reflexivity. Qed.
