(* ===== verification/H264.v ===== *)
(** * H.264 streams (src/media/h264/parser.go)

    Conversion of the length-prefixed pictures of RTMP to the start-code format of
    MPEG-TS, splitting of a start-code stream, and the decoder configuration record.
    Slices are taken to have no capacity beyond their length. *)
From S2P Require Import Prelude GoIO.

Definition nalu_type_slice : Z := 1.
Definition nalu_type_idr : Z := 5.
Definition nalu_type_sei : Z := 6.
Definition nalu_type_sps : Z := 7.
Definition nalu_type_pps : Z := 8.
Definition nalu_type_aud : Z := 9.

Definition naluBytesLen : Z := 4.
Definition maxSpsPpsLen : Z := 2 * 1024.

Definition StartCode3 : bytes := [0; 0; 1].
Definition StartCode4 : bytes := [0; 0; 0; 1].
Definition naluAud : bytes := [0; 0; 0; 1; 9; 0xf0].

Definition decDataNil : error := Errorf "dec buf is nil".
Definition spsDataError : error := Errorf "sps data error".
Definition ppsHeaderError : error := Errorf "pps header error".
Definition ppsDataError : error := Errorf "pps data error".
Definition videoDataInvalid : error := Errorf "video data not match".
Definition dataSizeNotMatch : error := Errorf "data size not match".
Definition naluBodyLenError : error := Errorf "nalu body len error".

(** The field [frameType] is never used. *)
Record H264Parser := mkH264 { h264_specificInfo : bytes; h264_pps : bytes }.

Definition NewH264Parser : H264Parser := mkH264 [] (make_bytes maxSpsPpsLen).

(** ** Sequence headers *)

Definition parseSpecificInfo (src : bytes) : go H264Parser unit :=
  if len src <? 9 then fail decDataNil
  else
    b5 ← lift (index_at src 5);
    b6 ← lift (index_at src 6);
    b7 ← lift (index_at src 7);
    let spsLen := Z.lor (Z.shiftl b6 8) b7 in
    r8 ← lift (slice_from src 8);
    if (len r8 <? spsLen) || (spsLen <=? 0) then fail spsDataError
    else
      body ← lift (slice src 8 (8 + spsLen));
      tmpBuf ← lift (slice_from src (8 + spsLen));
      if len tmpBuf <? 4 then fail ppsHeaderError
      else
        t1 ← lift (index_at tmpBuf 1);
        t2 ← lift (index_at tmpBuf 2);
        let ppsLen := Z.lor (Z.shiftl t1 8) t2 in
        r3 ← lift (slice_from tmpBuf 3);
        if (len r3 <? ppsLen) || (ppsLen <=? 0) then fail ppsDataError
        else modify (λ p, mkH264 (h264_specificInfo p ++ (StartCode4 ++ body) ++ (StartCode4 ++ r3))
                            (h264_pps p)).

(** [AVCDecoderConfigurationRecord]: the start code is only removed from a slice that is
    nothing but a start code. *)
Definition AVCDecoderConfigurationRecord (sps pps : bytes) : bytes :=
  let sps := if decide (sps = StartCode4) then [] else sps in
  let pps := if decide (pps = StartCode4) then [] else pps in
  [1; 66; 0; 40; Z.lor (u8 (Z.shiftl 0x3f 2)) (Z.land 3 3);
   Z.lor (u8 (Z.shiftl 7 5)) (Z.land 1 0x1f)]
  ++ be_split 2 (u16 (len sps)) ++ sps ++ [1] ++ be_split 2 (u16 (len pps)) ++ pps.

(** ** From length prefixes to start codes *)

Definition isNaluHeader (src : bytes) : res bool :=
  if len src <? naluBytesLen then Ok false
  else
    b0 ← index_at src 0;
    if negb (b0 =? 0) then Ok false else
    b1 ← index_at src 1;
    if negb (b1 =? 0) then Ok false else
    b2 ← index_at src 2;
    if negb (b2 =? 0) then Ok false else
    b3 ← index_at src 3;
    Ok (b3 =? 1).

Definition naluSize (src : bytes) : res Z :=
  if len src <? naluBytesLen then Err (Errorf "nalusizedata invalid")
  else
    buf ← slice src 0 naluBytesLen;
    Ok (foldl (λ size b, Z.shiftl size 8 + b) 0 buf).

Section annexb.
Context {W : Type} `{IoWriter W}.

(** The switch on the type of one unit; [hasSpsPps] and [hasWriteSpsPps] after it. *)
Definition annexb_nalu (nalu : bytes) (hasSpsPps hasWrite : bool)
    : go (H264Parser * W) (bool * bool) :=
  b0 ← lift (index_at nalu 0);
  let nalType := Z.land b0 0x1f in
  if nalType =? nalu_type_aud then mret (hasSpsPps, hasWrite)
  else if (nalType =? nalu_type_idr) || (nalType =? nalu_type_slice)
          || (nalType =? nalu_type_sei) then
    hasWrite ← (if (nalType =? nalu_type_idr) && negb hasWrite then
                  p ← on_p get;
                  _ ← write_w (if hasSpsPps : bool then h264_pps p else h264_specificInfo p);
                  mret true
                else mret hasWrite);
    _ ← write_w StartCode4;
    _ ← write_w nalu;
    mret (hasSpsPps, hasWrite)
  else if (nalType =? nalu_type_sps) || (nalType =? nalu_type_pps) then
    _ ← on_p (modify (λ p, mkH264 (h264_specificInfo p) (h264_pps p ++ StartCode4 ++ nalu)));
    mret (true, hasWrite)
  else mret (hasSpsPps, hasWrite).

(** [src] is what follows [index]; [dataSize] is always its length.  Every pass takes at
    least five bytes. *)
Fixpoint annexb_loop (fuel : nat) (src : bytes) (hasSpsPps hasWrite : bool)
    : go (H264Parser * W) unit :=
  match fuel with
  | O => λ s, (OutOfFuel, s)
  | S fuel =>
      if len src <=? 0 then mret tt
      else
        nalLen ← on_err (lift (naluSize src)) (λ _, dataSizeNotMatch);
        src ← lift (slice_from src naluBytesLen);
        if (nalLen <=? len src) && (0 <? nalLen) then
          nalu ← lift (slice src 0 nalLen);
          '(hasSpsPps, hasWrite) ← annexb_nalu nalu hasSpsPps hasWrite;
          src ← lift (slice_from src nalLen);
          annexb_loop fuel src hasSpsPps hasWrite
        else fail naluBodyLenError
  end.

Definition getAnnexbH264 (src : bytes) : go (H264Parser * W) unit :=
  if len src <? naluBytesLen then fail videoDataInvalid
  else
    _ ← on_p (modify (λ p, mkH264 (h264_specificInfo p) []));
    _ ← write_w naluAud;
    annexb_loop (S (length src)) src false false.

Definition H264_Parse (b : bytes) (isSeq : bool) : go (H264Parser * W) unit :=
  if isSeq then on_p (parseSpecificInfo b)
  else
    annexb ← lift (isNaluHeader b);
    if annexb : bool then write_w b else getAnnexbH264 b.
End annexb.

(** ** Splitting at start codes *)

(** The loop of [ParseNalusN]: [index], [pre] and the units when it breaks. *)
Fixpoint nalus_loop (fuel : nat) (src : bytes) (n pre index : Z) (nalus : list bytes)
    : res (Z * Z * list bytes) :=
  match fuel with
  | O => OutOfFuel
  | S fuel =>
      if n =? 1 then Ok (len src, pre, nalus)
      else
        c3 ← slice src index (index + 3);
        startCodeLength ←
          (if decide (c3 = StartCode3) then Ok 3
           else c4 ← slice src index (index + 4);
                if decide (c4 = StartCode4) then Ok 4 else Ok 0);
        if 0 <? startCodeLength then
          let next := index + startCodeLength in
          if pre <? index then
            nalu ← slice src pre index;
            nalus_loop fuel src (if 0 <? n then n - 1 else n) next next (nalus ++ [nalu])
          else nalus_loop fuel src n next next nalus
        else
          if len src <? index + 1 + 4 then Ok (index + 1, pre, nalus)
          else nalus_loop fuel src n pre (index + 1) nalus
  end.

Definition ParseNalusN (src : bytes) (n : Z) : res (list bytes) :=
  if len src <? naluBytesLen then Ok []
  else if n =? 0 then Ok []
  else
    '(index, pre, nalus) ← nalus_loop (S (length src)) src n 0 0 [];
    if (pre <? index) && (pre <? len src) then
      nalu ← slice_from src pre; Ok (nalus ++ [nalu])
    else Ok nalus.

Definition ParseNalus (src : bytes) : res (list bytes) := ParseNalusN src (-1).

(** ** What the conversion writes *)

Definition nal_type (nalu : bytes) : Z := Z.land (nth 0 nalu 0) 0x1f.

(** A picture as RTMP carries it: every unit after its length. *)
Definition avcc (nalus : list bytes) : bytes :=
  mjoin ((λ nalu, be_split 4 (len nalu) ++ nalu) <$> nalus).

(** The start-code format. *)
Definition annexb (nalus : list bytes) : bytes := mjoin ((λ nalu, StartCode4 ++ nalu) <$> nalus).

Definition is_slice (ty : Z) : bool :=
  (ty =? nalu_type_idr) || (ty =? nalu_type_slice) || (ty =? nalu_type_sei).
Definition is_param (ty : Z) : bool := (ty =? nalu_type_sps) || (ty =? nalu_type_pps).

(** What is written for the units [nalus]: slices follow start codes, and the first IDR
    slice follows the parameter sets: the ones [params] that came in this picture, or
    those of the sequence header when there were none. *)
Fixpoint annexb_out (info : bytes) (params : list bytes) (hasWrite : bool)
    (nalus : list bytes) : bytes :=
  match nalus with
  | [] => []
  | nalu :: nalus =>
      let ty := nal_type nalu in
      if is_slice ty then
        (if (ty =? nalu_type_idr) && negb hasWrite
         then (if params is [] then info else annexb params) else [])
        ++ StartCode4 ++ nalu
        ++ annexb_out info params (hasWrite || (ty =? nalu_type_idr)) nalus
      else annexb_out info (if is_param ty then params ++ [nalu] else params) hasWrite nalus
  end.

(** The parameter sets among the units. *)
Definition params_of (nalus : list bytes) : list bytes :=
  filter (λ nalu, is_param (nal_type nalu) = true) nalus.

Lemma naluSize_be n r : fits 32 n → naluSize (be_split 4 n ++ r) = Ok n.
Proof.
  intros Hn. unfold naluSize, naluBytesLen. pose proof (len_nonneg r).
  rewrite (proj2 (Z.ltb_ge _ _)) by (rewrite len_app; unfold len in *; simpl; lia).
  change (slice _ 0 4) with (slice (be_split 4 n ++ r) 0 (len (be_split 4 n))).
  rewrite slice_prefix. simpl. f_equal.
  unfold fits in Hn. unfold len. cbn [be_split foldl].
  rewrite !u8_shiftr by lia. rewrite !Z.shiftl_mul_pow2 by lia.
  change (8 * Z.of_nat 0) with 0. change (8 * Z.of_nat 1) with 8.
  change (8 * Z.of_nat 2) with 16. change (8 * Z.of_nat 3) with 24. go_arith.
Qed.

Lemma avcc_cons nalu nalus : avcc (nalu :: nalus) = be_split 4 (len nalu) ++ nalu ++ avcc nalus.
Proof. unfold avcc. cbn [fmap list_fmap mjoin list_join]. by rewrite <- app_assoc. Qed.

Lemma avcc_length nalus : (4 * length nalus ≤ length (avcc nalus))%nat.
Proof.
  induction nalus as [|nalu nalus IH]; [done|]. rewrite avcc_cons, !length_app.
  rewrite length_be_split. simpl length. lia.
Qed.

Section annexb_laws.
Context {W : Type} `{LawfulWriter W}.

(** [hasSpsPps] holds when parameter sets are in the buffer. *)
Lemma annexb_nalu_out nalu info params hasWrite : nalu ≠ [] →
  let ty := nal_type nalu in
  emits (W := W) (annexb_nalu nalu (bool_decide (params ≠ [])) hasWrite)
    (mkH264 info (annexb params))
    (bool_decide ((if is_param ty then params ++ [nalu] else params) ≠ []),
     hasWrite || (ty =? nalu_type_idr))
    (mkH264 info (annexb (if is_param ty then params ++ [nalu] else params)))
    (if is_slice ty then
       (if (ty =? nalu_type_idr) && negb hasWrite
        then (if params is [] then info else annexb params) else [])
       ++ StartCode4 ++ nalu
     else []).
Proof.
  intros Hne ty. subst ty. destruct nalu as [|b nalu]; [done|]. unfold nal_type, annexb_nalu.
  eapply emits_bind_lift; [reflexivity|]. cbn [nth]. set (ty := Z.land b 31).
  unfold is_slice, is_param, nalu_type_idr, nalu_type_slice, nalu_type_sei, nalu_type_sps,
    nalu_type_pps, nalu_type_aud.
  destruct (Z.eqb_spec ty 9) as [->|]; [cbn [orb andb negb Z.eqb Pos.eqb]; rewrite orb_false_r; apply emits_ret|].
  destruct (Z.eqb_spec ty 5) as [->|N5]; cbn [orb andb negb Z.eqb Pos.eqb]; [rewrite orb_true_r|rewrite orb_false_r].
  - destruct hasWrite; cbn [orb andb negb Z.eqb Pos.eqb].
    + eapply (emits_bind _ _ _ _ _ []); [apply emits_ret|].
      apply emits_bind_write, emits_write_ret.
    + destruct params; (eapply emits_bind;
        [eapply emits_bind_on_p; [reflexivity|apply emits_write_ret]|
         apply emits_bind_write, emits_write_ret]).
  - destruct ((ty =? 1) || (ty =? 6)) eqn:E1.
    + eapply (emits_bind _ _ _ _ _ []); [apply emits_ret|].
      replace ((ty =? 7) || (ty =? 8)) with false by lia.
      apply emits_bind_write, emits_write_ret.
    + destruct ((ty =? 7) || (ty =? 8)); [|apply emits_ret].
      eapply emits_bind_on_p; [reflexivity|]. rewrite bool_decide_true by by destruct params.
      rewrite <- (app_nil_r (annexb params ++ _)).
      unfold annexb. rewrite fmap_app, join_app. cbn [fmap list_fmap mjoin list_join]. rewrite !app_nil_r. apply emits_ret.
Qed.

(** Units a picture can carry. *)
Definition nalu_ok (nalu : bytes) : Prop := nalu ≠ [] ∧ len nalu < 2 ^ 32.

Lemma annexb_loop_out nalus : ∀ fuel info params hasWrite,
  Forall nalu_ok nalus → (length nalus < fuel)%nat →
  emits (W := W) (annexb_loop fuel (avcc nalus) (bool_decide (params ≠ [])) hasWrite)
    (mkH264 info (annexb params)) tt (mkH264 info (annexb (params ++ params_of nalus)))
    (annexb_out info params hasWrite nalus).
Proof.
  induction nalus as [|nalu nalus IH]; intros fuel info params hasWrite Hok Hfuel;
    (destruct fuel as [|fuel]; [simpl in Hfuel; lia|]).
  { rewrite app_nil_r. apply emits_ret. }
  apply Forall_cons in Hok as [[Hne Hlen] Hok].
  assert (Hpos : 0 < len nalu) by (destruct nalu; [done|unfold len; simpl; lia]).
  rewrite avcc_cons. cbn [annexb_loop].
  rewrite (proj2 (Z.leb_gt _ _)).
  2: { rewrite !len_app. pose proof (len_nonneg (avcc nalus)).
    pose proof (len_nonneg (be_split 4 (len nalu))). lia. }
  eapply emits_bind_nil.
  { intros w Hw. exists w. unfold on_err, lift. rewrite naluSize_be by (unfold fits; lia).
    by rewrite app_nil_r. }
  eapply emits_bind_lift; [apply (slice_suffix (be_split 4 (len nalu)))|].
  pose proof (len_nonneg (avcc nalus)).
  rewrite len_app, (proj2 (Z.leb_le _ _)), (proj2 (Z.ltb_lt _ _)) by lia. cbn [andb].
  eapply emits_bind_lift; [apply slice_prefix|].
  assert (Hout : annexb_out info params hasWrite (nalu :: nalus)
    = (if is_slice (nal_type nalu) then
         (if (nal_type nalu =? nalu_type_idr) && negb hasWrite
          then (if params is [] then info else annexb params) else [])
         ++ StartCode4 ++ nalu else [])
      ++ annexb_out info (if is_param (nal_type nalu) then params ++ [nalu] else params)
           (hasWrite || (nal_type nalu =? nalu_type_idr)) nalus).
  { cbn [annexb_out]. destruct (is_slice (nal_type nalu)) eqn:E; [|].
    - replace (is_param (nal_type nalu)) with false; [by rewrite <- !app_assoc|].
      unfold is_slice, is_param, nalu_type_idr, nalu_type_slice, nalu_type_sei,
        nalu_type_sps, nalu_type_pps in *. lia.
    - simpl. unfold is_slice in E. destruct (nal_type nalu =? nalu_type_idr); [done|].
      by rewrite orb_false_r. }
  rewrite Hout. eapply emits_bind; [by apply annexb_nalu_out|].
  eapply emits_bind_lift; [apply slice_suffix|].
  assert (Hp : params ++ params_of (nalu :: nalus)
    = (if is_param (nal_type nalu) then params ++ [nalu] else params) ++ params_of nalus).
  { unfold params_of. rewrite filter_cons. destruct (is_param _) eqn:E.
    - rewrite decide_True by done. by rewrite <- app_assoc.
    - by rewrite decide_False by congruence. }
  rewrite Hp. apply IH; [done|]. simpl in Hfuel. lia.
Qed.

Lemma getAnnexbH264_emits nalus info pps0 : nalus ≠ [] → Forall nalu_ok nalus →
  emits (W := W) (getAnnexbH264 (avcc nalus)) (mkH264 info pps0) tt
    (mkH264 info (annexb (params_of nalus))) (naluAud ++ annexb_out info [] false nalus).
Proof.
  intros Hne Hok. pose proof (avcc_length nalus) as Hl.
  assert (Hn : (0 < length nalus)%nat) by (destruct nalus; [done|simpl; lia]).
  unfold getAnnexbH264, naluBytesLen. rewrite (proj2 (Z.ltb_ge _ _)) by (unfold len; lia).
  eapply emits_bind_on_p; [reflexivity|]. apply emits_bind_write.
  apply (annexb_loop_out nalus _ info [] false); [done|lia].
Qed.

(** C24: On a picture made of units with their lengths in front, the parser writes the
    access unit delimiter and the slices with start codes, with the parameter sets in
    front of the first IDR slice; it reads every unit and returns no error. *)
Theorem getAnnexbH264_out nalus info pps0 w : nalus ≠ [] → Forall nalu_ok nalus → wr_ok w →
  ∃ w', getAnnexbH264 (avcc nalus) (mkH264 info pps0, w)
      = (Ok tt, (mkH264 info (annexb (params_of nalus)), w')) ∧
    wr_ok w' ∧ wr_stream w' = wr_stream w ++ naluAud ++ annexb_out info [] false nalus.
Proof. intros Hne Hok. by apply getAnnexbH264_emits. Qed.
End annexb_laws.

Lemma getAnnexbH264_out_witness :
  Forall nalu_ok [[0x65; 1; 2]; [0x41; 3]] ∧
  ∃ w', getAnnexbH264 (W := bytes) (avcc [[0x65; 1; 2]; [0x41; 3]])
      (mkH264 [0; 0; 0; 1; 0x67; 9] [], [])
    = (Ok tt, (mkH264 [0; 0; 0; 1; 0x67; 9] [], w')) ∧
  w' = naluAud ++ [0; 0; 0; 1; 0x67; 9; 0; 0; 0; 1; 0x65; 1; 2; 0; 0; 0; 1; 0x41; 3].
Proof.
  assert (H : Forall nalu_ok [[0x65; 1; 2]; [0x41; 3]])
    by (repeat (apply Forall_cons; split; [split; [done|unfold len; simpl; lia]|]);
        by apply Forall_nil).
  split; [exact H|].
  destruct (getAnnexbH264_out [[0x65; 1; 2]; [0x41; 3]] [0; 0; 0; 1; 0x67; 9] [] []
    ltac:(done) H I) as (w' & He & _ & Hs).
  exists w'. split; [exact He|exact Hs].
Defined.

(** ** Splitting what was joined *)

(** No start code inside the unit. *)
Fixpoint clean (nalu : bytes) : Prop :=
  match nalu with
  | [] => True
  | _ :: nalu' => take 3 nalu ≠ StartCode3 ∧ clean nalu'
  end.

Lemma clean_tail x nalu : clean (x :: nalu) → clean nalu.
Proof. by intros [_ H]. Qed.

Lemma slice_at (d r : bytes) k : 0 ≤ k ≤ len r →
  slice (d ++ r) (len d) (len d + k) = Ok (take (Z.to_nat k) r).
Proof.
  intros Hk. pose proof (len_nonneg d). rewrite slice_ok by (rewrite ?len_app; lia).
  unfold len. rewrite Nat2Z.id, drop_app_length. do 2 f_equal. lia.
Qed.

(** No start code begins inside a clean unit, whatever follows. *)
Lemma clean_no_code x nalu t : clean (x :: nalu) →
  take 3 (x :: nalu ++ StartCode4 ++ t) ≠ StartCode3 ∧
  take 4 (x :: nalu ++ StartCode4 ++ t) ≠ StartCode4.
Proof.
  intros Hc. destruct nalu as [|y [|z [|u nalu]]]; unfold StartCode3, StartCode4 in *; simpl in *;
    split; intros [= ]; subst; destruct_and?; done.
Qed.

Lemma clean_no_code_end x nalu : clean (x :: nalu) →
  take 3 (x :: nalu) ≠ StartCode3 ∧ take 4 (x :: nalu) ≠ StartCode4.
Proof.
  intros Hc. destruct nalu as [|y [|z [|u nalu]]]; unfold StartCode3, StartCode4 in *; simpl in *;
    split; intros [= ]; subst; destruct_and?; done.
Qed.

(** One step over a byte that begins no start code. *)
Lemma nalus_loop_step fuel d r n pre nalus : n ≠ 1 → 4 ≤ len r →
  take 3 r ≠ StartCode3 → take 4 r ≠ StartCode4 →
  nalus_loop (S fuel) (d ++ r) n pre (len d) nalus
    = (if len r <? 5 then Ok (len d + 1, pre, nalus)
       else nalus_loop fuel (d ++ r) n pre (len d + 1) nalus).
Proof.
  intros Hn Hr H3 H4. cbn [nalus_loop]. rewrite (proj2 (Z.eqb_neq _ _)) by done.
  rewrite !slice_at by lia. cbn [mbind res_bind].
  rewrite decide_False by exact H3. rewrite decide_False by exact H4.
  change (0 <? 0) with false. cbv iota. rewrite len_app.
  replace (len d + len r <? len d + 1 + 4) with (len r <? 5); [done|].
  destruct (len r <? 5) eqn:E; go_bool; symmetry; [apply Z.ltb_lt|apply Z.ltb_ge]; lia.
Qed.

Lemma nalus_loop_scan s : ∀ d t n pre nalus fuel, clean s → n ≠ 1 →
  nalus_loop (length s + fuel) (d ++ s ++ StartCode4 ++ t) n pre (len d) nalus
    = nalus_loop fuel (d ++ s ++ StartCode4 ++ t) n pre (len d + len s) nalus.
Proof.
  induction s as [|x s IH]; intros d t n pre nalus fuel Hc Hn.
  { change (len []) with 0. by rewrite Z.add_0_r. }
  destruct (clean_no_code x s t Hc) as [H3 H4].
  assert (Hl : 5 ≤ len ((x :: s) ++ StartCode4 ++ t))
    by (rewrite !len_app; pose proof (len_nonneg t); unfold len; simpl; lia).
  change (length (x :: s) + fuel)%nat with (S (length s + fuel)).
  rewrite nalus_loop_step by (done || lia). rewrite (proj2 (Z.ltb_ge _ _)) by lia.
  assert (Hs : len d + 1 = len (d ++ [x])) by (by rewrite len_app).
  assert (Hsrc : d ++ (x :: s) ++ StartCode4 ++ t = (d ++ [x]) ++ s ++ StartCode4 ++ t)
    by (by rewrite <- app_assoc).
  rewrite Hs, Hsrc, IH by (done || by eapply clean_tail).
  f_equal. rewrite len_app. unfold len. simpl. lia.
Qed.

Lemma nalus_loop_end s : ∀ d n pre nalus fuel, clean s → n ≠ 1 → 4 ≤ len s →
  (length s ≤ fuel)%nat →
  ∃ i, len d < i ∧ nalus_loop fuel (d ++ s) n pre (len d) nalus = Ok (i, pre, nalus).
Proof.
  induction s as [|x s IH]; intros d n pre nalus fuel Hc Hn Hl Hfuel;
    [unfold len in Hl; simpl in Hl; lia|].
  destruct (clean_no_code_end x s Hc) as [H3 H4].
  destruct fuel as [|fuel]; [simpl in Hfuel; lia|]. rewrite nalus_loop_step by done.
  destruct (Z.ltb_spec (len (x :: s)) 5); [exists (len d + 1); split; [lia|done]|].
  assert (Hs : len d + 1 = len (d ++ [x])) by (by rewrite len_app).
  assert (Hsrc : d ++ x :: s = (d ++ [x]) ++ s) by (by rewrite <- app_assoc).
  assert (Hls : len (x :: s) = 1 + len s) by (unfold len; simpl; lia).
  destruct (IH (d ++ [x]) n pre nalus fuel) as (i & Hi & Heq);
    [by eapply clean_tail|done|lia|simpl in Hfuel; lia|].
  exists i. rewrite Hs, Hsrc. split; [rewrite len_app in Hi; unfold len in *; simpl in Hi; lia|done].
Qed.

(** What follows the loop. *)
Definition nalus_finish (src : bytes) (r : res (Z * Z * list bytes)) : res (list bytes) :=
  '(index, pre, nalus) ← r;
  if (pre <? index) && (pre <? len src) then
    nalu ← slice_from src pre; Ok (nalus ++ [nalu])
  else Ok nalus.

(** Units that can be told apart in a start-code stream. *)
Definition splittable (nalus : list bytes) : Prop :=
  Forall (λ nalu, nalu ≠ [] ∧ clean nalu) nalus ∧ ∃ l, last nalus = Some l ∧ 4 ≤ len l.

Lemma nalus_finish_last d x i nalus : x ≠ [] → len d < i →
  nalus_finish (d ++ x) (Ok (i, len d, nalus)) = Ok (nalus ++ [x]).
Proof.
  intros Hx Hi. unfold nalus_finish. cbn [mbind res_bind].
  assert (Hpos : 0 < len x) by (destruct x; [done|unfold len; simpl; lia]).
  rewrite !(proj2 (Z.ltb_lt _ _)) by (rewrite ?len_app; lia). cbn [andb].
  by rewrite slice_suffix.
Qed.

Lemma annexb_cons x nalus : annexb (x :: nalus) = StartCode4 ++ x ++ annexb nalus.
Proof. unfold annexb. cbn [fmap list_fmap mjoin list_join]. by rewrite <- app_assoc. Qed.

Lemma nalus_loop_split nalus : ∀ x d n acc fuel,
  splittable (x :: nalus) → (n < 0 ∨ Z.of_nat (length (x :: nalus)) ≤ n) →
  (length (x ++ annexb nalus) ≤ fuel)%nat →
  nalus_finish (d ++ x ++ annexb nalus)
    (nalus_loop fuel (d ++ x ++ annexb nalus) n (len d) (len d) acc)
  = Ok (acc ++ x :: nalus).
Proof.
  induction nalus as [|y nalus IH]; intros x d n acc fuel [Hall (l & Hlast & Hl)] Hn Hfuel;
    apply Forall_cons in Hall as [[Hx Hcx] Hall].
  - injection Hlast as <-. unfold annexb in *. cbn [fmap list_fmap mjoin list_join] in *.
    rewrite app_nil_r in *. assert (Hfl : (4 ≤ length x)%nat) by (unfold len in Hl; lia).
    destruct (Z.eqb_spec n 1) as [->|Hn1].
    + destruct fuel as [|fuel]; [lia|]. cbn [nalus_loop]. simpl (1 =? 1). cbv iota.
      apply nalus_finish_last; [done|]. rewrite len_app. lia.
    + destruct (nalus_loop_end x d n (len d) acc fuel) as (i & Hi & ->); try done.
      by apply nalus_finish_last.
  - assert (Hn1 : n ≠ 1) by (simpl in Hn; lia).
    rewrite annexb_cons in *. set (t := y ++ annexb nalus) in *.
    assert (Hlx : 0 < len x) by (destruct x; [done|unfold len; simpl; lia]).
    rewrite !length_app in Hfuel. simpl (length StartCode4) in Hfuel.
    replace fuel with (length x + S (fuel - length x - 1))%nat by lia.
    rewrite nalus_loop_scan by done. cbn [nalus_loop].
    rewrite (proj2 (Z.eqb_neq n 1)) by done.
    assert (Hsrc : d ++ x ++ StartCode4 ++ t = (d ++ x) ++ StartCode4 ++ t) by (by rewrite <- app_assoc).
    assert (H4 : 4 ≤ len (StartCode4 ++ t))
      by (rewrite len_app; pose proof (len_nonneg t); unfold len at 1; simpl; lia).
    rewrite <- len_app, Hsrc, !slice_at by lia. cbn [mbind res_bind].
    rewrite decide_False by done. rewrite decide_True by done.
    cbn [mbind res_bind]. change (0 <? 4) with true. cbv iota.
    rewrite (proj2 (Z.ltb_lt (len d) _)) by (rewrite len_app; lia).
    rewrite <- Hsrc. rewrite len_app, slice_at.
    2: { rewrite len_app. pose proof (len_nonneg (StartCode4 ++ t)). lia. }
    cbn [mbind res_bind]. replace (Z.to_nat (len x)) with (length x) by (unfold len; lia).
    rewrite take_app_length.
    assert (Hd : len d + len x + 4 = len (d ++ x ++ StartCode4))
      by (rewrite !len_app; unfold len; simpl; lia).
    rewrite Hd. replace (d ++ x ++ StartCode4 ++ t) with ((d ++ x ++ StartCode4) ++ t)
      by (by rewrite <- !app_assoc).
    change (acc ++ x :: y :: nalus) with (acc ++ [x] ++ y :: nalus).
    rewrite (app_assoc acc [x]). apply (IH y _ _ (acc ++ [x])).
    + split; [done|]. exists l. by rewrite last_cons_cons in Hlast.
    + simpl in *. destruct (0 <? n) eqn:E; go_bool; lia.
    + fold t. lia.
Qed.

Lemma splittable_len x nalus : splittable (x :: nalus) → 4 ≤ len (x ++ annexb nalus).
Proof.
  revert x. induction nalus as [|y nalus IH]; intros x [Hall (l & Hlast & Hl)].
  - injection Hlast as <-. rewrite len_app. pose proof (len_nonneg (annexb [])). lia.
  - rewrite annexb_cons, !len_app. pose proof (len_nonneg x). pose proof (len_nonneg y).
    pose proof (len_nonneg (annexb nalus)). unfold len at 2. simpl (length StartCode4). lia.
Qed.

Lemma ParseNalusN_split x nalus n :
  splittable (x :: nalus) → (n < 0 ∨ Z.of_nat (length (x :: nalus)) ≤ n) →
  ParseNalusN (x ++ annexb nalus) n = Ok (x :: nalus).
Proof.
  intros Hs Hn. pose proof (splittable_len x nalus Hs) as Hlen. simpl in Hn.
  unfold ParseNalusN, naluBytesLen. rewrite (proj2 (Z.ltb_ge _ _)) by lia.
  rewrite (proj2 (Z.eqb_neq n 0)) by lia.
  apply (nalus_loop_split nalus x [] n [] (S (length (x ++ annexb nalus)))); [done|simpl; lia|lia].
Qed.

Lemma isNaluHeader_code src : 4 ≤ len src →
  isNaluHeader src = Ok (bool_decide (take 4 src = StartCode4)).
Proof.
  intros Hl. unfold isNaluHeader, naluBytesLen. rewrite (proj2 (Z.ltb_ge _ _)) by lia.
  destruct src as [|a [|b [|c [|d src]]]]; try (unfold len in Hl; simpl in Hl; lia).
  change (take 4 (a :: b :: c :: d :: src)) with [a; b; c; d].
  change (index_at (a :: b :: c :: d :: src) 0) with (Ok a).
  change (index_at (a :: b :: c :: d :: src) 1) with (Ok b).
  change (index_at (a :: b :: c :: d :: src) 2) with (Ok c).
  change (index_at (a :: b :: c :: d :: src) 3) with (Ok d).
  cbn [mbind res_bind]. unfold StartCode4.
  destruct (Z.eqb_spec a 0) as [->|]; [|rewrite bool_decide_false; [done|by intros [=]]].
  destruct (Z.eqb_spec b 0) as [->|]; [|rewrite bool_decide_false; [done|by intros [=]]].
  destruct (Z.eqb_spec c 0) as [->|]; [|rewrite bool_decide_false; [done|by intros [=]]].
  destruct (Z.eqb_spec d 1) as [->|]; [by rewrite bool_decide_true|].
  rewrite bool_decide_false; [done|by intros [=]].
Qed.

Lemma ParseNalusN_split_code x nalus n :
  splittable (x :: nalus) → (n < 0 ∨ Z.of_nat (length (x :: nalus)) ≤ n) → n ≠ 1 →
  ParseNalusN (annexb (x :: nalus)) n = Ok (x :: nalus).
Proof.
  intros Hs Hn Hn1. pose proof (splittable_len x nalus Hs) as Hlen. simpl in Hn.
  assert (Hn0 : n ≠ 0) by lia. unfold ParseNalusN, naluBytesLen. rewrite annexb_cons.
  assert (H4 : len (StartCode4 ++ x ++ annexb nalus) = 4 + len (x ++ annexb nalus))
    by (rewrite len_app; done).
  rewrite (proj2 (Z.ltb_ge _ _)) by lia. rewrite (proj2 (Z.eqb_neq n 0)) by done.
  cbn [nalus_loop]. rewrite (proj2 (Z.eqb_neq n 1)) by done.
  pose proof (slice_at [] (StartCode4 ++ x ++ annexb nalus) 3 ltac:(lia)) as S3.
  pose proof (slice_at [] (StartCode4 ++ x ++ annexb nalus) 4 ltac:(lia)) as S4.
  change (len []) with 0 in S3, S4. rewrite app_nil_l in S3, S4. rewrite S3, S4.
  cbn [mbind res_bind].
  rewrite decide_False by done. rewrite decide_True by done.
  cbn [mbind res_bind]. change (0 <? 4) with true. cbv iota.
  change (0 <? 0) with false. cbv iota. simpl (0 + 4).
  apply (nalus_loop_split nalus x StartCode4 n []); [done|simpl; lia|].
  rewrite (length_app StartCode4). lia.
Qed.

(** C31: Splitting at the start codes gives back the units that were joined by them, if no
    unit is empty, none contains a start code, the last one has at least four bytes, and the
    limit is negative or no less than the number of units; with a start code before the
    first unit as well, if the limit is not 1.  With a shorter last unit the code can panic
    ([split_ends_with_code]). *)
Theorem ParseNalusN_joined x nalus n :
  splittable (x :: nalus) → (n < 0 ∨ Z.of_nat (length (x :: nalus)) ≤ n) →
  ParseNalusN (x ++ annexb nalus) n = Ok (x :: nalus) ∧
  (n ≠ 1 → ParseNalusN (annexb (x :: nalus)) n = Ok (x :: nalus)).
Proof.
  intros Hs Hn. split; [by apply ParseNalusN_split|intros Hn1; by apply ParseNalusN_split_code].
Qed.

Lemma ParseNalusN_joined_witness :
  splittable [[0x67; 1; 2]; [0x68; 0]; [0x65; 7; 0; 9]] ∧
  ParseNalusN ([0x67; 1; 2] ++ annexb [[0x68; 0]; [0x65; 7; 0; 9]]) 3
    = Ok [[0x67; 1; 2]; [0x68; 0]; [0x65; 7; 0; 9]].
Proof.
  assert (H : splittable [[0x67; 1; 2]; [0x68; 0]; [0x65; 7; 0; 9]]).
  { split; [|by eexists]. repeat (apply Forall_cons; split; [split; [done|by simpl; split_and!]|]).
    by apply Forall_nil. }
  split; [exact H|].
  exact (proj1 (ParseNalusN_joined [0x67; 1; 2] [[0x68; 0]; [0x65; 7; 0; 9]] 3 H ltac:(simpl; lia))).
Defined.

(** A stream that ends right after a start code is cut past its end. *)
Example split_ends_with_code : ParseNalus [1; 2; 3; 4; 0; 0; 0; 1] = Panic SliceBounds.
Proof. vm_compute. reflexivity. Qed.

(** ** Any picture *)

Section annexb_total.
Context {W : Type} `{LawfulWriter W}.

(** The writer keeps working. *)
Definition w_ok {P} (s : P * W) : Prop := wr_ok s.2.

Lemma write_w_runs {P} b (s : P * W) : w_ok s → runs w_ok (λ _, w_ok) (write_w b) s.
Proof.
  destruct s as [p w]. intros Hw. destruct (io_Write_ok b w Hw) as (w' & He & Hw' & _).
  unfold outcome, write_w, on_w, mbind, go_bind. by rewrite He.
Qed.

Lemma annexb_nalu_runs nalu hs hw (s : H264Parser * W) : w_ok s → 0 < len nalu →
  runs w_ok (λ _, w_ok) (annexb_nalu nalu hs hw) s.
Proof.
  intros Hw Hl. unfold annexb_nalu. destruct (index_at_ok nalu 0) as [b Hb]; [lia|].
  eapply runs_bind_lift; [exact Hb|].
  apply runs_if; intros _; [done|]. apply runs_if; intros _.
  - eapply (runs_bind _ _ (λ _, w_ok)).
    + apply runs_if; intros _; [|done].
      eapply (runs_bind _ _ (λ _, w_ok)); [by destruct s|]. intros p s1 Hw1.
      eapply runs_bind; [by apply write_w_runs|]. by intros ? s2 Hw2.
    + intros hw' s1 Hw1. eapply runs_bind; [by apply write_w_runs|]. intros ? s2 Hw2.
      eapply runs_bind; [by apply write_w_runs|]. by intros ? s3 Hw3.
  - apply runs_if; intros _; [|done].
    eapply (runs_bind _ _ (λ _, w_ok)); [by destruct s|]. by intros ? s1 Hw1.
Qed.

Lemma naluSize_safe src : (∃ n, naluSize src = Ok n) ∨ ∃ e, naluSize src = Err e.
Proof.
  unfold naluSize, naluBytesLen. destruct (len src <? 4) eqn:E; [right; by eexists|]. go_bool.
  left. rewrite slice_ok by lia. by eexists.
Qed.

Lemma annexb_loop_runs fuel : ∀ src hs hw (s : H264Parser * W),
  w_ok s → (length src < fuel)%nat → runs w_ok (λ _, w_ok) (annexb_loop fuel src hs hw) s.
Proof.
  induction fuel as [|fuel IH]; intros src hs hw s Hw Hfuel; [lia|]. cbn [annexb_loop].
  apply runs_if; intros Hpos; [done|]. go_bool.
  eapply (runs_bind _ _ (λ _ s', s' = s ∧ 4 ≤ len src)).
  { unfold outcome, on_err, lift. unfold naluSize, naluBytesLen.
    destruct (len src <? 4) eqn:E; [done|]. go_bool. by rewrite slice_ok by lia. }
  intros nalLen s0 [-> H4]. unfold naluBytesLen.
  eapply runs_bind_lift; [unfold slice_from; apply slice_ok; lia|].
  set (r := take _ _). assert (Hr : (length r < length src)%nat).
  { subst r. rewrite length_take, length_drop. unfold len in *. lia. }
  apply runs_if; intros Hfit; [|done]. go_bool.
  eapply runs_bind_lift; [apply slice_ok; lia|].
  set (nalu := take _ _). assert (Hn : 0 < len nalu).
  { subst nalu. unfold len in *. rewrite length_take, length_drop. lia. }
  eapply runs_bind; [by apply annexb_nalu_runs|]. intros [hs' hw'] s1 Hw1. cbv beta iota.
  eapply runs_bind_lift; [unfold slice_from; apply slice_ok; lia|].
  apply IH; [done|]. rewrite length_take, length_drop. lia.
Qed.

(** C34: On any bytes the conversion ends, with an error when the lengths do not fit, and
    never cuts past the end of the picture. *)
Theorem getAnnexbH264_total src (s : H264Parser * W) : w_ok s →
  runs w_ok (λ _, w_ok) (getAnnexbH264 src) s.
Proof.
  intros Hw. unfold getAnnexbH264. apply runs_if; intros _; [done|].
  eapply (runs_bind _ _ (λ _, w_ok)); [by destruct s|]. intros ? s1 Hw1.
  eapply runs_bind; [by apply write_w_runs|]. intros ? s2 Hw2.
  by apply annexb_loop_runs; [|lia].
Qed.
End annexb_total.

Lemma getAnnexbH264_total_witness :
  runs (w_ok (W := bytes)) (λ _, w_ok) (getAnnexbH264 [0; 0; 0; 9; 0x65]) (NewH264Parser, []).
Proof. exact (getAnnexbH264_total [0; 0; 0; 9; 0x65] (NewH264Parser, []) I). Defined.

(** ** The sequence header *)

Lemma len16_be n : 0 ≤ n < 65536 →
  ∃ a b, be_split 2 n = [a; b] ∧ Z.lor (Z.shiftl a 8) b = n.
Proof.
  intros Hn. eexists _, _. split; [reflexivity|].
  change (be_combine (be_split 2 n) = n). by apply be_combine_split_small.
Qed.

(** The parser takes the parameter sets out of the record that is built from them. *)
Lemma parseSpecificInfo_of sps pps p :
  sps ≠ [] → pps ≠ [] → sps ≠ StartCode4 → pps ≠ StartCode4 →
  len sps < 65536 → len pps < 65536 →
  parseSpecificInfo (AVCDecoderConfigurationRecord sps pps) p
    = (Ok tt, mkH264 (h264_specificInfo p ++ annexb [sps; pps]) (h264_pps p)).
Proof.
  intros Hs0 Hp0 Hs4 Hp4 Hsl Hpl. pose proof (len_nonneg sps). pose proof (len_nonneg pps).
  assert (Hspos : 0 < len sps) by (destruct sps; [done|unfold len; simpl; lia]).
  assert (Hppos : 0 < len pps) by (destruct pps; [done|unfold len; simpl; lia]).
  unfold AVCDecoderConfigurationRecord. rewrite !decide_False by done.
  assert (Hu16 : ∀ n, 0 ≤ n < 65536 → u16 n = n) by (intros; go_arith).
  rewrite !Hu16 by lia.
  destruct (len16_be (len sps)) as (a & b & Hab & Habv); [lia|].
  destruct (len16_be (len pps)) as (c & d & Hcd & Hcdv); [lia|]. rewrite Hab, Hcd.
  set (hdr := [1; 66; 0; 40; _; _]).
  change (hdr ++ [a; b] ++ sps ++ [1] ++ [c; d] ++ pps)
    with ((hdr ++ [a; b]) ++ sps ++ 1 :: c :: d :: pps).
  set (h8 := hdr ++ [a; b]) in *. set (rest := 1 :: c :: d :: pps).
  assert (Hrest : len rest = 3 + len pps) by (unfold len; simpl; lia).
  unfold parseSpecificInfo.
  rewrite (proj2 (Z.ltb_ge _ _)) by (rewrite !len_app; change (len h8) with 8; lia).
  do 3 (erewrite go_bind_lift by reflexivity). rewrite Habv.
  erewrite go_bind_lift by apply (slice_suffix h8 (sps ++ rest)).
  rewrite len_app, (proj2 (Z.ltb_ge _ _)), (proj2 (Z.leb_gt _ _)) by lia. cbn [orb].
  erewrite go_bind_lift.
  2: { change 8 with (len h8). apply slice_at. rewrite len_app. lia. }
  replace (Z.to_nat (len sps)) with (length sps) by (unfold len; lia).
  rewrite take_app_length.
  erewrite go_bind_lift.
  2: { rewrite app_assoc. change (8 + len sps) with (len h8 + len sps).
       rewrite <- len_app. apply slice_suffix. }
  rewrite (proj2 (Z.ltb_ge _ _)) by lia.
  do 2 (erewrite go_bind_lift by reflexivity). rewrite Hcdv.
  erewrite go_bind_lift by apply (slice_suffix [1; c; d] pps).
  rewrite (proj2 (Z.ltb_ge _ _)), (proj2 (Z.leb_gt _ _)) by lia. cbn [orb].
  unfold modify, annexb. cbn [fmap list_fmap mjoin list_join]. by rewrite app_nil_r, <- !app_assoc.
Qed.

(** The start codes of the parameter sets are not removed: the record of a set that
    still has one contains it. *)
Example start_code_kept :
  AVCDecoderConfigurationRecord (StartCode4 ++ [0x67]) [0x68]
    = [1; 66; 0; 40; 0xff; 0xe1; 0; 5; 0; 0; 0; 1; 0x67; 1; 0; 1; 0x68].
Proof. reflexivity. Qed.
