(* ===== verification/Media.v ===== *)
(** * Audio parsers and the codec parser (src/media/aac/parser.go, src/media/mp3/parser.go,
    src/media/coder_parser.go)

    AAC frames get an ADTS header built from the last sequence header; MP3 frames only
    reveal their sampling rate; [CodecParser] chooses the parser by the packet. *)
From S2P Require Import Prelude GoIO Av H264.

(** ** AAC *)

Definition aacRates : list Z :=
  [96000; 88200; 64000; 48000; 44100; 32000; 24000; 22050; 16000; 12000; 11025; 8000; 7350].

Definition specificBufInvalid : error := Errorf "audio mpegspecific error".
Definition audioBufInvalid : error := Errorf "audiodata  invalid".

(** [cfgInfo] without the fields nothing uses. *)
Record AacParser := mkAac {
  gettedSpecific : bool;
  adtsHeader : bytes;
  objectType : Z;
  sampleRate : Z;
  channel : Z;
}.

Definition NewAacParser : AacParser := mkAac false (make_bytes 7) 0 0 0.

Definition specificInfo (src : bytes) : go AacParser unit :=
  if len src <? 2 then fail specificBufInvalid
  else
    b0 ← lift (index_at src 0);
    b1 ← lift (index_at src 1);
    modify (λ p, mkAac true (adtsHeader p)
      (Z.land (Z.shiftr b0 3) 0xff)
      (Z.lor (u8 (Z.shiftl (Z.land b0 7) 1)) (Z.shiftr b1 7))
      (Z.land (Z.shiftr b1 3) 0x0f)).

(** The seven bytes of the header of a frame of [n] bytes. *)
Definition adts_header (objectType sampleRate channel n : Z) : bytes :=
  let frameLen := u16 (u16 n + 7) in
  [0xff; 0xf1;
   Z.lor (u8 (Z.shiftl (u8 (objectType - 1)) 6)) (u8 (Z.shiftl sampleRate 2));
   Z.lor (u8 (Z.shiftl (u8 (Z.shiftl channel 2)) 4)) (u8 (Z.shiftr (u16 (Z.shiftl frameLen 3)) 14));
   u8 (Z.shiftr (u16 (Z.shiftl frameLen 5)) 8);
   Z.lor (u8 (u16 (Z.shiftl (Z.shiftr (u16 (Z.shiftl frameLen 13)) 13) 5)))
         (Z.shiftr (Z.shiftl 0x7c 1) 3);
   0xfc].

Definition aac_SampleRate (p : AacParser) : Z :=
  match aacRates !! Z.to_nat (sampleRate p) with
  | Some rate => if sampleRate p <=? u8 (len aacRates - 1) then rate else 44100
  | None => 44100
  end.

Section aac_writer.
Context {W : Type} `{IoWriter W}.

Definition adts (src : bytes) : go (AacParser * W) unit :=
  p ← on_p get;
  if (len src <=? 0) || negb (gettedSpecific p) then fail audioBufInvalid
  else
    let h := adts_header (objectType p) (sampleRate p) (channel p) (len src) in
    _ ← on_p (modify (λ p, mkAac (gettedSpecific p) h (objectType p) (sampleRate p) (channel p)));
    _ ← write_w h;
    write_w src.

Definition aac_Parse (b : bytes) (packetType : Z) : go (AacParser * W) unit :=
  if packetType =? AAC_SEQHDR then on_p (specificInfo b)
  else if packetType =? AAC_RAW then adts b
  else mret tt.
End aac_writer.

Definition SpecificConfig (objectType samplingFrequencyIndex channelConfig : Z) : bytes :=
  [Z.lor (u8 (Z.shiftl objectType 3)) (Z.shiftr samplingFrequencyIndex 1);
   Z.lor (u8 (Z.shiftl samplingFrequencyIndex 7)) (u8 (Z.shiftl channelConfig 3))].

(** ** MP3 *)

Definition mp3Rates : list Z := [44100; 48000; 32000].
Definition errMp3DataInvalid : error := Errorf "mp3data  invalid".
Definition errIndexInvalid : error := Errorf "invalid rate index".

Record Mp3Parser := mkMp3 { samplingFrequency : Z }.

Definition NewMp3Parser : Mp3Parser := mkMp3 0.

Definition mp3_Parse (src : bytes) : go Mp3Parser unit :=
  if len src <? 3 then fail errMp3DataInvalid
  else
    b2 ← lift (index_at src 2);
    match mp3Rates !! Z.to_nat (Z.land (Z.shiftr b2 2) 3) with
    | Some rate => put (mkMp3 rate)
    | None => fail errIndexInvalid
    end.

Definition mp3_SampleRate : go Mp3Parser Z :=
  _ ← modify (λ p, if samplingFrequency p =? 0 then mkMp3 44100 else p);
  gets samplingFrequency.

(** ** CodecParser *)

Definition errNoAudio : error := Errorf "demuxer no audio".

Record CodecParser := mkCodec {
  cp_aac : option AacParser;
  cp_mp3 : option Mp3Parser;
  cp_h264 : option H264Parser;
}.

Definition NewCodecParser : CodecParser := mkCodec None None None.

Definition CodecParser_SampleRate : go CodecParser Z := λ c,
  match cp_aac c, cp_mp3 c with
  | None, None => (Err errNoAudio, c)
  | Some p, _ => (Ok (aac_SampleRate p), c)
  | None, Some p => let '(r, p) := mp3_SampleRate p in (r, mkCodec (cp_aac c) (Some p) (cp_h264 c))
  end.

Section codec_writer.
Context {W : Type} `{IoWriter W}.

(** A call of the AAC, MP3 or H.264 parser, made on first use. *)
Definition with_aac (m : go (AacParser * W) unit) : go (CodecParser * W) unit := λ '(c, w),
  let '(r, (p, w)) := m (default NewAacParser (cp_aac c), w) in
  (r, (mkCodec (Some p) (cp_mp3 c) (cp_h264 c), w)).
Definition with_mp3 (m : go Mp3Parser unit) : go (CodecParser * W) unit := λ '(c, w),
  let '(r, p) := m (default NewMp3Parser (cp_mp3 c)) in
  (r, (mkCodec (cp_aac c) (Some p) (cp_h264 c), w)).
Definition with_h264 (m : go (H264Parser * W) unit) : go (CodecParser * W) unit := λ '(c, w),
  let '(r, (p, w)) := m (default NewH264Parser (cp_h264 c), w) in
  (r, (mkCodec (cp_aac c) (cp_mp3 c) (Some p), w)).

Definition CodecParser_Parse (p : Packet) : go (CodecParser * W) unit :=
  if PacketType p =? PacketTypeVideo then
    if CodecID (VHeader p) =? VIDEO_H264 then
      let isSeq := (FrameType (VHeader p) =? FRAME_KEY)
                   && (AVCPacketType (VHeader p) =? AVC_SEQHDR) in
      with_h264 (H264_Parse (pkt_Data p) isSeq)
    else mret tt
  else if PacketType p =? PacketTypeAudio then
    if SoundFormat (AHeader p) =? SOUND_AAC then
      with_aac (aac_Parse (pkt_Data p) (AACPacketType (AHeader p)))
    else if SoundFormat (AHeader p) =? SOUND_MP3 then with_mp3 (mp3_Parse (pkt_Data p))
    else mret tt
  else fail (Errorf "Unknow packet type:%d").
End codec_writer.

(** ** Sequence headers and ADTS headers *)

(** The parser gets back the object type, the frequency index and the channel
    configuration that [SpecificConfig] packs into two bytes. *)
Lemma specificInfo_of ot sf ch p :
  0 ≤ ot < 32 → 0 ≤ sf < 16 → 0 ≤ ch < 16 →
  specificInfo (SpecificConfig ot sf ch) p = (Ok tt, mkAac true (adtsHeader p) ot sf ch).
Proof.
  intros Hot Hsf Hch. unfold specificInfo, SpecificConfig. cbn [lift].
  rewrite (proj2 (Z.ltb_ge _ _)) by (unfold len; simpl; lia).
  do 2 (erewrite go_bind_lift by reflexivity). unfold modify.
  assert (H : forallb (λ ot, forallb (λ sf, forallb (λ ch,
    let b0 := Z.lor (u8 (Z.shiftl ot 3)) (Z.shiftr sf 1) in
    let b1 := Z.lor (u8 (Z.shiftl sf 7)) (u8 (Z.shiftl ch 3)) in
    (Z.land (Z.shiftr b0 3) 0xff =? ot) &&
    (Z.lor (u8 (Z.shiftl (Z.land b0 7) 1)) (Z.shiftr b1 7) =? sf) &&
    (Z.land (Z.shiftr b1 3) 0x0f =? ch)) (seqZ 0 16)) (seqZ 0 16)) (seqZ 0 32) = true)
    by (vm_compute; reflexivity).
  apply (forallb_seqZ _ _ _ ot) in H; [|lia]. apply (forallb_seqZ _ _ _ sf) in H; [|lia].
  apply (forallb_seqZ _ _ _ ch) in H; [|lia].
  cbv beta zeta in H. go_bool. destruct_and?.
  repeat match goal with H : _ = _ |- _ => rewrite H; clear H end. done.
Qed.

(** What a decoder reads from an ADTS header (ISO/IEC 13818-7): profile, frequency index,
    channel configuration and length of the frame with its header. *)
Record AdtsFields := mkAdts { ad_profile : Z; ad_freq : Z; ad_channels : Z; ad_length : Z }.

Definition adts_fields (h : bytes) : option AdtsFields :=
  match h with
  | [_; _; h2; h3; h4; h5; _] =>
      Some (mkAdts (Z.shiftr h2 6) (Z.land (Z.shiftr h2 2) 0xf)
        (Z.lor (Z.shiftl (Z.land h2 1) 2) (Z.shiftr h3 6))
        (Z.lor (Z.lor (Z.shiftl (Z.land h3 3) 11) (Z.shiftl h4 3)) (Z.shiftr h5 5)))
  | _ => None
  end.

(** For the four AAC profiles, every frequency index and up to three channels, a
    decoder reads from the header what the parser knows, and the length of the frame as
    long as it fits in the 13 bits of the format. *)
Lemma adts_fields_of ot sr ch n :
  1 ≤ ot ≤ 4 → 0 ≤ sr < 16 → 0 ≤ ch < 4 → 0 ≤ n < 8185 →
  adts_fields (adts_header ot sr ch n) = Some (mkAdts (ot - 1) sr ch (n + 7)).
Proof.
  intros Hot Hsr Hch Hn. unfold adts_header, adts_fields.
  assert (H2 : forallb (λ ot, forallb (λ sr,
    let h2 := Z.lor (u8 (Z.shiftl (u8 (ot - 1)) 6)) (u8 (Z.shiftl sr 2)) in
    (Z.shiftr h2 6 =? ot - 1) && (Z.land (Z.shiftr h2 2) 0xf =? sr) && (Z.land h2 1 =? 0))
    (seqZ 0 16)) (seqZ 1 4) = true) by (vm_compute; reflexivity).
  assert (H3 : forallb (λ ch, forallb (λ n,
    let fl := u16 (u16 n + 7) in
    let h3 := Z.lor (u8 (Z.shiftl (u8 (Z.shiftl ch 2)) 4)) (u8 (Z.shiftr (u16 (Z.shiftl fl 3)) 14)) in
    let h4 := u8 (Z.shiftr (u16 (Z.shiftl fl 5)) 8) in
    let h5 := Z.lor (u8 (u16 (Z.shiftl (Z.shiftr (u16 (Z.shiftl fl 13)) 13) 5)))
                (Z.shiftr (Z.shiftl 0x7c 1) 3) in
    (Z.shiftr h3 6 =? ch) &&
    (Z.lor (Z.lor (Z.shiftl (Z.land h3 3) 11) (Z.shiftl h4 3)) (Z.shiftr h5 5) =? n + 7))
    (seqZ 0 8185)) (seqZ 0 4) = true) by (vm_compute; reflexivity).
  apply (forallb_seqZ _ _ _ ot) in H2; [|lia]. apply (forallb_seqZ _ _ _ sr) in H2; [|lia].
  apply (forallb_seqZ _ _ _ ch) in H3; [|lia]. apply (forallb_seqZ _ _ _ n) in H3; [|lia].
  cbv beta zeta in H2, H3 |- *. go_bool. destruct_and?.
  repeat match goal with H : _ = _ |- _ => rewrite H; clear H end. done.
Qed.

(** The third bit of the channel configuration is lost: 5.1 sound (configuration 6) is
    announced as two channels. *)
Example six_channels_become_two :
  ad_channels <$> adts_fields (adts_header 2 3 6 100) = Some 2.
Proof. reflexivity. Qed.
