(* ===== verification/Flv.v ===== *)
(** * FLV tags (src/container/flv/tag.go, src/container/flv/demuxer.go)

    The headers that RTMP puts in front of audio and video data: packing on the client,
    demuxing on the server.  A buffer the code fills piece by piece, with room for all
    of them, is the concatenation of the pieces. *)
From S2P Require Import Prelude Pio GoIO Av H264 Media.

Record flvTag := mkFlvTag {
  fType : Z; dataSize : Z; timeStamp : Z; timeStampExtend : Z; streamID : Z;
}.

Record mediaTag := mkMedia {
  soundFormat : Z; soundRate : Z; soundSize : Z; soundType : Z; aacPacketType : Z;
  frameType : Z; codecID : Z; avcPacketType : Z; compositionTime : Z;
}.

Record Tag := mkTag { flvt : flvTag; mediat : mediaTag }.

Definition no_tag : Tag := mkTag (mkFlvTag 0 0 0 0 0) (mkMedia 0 0 0 0 0 0 0 0 0).

Definition audio_media (sf sr ss st apt : Z) : mediaTag := mkMedia sf sr ss st apt 0 0 0 0.
Definition video_media (ft cid apt ct : Z) : mediaTag := mkMedia 0 0 0 0 0 ft cid apt ct.

(** ** Parsing *)

Definition set_mediat (f : mediaTag → mediaTag) : go Tag unit :=
  modify (λ t, mkTag (flvt t) (f (mediat t))).

(** The number of bytes of the header. *)
Definition ParseAudioHeader (b : bytes) : go Tag Z :=
  if len b <? 1 then fail (Errorf "invalid audiodata len=%d")
  else
    flags ← lift (index_at b 0);
    _ ← set_mediat (λ m, mkMedia (Z.shiftr flags 4) (Z.land (Z.shiftr flags 2) 3)
          (Z.land (Z.shiftr flags 1) 1) (Z.land flags 1) (aacPacketType m)
          (frameType m) (codecID m) (avcPacketType m) (compositionTime m));
    if Z.shiftr flags 4 =? SOUND_AAC then
      apt ← lift (index_at b 1);
      _ ← set_mediat (λ m, mkMedia (soundFormat m) (soundRate m) (soundSize m) (soundType m) apt
            (frameType m) (codecID m) (avcPacketType m) (compositionTime m));
      mret 2
    else mret 1.

Definition ParseVideoHeader (b : bytes) : go Tag Z :=
  if len b <? 5 then fail (Errorf "invalid videodata len=%d")
  else
    flags ← lift (index_at b 0);
    _ ← set_mediat (λ m, mkMedia (soundFormat m) (soundRate m) (soundSize m) (soundType m)
          (aacPacketType m) (Z.shiftr flags 4) (Z.land flags 0xf) (avcPacketType m)
          (compositionTime m));
    if Z.land flags 0xf =? VIDEO_H264 then
      apt ← lift (index_at b 1);
      b2 ← lift (index_at b 2);
      b3 ← lift (index_at b 3);
      b4 ← lift (index_at b 4);
      _ ← set_mediat (λ m, mkMedia (soundFormat m) (soundRate m) (soundSize m) (soundType m)
            (aacPacketType m) (frameType m) (codecID m) apt
            (foldl (λ ct b, i32 (i32 (Z.shiftl ct 8) + b)) (compositionTime m) [b2; b3; b4]));
      mret 5
    else mret 1.

Definition tag_AHeader (t : Tag) : AudioPacketHeader :=
  let m := mediat t in
  mkAHeader (soundFormat m) (soundRate m) (soundSize m) (soundType m) (aacPacketType m).
Definition tag_VHeader (t : Tag) : VideoPacketHeader :=
  let m := mediat t in
  mkVHeader (frameType m) (avcPacketType m) (codecID m) (compositionTime m).

(** Fills the header of the packet; [n] is the length of the header in the data. *)
Definition demux_header (msg : string) : go Packet Z := λ p,
  if PacketType p =? PacketTypeAudio then
    match ParseAudioHeader (pkt_Data p) no_tag with
    | (Ok n, t) => (Ok n, set_AHeader (tag_AHeader t) p)
    | (r, _) => (r, p)
    end
  else if PacketType p =? PacketTypeVideo then
    match ParseVideoHeader (pkt_Data p) no_tag with
    | (Ok n, t) => (Ok n, set_VHeader (tag_VHeader t) p)
    | (r, _) => (r, p)
    end
  else (Err (Errorf msg), p).

Definition DemuxH : go Packet unit := _ ← demux_header "Unsupport type"; mret tt.

Definition Demux : go Packet unit :=
  n ← demux_header "Unsupport type:%d";
  p ← get;
  d ← lift (slice_from (pkt_Data p) n);
  modify (set_pkt_Data d).

(** ** Packing *)

Definition muxerTagData (tag : Tag) : bytes :=
  let m := mediat tag in
  if fType (flvt tag) =? TAG_VIDEO then
    Z.lor (u8 (Z.shiftl (frameType m) 4)) (Z.land (codecID m) 0x0f) ::
    (if codecID m =? VIDEO_H264
     then avcPacketType m :: be_split 3 (u32 (compositionTime m)) else [])
  else if fType (flvt tag) =? TAG_AUDIO then
    Z.lor (Z.lor (Z.lor (u8 (Z.shiftl (soundFormat m) 4))
                        (Z.land (u8 (Z.shiftl (soundRate m) 2)) 0x0c))
                 (Z.land (u8 (Z.shiftl (soundSize m) 1)) 0x02))
          (Z.land (soundType m) 0x01) ::
    (if soundFormat m =? SOUND_AAC then [aacPacketType m] else [])
  else [].

Definition NewAVCSequenceHeader (sps pps : bytes) (timeStamp : Z) : bytes :=
  let avcConfigRecord := AVCDecoderConfigurationRecord sps pps in
  let tag := mkTag (mkFlvTag TAG_VIDEO (u32 (len avcConfigRecord)) timeStamp 0 0)
               (video_media FRAME_KEY VIDEO_H264 AVC_SEQHDR 0) in
  muxerTagData tag ++ avcConfigRecord.

(** [reader.Read(b[0:])] into a new array of [n] bytes. *)
Definition read_array (n : Z) (msg : string) : go bytes bytes :=
  p ← on_err (Reader_Read n) (Wrapf msg);
  mret (copy_bytes (make_bytes n) p).

(** [n] parameter sets, each after its length. *)
Fixpoint read_sets (n : nat) : go bytes (list bytes) :=
  match n with
  | O => mret []
  | S n =>
      lengthBytes ← read_array 2 "read sps length failed, %v";
      l ← read_array (be_combine lengthBytes) "read sps failed, %v";
      ls ← read_sets n;
      mret (l :: ls)
  end.

Definition ParseAVCSequenceHeader (data : bytes) : res (list bytes * list bytes) :=
  fst ((rb ← on_err Reader_ReadByte (Wrapf "read version failed, %v");
    if negb (rb =? 1) then fail (Errorf "version should be 0x01")
    else
      _ ← read_array 3 "read apa failed, %v";
      _ ← modify (drop 1);
      rb ← on_err Reader_ReadByte (Wrapf "read number of sps failed, %v");
      spss ← read_sets (Z.to_nat (Z.land rb 0x1f));
      rb ← on_err Reader_ReadByte (Wrapf "read number of sps failed, %v");
      ppss ← read_sets (Z.to_nat rb);
      mret (spss, ppss)) data).

(** The sampling frequency index of a sound rate. *)
Definition frequencyIndex (soundRate : Z) : Z :=
  if (soundRate =? SOUND_RATE_5_5Khz) || (soundRate =? SOUND_RATE_7Khz) then 4
  else if soundRate =? SOUND_RATE_8Khz then 11
  else if soundRate =? SOUND_RATE_11Khz then 10
  else if soundRate =? SOUND_RATE_12Khz then 9
  else if soundRate =? SOUND_RATE_16Khz then 8
  else if soundRate =? SOUND_RATE_22Khz then 7
  else if soundRate =? SOUND_RATE_24Khz then 6
  else if soundRate =? SOUND_RATE_32Khz then 5
  else if soundRate =? SOUND_RATE_44Khz then 4
  else if soundRate =? SOUND_RATE_48Khz then 3
  else if soundRate =? SOUND_RATE_64Khz then 2
  else if soundRate =? SOUND_RATE_88Khz then 1
  else if soundRate =? SOUND_RATE_96Khz then 0
  else 4.

Definition channelConfiguration (soundType : Z) : Z :=
  if soundType =? SOUND_MONO then 1 else if soundType =? SOUND_STEREO then 2 else 2.

Definition NewAACSequenceHeader (ah : AudioPacketHeader) : bytes :=
  let specificConfig :=
    SpecificConfig 2 (frequencyIndex (SoundRate ah)) (channelConfiguration (SoundType ah)) in
  let tag := mkTag (mkFlvTag TAG_AUDIO 0 0 0 0)
    (audio_media (SoundFormat ah) (SoundRate ah) (SoundSize ah) (SoundType ah) AAC_SEQHDR) in
  muxerTagData tag ++ specificConfig.

(** [tagBuffer] and every unit that is not empty after its length. *)
Definition pack_nalus (tagBuffer : bytes) (nalus : list bytes) : bytes :=
  tagBuffer ++ mjoin ((λ nalu, if 0 <? len nalu then be_split 4 (u32 (len nalu)) ++ nalu else [])
                        <$> nalus).

Definition PackVideoData (header : VideoPacketHeader) (src : bytes) (timeStamp : Z) : res bytes :=
  if CodecID header =? VIDEO_H264 then
    src ← (if 4 <=? len src then
             c ← slice src 0 4;
             if decide (c = StartCode4) then slice_from src 4 else Ok src
           else Ok src);
    if len src =? 0 then Err (Errorf "invalid data")
    else
      b0 ← index_at src 0;
      let naluType := Z.land b0 0x1f in
      let frameType := if (naluType =? 7) || (naluType =? 8) || (naluType =? 5)
                       then FRAME_KEY else FRAME_INTER in
      let tag := mkTag (mkFlvTag TAG_VIDEO (u32 (len src)) timeStamp 0 0)
        (video_media frameType (CodecID header) (AVCPacketType header) 0) in
      if (naluType =? 7) || (naluType =? 8) then
        nalus ← ParseNalusN src 3;
        Ok (pack_nalus (muxerTagData tag) nalus)
      else Ok (muxerTagData tag ++ be_split 4 (u32 (len src)) ++ src)
  else if (CodecID header =? VIDEO_JPEG) || (CodecID header =? VideoH263) then
    let tag := mkTag (mkFlvTag TAG_VIDEO (u32 (len src)) timeStamp 0 0)
      (video_media FRAME_KEY (CodecID header) 0 0) in
    if len src =? 0 then Err (Errorf "invalid data")
    else Ok (muxerTagData tag ++ be_split 4 (u32 (len src)) ++ src)
  else Err (Errorf "unsupport code id:%d").

Definition audio_tag (ah : AudioPacketHeader) (streamID timeStamp : Z) (src : bytes) : Tag :=
  mkTag (mkFlvTag TAG_AUDIO (u32 (len src)) timeStamp 0 streamID)
    (audio_media (SoundFormat ah) (SoundRate ah) (SoundSize ah) (SoundType ah) AAC_RAW).

Definition PackAudioData (ah : AudioPacketHeader) (streamID : Z) (src : bytes) (timeStamp : Z)
    : res bytes :=
  if negb (SoundFormat ah =? SOUND_AAC) then Err (Errorf "code %d not support")
  else Ok (muxerTagData (audio_tag ah streamID timeStamp src) ++ src).

Definition NewAACData (ah : AudioPacketHeader) (src : bytes) (timeStamp : Z) : bytes :=
  muxerTagData (audio_tag ah 0 timeStamp src) ++ src.

(** ** The bytes of the headers *)

(** A packet on the stream [sid]. *)
Definition video_packet_on (sid t : Z) (d : bytes) : Packet :=
  mkPacket PacketTypeVideo t sid no_VHeader no_AHeader d.
Definition audio_packet_on (sid t : Z) (d : bytes) : Packet :=
  mkPacket PacketTypeAudio t sid no_VHeader no_AHeader d.
Definition video_packet : Z → bytes → Packet := video_packet_on 0.
Definition audio_packet : Z → bytes → Packet := audio_packet_on 0.

Lemma video_flags ft cid : 0 ≤ ft < 16 → 0 ≤ cid < 16 →
  let flags := Z.lor (u8 (Z.shiftl ft 4)) (Z.land cid 0x0f) in
  Z.shiftr flags 4 = ft ∧ Z.land flags 0xf = cid.
Proof.
  intros Hft Hcid. assert (H : forallb (λ ft, forallb (λ cid,
    let flags := Z.lor (u8 (Z.shiftl ft 4)) (Z.land cid 0x0f) in
    (Z.shiftr flags 4 =? ft) && (Z.land flags 0xf =? cid)) (seqZ 0 16)) (seqZ 0 16) = true)
    by (vm_compute; reflexivity).
  apply (forallb_seqZ _ _ _ ft) in H; [|lia]. apply (forallb_seqZ _ _ _ cid) in H; [|lia].
  cbv beta zeta in H |- *. go_bool. tauto.
Qed.

Definition audio_flags (sf sr ss st : Z) : Z :=
  Z.lor (Z.lor (Z.lor (u8 (Z.shiftl sf 4)) (Z.land (u8 (Z.shiftl sr 2)) 0x0c))
               (Z.land (u8 (Z.shiftl ss 1)) 0x02)) (Z.land st 0x01).

(** Two bits of the rate are kept: the rates above 44 kHz do not fit in a tag. *)
Lemma audio_flags_fields sf sr ss st :
  0 ≤ sf < 16 → 0 ≤ sr < 16 → 0 ≤ ss < 2 → 0 ≤ st < 2 →
  let flags := audio_flags sf sr ss st in
  Z.shiftr flags 4 = sf ∧ Z.land (Z.shiftr flags 2) 3 = sr mod 4 ∧
  Z.land (Z.shiftr flags 1) 1 = ss ∧ Z.land flags 1 = st.
Proof.
  intros Hsf Hsr Hss Hst.
  assert (H : forallb (λ sf, forallb (λ sr, forallb (λ ss, forallb (λ st,
    let flags := audio_flags sf sr ss st in
    (Z.shiftr flags 4 =? sf) && (Z.land (Z.shiftr flags 2) 3 =? sr mod 4) &&
    (Z.land (Z.shiftr flags 1) 1 =? ss) && (Z.land flags 1 =? st))
    (seqZ 0 2)) (seqZ 0 2)) (seqZ 0 16)) (seqZ 0 16) = true) by (vm_compute; reflexivity).
  apply (forallb_seqZ _ _ _ sf) in H; [|lia]. apply (forallb_seqZ _ _ _ sr) in H; [|lia].
  apply (forallb_seqZ _ _ _ ss) in H; [|lia]. apply (forallb_seqZ _ _ _ st) in H; [|lia].
  cbv beta zeta in H |- *. go_bool. tauto.
Qed.

Lemma ParseVideoHeader_h264 f apt data : Z.land f 0xf = VIDEO_H264 →
  ParseVideoHeader (f :: apt :: 0 :: 0 :: 0 :: data) no_tag
    = (Ok 5, mkTag (flvt no_tag) (video_media (Z.shiftr f 4) VIDEO_H264 apt 0)).
Proof.
  intros Hf. unfold ParseVideoHeader.
  rewrite (proj2 (Z.ltb_ge _ _)) by (unfold len; simpl; lia).
  erewrite go_bind_lift by reflexivity. unfold set_mediat. rewrite go_bind_modify, Hf, Z.eqb_refl.
  do 4 (erewrite go_bind_lift by reflexivity). reflexivity.
Qed.

Lemma ParseAudioHeader_aac f apt data : Z.shiftr f 4 = SOUND_AAC →
  ParseAudioHeader (f :: apt :: data) no_tag
    = (Ok 2, mkTag (flvt no_tag) (audio_media SOUND_AAC (Z.land (Z.shiftr f 2) 3)
               (Z.land (Z.shiftr f 1) 1) (Z.land f 1) apt)).
Proof.
  intros Hf. unfold ParseAudioHeader.
  rewrite (proj2 (Z.ltb_ge _ _)) by (unfold len; simpl; lia).
  erewrite go_bind_lift by reflexivity. unfold set_mediat. rewrite go_bind_modify, Hf, Z.eqb_refl.
  erewrite go_bind_lift by reflexivity. reflexivity.
Qed.

(** An H.264 tag is taken off again. *)
Lemma Demux_h264_on sid ft apt data t h : 0 ≤ ft < 16 → fType h = TAG_VIDEO →
  Demux (video_packet_on sid t (muxerTagData (mkTag h (video_media ft VIDEO_H264 apt 0)) ++ data))
  = (Ok tt, mkPacket PacketTypeVideo t sid (mkVHeader ft apt VIDEO_H264 0) no_AHeader data).
Proof.
  intros Hft Hh.
  destruct (video_flags ft VIDEO_H264 Hft) as [H1 H2]; [unfold VIDEO_H264; lia|].
  unfold muxerTagData. cbn [flvt mediat frameType codecID avcPacketType video_media].
  rewrite Hh, !Z.eqb_refl. cbv iota zeta. set (f := Z.lor _ _) in *.
  change ((f :: apt :: be_split 3 (u32 (compositionTime (video_media ft VIDEO_H264 apt 0)))) ++ data)
    with ([f; apt; 0; 0; 0] ++ data).
  assert (Hd : ∀ msg, demux_header msg (video_packet_on sid t ([f; apt; 0; 0; 0] ++ data))
    = (Ok (len [f; apt; 0; 0; 0]), set_VHeader (mkVHeader ft apt VIDEO_H264 0)
         (video_packet_on sid t ([f; apt; 0; 0; 0] ++ data)))).
  { intros msg. unfold demux_header. change (PacketType (video_packet_on _ _ _)) with 1.
    change (pkt_Data (video_packet_on sid t ?d)) with d. simpl (1 =? _). cbv iota.
    change ([f; apt; 0; 0; 0] ++ data) with (f :: apt :: 0 :: 0 :: 0 :: data).
    rewrite ParseVideoHeader_h264 by exact H2. unfold tag_VHeader. by rewrite H1. }
  unfold Demux. erewrite go_bind_ok by apply Hd. unfold get, mbind at 1, go_bind at 1.
  erewrite go_bind_lift by apply slice_suffix. reflexivity.
Qed.

(** An AAC tag is taken off again. *)
Lemma Demux_aac_on sid sr ss st apt data t h : 0 ≤ sr < 16 → 0 ≤ ss < 2 → 0 ≤ st < 2 →
  fType h = TAG_AUDIO →
  Demux (audio_packet_on sid t (muxerTagData (mkTag h (audio_media SOUND_AAC sr ss st apt)) ++ data))
  = (Ok tt, mkPacket PacketTypeAudio t sid no_VHeader
              (mkAHeader SOUND_AAC (sr mod 4) ss st apt) data).
Proof.
  intros Hsr Hss Hst Hh.
  destruct (audio_flags_fields SOUND_AAC sr ss st) as (H1 & H2 & H3 & H4); try done.
  unfold muxerTagData.
  cbn [flvt mediat soundFormat soundRate soundSize soundType aacPacketType audio_media].
  rewrite Hh. simpl (TAG_AUDIO =? TAG_VIDEO). rewrite !Z.eqb_refl. cbv iota zeta.
  fold (audio_flags SOUND_AAC sr ss st). set (f := audio_flags SOUND_AAC sr ss st) in *.
  assert (Hd : ∀ msg, demux_header msg (audio_packet_on sid t ([f; apt] ++ data))
    = (Ok (len [f; apt]), set_AHeader (mkAHeader SOUND_AAC (sr mod 4) ss st apt)
         (audio_packet_on sid t ([f; apt] ++ data)))).
  { intros msg. unfold demux_header. change (PacketType (audio_packet_on _ _ _)) with 2.
    change (pkt_Data (audio_packet_on sid t ?d)) with d. simpl (2 =? _). cbv iota.
    change ([f; apt] ++ data) with (f :: apt :: data).
    rewrite ParseAudioHeader_aac by exact H1. unfold tag_AHeader. cbn. by rewrite H2, H3, H4. }
  unfold Demux. erewrite go_bind_ok by apply Hd. unfold get, mbind at 1, go_bind at 1.
  erewrite go_bind_lift by apply slice_suffix. reflexivity.
Qed.

Lemma Demux_h264 ft apt data t h : 0 ≤ ft < 16 → fType h = TAG_VIDEO →
  Demux (video_packet t (muxerTagData (mkTag h (video_media ft VIDEO_H264 apt 0)) ++ data))
  = (Ok tt, mkPacket PacketTypeVideo t 0 (mkVHeader ft apt VIDEO_H264 0) no_AHeader data).
Proof. apply Demux_h264_on. Qed.

Lemma Demux_aac sr ss st apt data t h : 0 ≤ sr < 16 → 0 ≤ ss < 2 → 0 ≤ st < 2 →
  fType h = TAG_AUDIO →
  Demux (audio_packet t (muxerTagData (mkTag h (audio_media SOUND_AAC sr ss st apt)) ++ data))
  = (Ok tt, mkPacket PacketTypeAudio t 0 no_VHeader
              (mkAHeader SOUND_AAC (sr mod 4) ss st apt) data).
Proof. apply Demux_aac_on. Qed.

(** ** Pictures from the publisher to the start-code stream *)

(** A picture as an encoder hands it over: one unit, or parameter sets followed by up to
    two more units, separated by start codes. *)
Record picture_ok (x : bytes) (rest : list bytes) : Prop := {
  po_units : Forall nalu_ok (x :: rest);
  po_head : nth 0 x 0 ≠ 0;
  po_long : len x ≠ 1;
  po_single : is_param (nal_type x) = false → rest = [];
  po_split : is_param (nal_type x) = true →
    splittable (x :: rest) ∧ (length (x :: rest) ≤ 3)%nat;
}.

Definition picture_type (x : bytes) : Z :=
  let ty := nal_type x in
  if (ty =? 7) || (ty =? 8) || (ty =? 5) then FRAME_KEY else FRAME_INTER.

Definition video_tag (header : VideoPacketHeader) (ft timeStamp : Z) (src : bytes) : Tag :=
  mkTag (mkFlvTag TAG_VIDEO (u32 (len src)) timeStamp 0 0)
    (video_media ft (CodecID header) (AVCPacketType header) 0).

Lemma pack_nalus_avcc t nalus : Forall nalu_ok nalus → pack_nalus t nalus = t ++ avcc nalus.
Proof.
  intros H. unfold pack_nalus, avcc. f_equal. f_equal. apply list_fmap_ext. intros i nalu Hi.
  destruct (Forall_lookup_1 _ _ _ _ H Hi) as [Hne Hl].
  assert (0 < len nalu) by (destruct nalu; [done|unfold len; simpl; lia]).
  rewrite (proj2 (Z.ltb_lt _ _)), u32_small by (unfold fits; lia). done.
Qed.

(** The start code in front of the picture is optional. *)
Lemma PackVideoData_picture pfx h x rest ts :
  CodecID h = VIDEO_H264 → picture_ok x rest → pfx = [] ∨ pfx = StartCode4 →
  PackVideoData h (pfx ++ x ++ annexb rest) ts
    = Ok (muxerTagData (video_tag h (picture_type x) ts (x ++ annexb rest)) ++ avcc (x :: rest)).
Proof.
  intros Hc [Hu Hh Hlong Hsingle Hsplit] Hpfx. set (src := x ++ annexb rest).
  pose proof (Forall_inv Hu) as [Hx Hxl]. unfold PackVideoData. rewrite Hc, Z.eqb_refl.
  assert (Hstrip : (if 4 <=? len (pfx ++ src) then
      c ← slice (pfx ++ src) 0 4;
      if decide (c = StartCode4) then slice_from (pfx ++ src) 4 else Ok (pfx ++ src)
    else Ok (pfx ++ src)) = Ok src).
  { pose proof (len_nonneg src). destruct Hpfx as [->| ->].
    - rewrite app_nil_l. destruct (4 <=? len src) eqn:E; [|done]. go_bool.
      rewrite slice_ok by lia. cbn [mbind res_bind]. rewrite decide_False; [done|].
      subst src. destruct x as [|b x]; [done|]. simpl in Hh |- *. by intros [= ->].
    - rewrite (proj2 (Z.leb_le _ _)) by (rewrite len_app; change (len StartCode4) with 4; lia).
      change 4 with (len StartCode4) at 1. rewrite slice_prefix. cbn [mbind res_bind].
      rewrite decide_True by done. change 4 with (len StartCode4). apply slice_suffix. }
  fold src. rewrite Hstrip. cbn [mbind res_bind].
  assert (Hb0 : index_at src 0 = Ok (nth 0 x 0)) by (subst src; by destruct x).
  assert (Hsl : len src ≠ 0) by (subst src; destruct x; [done|unfold len; simpl; lia]).
  rewrite (proj2 (Z.eqb_neq _ _)) by done. rewrite Hb0. cbn [mbind res_bind].
  change (Z.land (nth 0 x 0) 31) with (nal_type x). fold (picture_type x). rewrite <- Hc.
  fold (video_tag h (picture_type x) ts src).
  destruct ((nal_type x =? 7) || (nal_type x =? 8)) eqn:E.
  - destruct (Hsplit E) as [Hs Hn].
    pose proof (ParseNalusN_split x rest 3 Hs ltac:(lia)) as Hp.
    subst src. rewrite Hp. cbn [mbind res_bind]. by rewrite pack_nalus_avcc.
  - assert (Hr : rest = []) by (by apply Hsingle). subst rest src.
    rewrite avcc_cons. change (avcc []) with (@nil Z). change (annexb []) with (@nil Z).
    rewrite !app_nil_r, u32_small by (unfold fits; pose proof (len_nonneg x); lia). done.
Qed.

(** A picture with lengths is not mistaken for a start-code stream. *)
Lemma isNaluHeader_avcc x rest : len x ≠ 1 → len x < 2 ^ 32 →
  isNaluHeader (avcc (x :: rest)) = Ok false.
Proof.
  intros Hx Hl. pose proof (len_nonneg x). rewrite avcc_cons. rewrite isNaluHeader_code.
  2: { rewrite len_app. pose proof (len_nonneg (x ++ avcc rest)). unfold len at 1.
    simpl length. lia. }
  rewrite bool_decide_false; [done|]. change 4%nat with (length (be_split 4 (len x))) at 1.
  rewrite take_app_length. intros Hc. apply Hx.
  rewrite <- (be_combine_split_small 4 (len x)) by (change (256 ^ Z.of_nat 4) with (2 ^ 32); lia).
  by rewrite Hc.
Qed.

(** C22: A picture packed by the client reaches the other side of [Demux] as units with
    their lengths, with the right header, and the codec parser turns it into the
    start-code stream of the same units. *)
Theorem video_path (W : Type) `{LawfulWriter W} pfx h x rest ts t c p (w : W) :
  CodecID h = VIDEO_H264 → AVCPacketType h = AVC_NALU → picture_ok x rest →
  pfx = [] ∨ pfx = StartCode4 → cp_h264 c = Some p → wr_ok w →
  ∃ d pkt c' w', PackVideoData h (pfx ++ x ++ annexb rest) ts = Ok d ∧
    Demux (video_packet t d) = (Ok tt, pkt) ∧
    VHeader pkt = mkVHeader (picture_type x) AVC_NALU VIDEO_H264 0 ∧
    pkt_Data pkt = avcc (x :: rest) ∧
    CodecParser_Parse pkt (c, w) = (Ok tt, (c', w')) ∧
    wr_stream w' = wr_stream w ++ naluAud ++ annexb_out (h264_specificInfo p) [] false (x :: rest).
Proof.
  intros Hc Hapt Hok Hpfx Hcp Hw. pose proof Hok as [Hu Hh Hlong _ _].
  pose proof (Forall_inv Hu) as [Hx Hxl]. destruct p as [info pps0].
  assert (Hft : 0 ≤ picture_type x < 16)
    by (unfold picture_type, FRAME_KEY, FRAME_INTER; destruct (_ || _); lia).
  destruct (getAnnexbH264_emits (x :: rest) info pps0 ltac:(done) Hu w Hw)
    as (w' & Heq & Hw' & Hs).
  eexists _, _, _, w'. split; [by apply PackVideoData_picture|].
  split; [unfold video_tag; rewrite Hc; by apply Demux_h264|].
  split; [by rewrite Hapt|]. split; [done|]. split; [|exact Hs].
  unfold CodecParser_Parse, with_h264. cbn [PacketType VHeader CodecID FrameType AVCPacketType].
  rewrite !Z.eqb_refl, Hapt, andb_false_r. cbv iota. rewrite Hcp. cbn [default].
  unfold H264_Parse. cbn [pkt_Data].
  erewrite go_bind_lift by by apply isNaluHeader_avcc. cbv beta iota. unfold id. rewrite Heq. reflexivity.
Qed.

(** A header of an H.264 picture as the client fills it. *)
Definition sample_vheader : VideoPacketHeader := mkVHeader FRAME_KEY AVC_NALU VIDEO_H264 0.

Lemma video_path_witness :
  ∃ d pkt c' w', PackVideoData sample_vheader [0; 0; 0; 1; 0x65; 1; 2] 40 = Ok d ∧
    Demux (video_packet 40 d) = (Ok tt, pkt) ∧
    CodecParser_Parse (W := bytes) pkt
      (mkCodec None None (Some (mkH264 [0; 0; 0; 1; 0x67] [])), [])
    = (Ok tt, (c', w')) ∧
    w' = [0; 0; 0; 1; 9; 0xf0; 0; 0; 0; 1; 0x67; 0; 0; 0; 1; 0x65; 1; 2].
Proof.
  assert (Hok : picture_ok [0x65; 1; 2] []).
  { constructor; try done. apply Forall_singleton. by split. }
  destruct (video_path bytes StartCode4 sample_vheader [0x65; 1; 2] [] 40 40
    (mkCodec None None (Some (mkH264 [0; 0; 0; 1; 0x67] []))) (mkH264 [0; 0; 0; 1; 0x67] []) []
    eq_refl eq_refl Hok (or_intror eq_refl) eq_refl)
    as (d & pkt & c' & w' & H1 & H2 & _ & _ & H3 & H4); [exact I|].
  exists d, pkt, c', w'. split; [exact H1|]. split; [exact H2|]. split; [exact H3|exact H4].
Defined.

(** ** Sequence headers *)

Lemma read_array_app n p rest msg : 0 ≤ n → len p = n → (p = [] → rest ≠ []) →
  read_array n msg (p ++ rest) = (Ok p, rest).
Proof.
  intros Hn Hp Hne. unfold read_array, on_err, Reader_Read.
  destruct (p ++ rest) as [|x l] eqn:E; [by destruct p, rest; [destruct Hne| | |]|].
  rewrite <- E. unfold mbind, go_bind. unfold len in Hp.
  replace (Z.to_nat n) with (length p) by lia.
  rewrite take_app_length, drop_app_length, E. f_equal. f_equal.
  unfold copy_bytes. rewrite length_make_bytes. replace (Z.to_nat n) with (length p) by lia.
  rewrite take_ge by done. unfold make_bytes. rewrite drop_ge, app_nil_r; [done|].
  rewrite length_replicate. lia.
Qed.

Lemma read_sets_one l rest : len l < 65536 → (l = [] → rest ≠ []) →
  read_sets 1 (be_split 2 (len l) ++ l ++ rest) = (Ok [l], rest).
Proof.
  intros Hl Hne. cbn [read_sets]. pose proof (len_nonneg l).
  erewrite go_bind_ok by by apply (read_array_app 2 (be_split 2 (len l))).
  rewrite be_combine_split_small by (change (256 ^ Z.of_nat 2) with 65536; lia).
  erewrite go_bind_ok by by apply (read_array_app (len l) l).
  reflexivity.
Qed.

Lemma ParseAVCSequenceHeader_of sps pps :
  sps ≠ [] → pps ≠ [] → sps ≠ StartCode4 → pps ≠ StartCode4 → len sps < 65536 → len pps < 65536 →
  ParseAVCSequenceHeader (AVCDecoderConfigurationRecord sps pps) = Ok ([sps], [pps]).
Proof.
  intros Hs0 Hp0 Hs4 Hp4 Hsl Hpl.
  unfold AVCDecoderConfigurationRecord. rewrite !decide_False by done.
  pose proof (len_nonneg sps). pose proof (len_nonneg pps).
  rewrite !u16_small by (unfold fits; lia).
  set (rest := be_split 2 (len sps) ++ _). unfold ParseAVCSequenceHeader.
  erewrite go_bind_ok by reflexivity. cbn [negb Z.eqb Pos.eqb].
  erewrite go_bind_ok by reflexivity. rewrite go_bind_modify.
  erewrite go_bind_ok by reflexivity.
  erewrite go_bind_ok by by (apply (read_sets_one sps); [done|]).
  erewrite go_bind_ok by reflexivity.
  erewrite go_bind_ok.
  2: { rewrite <- (app_nil_r pps) at 2. by apply (read_sets_one pps). }
  reflexivity.
Qed.

(** C32: The parameter sets of an AVC sequence header come back on the other side, both
    for a player ([ParseAVCSequenceHeader]) and for the codec parser. *)
Theorem avc_sequence_header (W : Type) `{IoWriter W} sps pps ts t p (w : W) :
  sps ≠ [] → pps ≠ [] → sps ≠ StartCode4 → pps ≠ StartCode4 →
  len sps < 65536 → len pps < 65536 →
  ∃ pkt, Demux (video_packet t (NewAVCSequenceHeader sps pps ts)) = (Ok tt, pkt) ∧
    VHeader pkt = mkVHeader FRAME_KEY AVC_SEQHDR VIDEO_H264 0 ∧
    ParseAVCSequenceHeader (pkt_Data pkt) = Ok ([sps], [pps]) ∧
    CodecParser_Parse (W := W) pkt (mkCodec None None (Some p), w)
      = (Ok tt, (mkCodec None None
          (Some (mkH264 (h264_specificInfo p ++ annexb [sps; pps]) (h264_pps p))), w)).
Proof.
  intros Hs0 Hp0 Hs4 Hp4 Hsl Hpl. eexists. split; [by apply Demux_h264|].
  split; [done|]. cbn [pkt_Data]. split.
  - by apply ParseAVCSequenceHeader_of.
  - unfold CodecParser_Parse, with_h264. cbn [PacketType VHeader CodecID FrameType AVCPacketType].
    rewrite !Z.eqb_refl. cbn [andb]. unfold H264_Parse, on_p. cbn [pkt_Data cp_h264 default].
    by rewrite parseSpecificInfo_of.
Qed.

Lemma avc_sequence_header_witness :
  ∃ pkt, Demux (video_packet 0 (NewAVCSequenceHeader [0x67; 66] [0x68; 1] 0)) = (Ok tt, pkt) ∧
    ParseAVCSequenceHeader (pkt_Data pkt) = Ok ([[0x67; 66]], [[0x68; 1]]).
Proof.
  destruct (avc_sequence_header bytes [0x67; 66] [0x68; 1] 0 0 NewH264Parser []
    ltac:(done) ltac:(done) ltac:(done) ltac:(done) ltac:(done) ltac:(done))
    as (pkt & H1 & _ & H2 & _).
  exists pkt. split; [exact H1|exact H2].
Defined.

(** ** Sound *)

(** The sound rates the program can announce, in Hz; 5.5 and 7 kHz are sent as 44.1. *)
Definition rate_hz (soundRate : Z) : Z :=
  nth (Z.to_nat soundRate)
    [44100; 11025; 22050; 44100; 44100; 8000; 12000; 16000; 24000; 32000; 48000; 64000; 88200; 96000]
    44100.

Lemma frequencyIndex_range sr : 0 ≤ frequencyIndex sr < 16.
Proof. unfold frequencyIndex. repeat case_match; lia. Qed.

Lemma channelConfiguration_range st : 0 ≤ channelConfiguration st < 4.
Proof. unfold channelConfiguration. repeat case_match; lia. Qed.

Lemma rate_of_index sr p : 0 ≤ sr < 14 →
  aac_SampleRate (mkAac true (adtsHeader p) 2 (frequencyIndex sr) 0) = rate_hz sr.
Proof.
  intros Hsr. assert (H : forallb (λ sr,
    aac_SampleRate (mkAac true [] 2 (frequencyIndex sr) 0) =? rate_hz sr) (seqZ 0 14) = true)
    by (vm_compute; reflexivity).
  apply (forallb_seqZ _ _ _ sr) in H; [|lia]. cbv beta in H. go_bool. exact H.
Qed.

Lemma write_w_eq {P W : Type} `{IoWriter W} b n (p : P) (w w' : W) :
  io_Write b w = (Ok n, w') → write_w b (p, w) = (Ok tt, (p, w')).
Proof. intros Hb. unfold write_w, on_w, mbind, go_bind. by rewrite Hb. Qed.

Lemma adts_writes {W : Type} `{IoWriter W} src p (w w1 w2 : W) :
  let hd := adts_header (objectType p) (sampleRate p) (channel p) (len src) in
  0 < len src → gettedSpecific p = true →
  io_Write hd w = (Ok (len hd), w1) → io_Write src w1 = (Ok (len src), w2) →
  adts src (p, w)
    = (Ok tt, (mkAac true hd (objectType p) (sampleRate p) (channel p), w2)).
Proof.
  intros hd Hl Hg H1 H2. unfold adts. erewrite go_bind_ok by reflexivity.
  rewrite (proj2 (Z.leb_gt _ _)), Hg by lia. cbn [orb negb]. fold hd.
  erewrite go_bind_ok by reflexivity.
  erewrite go_bind_ok by (eapply write_w_eq, H1).
  rewrite Hg. eapply write_w_eq, H2.
Qed.

(** C23: After the AAC sequence header the publisher makes, the codec parser knows the
    sampling rate of the stream, and every AAC frame packed by the publisher comes out
    with an ADTS header that announces the AAC-LC profile, this rate, the channels and the
    length of the frame, followed by the frame itself. *)
Theorem audio_path (W : Type) `{LawfulWriter W} ah streamID src ts t (w : W) :
  SoundFormat ah = SOUND_AAC → 0 ≤ SoundRate ah < 14 → 0 ≤ SoundSize ah < 2 →
  0 ≤ SoundType ah < 2 → src ≠ [] → len src < 8185 → wr_ok w →
  ∃ seq d pkt c c' w' h,
    Demux (audio_packet t (NewAACSequenceHeader ah)) = (Ok tt, seq) ∧
    CodecParser_Parse seq (NewCodecParser, w) = (Ok tt, (c, w)) ∧
    (CodecParser_SampleRate c).1 = Ok (rate_hz (SoundRate ah)) ∧
    PackAudioData ah streamID src ts = Ok d ∧
    Demux (audio_packet t d) = (Ok tt, pkt) ∧ pkt_Data pkt = src ∧
    CodecParser_Parse pkt (c, w) = (Ok tt, (c', w')) ∧
    wr_stream w' = wr_stream w ++ h ++ src ∧
    adts_fields h = Some (mkAdts 1 (frequencyIndex (SoundRate ah))
      (channelConfiguration (SoundType ah)) (len src + 7)).
Proof.
  intros Hf Hr Hs Ht Hne Hlen Hw. destruct ah as [sf sr ss st apt]. simpl in Hf, Hr, Hs, Ht. subst sf.
  pose proof (frequencyIndex_range sr) as Hfi. pose proof (channelConfiguration_range st) as Hcc.
  pose proof (len_nonneg src).
  assert (Hpos : 0 < len src) by (destruct src; [done|unfold len; simpl; lia]).
  set (p1 := mkAac true (make_bytes 7) 2 (frequencyIndex sr) (channelConfiguration st)).
  set (hd := adts_header 2 (frequencyIndex sr) (channelConfiguration st) (len src)).
  destruct (io_Write_ok hd w Hw) as (w1 & He1 & Hw1 & Hs1).
  destruct (io_Write_ok src w1 Hw1) as (w2 & He2 & Hw2 & Hs2).
  eexists _, _, _, (mkCodec (Some p1) None None), _, w2, hd.
  split; [by apply (Demux_aac sr ss st); try done; lia|].
  split.
  { unfold CodecParser_Parse, with_aac. cbn [PacketType AHeader SoundFormat AACPacketType].
    rewrite Z.eqb_refl. change (PacketTypeAudio =? PacketTypeVideo) with false. cbv iota.
    rewrite Z.eqb_refl. unfold aac_Parse, on_p. change (AAC_SEQHDR =? AAC_SEQHDR) with true.
    change (SOUND_AAC =? SOUND_AAC) with true. cbv beta iota. cbn [pkt_Data SoundRate SoundType].
    by rewrite specificInfo_of by lia. }
  split; [exact (f_equal Ok (rate_of_index sr NewAacParser Hr))|].
  split; [reflexivity|]. split; [by apply (Demux_aac sr ss st); try done; lia|]. split; [done|].
  split; [|split].
  - unfold CodecParser_Parse, with_aac. cbn [PacketType AHeader SoundFormat AACPacketType].
    rewrite Z.eqb_refl. change (PacketTypeAudio =? PacketTypeVideo) with false.
    change (SOUND_AAC =? SOUND_AAC) with true. cbv beta iota.
    unfold aac_Parse. change (AAC_RAW =? AAC_SEQHDR) with false.
    change (AAC_RAW =? AAC_RAW) with true. rewrite Z.eqb_refl. cbv beta iota.
    cbn [pkt_Data cp_aac default from_option id].
    by erewrite adts_writes by (done || lia || exact He1 || exact He2).
  - by rewrite Hs2, Hs1, <- app_assoc.
  - by apply (adts_fields_of 2); first lia.
Qed.

Lemma audio_path_witness :
  ∃ seq d pkt c c' w' h,
    Demux (audio_packet 0 (NewAACSequenceHeader (mkAHeader SOUND_AAC 10 1 1 0))) = (Ok tt, seq) ∧
    CodecParser_Parse (W := bytes) seq (NewCodecParser, []) = (Ok tt, (c, [])) ∧
    PackAudioData (mkAHeader SOUND_AAC 10 1 1 0) 0 [7; 8; 9] 5 = Ok d ∧
    Demux (audio_packet 0 d) = (Ok tt, pkt) ∧
    CodecParser_Parse pkt (c, []) = (Ok tt, (c', w')) ∧ w' = h ++ [7; 8; 9] ∧
    adts_fields h = Some (mkAdts 1 3 2 10).
Proof.
  destruct (audio_path bytes (mkAHeader SOUND_AAC 10 1 1 0) 0 [7; 8; 9] 5 0 []
    ltac:(done) ltac:(simpl; lia) ltac:(simpl; lia) ltac:(simpl; lia) ltac:(done) ltac:(done))
    as (seq & d & pkt & c & c' & w' & h & H1 & H2 & _ & H3 & H4 & _ & H5 & H6 & H7); [exact I|].
  exists seq, d, pkt, c, c', w', h. split_and!; [exact H1|exact H2|exact H3|exact H4|exact H5|exact H6|exact H7].
Defined.

(** A tag of one byte that announces AAC. *)
Example short_audio_tag_panics :
  (DemuxH (audio_packet 0 [0xaf])).1 = Panic IndexOutOfRange.
Proof. reflexivity. Qed.

(** The composition time is a signed number of 24 bits: -1 is read as 16777215. *)
Example negative_composition_time :
  CompositionTime (VHeader (DemuxH (video_packet 0 [0x27; 1; 0xff; 0xff; 0xff])).2) = 16777215.
Proof. reflexivity. Qed.
