(* ===== verification/Ts.v ===== *)
(** * MPEG-TS (src/container/ts/muxer.go, src/container/ts/crc32.go)

    Cutting a packet into transport-stream packets of 188 bytes, the program tables, and
    their checksum.  [tsPacket] is one buffer that every pass of [Mux] fills again. *)
From S2P Require Import Prelude GoIO Av.

(** ** The checksum *)

Definition crcTable : list Z := [
    0x00000000; 0x04c11db7; 0x09823b6e; 0x0d4326d9; 0x130476dc; 0x17c56b6b;
    0x1a864db2; 0x1e475005; 0x2608edb8; 0x22c9f00f; 0x2f8ad6d6; 0x2b4bcb61;
    0x350c9b64; 0x31cd86d3; 0x3c8ea00a; 0x384fbdbd; 0x4c11db70; 0x48d0c6c7;
    0x4593e01e; 0x4152fda9; 0x5f15adac; 0x5bd4b01b; 0x569796c2; 0x52568b75;
    0x6a1936c8; 0x6ed82b7f; 0x639b0da6; 0x675a1011; 0x791d4014; 0x7ddc5da3;
    0x709f7b7a; 0x745e66cd; 0x9823b6e0; 0x9ce2ab57; 0x91a18d8e; 0x95609039;
    0x8b27c03c; 0x8fe6dd8b; 0x82a5fb52; 0x8664e6e5; 0xbe2b5b58; 0xbaea46ef;
    0xb7a96036; 0xb3687d81; 0xad2f2d84; 0xa9ee3033; 0xa4ad16ea; 0xa06c0b5d;
    0xd4326d90; 0xd0f37027; 0xddb056fe; 0xd9714b49; 0xc7361b4c; 0xc3f706fb;
    0xceb42022; 0xca753d95; 0xf23a8028; 0xf6fb9d9f; 0xfbb8bb46; 0xff79a6f1;
    0xe13ef6f4; 0xe5ffeb43; 0xe8bccd9a; 0xec7dd02d; 0x34867077; 0x30476dc0;
    0x3d044b19; 0x39c556ae; 0x278206ab; 0x23431b1c; 0x2e003dc5; 0x2ac12072;
    0x128e9dcf; 0x164f8078; 0x1b0ca6a1; 0x1fcdbb16; 0x018aeb13; 0x054bf6a4;
    0x0808d07d; 0x0cc9cdca; 0x7897ab07; 0x7c56b6b0; 0x71159069; 0x75d48dde;
    0x6b93dddb; 0x6f52c06c; 0x6211e6b5; 0x66d0fb02; 0x5e9f46bf; 0x5a5e5b08;
    0x571d7dd1; 0x53dc6066; 0x4d9b3063; 0x495a2dd4; 0x44190b0d; 0x40d816ba;
    0xaca5c697; 0xa864db20; 0xa527fdf9; 0xa1e6e04e; 0xbfa1b04b; 0xbb60adfc;
    0xb6238b25; 0xb2e29692; 0x8aad2b2f; 0x8e6c3698; 0x832f1041; 0x87ee0df6;
    0x99a95df3; 0x9d684044; 0x902b669d; 0x94ea7b2a; 0xe0b41de7; 0xe4750050;
    0xe9362689; 0xedf73b3e; 0xf3b06b3b; 0xf771768c; 0xfa325055; 0xfef34de2;
    0xc6bcf05f; 0xc27dede8; 0xcf3ecb31; 0xcbffd686; 0xd5b88683; 0xd1799b34;
    0xdc3abded; 0xd8fba05a; 0x690ce0ee; 0x6dcdfd59; 0x608edb80; 0x644fc637;
    0x7a089632; 0x7ec98b85; 0x738aad5c; 0x774bb0eb; 0x4f040d56; 0x4bc510e1;
    0x46863638; 0x42472b8f; 0x5c007b8a; 0x58c1663d; 0x558240e4; 0x51435d53;
    0x251d3b9e; 0x21dc2629; 0x2c9f00f0; 0x285e1d47; 0x36194d42; 0x32d850f5;
    0x3f9b762c; 0x3b5a6b9b; 0x0315d626; 0x07d4cb91; 0x0a97ed48; 0x0e56f0ff;
    0x1011a0fa; 0x14d0bd4d; 0x19939b94; 0x1d528623; 0xf12f560e; 0xf5ee4bb9;
    0xf8ad6d60; 0xfc6c70d7; 0xe22b20d2; 0xe6ea3d65; 0xeba91bbc; 0xef68060b;
    0xd727bbb6; 0xd3e6a601; 0xdea580d8; 0xda649d6f; 0xc423cd6a; 0xc0e2d0dd;
    0xcda1f604; 0xc960ebb3; 0xbd3e8d7e; 0xb9ff90c9; 0xb4bcb610; 0xb07daba7;
    0xae3afba2; 0xaafbe615; 0xa7b8c0cc; 0xa379dd7b; 0x9b3660c6; 0x9ff77d71;
    0x92b45ba8; 0x9675461f; 0x8832161a; 0x8cf30bad; 0x81b02d74; 0x857130c3;
    0x5d8a9099; 0x594b8d2e; 0x5408abf7; 0x50c9b640; 0x4e8ee645; 0x4a4ffbf2;
    0x470cdd2b; 0x43cdc09c; 0x7b827d21; 0x7f436096; 0x7200464f; 0x76c15bf8;
    0x68860bfd; 0x6c47164a; 0x61043093; 0x65c52d24; 0x119b4be9; 0x155a565e;
    0x18197087; 0x1cd86d30; 0x029f3d35; 0x065e2082; 0x0b1d065b; 0x0fdc1bec;
    0x3793a651; 0x3352bbe6; 0x3e119d3f; 0x3ad08088; 0x2497d08d; 0x2056cd3a;
    0x2d15ebe3; 0x29d4f654; 0xc5a92679; 0xc1683bce; 0xcc2b1d17; 0xc8ea00a0;
    0xd6ad50a5; 0xd26c4d12; 0xdf2f6bcb; 0xdbee767c; 0xe3a1cbc1; 0xe760d676;
    0xea23f0af; 0xeee2ed18; 0xf0a5bd1d; 0xf464a0aa; 0xf9278673; 0xfde69bc4;
    0x89b8fd09; 0x8d79e0be; 0x803ac667; 0x84fbdbd0; 0x9abc8bd5; 0x9e7d9662;
    0x933eb0bb; 0x97ffad0c; 0xafb010b1; 0xab710d06; 0xa6322bdf; 0xa2f33668;
    0xbcb4666d; 0xb8757bda; 0xb5365d03; 0xb1f740b4].

(** The index is a byte and the table has 256 entries. *)
Definition crc_step (crc32 b : Z) : Z :=
  let j := Z.land (Z.lxor (u8 (Z.shiftr crc32 24)) b) 0xff in
  Z.lxor (u32 (Z.shiftl crc32 8)) (nth (Z.to_nat j) crcTable 0).

Definition GenCrc32 (src : bytes) : Z := fold_left crc_step src 0xFFFFFFFF.

(** ** Muxer *)

Definition tsDefaultDataLen : Z := 184.
Definition tsPacketLen : Z := 188.
Definition h264DefaultHZ : Z := 90.
Definition videoPID : Z := 0x100.
Definition audioPID : Z := 0x101.
Definition videoSID : Z := 0xe0.
Definition audioSID : Z := 0xc0.

Record Muxer := mkMuxer {
  videoCc : Z; audioCc : Z; patCc : Z; pmtCc : Z;
  pat : bytes; pmt : bytes; tsPacket : bytes;
}.

Definition NewMuxer : Muxer :=
  mkMuxer 0 0 0 0 (make_bytes tsPacketLen) (make_bytes tsPacketLen) (make_bytes tsPacketLen).

Definition set_tsPacket (b : bytes) (m : Muxer) : Muxer :=
  mkMuxer (videoCc m) (audioCc m) (patCc m) (pmtCc m) (pat m) (pmt m) b.

(** [muxer.tsPacket[i] = v], [muxer.tsPacket[i] |= v], [copy(muxer.tsPacket[i:], src)] *)
Definition ts_put (i v : Z) : go Muxer unit :=
  m ← get;
  b ← lift (set_at (tsPacket m) i v);
  modify (set_tsPacket b).

Definition ts_or (i v : Z) : go Muxer unit :=
  m ← get;
  x ← lift (index_at (tsPacket m) i);
  ts_put i (Z.lor x v).

Definition ts_copy (i : Z) (src : bytes) : go Muxer unit :=
  m ← get;
  b ← lift (copy_at (tsPacket m) i src);
  modify (set_tsPacket b).

(** On [tsPacket[i:]]: the length of the field, its flags, and stuffing to the end. *)
Definition adaptationBufInit (i remainBytes : Z) : go Muxer unit :=
  _ ← ts_put i (u8 (remainBytes - 1));
  if remainBytes =? 1 then mret tt
  else
    _ ← ts_put (i + 1) 0;
    ts_copy (i + 2) (replicate (Z.to_nat (tsPacketLen - (i + 2))) 0xff).

Definition writePcr (i pcr : Z) : go Muxer unit :=
  _ ← ts_put i (u8 (Z.shiftr pcr 25));
  _ ← ts_put (i + 1) (u8 (Z.land (Z.shiftr pcr 17) 0xff));
  _ ← ts_put (i + 2) (u8 (Z.land (Z.shiftr pcr 9) 0xff));
  _ ← ts_put (i + 3) (u8 (Z.land (Z.shiftr pcr 1) 0xff));
  _ ← ts_put (i + 4) (u8 (Z.lor (Z.shiftl (Z.land pcr 1) 7) 0x7e));
  ts_put (i + 5) 0.

(** ** The header of a PES packet *)

(** The five bytes [writeTs] stores at [i]. *)
Definition writeTs (fb ts : Z) : bytes :=
  let ts := if 0x1ffffffff <? ts then ts - 0x1ffffffff else ts in
  let v1 := Z.lor (Z.lor (u32 (Z.shiftl fb 4))
                         (u32 (Z.shiftl (Z.land (u32 (Z.shiftr ts 30)) 7) 1))) 1 in
  let v2 := Z.lor (u32 (Z.shiftl (Z.land (u32 (Z.shiftr ts 15)) 0x7fff) 1)) 1 in
  let v3 := Z.lor (u32 (Z.shiftl (u32 (Z.land ts 0x7fff)) 1)) 1 in
  [u8 v1; u8 (Z.shiftr v2 8); u8 v2; u8 (Z.shiftr v3 8); u8 v3].

(** The array [data] is these bytes and zeros. *)
Definition pes_packet (p : Packet) (pts dts : Z) : bytes :=
  let isVideo := PacketType p =? PacketTypeVideo in
  let sid := if isVideo then videoSID else audioSID in
  let both := isVideo && negb (pts =? dts) in
  let flag := if both then Z.lor 0x80 0x40 else 0x80 in
  let headerSize := if both then 10 else 5 in
  let size := len (pkt_Data p) + headerSize + 3 in
  let size := if 0xffff <? size then 0 else size in
  [0; 0; 1; sid; u8 (Z.shiftr size 8); u8 size; 0x80; flag; headerSize]
  ++ writeTs (Z.shiftr flag 6) pts ++ (if both then writeTs 1 dts else []).

Record pesHeader := mkPesHeader { pes_len : Z; pes_data : bytes }.

Definition pes_header (p : Packet) (pts dts : Z) : pesHeader :=
  let h := pes_packet p pts dts in
  mkPesHeader (u8 (len h)) (copy_bytes (make_bytes tsPacketLen) h).

(** ** Mux *)

(** The variables that live across the passes of the loop. *)
Record mux_vars := mkVars {
  mv_first : bool; wBytes : Z; pesIndex : Z; pesHeaderLen : Z; packetBytesLen : Z;
}.

Definition next_cc (c : Z) : Z := if 0xf <? u8 (c + 1) then 0 else u8 (c + 1).

Definition bump_cc (isVideo : bool) : go Muxer unit :=
  modify (λ m,
    if isVideo
    then mkMuxer (next_cc (videoCc m)) (audioCc m) (patCc m) (pmtCc m) (pat m) (pmt m) (tsPacket m)
    else mkMuxer (videoCc m) (next_cc (audioCc m)) (patCc m) (pmtCc m) (pat m) (pmt m) (tsPacket m)).

Definition cc_of (isVideo : bool) (m : Muxer) : Z := if isVideo then videoCc m else audioCc m.

(** The first four bytes, and the clock of a key frame; the result is the index reached.
    [videoH] in the code is declared and never assigned. *)
Definition mux_head (isVideo first : bool) (pid dts : Z) : go Muxer Z :=
  _ ← bump_cc isVideo;
  _ ← ts_put 0 0x47;
  _ ← ts_put 1 (u8 (Z.shiftr pid 8));
  _ ← (if first then ts_or 1 0x40 else mret tt);
  _ ← ts_put 2 (u8 pid);
  m ← get;
  _ ← ts_put 3 (Z.lor 0x10 (Z.land (cc_of isVideo m) 0x0f));
  if first && isVideo && (FrameType no_VHeader =? FRAME_KEY) then
    _ ← ts_or 3 0x20;
    _ ← ts_put 4 7;
    _ ← ts_put 5 0x50;
    _ ← writePcr 6 dts;
    mret 12
  else mret 4.

(** Room for the data: the index it starts at and [dataLen]. *)
Definition mux_adapt (first : bool) (packetBytesLen i : Z) : go Muxer (Z * Z) :=
  if tsDefaultDataLen <=? packetBytesLen then
    mret (i, if first then u8 (tsDefaultDataLen - u8 (i - 4)) else tsDefaultDataLen)
  else
    _ ← ts_or 3 0x20;
    let dataLen := u8 packetBytesLen in
    let remainBytes := if first then u8 (tsDefaultDataLen - dataLen - (i - 4))
                       else u8 (tsDefaultDataLen - dataLen) in
    _ ← adaptationBufInit i remainBytes;
    mret (u8 (i + remainBytes), dataLen).

(** The PES header goes into the first packet. *)
Definition mux_pes (pes : pesHeader) (v : mux_vars) (i dataLen : Z)
    : go Muxer (Z * Z * mux_vars) :=
  if mv_first v && (i <? tsPacketLen) && (0 <? pesHeaderLen v) then
    let tmpLen := u8 (tsPacketLen - i) in
    let tmpLen := if pesHeaderLen v <=? tmpLen then pesHeaderLen v else tmpLen in
    h ← lift (slice (pes_data pes) (pesIndex v) (pesIndex v + tmpLen));
    _ ← ts_copy i h;
    mret (u8 (i + tmpLen), u8 (dataLen - tmpLen),
          mkVars (mv_first v) (wBytes v) (pesIndex v + tmpLen) (u8 (pesHeaderLen v - tmpLen))
            (packetBytesLen v - tmpLen))
  else mret (i, dataLen, v).

Definition mux_data (data : bytes) (v : mux_vars) (i dataLen : Z) : go Muxer mux_vars :=
  if i <? tsPacketLen then
    let tmpLen := u8 (tsPacketLen - i) in
    let dataLen := if tmpLen <=? dataLen then tmpLen else dataLen in
    d ← lift (slice data (wBytes v) (wBytes v + dataLen));
    _ ← ts_copy i d;
    mret (mkVars (mv_first v) (wBytes v + dataLen) (pesIndex v) (pesHeaderLen v)
            (packetBytesLen v - dataLen))
  else mret v.

(** One pass up to the write. *)
Definition mux_pass (p : Packet) (pes : pesHeader) (pid dts : Z) (v : mux_vars)
    : go Muxer mux_vars :=
  i ← mux_head (PacketType p =? PacketTypeVideo) (mv_first v) pid dts;
  '(i, dataLen) ← mux_adapt (mv_first v) (packetBytesLen v) i;
  '(i, dataLen, v) ← mux_pes pes v i dataLen;
  v ← mux_data (pkt_Data p) v i dataLen;
  mret (mkVars false (wBytes v) (pesIndex v) (pesHeaderLen v) (packetBytesLen v)).

Section mux.
Context {W : Type} `{IoWriter W}.

(** [has_w] is false when the writer is nil. *)
Fixpoint mux_loop (fuel : nat) (has_w : bool) (p : Packet) (pes : pesHeader) (pid dts : Z)
    (v : mux_vars) : go (Muxer * W) unit :=
  match fuel with
  | O => λ s, (OutOfFuel, s)
  | S fuel =>
      if packetBytesLen v <=? 0 then mret tt
      else
        v ← on_p (mux_pass p pes pid dts v);
        m ← on_p get;
        _ ← (if has_w then write_w (tsPacket m) else mret tt);
        mux_loop fuel has_w p pes pid dts v
  end.

Definition dts_of (p : Packet) : Z := TimeStamp p * h264DefaultHZ.

Definition pts_of (p : Packet) : Z :=
  if PacketType p =? PacketTypeVideo
  then dts_of p + CompositionTime (VHeader p) * h264DefaultHZ else dts_of p.

Definition pid_of (p : Packet) : Z :=
  if PacketType p =? PacketTypeVideo then videoPID else audioPID.

(** Every pass takes at least one byte of the header or the data. *)
Definition Mux (has_w : bool) (p : Packet) : go (Muxer * W) unit :=
  let pes := pes_header p (pts_of p) (dts_of p) in
  mux_loop (length (pkt_Data p) + Z.to_nat (pes_len pes) + 1) has_w p pes (pid_of p) (dts_of p)
    (mkVars true 0 0 (pes_len pes) (len (pkt_Data p) + pes_len pes)).
End mux.

(** ** Program tables *)

Definition crc_bytes (crc32Value : Z) : bytes :=
  [u8 (Z.shiftr crc32Value 24); u8 (Z.shiftr crc32Value 16); u8 (Z.shiftr crc32Value 8);
   u8 crc32Value].

(** The header, the section and its checksum; the rest is filled with 0xff. *)
Definition psi_packet (tsHeader section : bytes) : bytes :=
  let b := tsHeader ++ section ++ crc_bytes (GenCrc32 section) in
  b ++ replicate (Z.to_nat (tsPacketLen - len b)) 0xff.

Definition patHeader : bytes :=
  [0x00; 0xb0; 0x0d; 0x00; 0x01; 0xc1; 0x00; 0x00; 0x00; 0x01; 0xf0; 0x01].

(** The counter after the check at the start of [PAT] and [PMT]. *)
Definition table_cc (cc : Z) : Z := if 0xf <? cc then 0 else cc.

Definition pat_table (cc : Z) : bytes :=
  psi_packet [0x47; 0x40; 0x00; Z.lor 0x10 (Z.land cc 0x0f); 0x00] patHeader.

Definition PAT : go Muxer bytes :=
  m ← get;
  let cc := table_cc (patCc m) in
  let b := pat_table cc in
  _ ← put (mkMuxer (videoCc m) (audioCc m) (u8 (cc + 1)) (pmtCc m) b (pmt m) (tsPacket m));
  mret b.

Definition sound_type (soundFormat : Z) : Z :=
  if (soundFormat =? 2) || (soundFormat =? 14) then 0x4 else 0x0f.

Definition progInfo (sound : Z) (hasVideo : bool) : bytes :=
  if hasVideo
  then [0x1b; 0xe1; 0x00; 0xf0; 0x00; sound; 0xe1; 0x01; 0xf0; 0x00]
  else [sound; 0xe1; 0x01; 0xf0; 0x00].

Definition pmtHeader (info : bytes) (hasVideo : bool) : bytes :=
  [0x02; 0xb0; u8 (len info + 9 + 4); 0x00; 0x01; 0xc1; 0x00; 0x00; 0xe1;
   if hasVideo then 0x00 else 0x01; 0xf0; 0x00].

Definition pmt_table (cc sound : Z) (hasVideo : bool) : bytes :=
  let info := progInfo sound hasVideo in
  psi_packet [0x47; 0x50; 0x01; Z.lor 0x10 (Z.land cc 0x0f); 0x00]
    (pmtHeader info hasVideo ++ info).

Definition PMT (soundFormat : Z) (hasVideo : bool) : go Muxer bytes :=
  m ← get;
  let cc := table_cc (pmtCc m) in
  let b := pmt_table cc (sound_type soundFormat) hasVideo in
  _ ← put (mkMuxer (videoCc m) (audioCc m) (patCc m) (u8 (cc + 1)) (pat m) b (tsPacket m));
  mret b.

(** ** What a receiver reads *)

(** CRC-32/MPEG-2, one bit at a time: the polynomial division the table speeds up. *)
Definition crc_bit (x : Z) : Z :=
  Z.lxor (u32 (Z.shiftl x 1)) (if Z.testbit x 31 then 0x04c11db7 else 0).

Definition crc_byte (c b : Z) : Z := Nat.iter 8 crc_bit (Z.lxor c (Z.shiftl b 24)).

Definition crc_bitwise (src : bytes) : Z := fold_left crc_byte src 0xFFFFFFFF.

(** A transport-stream packet (ISO 13818-1, 2.4.3.2). *)
Record TsPacket := mkTs { tp_start : bool; tp_pid : Z; tp_cc : Z; tp_payload : bytes }.

#[export] Instance TsPacket_eq_dec : EqDecision TsPacket.
Proof. solve_decision. Defined.

Definition ts_parse (b : bytes) : option TsPacket :=
  match b with
  | b0 :: b1 :: b2 :: b3 :: rest =>
      guard (len b = 188 ∧ b0 = 0x47);;
      payload ←
        (if Z.land (Z.shiftr b3 4) 3 =? 1 then Some rest
         else if Z.land (Z.shiftr b3 4) 3 =? 3 then
           n ← rest !! 0%nat; guard (n + 1 ≤ len rest);; Some (drop (Z.to_nat (n + 1)) rest)
         else None);
      Some (mkTs (Z.testbit b1 6) (Z.land b1 0x1f * 256 + b2) (Z.land b3 0xf) payload)
  | _ => None
  end.

(** The section at the start of a payload, without its checksum (2.4.4). *)
Definition psi_section (payload : bytes) : option bytes :=
  match payload with
  | 0 :: s =>
      l1 ← s !! 1%nat;
      l2 ← s !! 2%nat;
      let n := Z.land l1 0xf * 256 + l2 + 3 in
      guard (n ≤ len s ∧ 4 ≤ n ∧ crc_bitwise (take (Z.to_nat n) s) = 0);;
      guard (Forall (eq 0xff) (drop (Z.to_nat n) s));;
      Some (take (Z.to_nat (n - 4)) s)
  | _ => None
  end.

(** The program and the PID of its map, from the association section (2.4.4.3). *)
Definition pat_parse (section : bytes) : option (Z * Z) :=
  match section with
  | [0; _; _; _; _; _; 0; 0; p1; p2; m1; m2] =>
      Some (p1 * 256 + p2, Z.land m1 0x1f * 256 + m2)
  | _ => None
  end.

(** Type and PID of every stream. *)
Fixpoint pmt_streams (fuel : nat) (l : bytes) : option (list (Z * Z)) :=
  match fuel, l with
  | _, [] => Some []
  | S fuel, ty :: p1 :: p2 :: i1 :: i2 :: l =>
      rest ← pmt_streams fuel (drop (Z.to_nat (Z.land i1 0xf * 256 + i2)) l);
      Some ((ty, Z.land p1 0x1f * 256 + p2) :: rest)
  | _, _ => None
  end.

(** The PID of the clock and the streams, from the map section (2.4.4.8). *)
Definition pmt_parse (section : bytes) : option (Z * list (Z * Z)) :=
  match section with
  | 2 :: _ :: _ :: _ :: _ :: _ :: 0 :: 0 :: c1 :: c2 :: i1 :: i2 :: l =>
      streams ← pmt_streams (length l) (drop (Z.to_nat (Z.land i1 0xf * 256 + i2)) l);
      Some (Z.land c1 0x1f * 256 + c2, streams)
  | _ => None
  end.

(** ** The checksum *)

Lemma u32_lxor a b : u32 (Z.lxor a b) = Z.lxor (u32 a) (u32 b).
Proof.
  apply Z.bits_inj'. intros i Hi. unfold u32, wrap. rewrite Z.lxor_spec.
  destruct (Z.lt_ge_cases i 32).
  - by rewrite !Z.mod_pow2_bits_low, Z.lxor_spec by lia.
  - by rewrite !Z.mod_pow2_bits_high by lia.
Qed.

Lemma crc_bit_lxor a b : crc_bit (Z.lxor a b) = Z.lxor (crc_bit a) (crc_bit b).
Proof.
  unfold crc_bit. rewrite Z.shiftl_lxor, u32_lxor, Z.lxor_spec.
  generalize (u32 (Z.shiftl a 1)) (u32 (Z.shiftl b 1)) 0x04c11db7. intros x y p.
  apply Z.bits_inj'. intros i Hi. rewrite !Z.lxor_spec.
  destruct (Z.testbit a 31), (Z.testbit b 31); simpl xorb; cbv iota;
    rewrite ?Z.bits_0; by destruct (Z.testbit x i), (Z.testbit y i), (Z.testbit p i).
Qed.

Lemma crc_iter_lxor n a b :
  Nat.iter n crc_bit (Z.lxor a b) = Z.lxor (Nat.iter n crc_bit a) (Nat.iter n crc_bit b).
Proof. induction n as [|n IH]; [done|]. simpl. by rewrite IH, crc_bit_lxor. Qed.

(** Without a bit at the top, a step is a shift. *)
Lemma crc_iter_low n x : (n ≤ 8)%nat → fits 24 x →
  Nat.iter n crc_bit x = x * 2 ^ Z.of_nat n.
Proof.
  intros Hn Hx. induction n as [|n IH]; [simpl; lia|].
  cbn [Nat.iter nat_rect]. change (nat_rect _ x _ n) with (Nat.iter n crc_bit x).
  rewrite IH by lia. rewrite Nat2Z.inj_succ, Z.pow_succ_r by lia.
  assert (H : 0 < 2 ^ Z.of_nat n ≤ 2 ^ 7)
    by (split; [apply Z.pow_pos_nonneg; lia|apply Z.pow_le_mono_r; lia]).
  unfold fits in Hx. assert (0 ≤ x * 2 ^ Z.of_nat n < 2 ^ 31) by nia.
  unfold crc_bit. rewrite (testbit_high 31) by (unfold fits; lia).
  rewrite Z.lxor_0_r, Z.shiftl_mul_pow2 by lia. rewrite u32_small by (unfold fits; lia). lia.
Qed.

Lemma crc_table_entry h : is_byte h →
  Nat.iter 8 crc_bit (Z.shiftl h 24) = nth (Z.to_nat h) crcTable 0.
Proof.
  intros Hh.
  assert (H : forallb (λ h, Nat.iter 8 crc_bit (Z.shiftl h 24) =? nth (Z.to_nat h) crcTable 0)
    (seqZ 0 256) = true) by (vm_compute; reflexivity).
  apply (forallb_seqZ _ _ _ h) in H; [|unfold is_byte in Hh; lia]. cbv beta in H. go_bool. exact H.
Qed.

Lemma byte_lxor a b : is_byte a → is_byte b → is_byte (Z.lxor a b).
Proof.
  intros Ha Hb. split; [apply Z.lxor_nonneg; unfold is_byte in *; lia|].
  apply Z.lt_nge. intros Hge.
  assert (Hp : 0 < Z.lxor a b) by lia.
  pose proof (Z.log2_le_mono _ _ Hge) as Hl. change (Z.log2 256) with 8 in Hl.
  pose proof (Z.bit_log2 _ Hp) as Hbit. rewrite Z.lxor_spec in Hbit.
  rewrite !(testbit_high 8) in Hbit by (done || lia). done.
Qed.

Lemma byte_land_255 a : is_byte a → Z.land a 0xff = a.
Proof.
  intros Ha. change 0xff with (Z.ones 8). rewrite Z.land_ones by lia.
  unfold is_byte in Ha. apply Z.mod_small. lia.
Qed.

Lemma crc_step_byte c b : fits 32 c → is_byte b → crc_step c b = crc_byte c b.
Proof.
  intros Hc Hb. set (hi := Z.shiftr c 24). set (lo := c mod 2 ^ 24).
  assert (Hhi : is_byte hi)
    by (unfold hi, is_byte, fits in *; rewrite Z.shiftr_div_pow2 by lia; go_arith).
  assert (Hlo : fits 24 lo) by (unfold lo, fits; apply Z.mod_pos_bound; lia).
  assert (Hsplit : c = Z.lxor (Z.shiftl hi 24) lo).
  { rewrite <- Z.add_nocarry_lxor.
    - rewrite Z.shiftl_mul_pow2 by lia. unfold hi, lo. rewrite Z.shiftr_div_pow2 by lia.
      pose proof (Z.div_mod c (2 ^ 24)). lia.
    - apply Z.bits_inj'. intros i Hi. rewrite Z.land_spec, Z.bits_0.
      destruct (Z.lt_ge_cases i 24).
      + by rewrite Z.shiftl_spec_low by lia.
      + by rewrite (testbit_high 24 lo), andb_false_r by (done || lia). }
  unfold crc_step, crc_byte. rewrite u8_small by exact Hhi. fold hi.
  rewrite byte_land_255 by by apply byte_lxor.
  rewrite Hsplit at 2. rewrite Z.lxor_assoc, (Z.lxor_comm lo), <- Z.lxor_assoc, <- Z.shiftl_lxor.
  rewrite crc_iter_lxor, crc_table_entry by by apply byte_lxor.
  rewrite crc_iter_low by (lia || done). rewrite Z.lxor_comm. f_equal.
  unfold u32, wrap, lo. rewrite Z.shiftl_mul_pow2 by lia.
  change (Z.of_nat 8) with 8. change (2 ^ 32) with (2 ^ 24 * 2 ^ 8).
  rewrite Z.mul_mod_distr_r by lia. done.
Qed.

Lemma crc_step_fits c b : fits 32 c → is_byte b → fits 32 (crc_step c b).
Proof.
  intros Hc Hb. unfold crc_step.
  set (j := Z.to_nat _).
  assert (Ht : fits 32 (nth j crcTable 0)).
  { assert (H : Forall (fits 32) (0 :: crcTable)) by (apply (bool_decide_unpack _); vm_compute; exact I).
    inversion H as [|? ? H0 Hl]; subst. destruct (nth_in_or_default j crcTable 0) as [Hin| ->]; [|done].
    rewrite Forall_forall in Hl. by apply Hl, list_elem_of_In. }
  pose proof (wrap_fits 32 (Z.shiftl c 8) ltac:(lia)) as Hu. fold u32 in Hu.
  revert Hu Ht. generalize (u32 (Z.shiftl c 8)) (nth j crcTable 0). intros x y Hx Hy.
  split; [apply Z.lxor_nonneg; unfold fits in *; lia|].
  apply Z.lt_nge. intros Hge. assert (Hp : 0 < Z.lxor x y) by lia.
  pose proof (Z.log2_le_mono _ _ Hge) as Hl. rewrite Z.log2_pow2 in Hl by lia.
  pose proof (Z.bit_log2 _ Hp) as Hbit. rewrite Z.lxor_spec in Hbit.
  rewrite !(testbit_high 32) in Hbit by (done || lia). done.
Qed.

Lemma fold_left_cons {A B} (f : A → B → A) x l a :
  fold_left f (x :: l) a = fold_left f l (f a x).
Proof. done. Qed.

Lemma crc_fold src : Forall is_byte src → ∀ c, fits 32 c →
  fold_left crc_step src c = fold_left crc_byte src c ∧ fits 32 (fold_left crc_step src c).
Proof.
  induction 1 as [|b src Hb _ IH]; intros c Hc; [done|].
  rewrite !fold_left_cons, <- (crc_step_byte c b Hc Hb). apply IH.
  exact (crc_step_fits c b Hc Hb).
Qed.

Lemma GenCrc32_reference src : Forall is_byte src →
  GenCrc32 src = crc_bitwise src ∧ fits 32 (GenCrc32 src).
Proof. intros H. apply (crc_fold src H). split; [lia|reflexivity]. Qed.

Lemma crc_step_top c : fits 32 c → crc_step c (u8 (Z.shiftr c 24)) = u32 (Z.shiftl c 8).
Proof.
  intros Hc. unfold crc_step. rewrite Z.lxor_nilpotent. simpl nth. apply Z.lxor_0_r.
Qed.

Lemma crc_residue c : fits 32 c → fold_left crc_step (crc_bytes c) c = 0.
Proof.
  intros Hc. unfold crc_bytes. cbn [fold_left]. rewrite crc_step_top by done.
  assert (H : ∀ k x, 0 ≤ k ≤ 24 → x = u32 (Z.shiftl c k) →
    crc_step x (u8 (Z.shiftr c (24 - k))) = u32 (Z.shiftl c (k + 8))).
  { intros k x Hk ->.
    assert (Hx : fits 32 (u32 (Z.shiftl c k))) by (apply wrap_fits; lia).
    assert (Heq : u8 (Z.shiftr c (24 - k)) = u8 (Z.shiftr (u32 (Z.shiftl c k)) 24)).
    { unfold u8, u32, wrap. apply Z.bits_inj'. intros i Hi. destruct (Z.lt_ge_cases i 8).
      - rewrite !Z.mod_pow2_bits_low, !Z.shiftr_spec, Z.mod_pow2_bits_low, Z.shiftl_spec by lia.
        f_equal. lia.
      - by rewrite !Z.mod_pow2_bits_high by lia. }
    rewrite Heq, crc_step_top by done. unfold u32, wrap. apply Z.bits_inj'. intros i Hi.
    destruct (Z.lt_ge_cases i 32); [|by rewrite !Z.mod_pow2_bits_high by lia].
    rewrite !Z.mod_pow2_bits_low by lia. rewrite (Z.shiftl_spec c) by lia.
    destruct (Z.lt_ge_cases i 8) as [Hl|Hl].
    - rewrite Z.shiftl_spec_low, Z.testbit_neg_r by lia. done.
    - rewrite Z.shiftl_spec, Z.mod_pow2_bits_low, Z.shiftl_spec by lia. f_equal. lia. }
  pose proof (H 8 _ ltac:(lia) eq_refl) as H1. pose proof (H 16 _ ltac:(lia) eq_refl) as H2.
  pose proof (H 24 _ ltac:(lia) eq_refl) as H3.
  change (24 - 8) with 16 in H1. change (8 + 8) with 16 in H1. change (24 - 16) with 8 in H2.
  change (16 + 8) with 24 in H2. change (Z.shiftr c (24 - 24)) with c in H3.
  rewrite H1, H2, H3. change (24 + 8) with 32.
  unfold u32, wrap. rewrite Z.shiftl_mul_pow2 by lia. apply Z.mod_mul. lia.
Qed.

(** C35: The table routine computes CRC-32/MPEG-2, and a receiver that runs it over a section
    followed by its checksum gets zero. *)
Theorem GenCrc32_is_crc (src : bytes) : Forall is_byte src →
  GenCrc32 src = crc_bitwise src ∧
  GenCrc32 (src ++ crc_bytes (GenCrc32 src)) = 0.
Proof.
  intros H. destruct (GenCrc32_reference src H) as [Heq Hf]. split; [exact Heq|].
  unfold GenCrc32 at 1. rewrite fold_left_app. fold (GenCrc32 src). by apply crc_residue.
Qed.

Lemma GenCrc32_is_crc_witness :
  GenCrc32 [0x31; 0x32; 0x33] = crc_bitwise [0x31; 0x32; 0x33] ∧
  GenCrc32 ([0x31; 0x32; 0x33] ++ crc_bytes (GenCrc32 [0x31; 0x32; 0x33])) = 0.
Proof.
  apply (GenCrc32_is_crc [0x31; 0x32; 0x33]). repeat constructor; lia.
Defined.

(** ** Program tables *)

(** The counters of the tables run from 0 to 16; 16 is sent as 0. *)
Definition table_counters_ok (m : Muxer) : Prop := 0 ≤ patCc m ≤ 16 ∧ 0 ≤ pmtCc m ≤ 16.

(** The section of a packet on [pid] with counter [cc]. *)
Definition section_on (pid cc : Z) (b : bytes) : option bytes :=
  t ← ts_parse b;
  guard (tp_start t = true ∧ tp_pid t = pid ∧ tp_cc t = cc);;
  psi_section (tp_payload t).

Lemma table_cc_range c : 0 ≤ c ≤ 16 →
  0 ≤ table_cc c < 16 ∧ table_cc c = c mod 16 ∧ u8 (table_cc c + 1) = table_cc c + 1.
Proof.
  intros Hc. assert (0 ≤ table_cc c < 16 ∧ table_cc c = c mod 16).
  { unfold table_cc. destruct (15 <? c) eqn:E; go_bool.
    - by assert (c = 16) as -> by lia.
    - split; [lia|]. by rewrite Z.mod_small by lia. }
  split_and!; try lia. apply u8_small. unfold is_byte. lia.
Qed.

Lemma PAT_eq m : PAT m = (Ok (pat_table (table_cc (patCc m))),
  mkMuxer (videoCc m) (audioCc m) (u8 (table_cc (patCc m) + 1)) (pmtCc m)
    (pat_table (table_cc (patCc m))) (pmt m) (tsPacket m)).
Proof. reflexivity. Qed.

Lemma PMT_eq soundFormat hasVideo m :
  let b := pmt_table (table_cc (pmtCc m)) (sound_type soundFormat) hasVideo in
  PMT soundFormat hasVideo m = (Ok b,
    mkMuxer (videoCc m) (audioCc m) (patCc m) (u8 (table_cc (pmtCc m) + 1)) (pat m) b
      (tsPacket m)).
Proof. reflexivity. Qed.

Lemma pat_table_ok c : 0 ≤ c < 16 → section_on 0 c (pat_table c) = Some patHeader.
Proof.
  intros Hc. assert (H : forallb (λ c, bool_decide (section_on 0 c (pat_table c) = Some patHeader))
    (seqZ 0 16) = true) by (vm_compute; reflexivity).
  apply (forallb_seqZ _ _ _ c) in H; [|lia]. cbv beta in H. by apply bool_decide_eq_true in H.
Qed.

Lemma pmt_table_ok c soundFormat hasVideo : 0 ≤ c < 16 →
  let info := progInfo (sound_type soundFormat) hasVideo in
  section_on 0x1001 c (pmt_table c (sound_type soundFormat) hasVideo)
    = Some (pmtHeader info hasVideo ++ info).
Proof.
  intros Hc. unfold sound_type. destruct (_ || _);
  (assert (H : forallb (λ c, forallb (λ hv, forallb (λ sd,
    let info := progInfo sd hv in
    bool_decide (section_on 0x1001 c (pmt_table c sd hv) = Some (pmtHeader info hv ++ info)))
    [0x4; 0x0f]) [true; false]) (seqZ 0 16) = true) by (vm_compute; reflexivity));
  (apply (forallb_seqZ _ _ _ c) in H; [|lia]); cbn [forallb] in H; go_bool;
  by destruct hasVideo; apply (bool_decide_eq_true_1 _).
Qed.

(** C36: The association table is one packet on PID 0 that names the PID of the map of
    program 1; the map is one packet on that PID that lists the PIDs and types of exactly
    the streams [Mux] writes, with the clock on the video stream if there is one; both
    sections pass the receiver's checksum, and the counters go up by one modulo 16. *)
Theorem program_tables (m : Muxer) (soundFormat : Z) (hasVideo : bool) :
  table_counters_ok m →
  ∃ pat pmt m1 m2 s1 s2 mapPID,
    PAT m = (Ok pat, m1) ∧ PMT soundFormat hasVideo m1 = (Ok pmt, m2) ∧
    section_on 0 (patCc m mod 16) pat = Some s1 ∧ pat_parse s1 = Some (1, mapPID) ∧
    section_on mapPID (pmtCc m mod 16) pmt = Some s2 ∧
    pmt_parse s2 = Some (if hasVideo then videoPID else audioPID,
      (if hasVideo then [(0x1b, videoPID)] else []) ++ [(sound_type soundFormat, audioPID)]) ∧
    table_counters_ok m2 ∧
    patCc m2 mod 16 = (patCc m + 1) mod 16 ∧ pmtCc m2 mod 16 = (pmtCc m + 1) mod 16.
Proof.
  intros [Hp Hm]. destruct (table_cc_range _ Hp) as (Hp1 & Hp2 & Hp3).
  destruct (table_cc_range _ Hm) as (Hm1 & Hm2 & Hm3).
  do 6 eexists. exists 0x1001. split; [apply PAT_eq|]. split; [apply PMT_eq|].
  rewrite <- Hp2, <- Hm2. split; [by apply pat_table_ok|]. split; [reflexivity|].
  split; [by apply pmt_table_ok|]. split.
  { unfold sound_type. destruct (_ || _), hasVideo; reflexivity. }
  unfold table_counters_ok. cbn [patCc pmtCc]. rewrite Hp3, Hm3.
  split; [lia|]. rewrite Hp2, Hm2, !Z.add_mod_idemp_l by lia. done.
Qed.

Lemma program_tables_witness :
  ∃ pat pmt m1 m2 s1 s2 mapPID,
    PAT NewMuxer = (Ok pat, m1) ∧ PMT 10 true m1 = (Ok pmt, m2) ∧
    section_on 0 0 pat = Some s1 ∧ pat_parse s1 = Some (1, mapPID) ∧
    section_on mapPID 0 pmt = Some s2 ∧
    pmt_parse s2 = Some (0x100, [(0x1b, 0x100); (0x0f, 0x101)]).
Proof.
  destruct (program_tables NewMuxer 10 true)
    as (pat & pmt & m1 & m2 & s1 & s2 & mapPID & H1 & H2 & H3 & H4 & H5 & H6 & _).
  { split; simpl; lia. }
  exists pat, pmt, m1, m2, s1, s2, mapPID.
  split_and!; [exact H1|exact H2|exact H3|exact H4|exact H5|exact H6].
Defined.

(** ** The buffer of a packet *)

Lemma ts_put_at pre x old m i v : i = len pre →
  ts_put i v (set_tsPacket (pre ++ x :: old) m) = (Ok tt, set_tsPacket (pre ++ v :: old) m).
Proof.
  intros ->. unfold ts_put, get, mbind at 1, go_bind at 1. cbn [tsPacket set_tsPacket].
  erewrite go_bind_lift.
  2: { apply set_at_ok. unfold len. rewrite length_app. simpl. lia. }
  unfold modify. unfold len. rewrite Nat2Z.id, insert_app_r_alt, Nat.sub_diag by lia. done.
Qed.

Lemma ts_or_at pre x old m i v : i = len pre →
  ts_or i v (set_tsPacket (pre ++ x :: old) m) = (Ok tt, set_tsPacket (pre ++ Z.lor x v :: old) m).
Proof.
  intros ->. unfold ts_or, get, mbind at 1, go_bind at 1. cbn [tsPacket set_tsPacket].
  erewrite go_bind_lift; [by apply ts_put_at|].
  apply index_at_lookup; [unfold len; lia|]. unfold len.
  by rewrite Nat2Z.id, lookup_app_r, Nat.sub_diag by lia.
Qed.

Lemma ts_copy_at pre old src m i : i = len pre → len src ≤ len old →
  ts_copy i src (set_tsPacket (pre ++ old) m)
    = (Ok tt, set_tsPacket (pre ++ src ++ drop (length src) old) m).
Proof.
  intros -> Hl. unfold ts_copy, get, mbind at 1, go_bind at 1. cbn [tsPacket set_tsPacket].
  erewrite go_bind_lift.
  2: { unfold copy_at. rewrite len_app.
    pose proof (len_nonneg pre). pose proof (len_nonneg old).
    rewrite (proj2 (Z.leb_le 0 _)), (proj2 (Z.leb_le (len pre) _)) by lia. cbn [andb].
    unfold len at 1 2. rewrite Nat2Z.id, take_app_length, drop_app_length. reflexivity. }
  unfold modify, copy_bytes. unfold len in Hl. rewrite (take_ge src) by lia. done.
Qed.

(** The packet one pass writes: [n] is the number of bytes it carries. *)
Definition adaptation (r : Z) : bytes :=
  u8 (r - 1) :: (if r =? 1 then [] else 0 :: replicate (Z.to_nat (r - 2)) 0xff).

Definition ts_head (first : bool) (pid cc : Z) (full : bool) : bytes :=
  let b1 := u8 (Z.shiftr pid 8) in
  let b3 := Z.lor 0x10 (Z.land cc 0x0f) in
  [0x47; if first then Z.lor b1 0x40 else b1; u8 pid; if full then b3 else Z.lor b3 0x20].

Definition ts_packet (first : bool) (pid cc : Z) (payload : bytes) : bytes :=
  ts_head first pid cc (184 <=? len payload)
  ++ (if 184 <=? len payload then [] else adaptation (184 - len payload)) ++ payload.

Definition bumped (isVideo : bool) (m : Muxer) : Muxer := (bump_cc isVideo m).2.

Lemma mux_head_spec isVideo first pid dts m b : length b = 188%nat →
  mux_head isVideo first pid dts (set_tsPacket b m)
    = (Ok 4, set_tsPacket (ts_head first pid (cc_of isVideo (bumped isVideo m)) true ++ drop 4 b)
               (bumped isVideo m)).
Proof.
  intros Hb. destruct b as [|x0 [|x1 [|x2 [|x3 old]]]]; try discriminate Hb.
  unfold mux_head. erewrite go_bind_ok.
  2: { instantiate (1 := set_tsPacket ([] ++ x0 :: x1 :: x2 :: x3 :: old) (bumped isVideo m)).
    by destruct isVideo. }
  erewrite go_bind_ok by by apply ts_put_at.
  erewrite go_bind_ok by by apply (ts_put_at [0x47]).
  set (b1 := u8 (Z.shiftr pid 8)). set (b1' := if first then Z.lor b1 0x40 else b1).
  erewrite (go_bind_ok _ _ _ tt (set_tsPacket ([0x47; b1'] ++ x2 :: x3 :: old) (bumped isVideo m))).
  2: { destruct first; [by apply (ts_or_at [0x47])|done]. }
  erewrite go_bind_ok by by apply ts_put_at.
  erewrite go_bind_ok by reflexivity.
  erewrite go_bind_ok by by apply (ts_put_at [0x47; b1'; u8 pid]).
  change (FrameType no_VHeader =? FRAME_KEY) with false. rewrite andb_false_r.
  unfold ts_head. fold b1. fold b1'. by destruct isVideo.
Qed.

Lemma adaptationBufInit_at pre old m i r : i = len pre → len old = 188 - i → 1 ≤ r → r ≤ len old →
  ∃ old', adaptationBufInit i r (set_tsPacket (pre ++ old) m)
    = (Ok tt, set_tsPacket (pre ++ adaptation r ++ old') m) ∧ len old' = len old - r.
Proof.
  intros Hi Ho Hr Hl. destruct old as [|x old]; [unfold len in Hl; simpl in Hl; lia|].
  unfold adaptationBufInit, adaptation. erewrite go_bind_ok by by apply ts_put_at.
  destruct (r =? 1) eqn:E; go_bool.
  { subst r. exists old. split; [done|]. unfold len. simpl length. lia. }
  destruct old as [|y old]; [unfold len in Hl; simpl in Hl; lia|].
  assert (Hlo : len old = 186 - i) by (unfold len in *; simpl length in *; lia).
  set (a := u8 (r - 1)).
  replace (pre ++ a :: y :: old) with ((pre ++ [a]) ++ y :: old) by by rewrite <- app_assoc.
  erewrite go_bind_ok by (apply ts_put_at; rewrite len_app; unfold len; simpl length; unfold len in Hi; lia).
  replace ((pre ++ [a]) ++ 0 :: old) with ((pre ++ [a; 0]) ++ old) by by rewrite <- !app_assoc.
  set (n := Z.to_nat (tsPacketLen - (i + 2))).
  assert (Hn : n = length old) by (unfold n, tsPacketLen, len in *; lia).
  exists (replicate (n - Z.to_nat (r - 2)) 0xff). split.
  - erewrite ts_copy_at.
    2: { rewrite len_app. subst i. done. }
    2: { unfold len. rewrite length_replicate, Hn. lia. }
    rewrite drop_ge by (rewrite length_replicate; lia). do 2 f_equal.
    rewrite app_nil_r, <- app_assoc. simpl app. do 3 f_equal. rewrite <- replicate_add. f_equal.
    unfold len in *. simpl length in Hl. lia.
  - unfold len in *. rewrite length_replicate. simpl length in *. lia.
Qed.

Lemma mux_adapt_spec first pid cc m n old : 0 < n → length old = 184%nat →
  ∃ i old', mux_adapt first n 4 (set_tsPacket (ts_head first pid cc true ++ old) m)
    = (Ok (i, Z.min n 184), set_tsPacket (ts_head first pid cc (184 <=? n)
        ++ (if 184 <=? n then [] else adaptation (184 - n)) ++ old') m) ∧
    i = 188 - Z.min n 184 ∧ len old' = Z.min n 184.
Proof.
  intros Hn Ho. unfold mux_adapt, tsDefaultDataLen. destruct (184 <=? n) eqn:E; go_bool.
  { exists 4, old. rewrite Z.min_r by lia. split; [by destruct first|]. unfold len. lia. }
  rewrite Z.min_l by lia. rewrite (u8_small n) by (unfold is_byte; lia).
  unfold ts_head. cbv zeta.
  set (b1 := if first then Z.lor _ _ else _). set (b3 := Z.lor 0x10 _).
  change ([0x47; b1; u8 pid; b3] ++ old) with ([0x47; b1; u8 pid] ++ b3 :: old).
  erewrite go_bind_ok by by apply ts_or_at.
  replace (if first then u8 (184 - n - (4 - 4)) else u8 (184 - n)) with (184 - n).
  2: { destruct first; rewrite u8_small by (unfold is_byte; lia); lia. }
  change ([0x47; b1; u8 pid] ++ Z.lor b3 0x20 :: old) with ([0x47; b1; u8 pid; Z.lor b3 0x20] ++ old).
  destruct (adaptationBufInit_at [0x47; b1; u8 pid; Z.lor b3 0x20] old m 4 (184 - n))
    as (old' & Heq & Hl); [done|unfold len; lia|lia|unfold len; lia|].
  exists (188 - n), old'. split; [|unfold len in *; lia].
  erewrite go_bind_ok by exact Heq. unfold mret, go_ret.
  rewrite (u8_small (4 + (184 - n))) by (unfold is_byte; lia).
  do 3 f_equal. lia.
Qed.

Lemma mux_data_spec data v i k pre old m : i = len pre → len old = k → i + k = 188 → 0 ≤ k →
  0 ≤ wBytes v → wBytes v + k ≤ len data →
  mux_data data v i k (set_tsPacket (pre ++ old) m)
    = (Ok (mkVars (mv_first v) (wBytes v + k) (pesIndex v) (pesHeaderLen v) (packetBytesLen v - k)),
       set_tsPacket (pre ++ take (Z.to_nat k) (drop (Z.to_nat (wBytes v)) data)) m).
Proof.
  intros Hi Ho Hik Hk Hw Hd. pose proof (len_nonneg pre). unfold mux_data, tsPacketLen.
  destruct (i <? 188) eqn:E; go_bool.
  - rewrite (u8_small (188 - i)) by (unfold is_byte; lia).
    replace (188 - i) with k by lia. rewrite Z.leb_refl.
    erewrite go_bind_lift by (apply slice_ok; lia).
    replace (wBytes v + k - wBytes v) with k by lia.
    set (d := take (Z.to_nat k) _). assert (Hld : len d = k).
    { unfold d, len in *. rewrite length_take, length_drop. lia. }
    erewrite go_bind_ok by (apply ts_copy_at; [done|lia]).
    rewrite (drop_ge old) by (unfold len in *; lia). by rewrite app_nil_r.
  - assert (k = 0) as Hk0 by lia. rewrite Hk0 in *. simpl take.
    assert (old = []) as -> by (destruct old; [done|unfold len in Ho; simpl in Ho; lia]).
    rewrite Z.add_0_r, Z.sub_0_r. by destruct v.
Qed.

Definition pes_of (hdr : bytes) : pesHeader :=
  mkPesHeader (len hdr) (copy_bytes (make_bytes tsPacketLen) hdr).

Lemma mux_pes_first hdr v i n pre old m : mv_first v = true → pesIndex v = 0 →
  pesHeaderLen v = len hdr → 0 < len hdr → len hdr ≤ n → n ≤ 184 → i = len pre → i + n = 188 →
  len old = n →
  mux_pes (pes_of hdr) v i n (set_tsPacket (pre ++ old) m)
    = (Ok (i + len hdr, n - len hdr,
           mkVars true (wBytes v) (len hdr) 0 (packetBytesLen v - len hdr)),
       set_tsPacket ((pre ++ hdr) ++ drop (length hdr) old) m).
Proof.
  intros Hf Hx Hp H0 Hhn Hn Hi Hin Ho. pose proof (len_nonneg pre).
  unfold mux_pes, tsPacketLen. rewrite Hf, Hx, Hp.
  rewrite (proj2 (Z.ltb_lt i 188)), (proj2 (Z.ltb_lt 0 (len hdr))) by lia. cbn [andb].
  rewrite (u8_small (188 - i)) by (unfold is_byte; lia).
  rewrite (proj2 (Z.leb_le (len hdr) (188 - i))) by lia. cbn [pes_data pes_of].
  erewrite go_bind_lift.
  2: { unfold copy_bytes. rewrite take_ge.
    2: { rewrite length_make_bytes. unfold tsPacketLen, len in *. lia. }
    rewrite Z.add_0_l. apply slice_prefix. }
  erewrite go_bind_ok by (apply ts_copy_at; [done|lia]).
  rewrite Z.sub_diag, Z.add_0_l. change (u8 0) with 0.
  rewrite (u8_small (i + len hdr)), (u8_small (n - len hdr)) by (unfold is_byte; lia).
  by rewrite <- app_assoc.
Qed.

Lemma mux_pes_later pes v i n s : mv_first v = false → mux_pes pes v i n s = (Ok (i, n, v), s).
Proof. intros Hf. unfold mux_pes. by rewrite Hf. Qed.

(** [R] is what is left to send. *)
Definition vars_ok (hdr data : bytes) (v : mux_vars) (R : bytes) : Prop :=
  packetBytesLen v = len R ∧
  if mv_first v
  then wBytes v = 0 ∧ pesIndex v = 0 ∧ pesHeaderLen v = len hdr ∧ R = hdr ++ data
  else 0 ≤ wBytes v ≤ len data ∧ R = drop (Z.to_nat (wBytes v)) data.

Lemma len_adaptation r : 1 ≤ r → len (adaptation r) = r.
Proof.
  intros Hr. unfold adaptation, len. destruct (r =? 1) eqn:E; go_bool; [simpl; lia|].
  simpl length. rewrite length_replicate. lia.
Qed.

(** Two counts that agree up to the length of the list. *)
Lemma take_drop_min {A} (l : list A) i j : (i `min` length l = j `min` length l)%nat →
  take i l = take j l ∧ drop i l = drop j l.
Proof.
  intros H. destruct (Nat.le_gt_cases (length l) i), (Nat.le_gt_cases (length l) j).
  - by rewrite !take_ge, !drop_ge by lia.
  - lia.
  - lia.
  - by replace i with j by lia.
Qed.

(** What comes before the payload when [R] is left. *)
Definition ts_prefix (first : bool) (pid cc : Z) (R : bytes) : bytes :=
  ts_head first pid cc (184 <=? len R)
  ++ (if 184 <=? len R then [] else adaptation (184 - len R)).

Lemma len_ts_prefix first pid cc R : 0 < len R →
  len (ts_prefix first pid cc R) = 188 - Z.min (len R) 184.
Proof.
  intros HR. unfold ts_prefix. rewrite len_app. destruct (184 <=? len R) eqn:E; go_bool.
  - change (4 + 0 = 188 - Z.min (len R) 184). lia.
  - rewrite len_adaptation by lia. unfold len at 1. simpl length. lia.
Qed.

Lemma ts_packet_prefix first pid cc R :
  ts_prefix first pid cc R ++ take 184 R = ts_packet first pid cc (take 184 R).
Proof.
  unfold ts_packet, ts_prefix. rewrite <- app_assoc.
  assert (Hl : len (take 184 R) = Z.min (len R) 184) by (unfold len; rewrite length_take; lia).
  rewrite Hl. destruct (184 <=? len R) eqn:E; go_bool.
  - by rewrite (proj2 (Z.leb_le _ _)) by lia.
  - rewrite (proj2 (Z.leb_gt _ _)) by lia. do 3 f_equal. lia.
Qed.

Lemma mux_pass_spec p hdr pid dts v R b m : 0 < len hdr ≤ 184 → 0 < len R → length b = 188%nat →
  vars_ok hdr (pkt_Data p) v R →
  let isVideo := PacketType p =? PacketTypeVideo in
  ∃ v', mux_pass p (pes_of hdr) pid dts v (set_tsPacket b m)
    = (Ok v', set_tsPacket (ts_packet (mv_first v) pid (cc_of isVideo (bumped isVideo m)) (take 184 R))
                (bumped isVideo m)) ∧
    vars_ok hdr (pkt_Data p) v' (drop 184 R) ∧ mv_first v' = false.
Proof.
  intros Hh HR Hb [Hn Hv] isVideo. unfold mux_pass. fold isVideo.
  erewrite go_bind_ok by by apply mux_head_spec. rewrite Hn.
  set (n := Z.min (len R) 184).
  destruct (mux_adapt_spec (mv_first v) pid (cc_of isVideo (bumped isVideo m)) (bumped isVideo m)
    (len R) (drop 4 b)) as (i & old & Heq & Hi & Ho); [done|rewrite length_drop; lia|].
  fold n in Heq, Hi, Ho. erewrite go_bind_ok by exact Heq. clear Heq.
  rewrite app_assoc. fold (ts_prefix (mv_first v) pid (cc_of isVideo (bumped isVideo m)) R).
  pose proof (len_ts_prefix (mv_first v) pid (cc_of isVideo (bumped isVideo m)) R HR) as Hpre.
  rewrite <- ts_packet_prefix. set (pre := ts_prefix _ _ _ _) in *. fold n in Hpre.
  pose proof (len_nonneg hdr). pose proof (len_nonneg (pkt_Data p)).
  pose proof (@take_drop_min Z) as Htake.
  destruct (mv_first v) eqn:Ef.
  - destruct Hv as (Hw & Hx & Hp & HRe).
    assert (Hlr : len R = len hdr + len (pkt_Data p)) by by rewrite HRe, len_app.
    erewrite go_bind_ok by (apply mux_pes_first; lia || done). cbv beta iota.
    erewrite go_bind_ok.
    2: { apply mux_data_spec; cbn [wBytes]; rewrite ?len_app; try lia.
      unfold len in *. rewrite length_drop. lia. }
    cbn [wBytes pesIndex pesHeaderLen packetBytesLen]. eexists (mkVars false _ _ _ _). split; [|split; [split|reflexivity]].
    + unfold mret, go_ret. do 2 f_equal. rewrite <- app_assoc. do 2 f_equal.
      rewrite Hw. change (Z.to_nat 0) with 0%nat.
      rewrite drop_0, HRe, take_app_ge by (unfold n, len in *; lia).
      f_equal. apply Htake; unfold n, len in *; lia.
    + cbn [packetBytesLen]. rewrite Hn. unfold len. rewrite length_drop. unfold n, len in *. lia.
    + cbn [mv_first wBytes]. split; [lia|]. rewrite HRe, drop_app_ge by (unfold n, len in *; lia).
      apply Htake; unfold n, len in *; lia.
  - destruct Hv as [Hw HRe].
    assert (Hlr : len R = len (pkt_Data p) - wBytes v)
      by (rewrite HRe; unfold len in *; rewrite length_drop; lia).
    erewrite go_bind_ok by by apply mux_pes_later. cbv beta iota.
    erewrite go_bind_ok by (apply mux_data_spec; lia || done).
    cbn [wBytes pesIndex pesHeaderLen packetBytesLen]. eexists (mkVars false _ _ _ _). split; [|split; [split|reflexivity]].
    + unfold mret, go_ret. do 3 f_equal. rewrite HRe.
      apply Htake; rewrite length_drop; unfold n, len in *; lia.
    + cbn [packetBytesLen]. rewrite Hn. unfold len. rewrite length_drop. unfold n, len in *. lia.
    + cbn [mv_first wBytes]. split; [lia|]. rewrite HRe, drop_drop.
      apply Htake; unfold n, len in *; lia.
Qed.

(** ** The packets of a PES packet *)

(** The pieces of at most 184 bytes; [fuel] bounds their number. *)
Fixpoint pieces (fuel : nat) (R : bytes) : list bytes :=
  match fuel, R with
  | S fuel, _ :: _ => take 184 R :: pieces fuel (drop 184 R)
  | _, _ => []
  end.

Fixpoint ts_packets (first : bool) (pid cc : Z) (payloads : list bytes) : list bytes :=
  match payloads with
  | [] => []
  | pl :: payloads =>
      ts_packet first pid (next_cc cc) pl :: ts_packets false pid (next_cc cc) payloads
  end.

Lemma pieces_joined fuel : ∀ R, (length R ≤ fuel)%nat → mjoin (pieces fuel R) = R.
Proof.
  induction fuel as [|fuel IH]; intros [|x R] Hf; simpl in Hf; try done; [lia|].
  cbn [pieces]. rewrite mjoin_cons, IH; [apply take_drop|].
  rewrite length_drop. simpl length. lia.
Qed.

Lemma pieces_sizes fuel : ∀ R, Forall (λ pl, 0 < len pl ≤ 184) (pieces fuel R).
Proof.
  induction fuel as [|fuel IH]; intros [|x R]; try done. cbn [pieces]. constructor; [|done].
  unfold len. rewrite length_take. simpl length. lia.
Qed.

Lemma next_cc_mod c : 0 ≤ c < 16 → next_cc c = (c + 1) mod 16.
Proof.
  intros Hc. unfold next_cc. rewrite u8_small by (unfold is_byte; lia).
  destruct (15 <? c + 1) eqn:E; go_bool.
  - by assert (c = 15) as -> by lia.
  - by rewrite Z.mod_small by lia.
Qed.

(** What [Mux] may change: the packet buffer and the counter of the stream. *)
Definition mux_step (isVideo : bool) (m : Muxer) (cc : Z) (m' : Muxer) : Prop :=
  ∃ b, length b = 188%nat ∧
    m' = set_tsPacket b (if isVideo
      then mkMuxer cc (audioCc m) (patCc m) (pmtCc m) (pat m) (pmt m) (tsPacket m)
      else mkMuxer (videoCc m) cc (patCc m) (pmtCc m) (pat m) (pmt m) (tsPacket m)).

Lemma ts_packet_length first pid cc pl : 0 < len pl ≤ 184 →
  length (ts_packet first pid cc pl) = 188%nat.
Proof.
  intros Hl. unfold ts_packet. rewrite !length_app.
  change (length (ts_head first pid cc (184 <=? len pl))) with 4%nat.
  destruct (184 <=? len pl) eqn:E; go_bool; [unfold len in *; simpl; lia|].
  pose proof (len_adaptation (184 - len pl) ltac:(lia)). unfold len in *. lia.
Qed.

Section mux_loop.
Context {W : Type} `{LawfulWriter W}.

Lemma mux_loop_emits p hdr pid dts fuel : 0 < len hdr ≤ 184 →
  ∀ v R b m, (length R < fuel)%nat → vars_ok hdr (pkt_Data p) v R → length b = 188%nat →
  let isVideo := PacketType p =? PacketTypeVideo in
  let payloads := pieces fuel R in
  ∃ m', mux_step isVideo m (Nat.iter (length payloads) next_cc (cc_of isVideo m)) m' ∧
    emits (mux_loop fuel true p (pes_of hdr) pid dts v) (set_tsPacket b m) tt m'
      (mjoin (ts_packets (mv_first v) pid (cc_of isVideo m) payloads)).
Proof.
  intros Hh. induction fuel as [|fuel IH]; intros v R b m Hf Hv Hb isVideo payloads; [lia|].
  pose proof Hv as [Hn _]. cbn [mux_loop]. rewrite Hn. destruct R as [|x R'].
  { exists (set_tsPacket b m). split; [|apply emits_ret].
    exists b. split; [done|]. unfold isVideo. destruct (_ =? _), m; reflexivity. }
  set (R := x :: R') in *. assert (HR : 0 < len R) by (unfold R, len; simpl; lia).
  rewrite (proj2 (Z.leb_gt _ _)) by lia.
  destruct (mux_pass_spec p hdr pid dts v R b m Hh HR Hb Hv) as (v' & Hpass & Hv' & Hf').
  fold isVideo in Hpass. set (m1 := bumped isVideo m) in *.
  assert (Hpl : 0 < len (take 184 R) ≤ 184)
    by (unfold len in *; rewrite length_take; lia).
  set (pk := ts_packet (mv_first v) pid (cc_of isVideo m1) (take 184 R)) in *.
  destruct (IH v' (drop 184 R) pk m1) as (m' & (b' & Hb' & Hm') & Hem);
    [rewrite length_drop; unfold len in HR; lia|done|by apply ts_packet_length|].
  assert (Hcc : cc_of isVideo m1 = next_cc (cc_of isVideo m)) by by destruct isVideo.
  exists m'. split.
  - exists b'. split; [done|]. rewrite Hm'. fold isVideo. rewrite Hcc.
    unfold payloads, R. cbn [pieces length]. rewrite Nat.iter_succ_r. by destruct isVideo, m.
  - eapply emits_bind_on_p; [exact Hpass|]. eapply emits_bind_on_p; [reflexivity|].
    unfold payloads, R. cbn [pieces ts_packets]. rewrite mjoin_cons. fold R.
    cbn [tsPacket set_tsPacket]. rewrite <- Hcc. fold pk. apply emits_bind_write.
    fold isVideo in Hem. rewrite Hf', Hcc in Hem. rewrite Hcc. exact Hem.
Qed.
End mux_loop.

(** ** What the receiver reads back *)

Lemma pid_of_cases p : pid_of p = 0x100 ∨ pid_of p = 0x101.
Proof. unfold pid_of. destruct (_ =? _); auto. Qed.

Lemma ts_parse_packet p first cc pl : 0 ≤ cc < 16 → 0 < len pl ≤ 184 →
  ts_parse (ts_packet first (pid_of p) cc pl) = Some (mkTs first (pid_of p) cc pl).
Proof.
  intros Hcc Hpl. pose proof (ts_packet_length first (pid_of p) cc pl Hpl) as Hl.
  unfold ts_parse. unfold ts_packet in *. unfold ts_head in *. cbv zeta in *. cbn [app] in *.
  set (b3 := Z.lor 0x10 (Z.land cc 0x0f)) in *.
  assert (Hb3 : forallb (λ c, let b := Z.lor 0x10 (Z.land c 0x0f) in
    (Z.land (Z.shiftr b 4) 3 =? 1) && (Z.land b 0xf =? c) &&
    (Z.land (Z.shiftr (Z.lor b 0x20) 4) 3 =? 3) && (Z.land (Z.lor b 0x20) 0xf =? c))
    (seqZ 0 16) = true) by (vm_compute; reflexivity).
  apply (forallb_seqZ _ _ _ cc) in Hb3; [|lia]. cbv beta zeta in Hb3. fold b3 in Hb3.
  go_bool. destruct (184 <=? len pl) eqn:E; go_bool.
  - rewrite option_guard_True by (split; [unfold len at 1; lia|done]).
    rewrite H, Z.eqb_refl, H2. cbn [mbind option_bind app]. do 2 f_equal.
    + by destruct (pid_of_cases p) as [-> | ->], first.
    + by destruct (pid_of_cases p) as [-> | ->], first.
  - rewrite option_guard_True by (split; [unfold len at 1; lia|done]).
    rewrite H1. change (3 =? 1) with false. rewrite Z.eqb_refl, H0.
    assert (Hr : adaptation (184 - len pl) !! 0%nat = Some (183 - len pl)).
    { unfold adaptation. simpl. rewrite u8_small by (unfold is_byte; lia). f_equal. lia. }
    pose proof (len_adaptation (184 - len pl) ltac:(lia)) as Hal.
    rewrite lookup_app_l by (unfold len in *; lia). rewrite Hr. cbn [mbind option_bind].
    rewrite option_guard_True by (rewrite len_app; lia). cbn [mbind option_bind].
    replace (183 - len pl + 1) with (len (adaptation (184 - len pl))) by lia.
    unfold len at 1. rewrite Nat2Z.id, drop_app_length. do 2 f_equal.
    + by destruct (pid_of_cases p) as [-> | ->], first.
    + by destruct (pid_of_cases p) as [-> | ->], first.
Qed.

(** A time stamp of 33 bits in five bytes with their prefix and marker bits (2.4.3.6). *)
Definition stamp_parse (prefix : Z) (b : bytes) : option Z :=
  match b with
  | [b0; b1; b2; b3; b4] =>
      guard (b0 / 16 = prefix ∧ b0 mod 2 = 1 ∧ b2 mod 2 = 1 ∧ b4 mod 2 = 1);;
      Some (b0 / 2 mod 8 * 2 ^ 30 + (b1 * 256 + b2) / 2 * 2 ^ 15 + (b3 * 256 + b4) / 2)
  | _ => None
  end.

Record Pes := mkPes { pes_stream : Z; pes_pts : Z; pes_dts : option Z; pes_payload : bytes }.

Definition pes_parse (b : bytes) : option Pes :=
  match b with
  | 0 :: 0 :: 1 :: sid :: l1 :: l2 :: _ :: flags :: n :: rest =>
      guard (l1 * 256 + l2 = 0 ∨ l1 * 256 + l2 = len rest + 3);;
      guard (n ≤ len rest);;
      let payload := drop (Z.to_nat n) rest in
      if Z.land flags 0xc0 =? 0x80 then
        pts ← stamp_parse 2 (take 5 rest);
        Some (mkPes sid pts None payload)
      else if Z.land flags 0xc0 =? 0xc0 then
        pts ← stamp_parse 3 (take 5 rest);
        dts ← stamp_parse 1 (take 5 (drop 5 rest));
        Some (mkPes sid pts (Some dts) payload)
      else None
  | _ => None
  end.

(** The 33 bits kept of a time.  Beyond them the code takes off 2^33 - 1, not 2^33. *)
Definition clock33 (ts : Z) : Z :=
  (if 0x1ffffffff <? ts then ts - 0x1ffffffff else ts) mod 2 ^ 33.

Lemma lor_1 x : Z.lor (Z.shiftl x 1) 1 = 2 * x + 1.
Proof. rewrite (lor_shiftl_low 1) by (unfold fits; lia). lia. Qed.

Lemma land_ones_mod x n m : 0 ≤ n → m = Z.ones n → Z.land x m = x mod 2 ^ n.
Proof. intros Hn ->. by apply Z.land_ones. Qed.

Lemma split33 z : (z / 2 ^ 30) mod 8 * 2 ^ 30 + (z / 2 ^ 15) mod 2 ^ 15 * 2 ^ 15 + z mod 2 ^ 15
  = z mod 2 ^ 33.
Proof.
  replace (z / 2 ^ 30) with (z / 2 ^ 15 / 2 ^ 15) by (rewrite Z.div_div by lia; done).
  assert (z mod 2 ^ 33 = z mod (2 ^ 15 * (2 ^ 15 * 8))) as -> by done.
  rewrite Z.rem_mul_r by lia. rewrite Z.rem_mul_r by lia. lia.
Qed.

Lemma stamp_writeTs fb ts : 0 ≤ fb < 16 → stamp_parse fb (writeTs fb ts) = Some (clock33 ts).
Proof.
  intros Hfb. unfold writeTs, clock33. set (z := if _ <? ts then _ else _). clearbody z.
  assert (Hx1 : Z.land (u32 (Z.shiftr z 30)) 7 = (z / 2 ^ 30) mod 8).
  { rewrite (land_ones_mod _ 3) by done. rewrite Z.shiftr_div_pow2 by lia. unfold u32, wrap.
    change (2 ^ 32) with (2 ^ 3 * 2 ^ 29). rewrite Z.rem_mul_r by lia. go_arith. }
  assert (Hx2 : Z.land (u32 (Z.shiftr z 15)) 0x7fff = (z / 2 ^ 15) mod 2 ^ 15).
  { rewrite (land_ones_mod _ 15) by done. rewrite Z.shiftr_div_pow2 by lia. unfold u32, wrap.
    change (2 ^ 32) with (2 ^ 15 * 2 ^ 17). rewrite Z.rem_mul_r by lia. go_arith. }
  assert (Hx3 : Z.land z 0x7fff = z mod 2 ^ 15) by by apply (land_ones_mod _ 15).
  rewrite Hx1, Hx2, Hx3, <- split33.
  pose proof (Z.mod_pos_bound (z / 2 ^ 30) 8 ltac:(lia)) as H1.
  pose proof (Z.mod_pos_bound (z / 2 ^ 15) (2 ^ 15) ltac:(lia)) as H2.
  pose proof (Z.mod_pos_bound z (2 ^ 15) ltac:(lia)) as H3.
  set (x1 := _ mod 8) in *. set (x2 := (z / 2 ^ 15) mod _) in *. set (x3 := z mod _) in *.
  clearbody x1 x2 x3. cbv zeta.
  rewrite (u32_small (Z.shiftl x1 1)), (u32_small (Z.shiftl x2 1)), (u32_small x3),
    (u32_small (Z.shiftl x3 1)), (u32_small (Z.shiftl fb 4))
    by (unfold fits; rewrite ?Z.shiftl_mul_pow2; lia).
  rewrite <- Z.lor_assoc, !lor_1, (lor_shiftl_low 4) by (unfold fits; lia).
  unfold stamp_parse. rewrite !u8_shiftr by lia.
  rewrite (u8_small (fb * 2 ^ 4 + _)) by (unfold is_byte; lia).
  rewrite option_guard_True by (unfold u8, wrap; split_and!; Z.div_mod_to_equations; lia).
  cbn [mbind option_bind]. do 2 f_equal; [|go_arith].
  f_equal; [|go_arith]. f_equal. go_arith.
Qed.

Definition sid_of (p : Packet) : Z :=
  if PacketType p =? PacketTypeVideo then videoSID else audioSID.

(** What is in the PES packet of [p]. *)
Definition pes_expected (p : Packet) : Pes :=
  mkPes (sid_of p) (clock33 (pts_of p))
    (if (PacketType p =? PacketTypeVideo) && negb (pts_of p =? dts_of p)
     then Some (clock33 (dts_of p)) else None)
    (pkt_Data p).

Lemma pes_size_ok n k : 0 ≤ n → n = k → let s := if 0xffff <? n then 0 else n in
  u8 (Z.shiftr s 8) * 256 + u8 s = 0 ∨ u8 (Z.shiftr s 8) * 256 + u8 s = k.
Proof.
  intros Hn <-. cbv zeta. destruct (65535 <? n) eqn:E; go_bool; [by left|right].
  rewrite u8_shiftr by lia. go_arith.
Qed.

Lemma pes_parse_stamps sid flag w data : (5 ≤ length w)%nat →
  let size := len data + len w + 3 in
  let s := if 0xffff <? size then 0 else size in
  pes_parse ([0; 0; 1; sid; u8 (Z.shiftr s 8); u8 s; 0x80; flag; len w] ++ w ++ data)
  = if Z.land flag 0xc0 =? 0x80 then
      pts ← stamp_parse 2 (take 5 w); Some (mkPes sid pts None data)
    else if Z.land flag 0xc0 =? 0xc0 then
      pts ← stamp_parse 3 (take 5 w);
      dts ← stamp_parse 1 (take 5 (drop 5 w ++ data)); Some (mkPes sid pts (Some dts) data)
    else None.
Proof.
  intros Hw size s. pose proof (len_nonneg data). pose proof (len_nonneg w).
  unfold pes_parse. cbn [app].
  rewrite option_guard_True by (apply pes_size_ok; rewrite ?len_app; unfold size; lia).
  rewrite option_guard_True by (rewrite len_app; lia). cbn [mbind option_bind].
  assert (Hn : Z.to_nat (len w) = length w) by (unfold len; lia).
  rewrite Hn, drop_app_length, take_app_le, drop_app_le by lia.
  done.
Qed.

Lemma pes_parse_packet p :
  pes_parse (pes_packet p (pts_of p) (dts_of p) ++ pkt_Data p) = Some (pes_expected p).
Proof.
  unfold pes_packet, pes_expected, sid_of. cbv zeta.
  destruct ((PacketType p =? PacketTypeVideo) && negb (pts_of p =? dts_of p)).
  - set (w := writeTs _ (pts_of p) ++ writeTs 1 (dts_of p)).
    rewrite <- app_assoc. change 10 with (len w). rewrite pes_parse_stamps by (simpl; lia).
    change (take 5 w) with (writeTs 3 (pts_of p)).
    change (take 5 (drop 5 w ++ pkt_Data p)) with (writeTs 1 (dts_of p)).
    rewrite !stamp_writeTs by lia. done.
  - rewrite app_nil_r. set (w := writeTs _ (pts_of p)).
    rewrite <- app_assoc. change 5 with (len w). rewrite pes_parse_stamps by (simpl; lia).
    change (take 5 w) with (writeTs 2 (pts_of p)). rewrite !stamp_writeTs by lia. done.
Qed.

Lemma len_pes_packet p pts dts : len (pes_packet p pts dts) = 14 ∨ len (pes_packet p pts dts) = 19.
Proof. unfold pes_packet. cbv zeta. destruct (_ && _); [by right|by left]. Qed.

Lemma ts_parse_all p pls : ∀ first cc, 0 ≤ cc < 16 → Forall (λ pl, 0 < len pl ≤ 184) pls →
  Forall (λ b, len b = 188) (ts_packets first (pid_of p) cc pls) ∧
  mapM ts_parse (ts_packets first (pid_of p) cc pls)
    = Some (imap (λ k pl, mkTs (first && bool_decide (k = 0%nat)) (pid_of p)
                            ((cc + 1 + Z.of_nat k) mod 16) pl) pls).
Proof.
  induction pls as [|pl pls IH]; intros first cc Hcc Hpl; [done|].
  inversion Hpl as [|? ? H1 H2]; subst. cbn [ts_packets mapM].
  assert (Hn : next_cc cc = (cc + 1) mod 16) by by apply next_cc_mod.
  assert (Hr : 0 ≤ next_cc cc < 16) by (rewrite Hn; apply Z.mod_pos_bound; lia).
  destruct (IH false (next_cc cc) Hr H2) as [IH1 IH2]. split.
  - constructor; [|exact IH1]. unfold len. by rewrite ts_packet_length.
  - rewrite ts_parse_packet by done. cbn [mbind option_bind]. rewrite IH2.
    cbn [mbind option_bind imap]. rewrite Hn, Z.add_0_r, andb_true_r. do 2 f_equal.
    apply imap_ext. intros k x _. simpl. rewrite andb_false_r. f_equal.
    rewrite <- (Z.add_assoc (_ mod 16)), Z.add_mod_idemp_l by lia. f_equal. lia.
Qed.

Lemma iter_next_cc n c : 0 ≤ c < 16 → Nat.iter n next_cc c = (c + Z.of_nat n) mod 16.
Proof.
  intros Hc. induction n as [|n IH]; [rewrite Z.add_0_r; by rewrite Z.mod_small|].
  rewrite Nat.iter_succ, IH. rewrite next_cc_mod by (apply Z.mod_pos_bound; lia).
  rewrite Z.add_mod_idemp_l by lia. f_equal. lia.
Qed.

Lemma length_ts_packets first pid cc pls : length (ts_packets first pid cc pls) = length pls.
Proof. revert first cc. induction pls as [|pl pls IH]; intros; simpl; [done|]. by rewrite IH. Qed.

Definition mux_ok (m : Muxer) : Prop :=
  0 ≤ videoCc m < 16 ∧ 0 ≤ audioCc m < 16 ∧ length (tsPacket m) = 188%nat.

Lemma mux_step_ok isVideo m n m' : mux_ok m → mux_step isVideo m (n mod 16) m' → mux_ok m'.
Proof.
  intros (Hv & Ha & _) (b & Hb & ->). pose proof (Z.mod_pos_bound n 16 ltac:(lia)).
  unfold mux_ok. by destruct isVideo.
Qed.

(** C21: [Mux] ends without a panic for every packet.  What it writes is a sequence of
    transport-stream packets of 188 bytes on the PID of the stream, the first one marked as
    a start, with counters that continue modulo 16; their payloads, put together, are one
    PES packet that carries the stream's number, the times of the packet in 90 kHz ticks
    and its data. *)
Theorem mux_demux (W : Type) `{LawfulWriter W} (p : Packet) (m : Muxer) (w : W) :
  mux_ok m → wr_ok w →
  let isVideo := PacketType p =? PacketTypeVideo in
  ∃ m' w' pkts payloads,
    Mux true p (m, w) = (Ok tt, (m', w')) ∧ wr_ok w' ∧
    wr_stream w' = wr_stream w ++ mjoin pkts ∧
    Forall (λ b, len b = 188) pkts ∧
    mapM ts_parse pkts = Some (imap (λ k pl, mkTs (bool_decide (k = 0%nat)) (pid_of p)
      ((cc_of isVideo m + 1 + Z.of_nat k) mod 16) pl) payloads) ∧
    pes_parse (mjoin payloads) = Some (pes_expected p) ∧
    mux_step isVideo m ((cc_of isVideo m + Z.of_nat (length pkts)) mod 16) m' ∧ mux_ok m'.
Proof.
  intros Hm Hw isVideo. pose proof Hm as (Hv & Ha & Hb).
  set (hdr := pes_packet p (pts_of p) (dts_of p)). set (R := hdr ++ pkt_Data p).
  pose proof (len_pes_packet p (pts_of p) (dts_of p)) as Hh. fold hdr in Hh.
  assert (Hcc : 0 ≤ cc_of isVideo m < 16) by by destruct isVideo.
  assert (Hpes : pes_header p (pts_of p) (dts_of p) = pes_of hdr).
  { unfold pes_header, pes_of. fold hdr. rewrite u8_small by (unfold is_byte; lia). done. }
  set (fuel := (length (pkt_Data p) + Z.to_nat (len hdr) + 1)%nat).
  assert (Hf : (length R < fuel)%nat)
    by (unfold fuel, R, len; rewrite length_app; lia).
  destruct (mux_loop_emits (W := W) p hdr (pid_of p) (dts_of p) fuel ltac:(lia)
    (mkVars true 0 0 (len hdr) (len (pkt_Data p) + len hdr)) R (tsPacket m) m Hf)
    as (m' & Hstep & Hem).
  { split; [unfold R; rewrite len_app; simpl; lia|done]. }
  { done. }
  destruct (Hem w Hw) as (w' & Heq & Hw' & Hs).
  set (payloads := pieces fuel R) in *.
  destruct (ts_parse_all p payloads true (cc_of isVideo m) Hcc (pieces_sizes fuel R))
    as [Hlen Hparse].
  exists m', w', (ts_packets true (pid_of p) (cc_of isVideo m) payloads), payloads.
  split.
  { unfold Mux. rewrite Hpes. cbn [pes_len pes_of]. fold fuel.
    replace (set_tsPacket (tsPacket m) m) with m in Heq by by destruct m. exact Heq. }
  split; [exact Hw'|]. split; [exact Hs|]. split; [exact Hlen|]. split; [exact Hparse|].
  split.
  { unfold payloads. rewrite pieces_joined by lia. apply pes_parse_packet. }
  rewrite iter_next_cc in Hstep by exact Hcc. rewrite length_ts_packets.
  split; [exact Hstep|]. by eapply mux_step_ok.
Qed.

Lemma mux_demux_witness :
  ∃ m' w' pkts payloads,
    Mux (W := bytes) true (mkPacket PacketTypeVideo 40 0 (mkVHeader 1 1 7 80) no_AHeader (make_bytes 300))
      (NewMuxer, []) = (Ok tt, (m', w')) ∧
    w' = mjoin pkts ∧
    mapM ts_parse pkts = Some (imap (λ k pl, mkTs (bool_decide (k = 0%nat)) 0x100
      ((0 + 1 + Z.of_nat k) mod 16) pl) payloads) ∧
    pes_parse (mjoin payloads) = Some (mkPes 0xe0 10800 (Some 3600) (make_bytes 300)).
Proof.
  destruct (mux_demux bytes
    (mkPacket PacketTypeVideo 40 0 (mkVHeader 1 1 7 80) no_AHeader (make_bytes 300)) NewMuxer [])
    as (m' & w' & pkts & payloads & H1 & _ & H2 & _ & H3 & H4 & _).
  { split_and!; [simpl; lia|simpl; lia|simpl; lia|simpl; lia|reflexivity]. }
  { exact I. }
  exists m', w', pkts, payloads. split; [exact H1|]. split; [exact H2|]. split; [exact H3|exact H4].
Defined.

(** Beyond 33 bits the time is one tick late: 2^33 + 5 should wrap around to 5. *)
Example clock_off_by_one : clock33 (2 ^ 33 + 5) = 6.
Proof. reflexivity. Qed.

(** The first packet of a key frame has no clock: its adaptation field, if any, is stuffing
    ([videoH] is never filled in). *)
Example key_frame_without_clock :
  let p := mkPacket PacketTypeVideo 0 0 (mkVHeader FRAME_KEY AVC_NALU VIDEO_H264 0) no_AHeader [1] in
  take 6 (Mux (W := bytes) true p (NewMuxer, [])).2.2 = [0x47; 0x41; 0; 0x31; 168; 0].
Proof. vm_compute. reflexivity. Qed.
