(* ===== verification/Amf.v ===== *)
(** * AMF values (src/protocol/amf/const.go, amf.go, util.go)

    The dynamic values of commands and metadata, the constants of the two formats, and the
    helpers that read and write bytes.  A [float64] is kept as its 64 bits. *)
From stdpp Require Import sorting.
From S2P Require Import Prelude GoIO.

#[local] Set Warnings "-register-all".

(** ** Values *)

(** [interface{}] as the program fills it.  [wide] tells [int64] and [uint64] from the
    shorter types.  A map is the list of its entries, without a key twice, in the order an
    iteration takes them.  [VOther] is a value of any other type ([true] for a map that is
    not an [Object]). *)
Inductive value : Type :=
  | VNil
  | VBool (b : bool)
  | VInt (wide : bool) (z : Z)
  | VUint (wide : bool) (z : Z)
  | VFloat (bits : Z)
  | VString (s : bytes)
  | VArray (l : list value)
  | VObject (o : list (bytes * value))
  | VTyped (ty : bytes) (o : list (bytes * value))
  | VBytes (b : bytes)
  | VDate (unix : Z)
  | VOther (is_map : bool).

Abbreviation object := (list (bytes * value)).

(** Induction with the hypothesis for the elements of arrays and objects. *)
Section value_ind.
Variable P : value → Prop.
Hypothesis Hnil : P VNil.
Hypothesis Hbool : ∀ b, P (VBool b).
Hypothesis Hint : ∀ wide z, P (VInt wide z).
Hypothesis Huint : ∀ wide z, P (VUint wide z).
Hypothesis Hfloat : ∀ bits, P (VFloat bits).
Hypothesis Hstring : ∀ s, P (VString s).
Hypothesis Harray : ∀ l, Forall P l → P (VArray l).
Hypothesis Hobject : ∀ o : object, Forall (λ kv, P kv.2) o → P (VObject o).
Hypothesis Htyped : ∀ ty (o : object), Forall (λ kv, P kv.2) o → P (VTyped ty o).
Hypothesis Hbytes : ∀ b, P (VBytes b).
Hypothesis Hdate : ∀ unix, P (VDate unix).
Hypothesis Hother : ∀ is_map, P (VOther is_map).

Fixpoint value_nested_ind (v : value) : P v :=
  let entries := fix entries (o : object) : Forall (λ kv, P kv.2) o :=
    match o with
    | [] => List.Forall_nil _
    | kv :: o => List.Forall_cons _ _ _ (value_nested_ind kv.2) (entries o)
    end in
  match v with
  | VNil => Hnil
  | VBool b => Hbool b
  | VInt w z => Hint w z
  | VUint w z => Huint w z
  | VFloat b => Hfloat b
  | VString s => Hstring s
  | VArray l => Harray l
      ((fix elements (l : list value) : Forall P l :=
          match l with
          | [] => List.Forall_nil _
          | x :: l => List.Forall_cons _ _ _ (value_nested_ind x) (elements l)
          end) l)
  | VObject o => Hobject o (entries o)
  | VTyped ty o => Htyped ty o (entries o)
  | VBytes b => Hbytes b
  | VDate u => Hdate u
  | VOther m => Hother m
  end.
End value_ind.

(** [obj[key]] and [obj[key] = v]. *)
Fixpoint assoc {A} (key : bytes) (o : list (bytes * A)) : option A :=
  match o with
  | [] => None
  | (k, v) :: o => if decide (k = key) then Some v else assoc key o
  end.

Fixpoint obj_set (key : bytes) (v : value) (o : object) : object :=
  match o with
  | [] => [(key, v)]
  | (k, x) :: o => if decide (k = key) then (k, v) :: o else (k, x) :: obj_set key v o
  end.

Lemma assoc_map {A B} (f : A → B) key (o : list (bytes * A)) :
  assoc key (map (λ '(k, v), (k, f v)) o) = f <$> assoc key o.
Proof. induction o as [|[k v] o IH]; [done|]. simpl. by case_decide. Qed.

Lemma keys_map {A B} (f : A → B) (o : list (bytes * A)) :
  (map (λ '(k, v), (k, f v)) o).*1 = o.*1.
Proof. induction o as [|[k v] o IH]; [done|]. simpl. by f_equal. Qed.

Lemma assoc_elem {A} key (o : list (bytes * A)) : key ∈ o.*1 → ∃ v, assoc key o = Some v ∧ (key, v) ∈ o.
Proof.
  induction o as [|[k v] o IH]; [by intros ?%elem_of_nil|]. simpl. intros Hk.
  case_decide as Hd; [subst; exists v; split; [done|by left]|].
  apply elem_of_cons in Hk as [->|Hk]; [done|].
  destruct (IH Hk) as (x & Hx & Hin). exists x. split; [done|by right].
Qed.

Lemma obj_set_new key v o : key ∉ o.*1 → obj_set key v o = o ++ [(key, v)].
Proof.
  induction o as [|[k x] o IH]; [done|]. simpl. intros Hk.
  apply not_elem_of_cons in Hk as [Hne Hk]. rewrite decide_False by done. by rewrite IH.
Qed.

(** ** Constants *)

Definition AMF0 : Z := 0.
Definition AMF3 : Z := 3.

Definition AMF0_NUMBER_MARKER : Z := 0x00.
Definition AMF0_BOOLEAN_MARKER : Z := 0x01.
Definition AMF0_STRING_MARKER : Z := 0x02.
Definition AMF0_OBJECT_MARKER : Z := 0x03.
Definition AMF0_MOVIECLIP_MARKER : Z := 0x04.
Definition AMF0_NULL_MARKER : Z := 0x05.
Definition AMF0_UNDEFINED_MARKER : Z := 0x06.
Definition AMF0_REFERENCE_MARKER : Z := 0x07.
Definition AMF0_ECMA_ARRAY_MARKER : Z := 0x08.
Definition AMF0_OBJECT_END_MARKER : Z := 0x09.
Definition AMF0_STRICT_ARRAY_MARKER : Z := 0x0a.
Definition AMF0_DATE_MARKER : Z := 0x0b.
Definition AMF0_LONG_STRING_MARKER : Z := 0x0c.
Definition AMF0_UNSUPPORTED_MARKER : Z := 0x0d.
Definition AMF0_RECORDSET_MARKER : Z := 0x0e.
Definition AMF0_XML_DOCUMENT_MARKER : Z := 0x0f.
Definition AMF0_TYPED_OBJECT_MARKER : Z := 0x10.
Definition AMF0_ACMPLUS_OBJECT_MARKER : Z := 0x11.

Definition AMF0_BOOLEAN_FALSE : Z := 0x00.
Definition AMF0_BOOLEAN_TRUE : Z := 0x01.
Definition AMF0_STRING_MAX : Z := 65535.
Definition AMF3_INTEGER_MAX : Z := 536870911.

Definition AMF3_UNDEFINED_MARKER : Z := 0x00.
Definition AMF3_NULL_MARKER : Z := 0x01.
Definition AMF3_FALSE_MARKER : Z := 0x02.
Definition AMF3_TRUE_MARKER : Z := 0x03.
Definition AMF3_INTEGER_MARKER : Z := 0x04.
Definition AMF3_DOUBLE_MARKER : Z := 0x05.
Definition AMF3_STRING_MARKER : Z := 0x06.
Definition AMF3_XMLDOC_MARKER : Z := 0x07.
Definition AMF3_DATE_MARKER : Z := 0x08.
Definition AMF3_ARRAY_MARKER : Z := 0x09.
Definition AMF3_OBJECT_MARKER : Z := 0x0a.
Definition AMF3_XMLSTRING_MARKER : Z := 0x0b.
Definition AMF3_BYTEARRAY_MARKER : Z := 0x0c.

Record Trait := mkTrait {
  trait_Type : bytes; Externalizable : bool; Dynamic : bool; Properties : list bytes;
}.

Definition NewTrait : Trait := mkTrait [] false false [].

(** [refCache] is only appended to: its length stands for it. *)
Record Decoder := mkDecoder {
  refCache : Z; stringRefs : list bytes; objectRefs : list value; traitRefs : list Trait;
}.

Definition NewDecoder : Decoder := mkDecoder 0 [] [] [].

(** A decoder and the [bytes.Reader] it reads from. *)
Abbreviation dec_state := (Decoder * bytes)%type.

(** [externalHandlers]: what the user of the package registered. *)
Abbreviation ext_handlers := (bytes → option (go (Decoder * bytes) value)).

(** [map] lookups in a decoder without registered handlers. *)
Definition no_handlers : ext_handlers := λ _, None.

(** [d.externalHandlers[name] = f] *)
Definition RegisterExternalHandler (h : ext_handlers) (name : bytes)
    (f : go (Decoder * bytes) value) : ext_handlers :=
  λ ty, if decide (ty = name) then Some f else h ty.

(** ** Numbers *)

(** [z] rounded to 53 significant bits, ties to even: the integer [float64(z)] stands for. *)
Definition round53 (z : Z) : Z :=
  let a := Z.abs z in
  let s := Z.log2 a - 52 in
  if s <=? 0 then z
  else
    let q := Z.shiftr a s in
    let r := a mod 2 ^ s in
    let half := 2 ^ (s - 1) in
    let q := if (half <? r) || ((r =? half) && Z.odd q) then q + 1 else q in
    Z.sgn z * Z.shiftl q s.

(** The bits of an integer of at most 53 significant bits. *)
Definition float64_bits (z : Z) : Z :=
  if z =? 0 then 0
  else
    let a := Z.abs z in
    let e := Z.log2 a in
    let frac := if e <=? 52 then Z.shiftl a (52 - e) else Z.shiftr a (e - 52) in
    (if z <? 0 then 2 ^ 63 else 0) + (e + 1023) * 2 ^ 52 + (frac - 2 ^ 52).

(** [float64(z)] *)
Definition float64_of_int (z : Z) : Z := u64 (float64_bits (round53 z)).

(** The quotient of two positive numbers rounded to 53 bits, as [m * 2 ^ e]. *)
Definition round_quotient (num den : Z) : Z * Z :=
  let e := Z.log2 num - Z.log2 den - 53 in
  let scaled_num := if e <? 0 then num * 2 ^ (- e) else num in
  let scaled_den := if e <? 0 then den else den * 2 ^ e in
  let q := scaled_num / scaled_den in
  (** [q] has 53 or 54 bits *)
  let s := Z.log2 q - 52 in
  let unit := scaled_den * 2 ^ s in
  let m := scaled_num / unit in
  let r := scaled_num mod unit in
  let m := if (unit <? 2 * r) || ((2 * r =? unit) && Z.odd m) then m + 1 else m in
  (m, e + s).

(** [int64(f / 1000)]; a result that does not fit is the least [int64], as on amd64. *)
Definition date_secs (bits : Z) : Z :=
  let ex := Z.land (Z.shiftr bits 52) 0x7ff in
  let frac := bits mod 2 ^ 52 in
  let m := if ex =? 0 then frac else frac + 2 ^ 52 in
  let e := (if ex =? 0 then 1 else ex) - 1075 in
  if ex =? 0x7ff then - 2 ^ 63
  else if m =? 0 then 0
  else
    let '(q, k) := round_quotient (m * 2 ^ (Z.max e 0)) (1000 * 2 ^ (Z.max (- e) 0)) in
    let a := if 0 <=? k then q * 2 ^ k else q / 2 ^ (- k) in
    let z := if Z.testbit bits 63 then - a else a in
    if (- 2 ^ 63 <=? z) && (z <? 2 ^ 63) then z else - 2 ^ 63.

(** [int(f)] on amd64: truncation, and the least [int64] for what does not fit. *)
Definition int_of_float64 (bits : Z) : Z :=
  let ex := Z.land (Z.shiftr bits 52) 0x7ff in
  let frac := bits mod 2 ^ 52 in
  let m := if ex =? 0 then frac else frac + 2 ^ 52 in
  let e := (if ex =? 0 then 1 else ex) - 1075 in
  let a := if 0 <=? e then m * 2 ^ e else m / 2 ^ (- e) in
  let z := if Z.testbit bits 63 then - a else a in
  if (ex =? 0x7ff) || negb ((- 2 ^ 63 <=? z) && (z <? 2 ^ 63)) then - 2 ^ 63 else z.

Example int_of_three : int_of_float64 (float64_of_int 3) = 3 ∧ int_of_float64 0xc00e000000000000 = -3.
Proof. split; reflexivity. Qed.

Example float64_of_one : float64_of_int 1 = 0x3ff0000000000000.
Proof. reflexivity. Qed.

Example float64_of_minus_five : float64_of_int (-5) = 0xc014000000000000.
Proof. reflexivity. Qed.

Example float64_rounds_to_even : float64_of_int (2 ^ 53 + 1) = float64_of_int (2 ^ 53).
Proof. vm_compute. reflexivity. Qed.

Example date_of_millis : date_secs (float64_of_int 1500000999) = 1500000.
Proof. vm_compute. reflexivity. Qed.

(** ** Writing *)

Section amf_write.
Context {W : Type} `{IoWriter W}.

Definition WriteBytes (b : bytes) : go W Z := io_Write b.

Definition WriteByte (b : Z) : go W unit := _ ← WriteBytes [b]; mret tt.

Definition WriteMarker (m : Z) : go W unit := WriteByte m.

(** The lines every encoder starts with: the number of bytes written. *)
Definition encode_marker (encodeMarker : bool) (m : Z) : go W Z :=
  if encodeMarker then _ ← WriteMarker m; mret 1 else mret 0.

(** [binary.Write(w, binary.BigEndian, x)] for an [x] of [n] bytes: one write. *)
Definition binary_Write_BE (n : nat) (x : Z) : go W unit := _ ← io_Write (be_split n x); mret tt.
End amf_write.

(** ** Reading *)

Definition ReadBytes (n : Z) : go bytes bytes :=
  p ← Reader_Read n;
  if len p =? n then mret p else fail (Errorf "decode read bytes failed: expected %d got %d").

Definition ReadByte : go bytes Z :=
  p ← ReadBytes 1;
  lift (index_at p 0).

Definition ReadMarker : go bytes Z := ReadByte.

Definition AssertMarker (checkMarker : bool) (m : Z) : go bytes unit :=
  if negb checkMarker then mret tt
  else
    marker ← ReadMarker;
    if negb (marker =? m) then fail (Errorf "decode assert marker failed: expected %v got %v")
    else mret tt.

(** ** Reasoning about writers *)

Section outputs.
Context {W : Type} `{LawfulWriter W}.

(** [m] returns [a] and writes [out] to a writer that works. *)
Definition outputs {A} (m : go W A) (a : A) (out : bytes) : Prop :=
  ∀ w, wr_ok w → ∃ w', m w = (Ok a, w') ∧ wr_ok w' ∧ wr_stream w' = wr_stream w ++ out.

Lemma outputs_ret {A} (a : A) : outputs (mret a) a [].
Proof. intros w Hw. exists w. by rewrite app_nil_r. Qed.

Lemma outputs_write b : outputs (io_Write b) (len b) b.
Proof. exact (io_Write_ok b). Qed.

Lemma outputs_bind {A B} (m : go W A) (k : A → go W B) a o1 b o2 :
  outputs m a o1 → outputs (k a) b o2 → outputs (m ≫= k) b (o1 ++ o2).
Proof.
  intros Hm Hk w Hw. destruct (Hm w Hw) as (w1 & Hm1 & Hw1 & Hs1).
  destruct (Hk w1 Hw1) as (w2 & Hk2 & Hw2 & Hs2). exists w2.
  erewrite go_bind_ok by exact Hm1. by rewrite Hs2, Hs1, <- app_assoc.
Qed.

Lemma outputs_on_err {A} (m : go W A) g a o : outputs m a o → outputs (on_err m g) a o.
Proof.
  intros Hm w Hw. destruct (Hm w Hw) as (w1 & Hm1 & Hr). exists w1. unfold on_err.
  by rewrite Hm1.
Qed.

Lemma outputs_bind_ret {A B} (m : go W A) (f : A → B) a o :
  outputs m a o → outputs (x ← m; mret (f x)) (f a) o.
Proof. intros Hm. rewrite <- (app_nil_r o). eapply outputs_bind; [exact Hm|apply outputs_ret]. Qed.

Lemma outputs_eq {A} (m : go W A) a a' o o' : a = a' → o = o' → outputs m a o → outputs m a' o'.
Proof. by intros -> ->. Qed.

Lemma outputs_marker (m : Z) : outputs (encode_marker true m) 1 [m].
Proof.
  unfold encode_marker, WriteMarker, WriteByte, WriteBytes.
  apply (outputs_bind_ret _ (λ _, 1) tt), (outputs_bind_ret _ (λ _, tt) (len [m])), outputs_write.
Qed.

Lemma outputs_no_marker (m : Z) : outputs (encode_marker false m) 0 [].
Proof. apply outputs_ret. Qed.

Lemma outputs_binary n x : outputs (binary_Write_BE n x) tt (be_split n x).
Proof. apply (outputs_bind_ret _ (λ _, tt) (len (be_split n x))), outputs_write. Qed.
End outputs.

(** ** Reasoning about readers

    [takes left n k m]: from a state with fewer than [n] bytes left the code [m] ends, with
    at least [k] bytes taken if it succeeds; the only panic is an index out of range. *)

Definition takes {S A} (left : S → nat) (n k : nat) (m : go S A) : Prop :=
  ∀ s, (left s < n)%nat →
    outcome (eq IndexOutOfRange) (λ s', (left s' ≤ left s)%nat)
      (λ _ s', (left s' + k ≤ left s)%nat) m s.

Definition left_dec (s : dec_state) : nat := length s.2.

Section takes.
Context {S : Type} (left : S → nat).
Local Abbreviation takes := (takes left).

Lemma takes_ret {A} n (a : A) : takes n 0 (mret a).
Proof. intros s _. unfold outcome. simpl. lia. Qed.

Lemma takes_fail {A} n k e : takes n k (fail (A := A) e).
Proof. intros s _. unfold outcome. simpl. lia. Qed.

Lemma takes_crash {A} n k : takes n k (crash (A := A) IndexOutOfRange).
Proof. intros s _. done. Qed.

Lemma takes_weaken {A} n n' k k' (m : go S A) :
  takes n' k' m → (n ≤ n')%nat → (k ≤ k')%nat → takes n k m.
Proof.
  intros Hm Hn Hk s Hs. eapply runs_mono; [apply Hm; lia|done|]. simpl. intros _ s' Hs'. lia.
Qed.

Lemma takes_bind {A B} n k k1 (m : go S A) (f : A → go S B) :
  takes n k1 m → (∀ a, takes (n - k1) (k - k1) (f a)) → takes n k (m ≫= f).
Proof.
  intros Hm Hf s Hs. specialize (Hm s Hs). unfold outcome in Hm |- *. unfold mbind, go_bind.
  destruct (m s) as [[a|e|p|] s']; try done.
  specialize (Hf a s' ltac:(lia)). unfold outcome in Hf.
  destruct (f a s') as [[b|e|p|] s'']; try done; lia.
Qed.

Lemma takes_fmap {A B} n k (m : go S A) (f : A → B) : takes n k m → takes n k (f <$> m).
Proof.
  intros Hm s Hs. specialize (Hm s Hs). unfold outcome in *. unfold fmap, go_fmap.
  by destruct (m s) as [[a|e|p|] s'].
Qed.

Lemma takes_on_err {A} n k (m : go S A) g : takes n k m → takes n k (on_err m g).
Proof. intros Hm s Hs. apply runs_on_err, Hm, Hs. Qed.

(** The state has at least one byte less than [n] allows: nothing is left for [n = 0]. *)
Lemma takes_zero {A} k (m : go S A) : takes 0 k m.
Proof. intros s Hs. lia. Qed.

Lemma takes_from {A} n k k' (m : go S A) : takes n k' m → (k ≤ k')%nat → takes n k m.
Proof. intros Hm Hk. by eapply takes_weaken; [exact Hm|lia|]. Qed.
End takes.

Lemma takes_on_w {A} n k (m : go bytes A) : takes length n k m → takes left_dec n k (on_w m).
Proof.
  intros Hm [d r] Hr. specialize (Hm r Hr). unfold outcome, on_w in *.
  by destruct (m r) as [[a|e|p|] r'].
Qed.

Lemma takes_on_p n f : takes left_dec n 0 (on_p (modify f)).
Proof. intros [d r] _. unfold outcome, on_p, modify, left_dec. simpl. lia. Qed.

Lemma takes_on_p_get n : takes left_dec n 0 (on_p get).
Proof. intros [d r] _. unfold outcome, on_p, get, left_dec. simpl. lia. Qed.

Lemma ReadBytes_takes n (i : Z) : takes length n (Z.to_nat i) (ReadBytes i).
Proof.
  intros r _. unfold outcome, ReadBytes, mbind, go_bind, Reader_Read.
  destruct r as [|x r]; [done|]. destruct (len _ =? i) eqn:E; go_bool; unfold mret, go_ret, fail.
  - unfold len in E. rewrite length_take in E. rewrite length_drop. lia.
  - rewrite length_drop. lia.
Qed.

Lemma ReadByte_takes n : takes length n 1 ReadByte.
Proof. intros [|x r] _; unfold outcome; simpl; [lia|]. rewrite drop_0. lia. Qed.

Lemma Reader_Read_takes n i : takes length n 0 (Reader_Read i).
Proof.
  intros [|x r] _; unfold outcome, Reader_Read; [done|]. rewrite length_drop. lia.
Qed.

Lemma binary_Read_takes n i : 0 ≤ i → takes length n (Z.to_nat i) (binary_Read_BE i).
Proof.
  intros Hi. unfold binary_Read_BE. apply takes_fmap. intros r _. unfold outcome, io_ReadFull.
  destruct (i <=? len r) eqn:E; go_bool.
  - unfold len in E. rewrite length_drop. lia.
  - destruct r; simpl; lia.
Qed.

Lemma AssertMarker_takes n b m : takes length n 0 (AssertMarker b m).
Proof.
  unfold AssertMarker. destruct b; simpl; [|apply takes_ret].
  eapply takes_bind; [apply ReadByte_takes|]. intros x.
  destruct (negb (x =? m)); [apply takes_fail|].
  eapply takes_weaken; [apply takes_ret|reflexivity|lia].
Qed.

Create HintDb takes.
#[export] Hint Resolve @takes_ret takes_on_p takes_on_p_get ReadByte_takes
  Reader_Read_takes AssertMarker_takes : takes.

(** One call, with what it takes found by the hints. *)
Ltac takes_call :=
  repeat first [apply takes_on_err | apply takes_on_w | apply takes_fmap]; eauto with takes; fail.

(** Follows the code: calls are looked up, other statements take at least nothing. *)
Ltac takes_go :=
  repeat (intros; match goal with
  | |- takes _ _ _ (_ ≫= _) => first
      [eapply takes_bind; [solve [takes_call]|] | apply (takes_bind _ _ _ 0)]
  | |- takes _ _ _ (mret _) => eapply takes_from; [apply takes_ret|lia]
  | |- takes _ _ _ (fail _) => apply takes_fail
  | |- takes _ _ _ (crash _) => apply takes_crash
  | |- takes _ _ _ (_ <$> _) => apply takes_fmap
  | |- takes _ _ _ (on_err _ _) => apply takes_on_err
  | |- takes _ _ _ (on_w _) => apply takes_on_w
  | |- takes _ _ _ (if ?b then _ else _) => destruct b
  | |- takes _ _ _ (match ?x with _ => _ end) => destruct x
  | |- takes _ _ _ _ => solve [eapply takes_from; [eauto with takes|lia]]
  end); intros.
