(* ===== verification/Amf3.v ===== *)
(** * AMF3 (src/protocol/amf/encoder_amf3.go, decoder_amf3.go, decoder_amf3_external.go)

    The encoder writes no references; the decoder resolves references to the strings,
    objects and traits of everything it has decoded before. *)
From stdpp Require Import sorting pretty.
From S2P Require Import Prelude GoIO Amf.

#[local] Set Warnings "-register-all".

(** ** Encoder *)

(** The order of [sort.Strings]: bytes from left to right. *)
Fixpoint string_leb (a b : bytes) : bool :=
  match a, b with
  | [], _ => true
  | _ :: _, [] => false
  | x :: a, y :: b => (x <? y) || ((x =? y) && string_leb a b)
  end.

Definition string_le (a b : bytes) : Prop := string_leb a b = true.

#[export] Instance string_le_dec : RelDecision string_le.
Proof. intros a b. unfold string_le. apply _. Defined.

Definition sort_strings (l : list bytes) : list bytes := merge_sort string_le l.

Section encode3.
Context {W : Type} `{IoWriter W}.

Definition encodeAmf3Uint29 (val : Z) : go W Z :=
  if val <=? 0x7F then _ ← WriteByte (u8 val); mret 1
  else if val <=? 0x3FFF then
    io_Write [u8 (Z.lor (Z.shiftr val 7) 0x80); u8 (Z.land val 0x7F)]
  else if val <=? 0x1FFFFF then
    io_Write [u8 (Z.lor (Z.shiftr val 14) 0x80);
              u8 (Z.lor (Z.land (Z.shiftr val 7) 0x7F) 0x80); u8 (Z.land val 0x7F)]
  else if val <=? 0x1FFFFFFF then
    io_Write [u8 (Z.lor (Z.shiftr val 22) 0x80);
              u8 (Z.lor (Z.land (Z.shiftr val 15) 0x7F) 0x80);
              u8 (Z.lor (Z.land (Z.shiftr val 8) 0x7F) 0x80); u8 val]
  else fail (Errorf "amf3 encode: cannot encode u29 with value %d (out of range)").

Definition encodeAmf3Utf8 (val : bytes) : go W Z :=
  let u29 := Z.lor (u32 (Z.shiftl (u32 (len val)) 1)) 0x01 in
  m1 ← on_err (encodeAmf3Uint29 u29) (Wrapf "amf3 encode: cannot encode u29 for string: %s");
  m2 ← on_err (io_Write val) (Wrapf "encode amf3: unable to encode string value: %s");
  mret (m1 + m2).

Definition EncodeAmf3Undefined (encodeMarker : bool) : go W Z :=
  encode_marker encodeMarker AMF3_UNDEFINED_MARKER.
Definition EncodeAmf3Null (encodeMarker : bool) : go W Z :=
  encode_marker encodeMarker AMF3_NULL_MARKER.
Definition EncodeAmf3False (encodeMarker : bool) : go W Z :=
  encode_marker encodeMarker AMF3_FALSE_MARKER.
Definition EncodeAmf3True (encodeMarker : bool) : go W Z :=
  encode_marker encodeMarker AMF3_TRUE_MARKER.

Definition EncodeAmf3Integer (val : Z) (encodeMarker : bool) : go W Z :=
  n ← encode_marker encodeMarker AMF3_INTEGER_MARKER;
  m ← encodeAmf3Uint29 val;
  mret (n + m).

Definition EncodeAmf3Double (bits : Z) (encodeMarker : bool) : go W Z :=
  n ← encode_marker encodeMarker AMF3_DOUBLE_MARKER;
  _ ← binary_Write_BE 8 bits;
  mret (n + 8).

Definition EncodeAmf3String (val : bytes) (encodeMarker : bool) : go W Z :=
  n ← encode_marker encodeMarker AMF3_STRING_MARKER;
  m ← encodeAmf3Utf8 val;
  mret (n + m).

(** [unix]: the seconds [val.Unix()]. *)
Definition EncodeAmf3Date (unix : Z) (encodeMarker : bool) : go W Z :=
  n ← encode_marker encodeMarker AMF3_DATE_MARKER;
  _ ← on_err (WriteMarker 0x01) (Wrapf "amf3 encode: cannot encode u29 for array: %s");
  _ ← on_err (binary_Write_BE 8 (float64_of_int (round53 unix * 1000)))
        (Wrapf "amf3 encode: unable to write date double: %s");
  mret (n + 1 + 8).

Definition EncodeAmf3ByteArray (val : bytes) (encodeMarker : bool) : go W Z :=
  n ← encode_marker encodeMarker AMF3_BYTEARRAY_MARKER;
  let u29 := Z.lor (u32 (Z.shiftl (u32 (len val)) 1)) 1 in
  m1 ← on_err (encodeAmf3Uint29 u29) (Wrapf "amf3 encode: cannot encode u29 for bytearray: %s");
  m2 ← on_err (io_Write val) (Wrapf "encode amf3: unable to encode bytearray value: %s");
  mret (n + m1 + m2).

(** Runs the writers of a list and adds up their counts. *)
Fixpoint encode_all (msg : string) (ms : list (go W Z)) : go W Z :=
  match ms with
  | [] => mret 0
  | m :: ms =>
      n ← on_err m (Wrapf msg);
      n' ← encode_all msg ms;
      mret (n + n')
  end.

(** [encs] are the encoders of the elements. *)
Definition EncodeAmf3Array (encs : list (go W Z)) (encodeMarker : bool) : go W Z :=
  n ← encode_marker encodeMarker AMF3_ARRAY_MARKER;
  let u29 := Z.lor (u32 (Z.shiftl (u32 (len encs)) 1)) 0x01 in
  m1 ← on_err (encodeAmf3Uint29 u29) (Wrapf "amf3 encode: cannot encode u29 for array: %s");
  m2 ← on_err (encodeAmf3Utf8 [])
         (Wrapf "amf3 encode: cannot encode empty string for array: %s");
  m3 ← encode_all "amf3 encode: cannot encode array element: %s" encs;
  mret (n + m1 + m2 + m3).

(** [e.EncodeAmf3(w, val.Object[prop])]: the encoder of the value stored under the key. *)
Definition encoder_of (prop : bytes) (encs : list (bytes * go W Z)) : go W Z :=
  default (EncodeAmf3Null true) (assoc prop encs).

(** The trait of an object: never dynamic, never externalizable. *)
Definition trait_of (ty : bytes) (keys : list bytes) : Trait :=
  mkTrait ty false false (sort_strings keys).

Definition trait_u29 (trait : Trait) : Z :=
  let u29 := 0x03 in
  let u29 := if Dynamic trait then Z.lor u29 (Z.shiftl 0x02 2) else u29 in
  let u29 := if Externalizable trait then Z.lor u29 (Z.shiftl 0x01 2) else u29 in
  Z.lor u29 (u32 (Z.shiftl (u32 (len (Properties trait))) 4)).

(** The entries of a dynamic trait that are not properties. *)
Fixpoint encode_dynamic (trait : Trait) (encs : list (bytes * go W Z)) : go W Z :=
  match encs with
  | [] => mret 0
  | (k, m) :: encs =>
      n1 ← (if decide (k ∈ Properties trait) then mret 0
            else
              m1 ← on_err (encodeAmf3Utf8 k)
                     (Wrapf "amf3 encode: cannot encode dynamic object property key: %s");
              m2 ← on_err m (Wrapf "amf3 encode: cannot encode dynamic object value: %s");
              mret (m1 + m2));
      n2 ← on_err (encodeAmf3Utf8 [])
             (Wrapf "amf3 encode: cannot encode dynamic object ending marker string: %s");
      n3 ← encode_dynamic trait encs;
      mret (n1 + n2 + n3)
  end.

(** [encs] are the keys with the encoders of their values. *)
Definition EncodeAmf3Object (ty : bytes) (encs : list (bytes * go W Z)) (encodeMarker : bool)
    : go W Z :=
  n ← encode_marker encodeMarker AMF3_OBJECT_MARKER;
  let trait := trait_of ty encs.*1 in
  m1 ← on_err (encodeAmf3Uint29 (trait_u29 trait))
         (Wrapf "amf3 encode: cannot encode trait header for object: %s");
  m2 ← on_err (encodeAmf3Utf8 (trait_Type trait))
         (Wrapf "amf3 encode: cannot encode trait type for object: %s");
  m3 ← encode_all "amf3 encode: cannot encode trait property for object: %s"
         (encodeAmf3Utf8 <$> Properties trait);
  if Externalizable trait then
    fail (Errorf "amf3 encode: cannot encode externalizable object")
  else
    m4 ← encode_all "amf3 encode: cannot encode sealed object value: %s"
           ((λ prop, encoder_of prop encs) <$> Properties trait);
    m5 ← (if Dynamic trait then encode_dynamic trait encs else mret 0);
    mret (n + m1 + m2 + m3 + m4 + m5).

Fixpoint EncodeAmf3 (val : value) : go W Z :=
  match val with
  | VNil => EncodeAmf3Null true
  | VString s => EncodeAmf3String s true
  | VBool b => if b then EncodeAmf3True true else EncodeAmf3False true
  | VInt false n =>
      if (0 <=? n) && (n <=? AMF3_INTEGER_MAX) then EncodeAmf3Integer (u32 n) true
      else EncodeAmf3Double (float64_of_int n) true
  | VUint false n =>
      if n <=? AMF3_INTEGER_MAX then EncodeAmf3Integer (u32 n) true
      else EncodeAmf3Double (float64_of_int n) true
  | VInt true n | VUint true n => EncodeAmf3Double (float64_of_int n) true
  | VFloat bits => EncodeAmf3Double bits true
  | VArray l => EncodeAmf3Array (map EncodeAmf3 l) true
  | VBytes b =>
      (** a slice: its elements are of type [uint8] *)
      EncodeAmf3Array (map (λ x, EncodeAmf3Integer x true) b) true
  | VObject o => EncodeAmf3Object [] (map (λ '(k, v), (k, EncodeAmf3 v)) o) true
  | VTyped ty o => EncodeAmf3Object ty (map (λ '(k, v), (k, EncodeAmf3 v)) o) true
  | VDate unix => EncodeAmf3Date unix true
  | VOther true => fail (Errorf "encode amf3: unable to create object from map")
  | VOther false => fail (Errorf "encode amf3: unsupported type %s")
  end.
End encode3.

(** ** Decoder *)

Definition push_string (s : bytes) (d : Decoder) : Decoder :=
  mkDecoder (refCache d) (stringRefs d ++ [s]) (objectRefs d) (traitRefs d).
Definition push_object (v : value) (d : Decoder) : Decoder :=
  mkDecoder (refCache d) (stringRefs d) (objectRefs d ++ [v]) (traitRefs d).
Definition push_trait (t : Trait) (d : Decoder) : Decoder :=
  mkDecoder (refCache d) (stringRefs d) (objectRefs d) (traitRefs d ++ [t]).

(** [refs[i]] *)
Definition ref_at {A} (refs : Decoder → list A) (i : Z) : go dec_state A :=
  d ← on_p get;
  match refs d !! Z.to_nat i with
  | Some x => mret x
  | None => crash IndexOutOfRange
  end.

(** The passes of the loop before the fourth byte. *)
Fixpoint u29_loop (n : nat) (result : Z) : go bytes (Z * bool) :=
  match n with
  | O => mret (result, false)
  | S n =>
      b ← ReadByte;
      let result := u32 (u32 (Z.shiftl result 7) + Z.land b 0x7F) in
      if Z.land b 0x80 =? 0 then mret (result, true) else u29_loop n result
  end.

Definition decodeU29 : go bytes Z :=
  '(result, done) ← u29_loop 3 0;
  if done : bool then mret result
  else
    b ← ReadByte;
    mret (u32 (u32 (Z.shiftl result 8) + b)).

(** [isRef] and [refVal] *)
Definition decodeReferenceInt : go bytes (bool * Z) :=
  u29 ← on_err decodeU29 (Wrapf "amf3 decode: unable to decode reference int: %s");
  mret (Z.land u29 0x01 =? 0, Z.shiftr u29 1).

Definition DecodeAmf3Undefined (decodeMarker : bool) : go dec_state value :=
  _ ← on_w (AssertMarker decodeMarker AMF3_UNDEFINED_MARKER); mret VNil.
Definition DecodeAmf3Null (decodeMarker : bool) : go dec_state value :=
  _ ← on_w (AssertMarker decodeMarker AMF3_NULL_MARKER); mret VNil.
Definition DecodeAmf3False (decodeMarker : bool) : go dec_state value :=
  _ ← on_w (AssertMarker decodeMarker AMF3_FALSE_MARKER); mret (VBool false).
Definition DecodeAmf3True (decodeMarker : bool) : go dec_state value :=
  _ ← on_w (AssertMarker decodeMarker AMF3_TRUE_MARKER); mret (VBool true).

(** An [int32]. *)
Definition DecodeAmf3Integer (decodeMarker : bool) : go dec_state value :=
  _ ← on_w (AssertMarker decodeMarker AMF3_INTEGER_MARKER);
  u29 ← on_w decodeU29;
  mret (VInt false (if 0xfffffff <? i32 u29 then i32 (u32 (u29 - 0x20000000)) else i32 u29)).

Definition DecodeAmf3Double (decodeMarker : bool) : go dec_state value :=
  _ ← on_w (AssertMarker decodeMarker AMF3_DOUBLE_MARKER);
  bits ← on_w (on_err (binary_Read_BE 8) (Wrapf "amf3 decode: unable to read double: %s"));
  mret (VFloat bits).

(** [buf := make([]byte, n); _, err = r.Read(buf)]: a short read leaves zeros. *)
Definition read_padded (n : Z) : go bytes bytes :=
  p ← Reader_Read n;
  mret (copy_bytes (make_bytes n) p).

Definition DecodeAmf3String (decodeMarker : bool) : go dec_state bytes :=
  _ ← on_w (AssertMarker decodeMarker AMF3_STRING_MARKER);
  '(isRef, refVal) ← on_w (on_err decodeReferenceInt
    (Wrapf "amf3 decode: unable to decode string reference and length: %s"));
  if isRef : bool then ref_at stringRefs refVal
  else
    result ← on_w (on_err (read_padded refVal) (Wrapf "amf3 decode: unable to read string: %s"));
    _ ← (if decide (result = []) then mret tt else on_p (modify (push_string result)));
    mret result.

(** The time is kept as its Unix seconds. *)
Definition DecodeAmf3Date (decodeMarker : bool) : go dec_state value :=
  _ ← on_w (AssertMarker decodeMarker AMF3_DATE_MARKER);
  '(isRef, refVal) ← on_w (on_err decodeReferenceInt
    (Wrapf "amf3 decode: unable to decode date reference and length: %s"));
  if isRef : bool then
    v ← ref_at objectRefs refVal;
    match v with
    | VDate _ => mret v
    | _ => fail (Errorf "amf3 decode: unable to extract time from date object references")
    end
  else
    bits ← on_w (on_err (binary_Read_BE 8) (Wrapf "amf3 decode: unable to read double: %s"));
    let result := VDate (date_secs bits) in
    _ ← on_p (modify (push_object result));
    mret result.

Definition DecodeAmf3Xml (decodeMarker : bool) : go dec_state value :=
  _ ← on_w (if decodeMarker then
    marker ← ReadMarker;
    if negb (marker =? AMF3_XMLDOC_MARKER) && negb (marker =? AMF3_XMLSTRING_MARKER) then
      fail (Errorf "decode assert marker failed: expected %v or %v, got %v")
    else mret tt
  else mret tt);
  '(isRef, refVal) ← on_w (on_err decodeReferenceInt
    (Wrapf "amf3 decode: unable to decode xml reference and length: %s"));
  if isRef : bool then
    v ← ref_at objectRefs refVal;
    match v with
    | VString _ => mret v
    | _ => fail (Errorf "amf3 decode: cannot coerce object reference into xml string")
    end
  else
    result ← on_w (on_err (read_padded refVal) (Wrapf "amf3 decode: unable to read xml string: %s"));
    _ ← (if decide (result = []) then mret tt else on_p (modify (push_object (VString result))));
    mret (VString result).

Definition DecodeAmf3ByteArray (decodeMarker : bool) : go dec_state value :=
  _ ← on_w (AssertMarker decodeMarker AMF3_BYTEARRAY_MARKER);
  '(isRef, refVal) ← on_w (on_err decodeReferenceInt
    (Wrapf "amf3 decode: unable to decode byte array reference and length: %s"));
  if isRef : bool then
    v ← ref_at objectRefs refVal;
    match v with
    | VBytes _ => mret v
    | _ => fail (Errorf "amf3 decode: unable to convert object ref to bytes")
    end
  else
    result ← on_w (on_err (read_padded refVal) (Wrapf "amf3 decode: unable to read bytearray: %s"));
    _ ← on_p (modify (push_object (VBytes result)));
    mret (VBytes result).

(** Loops of the decoders run at most as often as bytes are left, plus one. *)
Section decode_loops.
Variable dec : go dec_state value.

(** [n] more elements. *)
Fixpoint array_loop (fuel : nat) (msg : string) (n : Z) : go dec_state (list value) :=
  if n <=? 0 then mret []
  else
    match fuel with
    | O => λ s, (OutOfFuel, s)
    | S fuel =>
        tmp ← on_err dec (Wrapf msg);
        l ← array_loop fuel msg (n - 1);
        mret (tmp :: l)
    end.

(** [n] more property names. *)
Fixpoint props_loop (fuel : nat) (n : Z) : go dec_state (list bytes) :=
  if n <=? 0 then mret []
  else
    match fuel with
    | O => λ s, (OutOfFuel, s)
    | S fuel =>
        tmp ← on_err (DecodeAmf3String false)
                (Wrapf "amf3 decode: unable to read trait property for object: %s");
        l ← props_loop fuel (n - 1);
        mret (tmp :: l)
    end.

(** The values of the sealed properties. *)
Fixpoint sealed_loop (keys : list bytes) (obj : object) : go dec_state object :=
  match keys with
  | [] => mret obj
  | key :: keys =>
      val ← on_err dec (Wrapf "amf3 decode: unable to decode object property: %s");
      sealed_loop keys (obj_set key val obj)
  end.

Fixpoint dynamic_loop (fuel : nat) (obj : object) : go dec_state object :=
  match fuel with
  | O => λ s, (OutOfFuel, s)
  | S fuel =>
      key ← on_err (DecodeAmf3String false) (Wrapf "amf3 decode: unable to decode dynamic key: %s");
      if decide (key = []) then mret obj
      else
        val ← on_err dec (Wrapf "amf3 decode: unable to decode dynamic value: %s");
        dynamic_loop fuel (obj_set key val obj)
  end.

Definition DecodeAmf3Array (fuel : nat) (decodeMarker : bool) : go dec_state value :=
  _ ← on_w (AssertMarker decodeMarker AMF3_ARRAY_MARKER);
  '(isRef, refVal) ← on_w (on_err decodeReferenceInt
    (Wrapf "amf3 decode: unable to decode array reference and length: %s"));
  if isRef : bool then
    v ← ref_at objectRefs (Z.shiftr refVal 1);
    match v with
    | VArray _ => mret v
    | _ => fail (Errorf "amf3 decode: unable to extract array from object references")
    end
  else
    key ← on_err (DecodeAmf3String false) (Wrapf "amf3 decode: unable to read key for array: %s");
    if negb (bool_decide (key = [])) then
      fail (Errorf "amf3 decode: array key is not empty, can't handle associative array")
    else
      result ← array_loop fuel "amf3 decode: array element could not be decoded: %s" refVal;
      _ ← on_p (modify (push_object (VArray result)));
      mret (VArray result).

(** *** Externalizable objects *)

Fixpoint readFlags (fuel : nat) : go bytes (list Z) :=
  match fuel with
  | O => λ s, (OutOfFuel, s)
  | S fuel =>
      flag ← on_err ReadByte (Wrapf "unable to read flags: %s");
      if Z.land flag 0x80 =? 0 then mret [flag]
      else
        flags ← readFlags fuel;
        mret (flag :: flags)
  end.

(** The fields named in a set; [p] is the position of the first one. *)
Fixpoint external_fields (p flags : Z) (fieldNames : list bytes) (obj : object)
    : go dec_state object :=
  match fieldNames with
  | [] => mret obj
  | field :: fieldNames =>
      obj ← (if Z.land flags (u8 (2 ^ p)) =? 0 then mret obj
             else
               tmp ← on_err dec (Wrapf "unable to decode external field %s %d %d (%#v): %s");
               mret (obj_set field tmp obj));
      external_fields (p + 1) flags fieldNames obj
  end.

Definition extra_name (i j : Z) : bytes :=
  str "extra_" ++ str (pretty i) ++ str "_" ++ str (pretty j).

(** The fields after the reserved ones, for [j] in a list of positions. *)
Fixpoint external_extra (i flags : Z) (js : list Z) (obj : object) : go dec_state object :=
  match js with
  | [] => mret obj
  | j :: js =>
      obj ← (if Z.land (Z.shiftr flags j) 0x01 =? 0 then mret obj
             else
               tmp ← on_err dec (Wrapf "unable to decode post-external field %d %d (%#v): %s");
               mret (obj_set (extra_name i j) tmp obj));
      external_extra i flags js obj
  end.

(** The flag bytes from position [i] on. *)
Fixpoint external_flags (i : Z) (flagSet : list Z) (fieldSets : list (list bytes)) (obj : object)
    : go dec_state object :=
  match flagSet with
  | [] => mret obj
  | flags :: flagSet =>
      let fieldNames := hd [] fieldSets in
      let reservedPosition := u8 (len fieldNames) in
      obj ← external_fields 0 flags fieldNames obj;
      obj ← (if Z.shiftr flags reservedPosition =? 0 then mret obj
             else external_extra i flags (seqZ reservedPosition (6 - reservedPosition)) obj);
      external_flags (i + 1) flagSet (tl fieldSets) obj
  end.

Definition decodeExternal (fuel : nat) (obj : object) (fieldSets : list (list bytes))
    : go dec_state object :=
  flagSet ← on_w (on_err (readFlags fuel) (Wrapf "unable to read flags: %s"));
  external_flags 0 flagSet fieldSets obj.

Definition decodeAbstractMessage (fuel : nat) : go dec_state object :=
  on_err (decodeExternal fuel []
    [[str "body"; str "clientId"; str "destination"; str "headers"; str "messageId";
      str "timeStamp"; str "timeToLive"];
     [str "clientIdBytes"; str "messageIdBytes"]])
    (Wrapf "unable to decode abstract external: %s").

Definition decodeAsyncMessage (fuel : nat) : go dec_state object :=
  result ← on_err (decodeAbstractMessage fuel) (Wrapf "unable to decode abstract for async: %s");
  on_err (decodeExternal fuel result [[str "correlationId"; str "correlationIdBytes"]])
    (Wrapf "unable to decode async external: %s").

Definition decodeAsyncMessageExt (fuel : nat) : go dec_state object := decodeAsyncMessage fuel.

Definition decodeAcknowledgeMessage (fuel : nat) : go dec_state object :=
  result ← on_err (decodeAsyncMessage fuel) (Wrapf "unable to decode async for ack: %s");
  on_err (decodeExternal fuel result []) (Wrapf "unable to decode ack external: %s").

Definition decodeAcknowledgeMessageExt (fuel : nat) : go dec_state object :=
  decodeAcknowledgeMessage fuel.

Definition decodeArrayCollection : go dec_state value :=
  on_err dec (Wrapf "cannot decode child of array collection: %s").

(** *** Objects *)

Variable externalHandlers : ext_handlers.

Definition decode_externalizable (fuel : nat) (ty : bytes) : go dec_state value :=
  if decide (ty = str "DSA") then
    VObject <$> on_err (decodeAsyncMessageExt fuel) (Wrapf "amf3 decode: unable to decode dsa: %s")
  else if decide (ty = str "DSK") then
    VObject <$> on_err (decodeAcknowledgeMessageExt fuel)
                  (Wrapf "amf3 decode: unable to decode dsk: %s")
  else if decide (ty = str "flex.messaging.io.ArrayCollection") then
    result ← on_err decodeArrayCollection (Wrapf "amf3 decode: unable to decode ac: %s");
    _ ← on_p (modify (push_object result));
    mret result
  else
    match externalHandlers ty with
    | Some fn =>
        on_err fn (Wrapf "amf3 decode: unable to call external decoder for type %s: %s")
    | None => fail (Errorf "amf3 decode: unable to decode external type %s, no handler")
    end.

(** The trait that is referred to or follows. *)
Definition decode_trait (fuel : nat) (refVal : Z) : go dec_state Trait :=
  if Z.land refVal 0x01 =? 0 then ref_at traitRefs (Z.shiftr refVal 1)
  else
    cls ← on_err (DecodeAmf3String false)
            (Wrapf "amf3 decode: unable to read trait type for object: %s");
    props ← props_loop fuel (Z.shiftr refVal 3);
    let trait := mkTrait cls (negb (Z.land refVal 0x02 =? 0)) (negb (Z.land refVal 0x04 =? 0))
                   props in
    _ ← on_p (modify (push_trait trait));
    mret trait.

(** The reference pushed for an object is the nil [result] of that moment. *)
Definition DecodeAmf3Object (fuel : nat) (decodeMarker : bool) : go dec_state value :=
  _ ← on_w (AssertMarker decodeMarker AMF3_OBJECT_MARKER);
  '(isRef, refVal) ← on_w (on_err decodeReferenceInt
    (Wrapf "amf3 decode: unable to decode object reference and length: %s"));
  if isRef : bool then ref_at objectRefs (Z.shiftr refVal 1)
  else
    trait ← decode_trait fuel refVal;
    _ ← on_p (modify (push_object VNil));
    if Externalizable trait then decode_externalizable fuel (trait_Type trait)
    else
      obj ← sealed_loop (Properties trait) [];
      obj ← (if Dynamic trait then dynamic_loop fuel obj else mret obj);
      mret (VObject obj).

(** The switch on the marker. *)
Definition decodeAmf3_marked (fuel : nat) (marker : Z) : go dec_state value :=
  if marker =? AMF3_UNDEFINED_MARKER then DecodeAmf3Undefined false
  else if marker =? AMF3_NULL_MARKER then DecodeAmf3Null false
  else if marker =? AMF3_FALSE_MARKER then DecodeAmf3False false
  else if marker =? AMF3_TRUE_MARKER then DecodeAmf3True false
  else if marker =? AMF3_INTEGER_MARKER then DecodeAmf3Integer false
  else if marker =? AMF3_DOUBLE_MARKER then DecodeAmf3Double false
  else if marker =? AMF3_STRING_MARKER then VString <$> DecodeAmf3String false
  else if marker =? AMF3_XMLDOC_MARKER then DecodeAmf3Xml false
  else if marker =? AMF3_DATE_MARKER then DecodeAmf3Date false
  else if marker =? AMF3_ARRAY_MARKER then DecodeAmf3Array fuel false
  else if marker =? AMF3_OBJECT_MARKER then DecodeAmf3Object fuel false
  else if marker =? AMF3_XMLSTRING_MARKER then DecodeAmf3Xml false
  else if marker =? AMF3_BYTEARRAY_MARKER then DecodeAmf3ByteArray false
  else fail (Errorf "decode amf3: unsupported type %d").
End decode_loops.

(** [fuel] bounds the calls nested in each other: each one takes a byte. *)
Fixpoint DecodeAmf3_loop (h : ext_handlers) (fuel : nat) : go dec_state value :=
  match fuel with
  | O => λ s, (OutOfFuel, s)
  | S fuel =>
      marker ← on_w ReadMarker;
      decodeAmf3_marked (DecodeAmf3_loop h fuel) h fuel marker
  end.

Definition DecodeAmf3 (h : ext_handlers) : go dec_state value := λ s,
  DecodeAmf3_loop h (S (length s.2)) s.

(** ** The encoding as bytes *)

Definition u29_bytes (v : Z) : bytes :=
  if v <=? 0x7F then [v]
  else if v <=? 0x3FFF then [v / 2 ^ 7 + 128; v mod 128]
  else if v <=? 0x1FFFFF then [v / 2 ^ 14 + 128; v / 2 ^ 7 mod 128 + 128; v mod 128]
  else [v / 2 ^ 22 + 128; v / 2 ^ 15 mod 128 + 128; v / 2 ^ 8 mod 128 + 128; v mod 256].

Definition utf8_bytes (s : bytes) : bytes := u29_bytes (2 * len s + 1) ++ s.

(** The bytes of an object from those of its values. *)
Definition object_bytes (ty : bytes) (encs : list (bytes * bytes)) : bytes :=
  let keys := sort_strings encs.*1 in
  [AMF3_OBJECT_MARKER] ++ u29_bytes (16 * len keys + 3) ++ utf8_bytes ty
  ++ mjoin (utf8_bytes <$> keys) ++ mjoin ((λ k, default [] (assoc k encs)) <$> keys).

Definition array_bytes (encs : list bytes) : bytes :=
  [AMF3_ARRAY_MARKER] ++ u29_bytes (2 * len encs + 1) ++ utf8_bytes [] ++ mjoin encs.

Definition int_bytes (n : Z) : bytes := [AMF3_INTEGER_MARKER] ++ u29_bytes n.
Definition double_bytes (bits : Z) : bytes := [AMF3_DOUBLE_MARKER] ++ be_split 8 bits.

Fixpoint amf3_bytes (v : value) : bytes :=
  match v with
  | VNil => [AMF3_NULL_MARKER]
  | VBool b => [if b then AMF3_TRUE_MARKER else AMF3_FALSE_MARKER]
  | VInt false n =>
      if (0 <=? n) && (n <=? AMF3_INTEGER_MAX) then int_bytes n else double_bytes (float64_of_int n)
  | VUint false n =>
      if n <=? AMF3_INTEGER_MAX then int_bytes n else double_bytes (float64_of_int n)
  | VInt true n | VUint true n => double_bytes (float64_of_int n)
  | VFloat bits => double_bytes bits
  | VString s => [AMF3_STRING_MARKER] ++ utf8_bytes s
  | VArray l => array_bytes (map amf3_bytes l)
  | VBytes b => array_bytes (map int_bytes b)
  | VObject o => object_bytes [] (map (λ '(k, v), (k, amf3_bytes v)) o)
  | VTyped ty o => object_bytes ty (map (λ '(k, v), (k, amf3_bytes v)) o)
  | VDate unix => [AMF3_DATE_MARKER; 1] ++ be_split 8 (float64_of_int (round53 unix * 1000))
  | VOther _ => []
  end.

(** What the decoder makes of the bytes: long integers become floats, byte slices arrays
    of integers, and the type of an object is lost. *)
Definition sorted_object (o : object) : object :=
  (λ k, (k, default VNil (assoc k o))) <$> sort_strings o.*1.

Fixpoint amf3_norm (v : value) : value :=
  match v with
  | VInt false n =>
      if (0 <=? n) && (n <=? AMF3_INTEGER_MAX) then VInt false n else VFloat (float64_of_int n)
  | VUint false n => if n <=? AMF3_INTEGER_MAX then VInt false n else VFloat (float64_of_int n)
  | VInt true n | VUint true n => VFloat (float64_of_int n)
  | VArray l => VArray (map amf3_norm l)
  | VBytes b => VArray (map (VInt false) b)
  | VObject o | VTyped _ o => VObject (sorted_object (map (λ '(k, v), (k, amf3_norm v)) o))
  | VDate unix => VDate (date_secs (float64_of_int (round53 unix * 1000)))
  | v => v
  end.

(** The values the format can carry.  Integers from 2^28 to 2^29 - 1 are not among them:
    they come back negative. *)
Definition entries_ok (o : object) : Prop :=
  NoDup o.*1 ∧ len o < 2 ^ 25 ∧ Forall (λ k, len k < 2 ^ 28) o.*1.

Inductive amf3_ok : value → Prop :=
  | ok3_nil : amf3_ok VNil
  | ok3_bool b : amf3_ok (VBool b)
  | ok3_int n : n < 2 ^ 28 ∨ AMF3_INTEGER_MAX < n → amf3_ok (VInt false n)
  | ok3_uint n : 0 ≤ n → n < 2 ^ 28 ∨ AMF3_INTEGER_MAX < n → amf3_ok (VUint false n)
  | ok3_int64 n : amf3_ok (VInt true n)
  | ok3_uint64 n : amf3_ok (VUint true n)
  | ok3_float bits : fits 64 bits → amf3_ok (VFloat bits)
  | ok3_string s : len s < 2 ^ 28 → amf3_ok (VString s)
  | ok3_array l : len l < 2 ^ 28 → Forall amf3_ok l → amf3_ok (VArray l)
  | ok3_bytes b : len b < 2 ^ 28 → Forall is_byte b → amf3_ok (VBytes b)
  | ok3_object o : entries_ok o → Forall (λ kv, amf3_ok kv.2) o → amf3_ok (VObject o)
  | ok3_typed ty o : len ty < 2 ^ 28 → entries_ok o → Forall (λ kv, amf3_ok kv.2) o →
      amf3_ok (VTyped ty o)
  | ok3_date unix : amf3_ok (VDate unix).

(** ** Integers of 29 bits *)

Lemma high_bit b : is_byte b → (Z.land b 0x80 =? 0) = (b <? 128) ∧ Z.land b 0x7F = b mod 128.
Proof.
  intros Hb. assert (H : forallb (λ b, Bool.eqb (Z.land b 0x80 =? 0) (b <? 128)
    && (Z.land b 0x7F =? b mod 128)) (seqZ 0 256) = true) by (vm_compute; reflexivity).
  apply (forallb_seqZ _ _ _ b) in H; [|unfold is_byte in Hb; lia]. cbv beta in H.
  apply andb_true_iff in H as [H1 H2]. apply Bool.eqb_prop in H1. by go_bool.
Qed.

Lemma set_high_bit x : 0 ≤ x < 128 → u8 (Z.lor x 0x80) = x + 128.
Proof.
  intros Hx. rewrite Z.lor_comm. change 0x80 with (1 * 2 ^ 7).
  rewrite (lor_low 7) by (unfold fits; lia). rewrite u8_small by (unfold is_byte; lia). lia.
Qed.

Lemma land_7f x : Z.land x 0x7F = x mod 128.
Proof. change 0x7F with (Z.ones 7). by apply Z.land_ones. Qed.

Section u29_out.
Context {W : Type} `{LawfulWriter W}.

Lemma encodeAmf3Uint29_outputs v : 0 ≤ v < 2 ^ 29 →
  outputs (encodeAmf3Uint29 v) (len (u29_bytes v)) (u29_bytes v).
Proof.
  intros Hv. unfold encodeAmf3Uint29, u29_bytes. rewrite !Z.shiftr_div_pow2, !land_7f by lia.
  repeat (match goal with |- context [v <=? ?k] => destruct (v <=? k) eqn:?; go_bool end).
  - eapply outputs_eq; [reflexivity| |].
    2: apply (outputs_bind_ret _ (λ _, 1) tt), (outputs_bind_ret _ (λ _, tt) 1), outputs_write.
    by rewrite u8_small by (unfold is_byte; lia).
  - eapply outputs_eq; [| |apply outputs_write]; [done|].
    rewrite set_high_bit, u8_small by (unfold is_byte; Z.div_mod_to_equations; lia). done.
  - eapply outputs_eq; [| |apply outputs_write]; [done|].
    rewrite !set_high_bit, u8_small by (unfold is_byte; Z.div_mod_to_equations; lia). done.
  - eapply outputs_eq; [| |apply outputs_write]; [done|].
    rewrite !set_high_bit by (Z.div_mod_to_equations; lia). done.
  - lia.
Qed.
End u29_out.

Lemma ReadByte_cons b rest : ReadByte (b :: rest) = (Ok b, rest).
Proof. reflexivity. Qed.

Lemma u29_loop_more n r x rest : 0 ≤ x < 128 →
  u29_loop (S n) r (x + 128 :: rest) = u29_loop n (u32 (u32 (Z.shiftl r 7) + x)) rest.
Proof.
  intros Hx. cbn [u29_loop]. erewrite go_bind_ok by apply ReadByte_cons.
  destruct (high_bit (x + 128)) as [-> ->]; [unfold is_byte; lia|].
  rewrite (proj2 (Z.ltb_ge _ _)) by lia. do 3 f_equal. Z.div_mod_to_equations; lia.
Qed.

Lemma u29_loop_last n r x rest : 0 ≤ x < 128 →
  u29_loop (S n) r (x :: rest) = (Ok (u32 (u32 (Z.shiftl r 7) + x), true), rest).
Proof.
  intros Hx. cbn [u29_loop]. erewrite go_bind_ok by apply ReadByte_cons.
  destruct (high_bit x) as [-> ->]; [unfold is_byte; lia|].
  rewrite (proj2 (Z.ltb_lt _ _)), Z.mod_small by lia. done.
Qed.

Lemma u29_step r x : 0 ≤ r < 2 ^ 24 → 0 ≤ x < 128 → u32 (u32 (Z.shiftl r 7) + x) = r * 128 + x.
Proof. intros Hr Hx. rewrite Z.shiftl_mul_pow2 by lia. rewrite !u32_small; unfold fits; rewrite ?u32_small; unfold fits; lia. Qed.

Lemma decodeU29_bytes v rest : 0 ≤ v < 2 ^ 29 → decodeU29 (u29_bytes v ++ rest) = (Ok v, rest).
Proof.
  intros Hv. unfold decodeU29, u29_bytes.
  repeat (match goal with |- context [v <=? ?k] => destruct (v <=? k) eqn:?; go_bool end);
    cbn [app].
  - erewrite go_bind_ok by (apply u29_loop_last; lia). rewrite u29_step by lia. done.
  - erewrite go_bind_ok.
    2: { rewrite u29_loop_more by (Z.div_mod_to_equations; lia). apply u29_loop_last.
         Z.div_mod_to_equations; lia. }
    cbv beta iota. unfold mret, go_ret. rewrite !u29_step by (rewrite ?u29_step; Z.div_mod_to_equations; lia).
    do 2 f_equal. Z.div_mod_to_equations; lia.
  - erewrite go_bind_ok.
    2: { rewrite !u29_loop_more by (Z.div_mod_to_equations; lia). apply u29_loop_last.
         Z.div_mod_to_equations; lia. }
    cbv beta iota. unfold mret, go_ret.
    rewrite (u29_step 0), (u29_step (0 * 128 + _)), u29_step by (Z.div_mod_to_equations; lia).
    do 2 f_equal. Z.div_mod_to_equations; lia.
  - erewrite go_bind_ok.
    2: { rewrite !u29_loop_more by (Z.div_mod_to_equations; lia). reflexivity. }
    cbv beta iota. erewrite go_bind_ok by apply ReadByte_cons. unfold mret, go_ret.
    rewrite (u29_step 0), (u29_step (0 * 128 + _)), u29_step by (Z.div_mod_to_equations; lia).
    rewrite Z.shiftl_mul_pow2 by lia.
    rewrite (u32_small (_ * 2 ^ 8)) by (unfold fits; Z.div_mod_to_equations; lia).
    rewrite u32_small by (unfold fits; Z.div_mod_to_equations; lia).
    do 2 f_equal. Z.div_mod_to_equations; lia.
Qed.

(** ** The encoder writes these bytes *)

Lemma len_u29_pos v : 0 < len (u29_bytes v).
Proof. unfold u29_bytes. repeat case_match; reflexivity. Qed.

Lemma len_marker_eq : Z.lor (u32 (Z.shiftl (u32 0) 1)) 1 = 1.
Proof. reflexivity. Qed.

(** The header of a string, a byte array or an array of [n] elements. *)
Lemma length_u29 n : 0 ≤ n < 2 ^ 28 → Z.lor (u32 (Z.shiftl (u32 n) 1)) 0x01 = 2 * n + 1.
Proof.
  intros Hn. rewrite (u32_small n) by (unfold fits; lia).
  rewrite u32_small by (unfold fits; rewrite Z.shiftl_mul_pow2; lia).
  rewrite (lor_shiftl_low 1) by (unfold fits; lia). lia.
Qed.

Lemma trait_header ty keys : len keys < 2 ^ 25 →
  trait_u29 (trait_of ty keys) = 16 * len (sort_strings keys) + 3.
Proof.
  intros Hn. assert (Hl : len (sort_strings keys) = len keys)
    by (unfold len, sort_strings; by rewrite merge_sort_Permutation).
  pose proof (len_nonneg keys).
  unfold trait_u29, trait_of. cbn [Dynamic Externalizable Properties]. rewrite Hl.
  rewrite (u32_small (len keys)) by (unfold fits; lia).
  rewrite u32_small by (unfold fits; rewrite Z.shiftl_mul_pow2; lia).
  rewrite Z.lor_comm, (lor_shiftl_low 4) by (unfold fits; lia). lia.
Qed.

Section encode3_out.
Context {W : Type} `{LawfulWriter W}.

Lemma encodeAmf3Utf8_outputs s : len s < 2 ^ 28 →
  outputs (encodeAmf3Utf8 s) (len (utf8_bytes s)) (utf8_bytes s).
Proof.
  intros Hs. pose proof (len_nonneg s). unfold encodeAmf3Utf8, utf8_bytes.
  rewrite length_u29 by lia. eapply outputs_bind.
  { apply outputs_on_err, encodeAmf3Uint29_outputs. lia. }
  rewrite len_app. apply (outputs_bind_ret _ (λ m2, _ + m2)), outputs_on_err, outputs_write.
Qed.

Lemma encode_all_outputs msg ms bs : Forall2 (λ m b, outputs m (len b) b) ms bs →
  outputs (encode_all msg ms) (len (mjoin bs)) (mjoin bs).
Proof.
  induction 1 as [|m b ms bs Hm _ IH]; [apply outputs_ret|]. cbn [encode_all].
  rewrite mjoin_cons. eapply outputs_bind; [by apply outputs_on_err|].
  rewrite len_app. apply (outputs_bind_ret _ (λ n, _ + n)), IH.
Qed.

Lemma EncodeAmf3Integer_outputs v : 0 ≤ v < 2 ^ 29 →
  outputs (EncodeAmf3Integer v true) (len (int_bytes v)) (int_bytes v).
Proof.
  intros Hv. unfold EncodeAmf3Integer, int_bytes. eapply outputs_bind; [apply outputs_marker|].
  rewrite len_app. apply (outputs_bind_ret _ (λ m, 1 + m)). by apply encodeAmf3Uint29_outputs.
Qed.

Lemma EncodeAmf3Double_outputs bits :
  outputs (EncodeAmf3Double bits true) (len (double_bytes bits)) (double_bytes bits).
Proof.
  unfold EncodeAmf3Double, double_bytes. eapply outputs_bind; [apply outputs_marker|].
  apply (outputs_bind_ret _ (λ _, 9) tt), outputs_binary.
Qed.

Lemma EncodeAmf3Array_outputs encs bs : len bs < 2 ^ 28 →
  Forall2 (λ m b, outputs m (len b) b) encs bs →
  outputs (EncodeAmf3Array encs true) (len (array_bytes bs)) (array_bytes bs).
Proof.
  intros Hl Hall. pose proof (len_nonneg bs).
  assert (Hlen : len encs = len bs) by (unfold len; by rewrite (Forall2_length _ _ _ Hall)).
  unfold EncodeAmf3Array, array_bytes. rewrite Hlen, length_u29 by lia.
  eapply outputs_bind; [apply outputs_marker|].
  eapply outputs_bind; [apply outputs_on_err, encodeAmf3Uint29_outputs; lia|].
  eapply outputs_bind; [apply outputs_on_err, encodeAmf3Utf8_outputs; reflexivity|].
  eapply outputs_eq; [|reflexivity|].
  2: apply (outputs_bind_ret _ (λ n, _ + n)), encode_all_outputs, Hall.
  rewrite !len_app. change (len [AMF3_ARRAY_MARKER]) with 1. lia.
Qed.

Lemma EncodeAmf3Object_outputs ty encs bs : encs.*1 = bs.*1 → len ty < 2 ^ 28 →
  len bs < 2 ^ 25 → Forall (λ k, len k < 2 ^ 28) bs.*1 →
  (∀ k, k ∈ bs.*1 → ∃ m b, assoc k encs = Some m ∧ assoc k bs = Some b ∧ outputs m (len b) b) →
  outputs (EncodeAmf3Object ty encs true) (len (object_bytes ty bs)) (object_bytes ty bs).
Proof.
  intros Hk Hty Hl Hks Hv. unfold EncodeAmf3Object, object_bytes. rewrite Hk.
  set (keys := sort_strings bs.*1). assert (Hp : keys ≡ₚ bs.*1) by apply merge_sort_Permutation.
  pose proof (len_nonneg keys).
  assert (Hlk : len keys = len bs) by (unfold len; by rewrite Hp, length_fmap).
  eapply outputs_bind; [apply outputs_marker|].
  rewrite trait_header by (unfold len in *; rewrite length_fmap; lia). fold keys.
  eapply outputs_bind; [apply outputs_on_err, encodeAmf3Uint29_outputs; lia|].
  eapply outputs_bind; [by apply outputs_on_err, encodeAmf3Utf8_outputs|].
  eapply outputs_bind.
  { apply (encode_all_outputs _ _ (utf8_bytes <$> keys)). cbn [trait_of Properties]. fold keys.
    apply Forall2_fmap, Forall_Forall2_diag. rewrite Hp.
    eapply Forall_impl; [exact Hks|]. intros k Hlen. by apply encodeAmf3Utf8_outputs. }
  cbn [trait_of Externalizable Dynamic Properties]. fold keys.
  set (vals := (λ k, default [] (assoc k bs)) <$> keys).
  rewrite <- (app_nil_r (mjoin vals)). eapply outputs_bind.
  { apply (encode_all_outputs _ _ vals). apply Forall2_fmap, Forall_Forall2_diag.
    apply Forall_forall. intros k Hin. rewrite Hp in Hin.
    destruct (Hv k Hin) as (m & b & Hm & Hb & Ho). unfold encoder_of. by rewrite Hm, Hb. }
  eapply outputs_eq; [|reflexivity|apply (outputs_bind_ret _ (λ m5, _ + m5) 0), outputs_ret].
  rewrite !len_app. change (len [AMF3_OBJECT_MARKER]) with 1. change (len (@nil Z)) with 0. lia.
Qed.
End encode3_out.

Lemma NoDup_sorted o : NoDup o.*1 → NoDup (sort_strings (@fst bytes value <$> o)).
Proof. intros Hn. unfold sort_strings. by rewrite merge_sort_Permutation. Qed.

Section encode3_spec.
Context {W : Type} `{LawfulWriter W}.

Lemma entries_encoded (o : object) : entries_ok o →
  Forall (λ kv, amf3_ok kv.2 → outputs (EncodeAmf3 kv.2) (len (amf3_bytes kv.2)) (amf3_bytes kv.2)) o →
  Forall (λ kv, amf3_ok kv.2) o →
  ∀ ty, len ty < 2 ^ 28 →
  let bs := map (λ '(k, v), (k, amf3_bytes v)) o in
  outputs (EncodeAmf3Object ty (map (λ '(k, v), (k, EncodeAmf3 v)) o) true)
    (len (object_bytes ty bs)) (object_bytes ty bs).
Proof.
  intros (Hn & Hl & Hk) IH Hok ty Hty bs. apply EncodeAmf3Object_outputs; try done.
  - unfold bs. by rewrite !keys_map.
  - unfold bs, len in *. by rewrite length_map.
  - unfold bs. by rewrite keys_map.
  - intros k Hin. unfold bs in Hin. rewrite keys_map in Hin.
    destruct (assoc_elem k o Hin) as (v & Hv & Hel). unfold bs. rewrite !assoc_map, Hv.
    eexists _, _. split; [reflexivity|]. split; [reflexivity|].
    rewrite Forall_forall in IH, Hok. exact (IH _ Hel (Hok _ Hel)).
Qed.

Lemma EncodeAmf3_outputs v : amf3_ok v → outputs (EncodeAmf3 v) (len (amf3_bytes v)) (amf3_bytes v).
Proof.
  induction v as [|b|wide z|wide z|bits|s|l IH|o IH|ty o IH|b|u|m] using value_nested_ind;
    intros Hok.
  - apply outputs_marker.
  - destruct b; apply outputs_marker.
  - cbn [EncodeAmf3 amf3_bytes]. destruct wide; [apply EncodeAmf3Double_outputs|].
    inversion Hok as [| |? Hz| | | | | | | | | |]; subst.
    destruct (_ && _) eqn:E; [|apply EncodeAmf3Double_outputs]. go_bool. unfold AMF3_INTEGER_MAX in *.
    rewrite u32_small by (unfold fits; lia). apply EncodeAmf3Integer_outputs. lia.
  - cbn [EncodeAmf3 amf3_bytes]. destruct wide; [apply EncodeAmf3Double_outputs|].
    inversion Hok as [| | |? Hp Hz| | | | | | | | |]; subst.
    destruct (z <=? _) eqn:E; [|apply EncodeAmf3Double_outputs]. go_bool. unfold AMF3_INTEGER_MAX in *.
    rewrite u32_small by (unfold fits; lia). apply EncodeAmf3Integer_outputs. lia.
  - apply EncodeAmf3Double_outputs.
  - inversion Hok; subst. cbn [EncodeAmf3 amf3_bytes]. unfold EncodeAmf3String.
    eapply outputs_bind; [apply outputs_marker|]. rewrite len_app.
    apply (outputs_bind_ret _ (λ m, 1 + m)). by apply encodeAmf3Utf8_outputs.
  - inversion Hok as [| | | | | | | |? Hl Hall| | | |]; subst. apply EncodeAmf3Array_outputs.
    { unfold len in *. by rewrite length_map. }
    clear Hok Hl. induction l as [|v l IHl]; [constructor|]. inversion IH; inversion Hall; subst.
    simpl. constructor; auto.
  - inversion Hok; subst. by apply entries_encoded.
  - inversion Hok; subst. by apply entries_encoded.
  - inversion Hok as [| | | | | | | | |? Hl Hall| | |]; subst. apply EncodeAmf3Array_outputs.
    { unfold len in *. by rewrite length_map. }
    clear Hok Hl. induction b as [|x b IHb]; [constructor|]. inversion Hall; subst.
    simpl. constructor; [|by apply IHb]. apply EncodeAmf3Integer_outputs. unfold is_byte in *. lia.
  - cbn [EncodeAmf3 amf3_bytes]. unfold EncodeAmf3Date.
    change ([AMF3_DATE_MARKER; 1] ++ be_split 8 (float64_of_int (round53 u * 1000)))
      with ([AMF3_DATE_MARKER] ++ [1] ++ be_split 8 (float64_of_int (round53 u * 1000))).
    eapply outputs_bind; [apply outputs_marker|].
    eapply outputs_bind.
    { apply outputs_on_err. apply (outputs_bind_ret _ (λ _, tt) (len [1])), outputs_write. }
    apply (outputs_bind_ret _ (λ _, 1 + 1 + 8) tt), outputs_on_err, outputs_binary.
  - inversion Hok.
Qed.
End encode3_spec.

(** ** The decoder reads them back *)

Lemma on_w_ok {P W A} (m : go W A) (p : P) w a w' :
  m w = (Ok a, w') → on_w m (p, w) = (Ok a, (p, w')).
Proof. unfold on_w. by intros ->. Qed.

Lemma on_err_ok {S A} (m : go S A) g s a s' : m s = (Ok a, s') → on_err m g s = (Ok a, s').
Proof. unfold on_err. by intros ->. Qed.

(** [m] reads [b] and returns [v], whatever follows; with [ne] something has to follow. *)
Definition reads_if {A} (ne : bool) (m : go dec_state A) (b : bytes) (v : A) : Prop :=
  ∀ d rest, (ne = true → rest ≠ []) → ∃ d', m (d, b ++ rest) = (Ok v, (d', rest)).

Abbreviation reads := (reads_if true).

Section reads.
Context {ne : bool}.

Lemma reads_ret {A} (v : A) : reads_if ne (mret v) [] v.
Proof. intros d rest _. by exists d. Qed.

Lemma reads_bind {A B} (m : go dec_state A) (k : A → go dec_state B) b1 a b2 v :
  reads_if ne m b1 a → reads_if ne (k a) b2 v → reads_if ne (m ≫= k) (b1 ++ b2) v.
Proof.
  intros Hm Hk d rest Hr.
  destruct (Hm d (b2 ++ rest)) as (d1 & H1); [intros E; specialize (Hr E); by destruct b2, rest|].
  destruct (Hk d1 rest Hr) as (d2 & H2). exists d2. rewrite <- app_assoc.
  by erewrite go_bind_ok by exact H1.
Qed.

Lemma reads_eq {A} (m : go dec_state A) b v v' : v = v' → reads_if ne m b v → reads_if ne m b v'.
Proof. by intros ->. Qed.

Lemma reads_on_err {A} (m : go dec_state A) g b v :
  reads_if ne m b v → reads_if ne (on_err m g) b v.
Proof. intros Hm d rest Hr. destruct (Hm d rest Hr) as (d' & Hd). exists d'. by apply on_err_ok. Qed.

Lemma reads_on_w {A} (m : go bytes A) b v :
  (∀ rest, (ne = true → rest ≠ []) → m (b ++ rest) = (Ok v, rest)) → reads_if ne (on_w m) b v.
Proof. intros Hm d rest Hr. exists d. by apply on_w_ok, Hm. Qed.

Lemma reads_on_p f : reads_if ne (on_p (modify f)) [] tt.
Proof. intros d rest _. by exists (f d). Qed.

(** A step that reads nothing. *)
Lemma reads_after {A B} (m : go dec_state A) (k : A → go dec_state B) a b v :
  reads_if ne m [] a → reads_if ne (k a) b v → reads_if ne (m ≫= k) b v.
Proof. intros Hm Hk. exact (reads_bind m k [] a b v Hm Hk). Qed.

Lemma reads_then {A B} (m : go dec_state A) (f : A → B) a b :
  reads_if ne m b a → reads_if ne (x ← m; mret (f x)) b (f a).
Proof.
  intros Hm d rest Hr. destruct (Hm d rest Hr) as (d' & Hd). exists d'.
  by erewrite go_bind_ok by exact Hd.
Qed.

Lemma reads_fmap {A B} (m : go dec_state A) (f : A → B) a b :
  reads_if ne m b a → reads_if ne (f <$> m) b (f a).
Proof.
  intros Hm d rest Hr. destruct (Hm d rest Hr) as (d' & Hd). exists d'.
  unfold fmap, go_fmap. by rewrite Hd.
Qed.

Lemma array_loop_reads dec msg bs vs : Forall2 (reads_if ne dec) bs vs →
  ∀ fuel, (length bs ≤ fuel)%nat → reads_if ne (array_loop dec fuel msg (len bs)) (mjoin bs) vs.
Proof.
  induction 1 as [|b v bs vs Hb _ IH]; intros fuel Hf.
  { destruct fuel; apply reads_ret. }
  destruct fuel as [|fuel]; simpl in Hf; [lia|]. cbn [array_loop].
  assert (Hl : len (b :: bs) = len bs + 1) by (unfold len; simpl; lia).
  pose proof (len_nonneg bs). rewrite Hl, (proj2 (Z.leb_gt _ _)) by lia. rewrite mjoin_cons.
  eapply reads_bind; [by apply reads_on_err|].
  apply (reads_then _ (λ l, v :: l)). replace (len bs + 1 - 1) with (len bs) by lia. apply IH. lia.
Qed.

Lemma read_float_reads msg bits : fits 64 bits →
  reads_if ne (on_w (on_err (binary_Read_BE 8) msg)) (be_split 8 bits) bits.
Proof.
  intros Hb. apply reads_on_w. intros rest _. apply on_err_ok.
  unfold binary_Read_BE, fmap, go_fmap, io_ReadFull.
  rewrite (proj2 (Z.leb_le 8 _)) by (rewrite len_app; pose proof (len_nonneg rest); unfold len at 1;
    rewrite length_be_split; lia).
  change (Z.to_nat 8) with (length (be_split 8 bits)).
  rewrite take_app_length, drop_app_length, be_combine_split_small; [done|].
  change (256 ^ Z.of_nat 8) with (2 ^ 64). exact Hb.
Qed.
End reads.

Lemma decodeReferenceInt_bytes msg n : 0 ≤ n < 2 ^ 28 →
  reads (on_w (on_err decodeReferenceInt msg)) (u29_bytes (2 * n + 1)) (false, n).
Proof.
  intros Hn. apply reads_on_w. intros rest _. apply on_err_ok. unfold decodeReferenceInt.
  erewrite go_bind_ok by (apply on_err_ok, decodeU29_bytes; lia). unfold mret, go_ret.
  pose proof (Z.land_ones (2 * n + 1) 1 ltac:(lia)) as Hl. change (Z.ones 1) with 1 in Hl.
  rewrite Hl, Z.shiftr_div_pow2 by lia.
  change (2 ^ 1) with 2. rewrite (Z.mul_comm 2), Z.add_comm, Z.mod_add, Z.div_add by lia. done.
Qed.

Lemma reads_padded msg s : reads (on_w (on_err (read_padded (len s)) msg)) s s.
Proof.
  apply reads_on_w. intros rest Hr. apply on_err_ok. unfold read_padded.
  erewrite go_bind_ok.
  2: { unfold Reader_Read. destruct (s ++ rest) as [|x l] eqn:E; [specialize (Hr eq_refl); by destruct s, rest|].
    rewrite <- E. unfold len. rewrite Nat2Z.id, take_app_length, drop_app_length. reflexivity. }
  unfold mret, go_ret, copy_bytes. rewrite length_make_bytes. unfold len. rewrite Nat2Z.id.
  rewrite take_ge, drop_ge by (rewrite ?length_make_bytes; lia). by rewrite app_nil_r.
Qed.

Lemma DecodeAmf3String_bytes s : len s < 2 ^ 28 → reads (DecodeAmf3String false) (utf8_bytes s) s.
Proof.
  intros Hs. pose proof (len_nonneg s). unfold DecodeAmf3String, utf8_bytes.
  apply (reads_after _ _ tt); [by apply reads_on_w|].
  eapply reads_bind; [apply decodeReferenceInt_bytes; lia|]. cbv beta iota.
  rewrite <- (app_nil_r s) at 2.
  eapply reads_bind; [apply reads_padded|].
  apply (reads_after _ _ tt); [|apply reads_ret].
  destruct (decide (s = [])); [apply reads_ret|apply reads_on_p].
Qed.

Section decode3_loops.
Variable dec : go dec_state value.

Lemma props_loop_reads ks : Forall (λ k, len k < 2 ^ 28) ks →
  ∀ fuel, (length ks ≤ fuel)%nat → reads (props_loop fuel (len ks)) (mjoin (utf8_bytes <$> ks)) ks.
Proof.
  induction 1 as [|k ks Hk _ IH]; intros fuel Hf.
  { destruct fuel; apply reads_ret. }
  destruct fuel as [|fuel]; simpl in Hf; [lia|]. cbn [props_loop fmap list_fmap].
  assert (Hl : len (k :: ks) = len ks + 1) by (unfold len; simpl; lia).
  pose proof (len_nonneg ks). rewrite Hl, (proj2 (Z.leb_gt _ _)) by lia. rewrite mjoin_cons.
  eapply reads_bind; [by apply reads_on_err, DecodeAmf3String_bytes|].
  apply (reads_then _ (λ l, k :: l)). replace (len ks + 1 - 1) with (len ks) by lia. apply IH. lia.
Qed.

Lemma sealed_loop_reads (enc : bytes → bytes) (val : bytes → value) ks :
  Forall (λ k, reads dec (enc k) (val k)) ks → NoDup ks →
  ∀ obj, (∀ k, k ∈ ks → k ∉ obj.*1) →
  reads (sealed_loop dec ks obj) (mjoin (enc <$> ks)) (obj ++ ((λ k, (k, val k)) <$> ks)).
Proof.
  induction 1 as [|k ks Hk _ IH]; intros Hnd obj Hnew.
  { simpl. rewrite app_nil_r. apply reads_ret. }
  apply NoDup_cons in Hnd as [Hnk Hnd]. cbn [sealed_loop fmap list_fmap]. rewrite mjoin_cons.
  eapply reads_bind; [by apply reads_on_err|].
  rewrite obj_set_new by (apply Hnew; by left).
  replace (obj ++ (k, val k) :: ((λ k, (k, val k)) <$> ks))
    with ((obj ++ [(k, val k)]) ++ ((λ k, (k, val k)) <$> ks)) by by rewrite <- app_assoc.
  apply IH; [done|]. intros k' Hin. rewrite fmap_app. simpl.
  apply not_elem_of_app. split; [by apply Hnew; right|].
  intros ->%list_elem_of_singleton. done.
Qed.
End decode3_loops.

Lemma float_fits z : fits 64 (float64_of_int z).
Proof. apply wrap_fits. lia. Qed.

Lemma DecodeAmf3Integer_reads n : 0 ≤ n < 2 ^ 28 →
  reads (DecodeAmf3Integer false) (u29_bytes n) (VInt false n).
Proof.
  intros Hn. unfold DecodeAmf3Integer. apply (reads_after _ _ tt); [by apply reads_on_w|].
  assert (Hi : i32 n = n) by (apply swrap_small; lia).
  eapply (reads_eq _ _ (VInt false (if 0xfffffff <? i32 n then i32 (u32 (n - 0x20000000)) else i32 n))).
  { rewrite Hi, (proj2 (Z.ltb_ge _ _)) by lia. done. }
  apply (reads_then _ (λ u29, VInt false (if 0xfffffff <? i32 u29 then _ else i32 u29))).
  apply reads_on_w. intros rest _. apply decodeU29_bytes. lia.
Qed.

Lemma DecodeAmf3Double_reads bits : fits 64 bits →
  reads (DecodeAmf3Double false) (be_split 8 bits) (VFloat bits).
Proof.
  intros Hb. unfold DecodeAmf3Double. apply (reads_after _ _ tt); [by apply reads_on_w|].
  by apply (reads_then _ VFloat), read_float_reads.
Qed.

Lemma DecodeAmf3Date_reads bits : fits 64 bits →
  reads (DecodeAmf3Date false) ([1] ++ be_split 8 bits) (VDate (date_secs bits)).
Proof.
  intros Hb. unfold DecodeAmf3Date. apply (reads_after _ _ tt); [by apply reads_on_w|].
  change [1] with (u29_bytes (2 * 0 + 1)).
  eapply reads_bind; [apply decodeReferenceInt_bytes; lia|]. cbv beta iota.
  rewrite <- (app_nil_r (be_split 8 bits)).
  eapply reads_bind; [by apply read_float_reads|].
  apply (reads_after _ _ tt); [apply reads_on_p|apply reads_ret].
Qed.

Lemma DecodeAmf3Array_reads dec fuel bs vs : len bs < 2 ^ 28 → Forall2 (reads dec) bs vs →
  (length bs ≤ fuel)%nat →
  reads (DecodeAmf3Array dec fuel false) (tail (array_bytes bs)) (VArray vs).
Proof.
  intros Hl Hall Hf. pose proof (len_nonneg bs). unfold DecodeAmf3Array, array_bytes. cbn [app tail].
  apply (reads_after _ _ tt); [by apply reads_on_w|].
  eapply reads_bind; [apply decodeReferenceInt_bytes; lia|]. cbv beta iota.
  eapply reads_bind; [by apply reads_on_err, DecodeAmf3String_bytes|].
  rewrite bool_decide_true by done. cbn [negb]. rewrite <- (app_nil_r (mjoin bs)).
  eapply reads_bind; [by apply array_loop_reads|].
  apply (reads_after _ _ tt); [apply reads_on_p|apply reads_ret].
Qed.

Lemma trait_bits n : 0 ≤ n → let refVal := 8 * n + 1 in
  (Z.land refVal 1 =? 0) = false ∧ Z.land refVal 2 = 0 ∧ Z.land refVal 4 = 0 ∧
  Z.shiftr refVal 3 = n.
Proof.
  intros Hn refVal.
  assert (Hlow : ∀ k, 0 ≤ k < 8 → Z.land refVal k = Z.land 1 k).
  { intros k Hk. assert (Hkk : k = Z.land (Z.ones 3) k).
    { rewrite Z.land_comm, Z.land_ones by lia. symmetry. by apply Z.mod_small. }
    rewrite Hkk, !Z.land_assoc, !Z.land_ones by lia. f_equal. unfold refVal.
    rewrite Z.add_comm, Z.mul_comm, Z.mod_add by lia. done. }
  rewrite !Hlow by lia. split_and!; try done. unfold refVal. rewrite Z.shiftr_div_pow2 by lia.
  change (2 ^ 3) with 8. Z.div_mod_to_equations; lia.
Qed.

Lemma DecodeAmf3Object_reads dec h fuel ty encs (val : bytes → value) :
  NoDup encs.*1 → len encs < 2 ^ 25 → len ty < 2 ^ 28 → Forall (λ k, len k < 2 ^ 28) encs.*1 →
  (length encs ≤ fuel)%nat →
  (∀ k, k ∈ encs.*1 → reads dec (default [] (assoc k encs)) (val k)) →
  reads (DecodeAmf3Object dec h fuel false) (tail (object_bytes ty encs))
    (VObject ((λ k, (k, val k)) <$> sort_strings encs.*1)).
Proof.
  intros Hnd Hl Hty Hk Hf Hv. unfold DecodeAmf3Object, object_bytes. cbn [app tail].
  set (keys := sort_strings encs.*1). assert (Hp : keys ≡ₚ encs.*1) by apply merge_sort_Permutation.
  pose proof (len_nonneg keys) as Hnn.
  assert (Hlk : len keys = len encs) by (unfold len; by rewrite Hp, length_fmap).
  apply (reads_after _ _ tt); [by apply reads_on_w|].
  replace (16 * len keys + 3) with (2 * (8 * len keys + 1) + 1) by lia.
  eapply reads_bind; [apply decodeReferenceInt_bytes; lia|]. cbv beta iota.
  destruct (trait_bits (len keys) Hnn) as (H1 & H2 & H4 & H8).
  rewrite app_assoc. eapply (reads_bind _ _ _ (mkTrait ty false false keys)).
  { unfold decode_trait. rewrite H1, H2, H4, H8. cbn [negb Z.eqb].
    eapply reads_bind; [by apply reads_on_err, DecodeAmf3String_bytes|].
    rewrite <- (app_nil_r (mjoin _)). eapply reads_bind.
    { apply props_loop_reads; [by rewrite Hp|]. rewrite Hp, length_fmap. done. }
    apply (reads_after _ _ tt); [apply reads_on_p|apply reads_ret]. }
  apply (reads_after _ _ tt); [apply reads_on_p|]. cbn [Externalizable Dynamic Properties].
  rewrite <- (app_nil_r (mjoin _)). eapply reads_bind.
  { apply (sealed_loop_reads dec (λ k, default [] (assoc k encs)) val).
    - apply Forall_forall. intros k Hin. rewrite Hp in Hin. by apply Hv.
    - by rewrite Hp.
    - intros k _. apply not_elem_of_nil. }
  apply (reads_after _ _ ((λ k, (k, val k)) <$> keys)); apply reads_ret.
Qed.

Lemma DecodeAmf3_marked_reads h fuel m b v :
  reads (decodeAmf3_marked (DecodeAmf3_loop h fuel) h fuel m) b v →
  reads (DecodeAmf3_loop h (S fuel)) ([m] ++ b) v.
Proof. intros Hr. cbn [DecodeAmf3_loop]. eapply reads_bind; [by apply reads_on_w|exact Hr]. Qed.

(** *** All values *)

Lemma length_mjoin_elem {A} (x : list A) l : x ∈ l → (length x ≤ length (mjoin l))%nat.
Proof.
  induction l as [|y l IH]; [by intros ?%elem_of_nil|]. rewrite mjoin_cons, length_app.
  intros [->|Hin]%elem_of_cons; [lia|]. specialize (IH Hin). lia.
Qed.

Lemma length_mjoin_count {A} (l : list (list A)) : Forall (λ x, x ≠ []) l →
  (length l ≤ length (mjoin l))%nat.
Proof.
  induction 1 as [|x l Hx _ IH]; [done|]. rewrite mjoin_cons, length_app. simpl.
  destruct x; [done|simpl; lia].
Qed.

Lemma u29_bytes_pos n : u29_bytes n ≠ [].
Proof. unfold u29_bytes. repeat case_match; done. Qed.

Lemma utf8_bytes_pos s : utf8_bytes s ≠ [].
Proof. unfold utf8_bytes. intros [H _]%app_nil. by apply u29_bytes_pos in H. Qed.

Lemma amf3_bytes_pos v : amf3_ok v → amf3_bytes v ≠ [].
Proof. intros Hok. destruct Hok; cbn [amf3_bytes]; repeat case_match; done. Qed.

Lemma array_bytes_length bs fuel : (length (array_bytes bs) ≤ S fuel)%nat →
  (length (mjoin bs) ≤ fuel)%nat.
Proof. unfold array_bytes. rewrite !length_app. simpl. lia. Qed.

Lemma array_elements {A} h fuel (l : list A) (enc : A → bytes) (nv : A → value) :
  Forall (λ v, enc v ≠ [] ∧
    ((length (enc v) ≤ fuel)%nat → reads (DecodeAmf3_loop h fuel) (enc v) (nv v))) l →
  len l < 2 ^ 28 → (length (array_bytes (map enc l)) ≤ S fuel)%nat →
  reads (DecodeAmf3_loop h (S fuel)) (array_bytes (map enc l)) (VArray (map nv l)).
Proof.
  intros Hall Hl Hf%array_bytes_length. apply DecodeAmf3_marked_reads.
  change (array_bytes (map enc l)) with ([AMF3_ARRAY_MARKER] ++ tail (array_bytes (map enc l))) in *.
  cbn [app tail]. apply DecodeAmf3Array_reads.
  - unfold len in *. by rewrite length_map.
  - apply Forall2_fmap, Forall_Forall2_diag. rewrite Forall_forall in Hall |- *. intros v Hin.
    apply Hall; [done|]. etrans; [|exact Hf]. apply length_mjoin_elem.
    by apply list_elem_of_fmap_2.
  - etrans; [|exact Hf]. apply length_mjoin_count, Forall_fmap.
    eapply Forall_impl; [exact Hall|]. by intros v [? _].
Qed.

Lemma object_values h fuel ty (o : object) : entries_ok o → len ty < 2 ^ 28 →
  Forall (λ kv, (length (amf3_bytes kv.2) ≤ fuel)%nat →
    reads (DecodeAmf3_loop h fuel) (amf3_bytes kv.2) (amf3_norm kv.2)) o →
  let bs := map (λ '(k, v), (k, amf3_bytes v)) o in
  (length (object_bytes ty bs) ≤ S fuel)%nat →
  reads (DecodeAmf3_loop h (S fuel)) (object_bytes ty bs)
    (VObject (sorted_object (map (λ '(k, v), (k, amf3_norm v)) o))).
Proof.
  intros (Hn & Hl & Hk) Hty Hall bs Hf. unfold sorted_object.
  assert (Hkeys : bs.*1 = o.*1) by apply keys_map.
  rewrite keys_map, <- Hkeys.
  change (object_bytes ty bs) with ([AMF3_OBJECT_MARKER] ++ tail (object_bytes ty bs)).
  apply DecodeAmf3_marked_reads.
  unfold object_bytes in Hf. rewrite !length_app in Hf. cbn [length] in Hf.
  set (keys := sort_strings bs.*1) in *.
  assert (Hp : keys ≡ₚ bs.*1) by apply merge_sort_Permutation.
  apply DecodeAmf3Object_reads; rewrite ?Hkeys; try done.
  - unfold bs, len in *. by rewrite length_map.
  - assert (Hc : (length keys ≤ length (mjoin (utf8_bytes <$> keys)))%nat).
    { rewrite <- (length_fmap utf8_bytes keys) at 1. apply length_mjoin_count, Forall_fmap.
      apply Forall_true. intros k. apply utf8_bytes_pos. }
    assert (Hlen : length keys = length bs) by by rewrite Hp, length_fmap. lia.
  - intros k Hin. destruct (assoc_elem k o Hin) as (v & Hv & Hel).
    unfold bs. rewrite !assoc_map, Hv. rewrite Forall_forall in Hall. apply (Hall _ Hel). cbn [snd].
    assert (He : amf3_bytes v ∈ ((λ k, default [] (assoc k bs)) <$> keys)).
    { apply list_elem_of_fmap. exists k. unfold bs at 1. rewrite assoc_map, Hv.
      split; [done|]. by rewrite Hp, Hkeys. }
    apply length_mjoin_elem in He. lia.
Qed.

Lemma amf3_reads h v : ∀ fuel, amf3_ok v → (length (amf3_bytes v) ≤ fuel)%nat →
  reads (DecodeAmf3_loop h fuel) (amf3_bytes v) (amf3_norm v).
Proof.
  induction v as [|b|wide z|wide z|bits|s|l IH|o IH|ty o IH|b|u|m] using value_nested_ind;
    intros [|fuel] Hok Hf; pose proof (amf3_bytes_pos _ Hok) as Hpos;
    try (destruct (amf3_bytes _); simpl in Hf; [done|lia]); clear Hpos.
  - by apply (DecodeAmf3_marked_reads h fuel _ []), (reads_then _ (λ _, VNil) tt), reads_on_w.
  - destruct b.
    + by apply (DecodeAmf3_marked_reads h fuel _ []), (reads_then _ (λ _, VBool true) tt), reads_on_w.
    + by apply (DecodeAmf3_marked_reads h fuel _ []), (reads_then _ (λ _, VBool false) tt), reads_on_w.
  - cbn [amf3_bytes amf3_norm].
    inversion Hok as [| |? Hz| | | | | | | | | |]; subst; [destruct (_ && _) eqn:E; go_bool|].
    + apply DecodeAmf3_marked_reads, DecodeAmf3Integer_reads. unfold AMF3_INTEGER_MAX in *. lia.
    + apply DecodeAmf3_marked_reads, DecodeAmf3Double_reads, float_fits.
    + apply DecodeAmf3_marked_reads, DecodeAmf3Double_reads, float_fits.
  - cbn [amf3_bytes amf3_norm].
    inversion Hok as [| | |? Hp Hz| | | | | | | | |]; subst; [destruct (z <=? _) eqn:E; go_bool|].
    + apply DecodeAmf3_marked_reads, DecodeAmf3Integer_reads. unfold AMF3_INTEGER_MAX in *. lia.
    + apply DecodeAmf3_marked_reads, DecodeAmf3Double_reads, float_fits.
    + apply DecodeAmf3_marked_reads, DecodeAmf3Double_reads, float_fits.
  - inversion Hok; subst. by apply DecodeAmf3_marked_reads, DecodeAmf3Double_reads.
  - inversion Hok; subst. by apply DecodeAmf3_marked_reads, (reads_fmap _ VString), DecodeAmf3String_bytes.
  - inversion Hok as [| | | | | | | |? Hl Hall| | | |]; subst. apply array_elements; try done.
    rewrite Forall_forall in *. intros v Hin.
    split; [apply amf3_bytes_pos|apply IH]; auto.
  - inversion Hok as [| | | | | | | | | |? He Hall| |]; subst. apply object_values; try done.
    rewrite Forall_forall in *. intros kv Hin. apply IH; auto.
  - inversion Hok as [| | | | | | | | | | |? ? Hty He Hall|]; subst. apply object_values; try done.
    rewrite Forall_forall in *. intros kv Hin. apply IH; auto.
  - inversion Hok as [| | | | | | | | |? Hl Hall| | |]; subst. cbn [amf3_bytes amf3_norm].
    apply (array_elements h fuel b int_bytes (VInt false)); [|done|exact Hf].
    eapply Forall_impl; [exact Hall|]. intros x Hx. split; [done|]. intros Hlen.
    destruct fuel; [simpl in Hlen; lia|].
    apply DecodeAmf3_marked_reads, DecodeAmf3Integer_reads. unfold is_byte in Hx. lia.
  - cbn [amf3_bytes amf3_norm].
    change ([AMF3_DATE_MARKER; 1] ++ be_split 8 (float64_of_int (round53 u * 1000)))
      with ([AMF3_DATE_MARKER] ++ [1] ++ be_split 8 (float64_of_int (round53 u * 1000))).
    apply DecodeAmf3_marked_reads, DecodeAmf3Date_reads, float_fits.
  - inversion Hok.
Qed.

(** ** The decoder ends on every input *)

Lemma u29_loop_takes i : ∀ n r, takes length n (pred (S i) `min` 1) (u29_loop i r).
Proof.
  induction i as [|i IH]; intros n r; [apply takes_ret|]. cbn [u29_loop].
  eapply takes_bind; [apply ReadByte_takes|]. intros b.
  destruct (_ =? 0); [eapply takes_from; [apply takes_ret|lia]|].
  eapply takes_from; [apply IH|lia].
Qed.

Lemma decodeU29_takes n : takes length n 1 decodeU29.
Proof.
  unfold decodeU29. eapply takes_bind; [apply (u29_loop_takes 3)|]. intros [r []]; takes_go.
Qed.

Lemma decodeReferenceInt_takes n : takes length n 1 decodeReferenceInt.
Proof.
  unfold decodeReferenceInt. eapply takes_bind; [apply takes_on_err, decodeU29_takes|]. takes_go.
Qed.

Lemma read_padded_takes n i : takes length n 0 (read_padded i).
Proof. unfold read_padded. takes_go. Qed.

Lemma ref_at_takes {A} n (refs : Decoder → list A) i : takes left_dec n 0 (ref_at refs i).
Proof. unfold ref_at. takes_go. Qed.

#[export] Hint Resolve decodeU29_takes decodeReferenceInt_takes read_padded_takes
  @ref_at_takes : takes.

Lemma DecodeAmf3String_takes n b : takes left_dec n 1 (DecodeAmf3String b).
Proof. unfold DecodeAmf3String. takes_go. Qed.

#[export] Hint Resolve DecodeAmf3String_takes : takes.

Lemma DecodeAmf3Integer_takes n b : takes left_dec n 1 (DecodeAmf3Integer b).
Proof. unfold DecodeAmf3Integer. takes_go. Qed.

Lemma DecodeAmf3Double_takes n b : takes left_dec n 0 (DecodeAmf3Double b).
Proof.
  unfold DecodeAmf3Double. eapply takes_bind; [takes_call|]. intros _.
  eapply takes_bind; [by apply takes_on_w, takes_on_err, binary_Read_takes|]. takes_go.
Qed.

Lemma DecodeAmf3Date_takes n b : takes left_dec n 0 (DecodeAmf3Date b).
Proof.
  unfold DecodeAmf3Date. takes_go.
  eapply takes_from; [by apply binary_Read_takes|lia].
Qed.

Lemma DecodeAmf3Xml_takes n b : takes left_dec n 0 (DecodeAmf3Xml b).
Proof. unfold DecodeAmf3Xml. takes_go. Qed.

Lemma DecodeAmf3ByteArray_takes n b : takes left_dec n 0 (DecodeAmf3ByteArray b).
Proof. unfold DecodeAmf3ByteArray. takes_go. Qed.

#[export] Hint Resolve DecodeAmf3Integer_takes DecodeAmf3Double_takes DecodeAmf3Date_takes
  DecodeAmf3Xml_takes DecodeAmf3ByteArray_takes : takes.

Lemma readFlags_takes fuel : ∀ n, (n ≤ fuel)%nat → takes length n 1 (readFlags fuel).
Proof.
  induction fuel as [|fuel IH]; intros n Hn.
  { replace n with 0%nat by lia. apply takes_zero. }
  cbn [readFlags]. eapply takes_bind; [takes_call|]. intros flag.
  destruct (_ =? 0); [takes_go|]. eapply takes_bind; [apply IH; lia|]. takes_go.
Qed.

Section decode3_total.
Variable dec : go dec_state value.
Variable N : nat.
Hypothesis Hdec : ∀ n, (n ≤ N)%nat → takes left_dec n 1 dec.

Lemma array_loop_takes fuel msg : ∀ n i, (n ≤ fuel)%nat → (n ≤ N)%nat →
  takes left_dec n 0 (array_loop dec fuel msg i).
Proof.
  induction fuel as [|fuel IH]; intros n i Hf Hn; cbn [array_loop].
  { replace n with 0%nat by lia. apply takes_zero. }
  destruct (i <=? 0); [takes_go|]. eapply takes_bind; [by apply takes_on_err, Hdec|]. intros v.
  eapply (takes_bind _ _ _ 0); [apply IH; lia|]. takes_go.
Qed.

Lemma props_loop_takes fuel : ∀ n i, (n ≤ fuel)%nat → takes left_dec n 0 (props_loop fuel i).
Proof.
  induction fuel as [|fuel IH]; intros n i Hf; cbn [props_loop].
  { replace n with 0%nat by lia. apply takes_zero. }
  destruct (i <=? 0); [takes_go|]. eapply takes_bind; [takes_call|]. intros v.
  eapply (takes_bind _ _ _ 0); [apply IH; lia|]. takes_go.
Qed.

Lemma sealed_loop_takes keys : ∀ n obj, (n ≤ N)%nat → takes left_dec n 0 (sealed_loop dec keys obj).
Proof.
  induction keys as [|k keys IH]; intros n obj Hn; cbn [sealed_loop]; [takes_go|].
  eapply takes_bind; [by apply takes_on_err, Hdec|]. intros v. apply IH. lia.
Qed.

Lemma dynamic_loop_takes fuel : ∀ n obj, (n ≤ fuel)%nat → (n ≤ N)%nat →
  takes left_dec n 0 (dynamic_loop dec fuel obj).
Proof.
  induction fuel as [|fuel IH]; intros n obj Hf Hn; cbn [dynamic_loop].
  { replace n with 0%nat by lia. apply takes_zero. }
  eapply takes_bind; [takes_call|]. intros key. case_decide; [takes_go|].
  eapply takes_bind; [apply takes_on_err, Hdec; lia|]. intros v. apply IH; lia.
Qed.

Lemma external_fields_takes flags names : ∀ n p obj, (n ≤ N)%nat →
  takes left_dec n 0 (external_fields dec p flags names obj).
Proof.
  induction names as [|f names IH]; intros n p obj Hn; cbn [external_fields]; [takes_go|].
  apply (takes_bind _ _ _ 0); [|intros; apply IH; lia]. destruct (_ =? 0); [takes_go|].
  eapply takes_bind; [by apply takes_on_err, Hdec|]. takes_go.
Qed.

Lemma external_extra_takes i flags js : ∀ n obj, (n ≤ N)%nat →
  takes left_dec n 0 (external_extra dec i flags js obj).
Proof.
  induction js as [|j js IH]; intros n obj Hn; cbn [external_extra]; [takes_go|].
  apply (takes_bind _ _ _ 0); [|intros; apply IH; lia]. destruct (_ =? 0); [takes_go|].
  eapply takes_bind; [by apply takes_on_err, Hdec|]. takes_go.
Qed.

Lemma external_flags_takes flagSet : ∀ n i fieldSets obj, (n ≤ N)%nat →
  takes left_dec n 0 (external_flags dec i flagSet fieldSets obj).
Proof.
  induction flagSet as [|f flagSet IH]; intros n i sets obj Hn; cbn [external_flags]; [takes_go|].
  apply (takes_bind _ _ _ 0); [by apply external_fields_takes|]. intros obj1.
  apply (takes_bind _ _ _ 0); [|intros; apply IH; lia].
  destruct (_ =? 0); [takes_go|]. apply external_extra_takes. lia.
Qed.

Lemma decodeExternal_takes fuel n obj sets : (n ≤ fuel)%nat → (n ≤ N)%nat →
  takes left_dec n 0 (decodeExternal dec fuel obj sets).
Proof.
  intros Hf Hn. unfold decodeExternal. eapply takes_bind.
  { by apply takes_on_w, takes_on_err, readFlags_takes. }
  intros fl. apply external_flags_takes. lia.
Qed.

Lemma decodeAsyncMessage_takes fuel n : (n ≤ fuel)%nat → (n ≤ N)%nat →
  takes left_dec n 0 (decodeAsyncMessage dec fuel).
Proof.
  intros Hf Hn. unfold decodeAsyncMessage, decodeAbstractMessage.
  apply (takes_bind _ _ _ 0); [by repeat apply takes_on_err; apply decodeExternal_takes|].
  intros obj. apply takes_on_err, decodeExternal_takes; lia.
Qed.

Variable h : ext_handlers.
Hypothesis Hh : ∀ ty m n, h ty = Some m → takes left_dec n 0 m.

Lemma decode_externalizable_takes fuel n ty : (n ≤ fuel)%nat → (n ≤ N)%nat →
  takes left_dec n 0 (decode_externalizable dec h fuel ty).
Proof.
  intros Hf Hn. unfold decode_externalizable.
  repeat case_decide.
  - by apply takes_fmap, takes_on_err, decodeAsyncMessage_takes.
  - apply takes_fmap, takes_on_err. unfold decodeAcknowledgeMessageExt, decodeAcknowledgeMessage.
    apply (takes_bind _ _ _ 0); [by apply takes_on_err, decodeAsyncMessage_takes|].
    intros obj. apply takes_on_err, decodeExternal_takes; lia.
  - eapply takes_bind; [by apply takes_on_err, takes_on_err, Hdec|]. takes_go.
  - destruct (h ty) eqn:E; [|takes_go]. by eapply takes_on_err, Hh.
Qed.

Lemma DecodeAmf3Array_takes fuel n b : (n ≤ fuel)%nat → (n ≤ N)%nat →
  takes left_dec n 0 (DecodeAmf3Array dec fuel b).
Proof.
  intros Hf Hn. unfold DecodeAmf3Array. takes_go. apply array_loop_takes; lia.
Qed.

Lemma DecodeAmf3Object_takes fuel n b : (n ≤ fuel)%nat → (n ≤ N)%nat →
  takes left_dec n 0 (DecodeAmf3Object dec h fuel b).
Proof.
  intros Hf Hn. unfold DecodeAmf3Object. do 2 (eapply takes_bind; [takes_call|]; intros).
  destruct a0 as [[] refVal]; [takes_go|]. apply (takes_bind _ _ _ 0).
  { unfold decode_trait. takes_go. apply props_loop_takes. lia. }
  intros trait. eapply takes_bind; [takes_call|]. intros _.
  destruct (Externalizable trait); [apply decode_externalizable_takes; lia|].
  apply (takes_bind _ _ _ 0); [apply sealed_loop_takes; lia|]. intros obj.
  apply (takes_bind _ _ _ 0); [|takes_go].
  destruct (Dynamic trait); [|takes_go]. apply dynamic_loop_takes; lia.
Qed.

Lemma decodeAmf3_marked_takes fuel n marker : (n ≤ fuel)%nat → (n ≤ N)%nat →
  takes left_dec n 0 (decodeAmf3_marked dec h fuel marker).
Proof.
  intros Hf Hn. unfold decodeAmf3_marked.
  repeat (match goal with |- takes _ _ _ (if ?b then _ else _) => destruct b end;
    [first [by apply DecodeAmf3Array_takes | by apply DecodeAmf3Object_takes
      | unfold DecodeAmf3Undefined, DecodeAmf3Null, DecodeAmf3False, DecodeAmf3True; takes_go]|]).
  takes_go.
Qed.
End decode3_total.

Lemma DecodeAmf3_loop_takes h : (∀ ty m n, h ty = Some m → takes left_dec n 0 m) →
  ∀ fuel n, (n ≤ fuel)%nat → takes left_dec n 1 (DecodeAmf3_loop h fuel).
Proof.
  intros Hh fuel. induction fuel as [|fuel IH]; intros n Hn.
  { replace n with 0%nat by lia. apply takes_zero. }
  cbn [DecodeAmf3_loop]. eapply takes_bind; [apply takes_on_w, ReadByte_takes|]. intros marker.
  apply (decodeAmf3_marked_takes _ fuel); [exact IH|exact Hh|lia|lia].
Qed.

(** ** Properties *)

Lemma DecodeAmf3_bytes h v d rest : amf3_ok v → rest ≠ [] →
  ∃ d', DecodeAmf3 h (d, amf3_bytes v ++ rest) = (Ok (amf3_norm v), (d', rest)).
Proof.
  intros Hok Hr. apply amf3_reads; [done| |done]. simpl. rewrite length_app. lia.
Qed.

(** C18: An AMF3 value is encoded with the byte count the encoder reports; when at least one
    more byte follows, the decoder, whatever it has seen before, reads exactly these bytes
    and returns the normal form of the value.  The values are those of [amf3_ok]: trees of
    nil, booleans, strings, numbers, arrays, byte slices, dates and objects, with lengths
    within the format, without integers from 2^28 to 2^29 - 1, which come back negative,
    and with the keys of an object distinct.  The normal form [amf3_norm] is the value
    itself but for what the format does not keep: integers below zero or above 2^29 - 1 and
    those of 64 bits become floats, byte slices arrays of integers, typed objects objects,
    the entries of an object are sorted by their keys, and a date is what its float of
    milliseconds says.  At the very end of the input an empty string is not read back
    ([empty_string_at_end]). *)
Theorem amf3_roundtrip (W : Type) `{LawfulWriter W} (v : value) (w : W) h d rest :
  amf3_ok v → wr_ok w → rest ≠ [] →
  ∃ b w' d', EncodeAmf3 v w = (Ok (len b), w') ∧ wr_ok w' ∧ wr_stream w' = wr_stream w ++ b ∧
    DecodeAmf3 h (d, b ++ rest) = (Ok (amf3_norm v), (d', rest)).
Proof.
  intros Hok Hw Hr. destruct (EncodeAmf3_outputs v Hok w Hw) as (w' & He & Hw' & Hs).
  destruct (DecodeAmf3_bytes h v d rest Hok Hr) as (d' & Hd).
  by exists (amf3_bytes v), w', d'.
Qed.

(** An object with a list and a number. *)
Definition sample_amf3 : value :=
  VObject [(str "name", VString (str "live")); (str "ids", VArray [VInt false 300; VNil])].

Lemma amf3_roundtrip_witness :
  ∃ b w' d', EncodeAmf3 (W := bytes) sample_amf3 [] = (Ok (len b), w') ∧ w' = b ∧
    DecodeAmf3 no_handlers (NewDecoder, b ++ [1]) =
      (Ok (VObject [(str "ids", VArray [VInt false 300; VNil]); (str "name", VString (str "live"))]),
       (d', [1])).
Proof.
  assert (Hok : amf3_ok sample_amf3).
  { repeat first [constructor | lia | by vm_compute]; apply (bool_decide_unpack _); vm_compute; exact I. }
  destruct (amf3_roundtrip bytes sample_amf3 [] no_handlers NewDecoder [1] Hok)
    as (b & w' & d' & H1 & _ & H2 & H3); [exact I|done|].
  exists b, w', d'. split; [exact H1|]. split; [exact H2|]. exact H3.
Defined.

(** The AMF3 decoder ends on every input and every table of references, and takes at
    least the marker if it succeeds; its only panic is a reference out of range. *)
Lemma amf3_total (h : ext_handlers) (d : Decoder) (input : bytes) :
  (∀ ty m n, h ty = Some m → takes left_dec n 0 m) →
  outcome (eq IndexOutOfRange) (λ s', (length s'.2 ≤ length input)%nat)
    (λ _ s', (length s'.2 < length input)%nat) (DecodeAmf3 h) (d, input).
Proof.
  intros Hh. unfold DecodeAmf3. cbn [snd].
  eapply runs_mono; [by eapply DecodeAmf3_loop_takes; [exact Hh|reflexivity|]; unfold left_dec; simpl; lia
    |done|]. unfold left_dec. simpl. intros _ s'. lia.
Qed.

(** *** Behaviour outside the format *)

(** [AMF3_INTEGER_MAX] is twice too large: 2^28 comes back negative. *)
Example integer_max_is_negative :
  (DecodeAmf3 no_handlers (NewDecoder, amf3_bytes (VInt false (2 ^ 28)))).1
    = Ok (VInt false (- 2 ^ 28)).
Proof. vm_compute. reflexivity. Qed.

(** An empty string at the end of the input cannot be read. *)
Example empty_string_at_end :
  (DecodeAmf3 no_handlers (NewDecoder, amf3_bytes (VString []))).1
    = Err (Wrapf "amf3 decode: unable to read string: %s" EOF).
Proof. vm_compute. reflexivity. Qed.

(** A short string is filled up with zeros. *)
Example short_string_padded :
  (DecodeAmf3 no_handlers (NewDecoder, [6; 7; 0x61])).1 = Ok (VString [0x61; 0; 0]).
Proof. vm_compute. reflexivity. Qed.

Example string_reference_panics :
  (DecodeAmf3 no_handlers (NewDecoder, [6; 0])).1 = Panic IndexOutOfRange.
Proof. vm_compute. reflexivity. Qed.

(** A reference to an object is a reference to nothing. *)
Example object_reference_is_nil :
  (DecodeAmf3 no_handlers (NewDecoder, [9; 5; 1; 0x0a; 3; 1; 0x0a; 0])).1
    = Ok (VArray [VObject []; VNil]).
Proof. vm_compute. reflexivity. Qed.
