(* ===== verification/Amf0.v ===== *)
(** * AMF0 (src/protocol/amf/encoder_amf0.go, decoder_amf0.go, amf.go, metadata.go)

    The format of commands and metadata, batches of values, and the frame in front of
    metadata. *)
From S2P Require Import Prelude GoIO Amf Amf3.

#[local] Set Warnings "-register-all".

(** ** Encoder *)

Section encode0.
Context {W : Type} `{IoWriter W}.

Definition EncodeAmf0Number (bits : Z) (encodeMarker : bool) : go W Z :=
  n ← encode_marker encodeMarker AMF0_NUMBER_MARKER;
  _ ← binary_Write_BE 8 bits;
  mret (n + 8).

Definition EncodeAmf0Boolean (val encodeMarker : bool) : go W Z :=
  n ← encode_marker encodeMarker AMF0_BOOLEAN_MARKER;
  m ← io_Write [if val then AMF0_BOOLEAN_TRUE else AMF0_BOOLEAN_FALSE];
  mret (n + m).

Definition EncodeAmf0String (val : bytes) (encodeMarker : bool) : go W Z :=
  n ← encode_marker encodeMarker AMF0_STRING_MARKER;
  _ ← on_err (binary_Write_BE 2 (u16 (len val)))
        (Wrapf "encode amf0: unable to encode string length: %s");
  m ← on_err (io_Write val) (Wrapf "encode amf0: unable to encode string value: %s");
  mret (n + 2 + m).

Definition EncodeAmf0LongString (val : bytes) (encodeMarker : bool) : go W Z :=
  n ← encode_marker encodeMarker AMF0_LONG_STRING_MARKER;
  _ ← on_err (binary_Write_BE 4 (u32 (len val)))
        (Wrapf "encode amf0: unable to encode long string length: %s");
  m ← on_err (io_Write val) (Wrapf "encode amf0: unable to encode long string value: %s");
  mret (n + 4 + m).

Definition EncodeAmf0Null (encodeMarker : bool) : go W Z :=
  encode_marker encodeMarker AMF0_NULL_MARKER.
Definition EncodeAmf0Undefined (encodeMarker : bool) : go W Z :=
  encode_marker encodeMarker AMF0_UNDEFINED_MARKER.
Definition EncodeAmf0Unsupported (encodeMarker : bool) : go W Z :=
  encode_marker encodeMarker AMF0_UNSUPPORTED_MARKER.
Definition EncodeAmf0Amf3Marker : go W unit := WriteMarker AMF0_ACMPLUS_OBJECT_MARKER.

(** The entries of an object in the order of the iteration. *)
Fixpoint encode_entries (encs : list (bytes * go W Z)) : go W Z :=
  match encs with
  | [] => mret 0
  | (k, enc) :: encs =>
      m1 ← on_err (EncodeAmf0String k false) (Wrapf "encode amf0: unable to encode object key: %s");
      m2 ← on_err enc (Wrapf "encode amf0: unable to encode object value: %s");
      m3 ← encode_entries encs;
      mret (m1 + m2 + m3)
  end.

Definition EncodeAmf0Object (encs : list (bytes * go W Z)) (encodeMarker : bool) : go W Z :=
  n ← encode_marker encodeMarker AMF0_OBJECT_MARKER;
  m1 ← encode_entries encs;
  m2 ← on_err (EncodeAmf0String [] false)
         (Wrapf "encode amf0: unable to encode object empty string: %s");
  _ ← on_err (WriteMarker AMF0_OBJECT_END_MARKER)
        (Wrapf "encode amf0: unable to object end marker: %s");
  mret (n + m1 + m2 + 1).

Definition EncodeAmf0EcmaArray (encs : list (bytes * go W Z)) (encodeMarker : bool) : go W Z :=
  n ← encode_marker encodeMarker AMF0_ECMA_ARRAY_MARKER;
  _ ← on_err (binary_Write_BE 4 (u32 (len encs)))
        (Wrapf "encode amf0: unable to encode ecma array length: %s");
  m ← on_err (EncodeAmf0Object encs false)
        (Wrapf "encode amf0: unable to encode ecma array object: %s");
  mret (n + 4 + m).

Definition EncodeAmf0StrictArray (encs : list (go W Z)) (encodeMarker : bool) : go W Z :=
  n ← encode_marker encodeMarker AMF0_STRICT_ARRAY_MARKER;
  _ ← on_err (binary_Write_BE 4 (u32 (len encs)))
        (Wrapf "encode amf0: unable to encode strict array length: %s");
  m ← encode_all "encode amf0: unable to encode strict array element: %s" encs;
  mret (n + 4 + m).

Fixpoint EncodeAmf0 (val : value) : go W Z :=
  match val with
  | VNil => EncodeAmf0Null true
  | VString s =>
      if len s <=? AMF0_STRING_MAX then EncodeAmf0String s true else EncodeAmf0LongString s true
  | VBool b => EncodeAmf0Boolean b true
  | VInt _ n | VUint _ n => EncodeAmf0Number (float64_of_int n) true
  | VFloat bits => EncodeAmf0Number bits true
  | VArray l => EncodeAmf0StrictArray (map EncodeAmf0 l) true
  | VBytes b =>
      EncodeAmf0StrictArray (map (λ x, EncodeAmf0Number (float64_of_int x) true) b) true
  | VObject o => EncodeAmf0Object (map (λ '(k, v), (k, EncodeAmf0 v)) o) true
  | VOther true => fail (Errorf "encode amf0: unable to create object from map")
  | VTyped _ _ => fail (Errorf "encode amf0: unsupported type typed object")
  | VDate _ | VOther false => fail (Errorf "encode amf0: unsupported type %s")
  end.
End encode0.

(** ** Decoder *)

Definition cache_ref : go dec_state unit :=
  on_p (modify (λ d, mkDecoder (refCache d + 1) (stringRefs d) (objectRefs d) (traitRefs d))).

Definition DecodeAmf0Number (decodeMarker : bool) : go bytes Z :=
  _ ← AssertMarker decodeMarker AMF0_NUMBER_MARKER;
  on_err (binary_Read_BE 8) (Wrapf "amf0 decode: unable to read number: %s").

Definition DecodeAmf0Boolean (decodeMarker : bool) : go bytes bool :=
  _ ← AssertMarker decodeMarker AMF0_BOOLEAN_MARKER;
  b ← ReadByte;
  if b =? AMF0_BOOLEAN_FALSE then mret false
  else if b =? AMF0_BOOLEAN_TRUE then mret true
  else fail (Errorf "decode amf0: unexpected value %v for boolean").

Definition DecodeAmf0String (decodeMarker : bool) : go bytes bytes :=
  _ ← AssertMarker decodeMarker AMF0_STRING_MARKER;
  length ← on_err (binary_Read_BE 2) (Wrapf "decode amf0: unable to decode string length: %s");
  if length =? 0 then mret []
  else on_err (ReadBytes length) (Wrapf "decode amf0: unable to decode string value: %s").

Definition DecodeAmf0LongString (decodeMarker : bool) : go bytes bytes :=
  _ ← AssertMarker decodeMarker AMF0_LONG_STRING_MARKER;
  length ← on_err (binary_Read_BE 4)
             (Wrapf "decode amf0: unable to decode long string length: %s");
  on_err (ReadBytes length) (Wrapf "decode amf0: unable to decode long string value: %s").

Definition DecodeAmf0Null (decodeMarker : bool) : go bytes value :=
  _ ← AssertMarker decodeMarker AMF0_NULL_MARKER; mret VNil.
Definition DecodeAmf0Undefined (decodeMarker : bool) : go bytes value :=
  _ ← AssertMarker decodeMarker AMF0_UNDEFINED_MARKER; mret VNil.
Definition DecodeAmf0Unsupported (decodeMarker : bool) : go bytes value :=
  _ ← AssertMarker decodeMarker AMF0_UNSUPPORTED_MARKER; mret VNil.

Definition DecodeAmf0Date (decodeMarker : bool) : go bytes Z :=
  _ ← AssertMarker decodeMarker AMF0_DATE_MARKER;
  result ← on_err (DecodeAmf0Number false)
             (Wrapf "decode amf0: unable to decode float in date: %s");
  _ ← on_err (ReadBytes 2) (Wrapf "decode amf0: unable to read 2 trail bytes in date: %s");
  mret result.

Definition DecodeAmf0XmlDocument (decodeMarker : bool) : go bytes bytes :=
  _ ← AssertMarker decodeMarker AMF0_XML_DOCUMENT_MARKER;
  DecodeAmf0LongString false.

Section decode0_loops.
Variable dec : go dec_state value.

Fixpoint object_loop (fuel : nat) (result : object) : go dec_state object :=
  match fuel with
  | O => λ s, (OutOfFuel, s)
  | S fuel =>
      key ← on_w (DecodeAmf0String false);
      if decide (key = []) then
        _ ← on_w (on_err (AssertMarker true AMF0_OBJECT_END_MARKER)
              (Wrapf "decode amf0: expected object end marker: %s"));
        mret result
      else
        value ← on_err dec (Wrapf "decode amf0: unable to decode object value: %s");
        object_loop fuel (obj_set key value result)
  end.

Definition DecodeAmf0Object (fuel : nat) (decodeMarker : bool) : go dec_state object :=
  _ ← on_w (AssertMarker decodeMarker AMF0_OBJECT_MARKER);
  _ ← cache_ref;
  object_loop fuel [].

(** An error in the length is overwritten by the result of the object. *)
Definition DecodeAmf0EcmaArray (fuel : nat) (decodeMarker : bool) : go dec_state object :=
  _ ← on_w (AssertMarker decodeMarker AMF0_ECMA_ARRAY_MARKER);
  _ ← on_w (ignore_err 0 (binary_Read_BE 4));
  on_err (DecodeAmf0Object fuel false)
    (Wrapf "decode amf0: unable to decode ecma array object: %s").

Definition DecodeAmf0StrictArray (fuel : nat) (decodeMarker : bool) : go dec_state (list value) :=
  _ ← on_w (AssertMarker decodeMarker AMF0_STRICT_ARRAY_MARKER);
  length ← on_w (on_err (binary_Read_BE 4)
    (Wrapf "decode amf0: unable to decode strict array length: %s"));
  _ ← cache_ref;
  array_loop dec fuel "decode amf0: unable to decode strict array object: %s" length.

Definition DecodeAmf0TypedObject (fuel : nat) (decodeMarker : bool) : go dec_state value :=
  _ ← on_w (AssertMarker decodeMarker AMF0_TYPED_OBJECT_MARKER);
  _ ← cache_ref;
  ty ← on_w (on_err (DecodeAmf0String false)
    (Wrapf "decode amf0: typed object unable to determine type: %s"));
  o ← on_err (DecodeAmf0Object fuel false)
    (Wrapf "decode amf0: typed object unable to determine object: %s");
  mret (VTyped ty o).

Variable externalHandlers : ext_handlers.

(** The switch on the marker. *)
Definition decodeAmf0_marked (fuel : nat) (marker : Z) : go dec_state value :=
  if marker =? AMF0_NUMBER_MARKER then VFloat <$> on_w (DecodeAmf0Number false)
  else if marker =? AMF0_BOOLEAN_MARKER then VBool <$> on_w (DecodeAmf0Boolean false)
  else if marker =? AMF0_STRING_MARKER then VString <$> on_w (DecodeAmf0String false)
  else if marker =? AMF0_OBJECT_MARKER then VObject <$> DecodeAmf0Object fuel false
  else if marker =? AMF0_MOVIECLIP_MARKER then
    fail (Errorf "decode amf0: unsupported type movieclip")
  else if marker =? AMF0_NULL_MARKER then on_w (DecodeAmf0Null false)
  else if marker =? AMF0_UNDEFINED_MARKER then on_w (DecodeAmf0Undefined false)
  else if marker =? AMF0_REFERENCE_MARKER then
    fail (Errorf "decode amf0: unsupported type reference")
  else if marker =? AMF0_ECMA_ARRAY_MARKER then VObject <$> DecodeAmf0EcmaArray fuel false
  else if marker =? AMF0_STRICT_ARRAY_MARKER then VArray <$> DecodeAmf0StrictArray fuel false
  else if marker =? AMF0_DATE_MARKER then VFloat <$> on_w (DecodeAmf0Date false)
  else if marker =? AMF0_LONG_STRING_MARKER then VString <$> on_w (DecodeAmf0LongString false)
  else if marker =? AMF0_UNSUPPORTED_MARKER then on_w (DecodeAmf0Unsupported false)
  else if marker =? AMF0_RECORDSET_MARKER then
    fail (Errorf "decode amf0: unsupported type recordset")
  else if marker =? AMF0_XML_DOCUMENT_MARKER then VString <$> on_w (DecodeAmf0XmlDocument false)
  else if marker =? AMF0_TYPED_OBJECT_MARKER then DecodeAmf0TypedObject fuel false
  else if marker =? AMF0_ACMPLUS_OBJECT_MARKER then DecodeAmf3 externalHandlers
  else fail (Errorf "decode amf0: unsupported type %d").
End decode0_loops.

(** [fuel] bounds the calls nested in each other: each one takes a byte. *)
Fixpoint DecodeAmf0_loop (h : ext_handlers) (fuel : nat) : go dec_state value :=
  match fuel with
  | O => λ s, (OutOfFuel, s)
  | S fuel =>
      marker ← on_w ReadMarker;
      decodeAmf0_marked (DecodeAmf0_loop h fuel) h fuel marker
  end.

Definition DecodeAmf0 (h : ext_handlers) : go dec_state value := λ s,
  DecodeAmf0_loop h (S (length s.2)) s.

(** ** Versions and batches *)

Definition amf_Decode (h : ext_handlers) (ver : Z) : go dec_state value :=
  if ver =? AMF0 then DecodeAmf0 h
  else if ver =? AMF3 then DecodeAmf3 h
  else fail (Errorf "decode amf: unsupported version %d").

(** The values decoded before the error that ends the loop, and the error. *)
Fixpoint decode_batch_loop (h : ext_handlers) (fuel : nat) (ver : Z)
    : go dec_state (list value * error) :=
  match fuel with
  | O => λ s, (OutOfFuel, s)
  | S fuel =>
      r ← try (amf_Decode h ver);
      match r with
      | inr e => mret ([], e)
      | inl v =>
          '(vs, e) ← decode_batch_loop h fuel ver;
          mret (v :: vs, e)
      end
  end.

Definition DecodeBatch (h : ext_handlers) (ver : Z) : go dec_state (list value * error) := λ s,
  decode_batch_loop h (S (length s.2)) ver s.

Section encode_any.
Context {W : Type} `{IoWriter W}.

Definition amf_Encode (val : value) (ver : Z) : go W Z :=
  if ver =? AMF0 then EncodeAmf0 val
  else if ver =? AMF3 then EncodeAmf3 val
  else fail (Errorf "encode amf: unsupported version %d").

Fixpoint EncodeBatch (ver : Z) (vals : list value) : go W Z :=
  match vals with
  | [] => mret 0
  | v :: vals =>
      _ ← amf_Encode v ver;
      EncodeBatch ver vals
  end.
End encode_any.

(** ** Metadata *)

Definition ADD : Z := 0x0.
Definition DEL : Z := 0x3.
Definition SetDataFrame : bytes := str "@setDataFrame".
Definition OnMetaData : bytes := str "onMetaData".

(** What [init] computes. *)
Definition setFrameFrame : bytes := (amf_Encode (W := bytes) (VString SetDataFrame) AMF0 []).2.

Definition MetaDataReform (p : bytes) (flag : Z) : res bytes :=
  if flag =? ADD then
    v ← (amf_Decode no_handlers AMF0 (NewDecoder, p)).1;
    match v with
    | VString vv => if decide (vv = SetDataFrame) then Ok p else Ok (setFrameFrame ++ p)
    | _ => Err (Errorf "setFrameFrame error")
    end
  else if flag =? DEL then
    v ← (amf_Decode no_handlers AMF0 (NewDecoder, p)).1;
    match v with
    | VString vv => if decide (vv = SetDataFrame) then slice_from p (len setFrameFrame) else Ok p
    | _ => Err (Errorf "metadata error")
    end
  else Err (Errorf "invalid flag:%d").

(** ** The encoding as bytes *)

Definition key_bytes (k : bytes) : bytes := be_split 2 (len k) ++ k.

Definition entries_bytes (encs : list (bytes * bytes)) : bytes :=
  mjoin ((λ '(k, b), key_bytes k ++ b) <$> encs) ++ key_bytes [] ++ [AMF0_OBJECT_END_MARKER].

Definition strict_bytes (encs : list bytes) : bytes :=
  [AMF0_STRICT_ARRAY_MARKER] ++ be_split 4 (len encs) ++ mjoin encs.

Definition number_bytes (bits : Z) : bytes := [AMF0_NUMBER_MARKER] ++ be_split 8 bits.

Fixpoint amf0_bytes (v : value) : bytes :=
  match v with
  | VNil => [AMF0_NULL_MARKER]
  | VBool b => [AMF0_BOOLEAN_MARKER; if b then AMF0_BOOLEAN_TRUE else AMF0_BOOLEAN_FALSE]
  | VInt _ n | VUint _ n => number_bytes (float64_of_int n)
  | VFloat bits => number_bytes bits
  | VString s =>
      if len s <=? AMF0_STRING_MAX then [AMF0_STRING_MARKER] ++ key_bytes s
      else [AMF0_LONG_STRING_MARKER] ++ be_split 4 (len s) ++ s
  | VArray l => strict_bytes (map amf0_bytes l)
  | VBytes b => strict_bytes (map (λ x, number_bytes (float64_of_int x)) b)
  | VObject o =>
      [AMF0_OBJECT_MARKER] ++ entries_bytes (map (λ '(k, v), (k, amf0_bytes v)) o)
  | _ => []
  end.

(** What the decoder makes of the bytes: every number is a float. *)
Fixpoint amf0_norm (v : value) : value :=
  match v with
  | VInt _ n | VUint _ n => VFloat (float64_of_int n)
  | VArray l => VArray (map amf0_norm l)
  | VBytes b => VArray (map (λ x, VFloat (float64_of_int x)) b)
  | VObject o => VObject (map (λ '(k, v), (k, amf0_norm v)) o)
  | v => v
  end.

(** A key is a short string, and not the empty one that ends an object. *)
Definition keys_ok (o : object) : Prop :=
  NoDup o.*1 ∧ Forall (λ k, k ≠ [] ∧ len k < 65536) o.*1.

Inductive amf0_ok : value → Prop :=
  | ok0_nil : amf0_ok VNil
  | ok0_bool b : amf0_ok (VBool b)
  | ok0_int wide n : amf0_ok (VInt wide n)
  | ok0_uint wide n : amf0_ok (VUint wide n)
  | ok0_float bits : fits 64 bits → amf0_ok (VFloat bits)
  | ok0_string s : len s < 2 ^ 32 → amf0_ok (VString s)
  | ok0_array l : len l < 2 ^ 32 → Forall amf0_ok l → amf0_ok (VArray l)
  | ok0_bytes b : len b < 2 ^ 32 → amf0_ok (VBytes b)
  | ok0_object o : keys_ok o → Forall (λ kv, amf0_ok kv.2) o → amf0_ok (VObject o).

(** ** The encoder writes these bytes *)

Section encode0_out.
Context {W : Type} `{LawfulWriter W}.

Lemma EncodeAmf0Number_outputs bits :
  outputs (EncodeAmf0Number bits true) (len (number_bytes bits)) (number_bytes bits).
Proof.
  unfold EncodeAmf0Number, number_bytes. eapply outputs_bind; [apply outputs_marker|].
  apply (outputs_bind_ret _ (λ _, 9) tt), outputs_binary.
Qed.

Lemma EncodeAmf0String_outputs s : len s < 65536 →
  outputs (EncodeAmf0String s false) (len (key_bytes s)) (key_bytes s) ∧
  outputs (EncodeAmf0String s true) (len ([AMF0_STRING_MARKER] ++ key_bytes s))
    ([AMF0_STRING_MARKER] ++ key_bytes s).
Proof.
  intros Hs. pose proof (len_nonneg s). unfold EncodeAmf0String, key_bytes.
  rewrite (u16_small (len s)) by (unfold fits; lia). split.
  - rewrite <- (app_nil_l (be_split 2 _ ++ s)). eapply outputs_bind; [apply outputs_no_marker|].
    eapply outputs_bind; [apply outputs_on_err, outputs_binary|].
    eapply outputs_eq; [|reflexivity|]. 2: apply (outputs_bind_ret _ (λ m, 2 + m)), outputs_on_err, outputs_write.
    by rewrite !len_app, Z.add_assoc.
  - eapply outputs_bind; [apply outputs_marker|].
    eapply outputs_bind; [apply outputs_on_err, outputs_binary|].
    eapply outputs_eq; [|reflexivity|]. 2: apply (outputs_bind_ret _ (λ m, 3 + m)), outputs_on_err, outputs_write.
    by rewrite !len_app, Z.add_assoc.
Qed.

Lemma EncodeAmf0LongString_outputs s : len s < 2 ^ 32 →
  outputs (EncodeAmf0LongString s true)
    (len ([AMF0_LONG_STRING_MARKER] ++ be_split 4 (len s) ++ s))
    ([AMF0_LONG_STRING_MARKER] ++ be_split 4 (len s) ++ s).
Proof.
  intros Hs. pose proof (len_nonneg s). unfold EncodeAmf0LongString.
  rewrite (u32_small (len s)) by (unfold fits; lia).
  eapply outputs_bind; [apply outputs_marker|].
  eapply outputs_bind; [apply outputs_on_err, outputs_binary|].
  eapply outputs_eq; [|reflexivity|]. 2: apply (outputs_bind_ret _ (λ m, 5 + m)), outputs_on_err, outputs_write.
  by rewrite !len_app, Z.add_assoc.
Qed.

Lemma EncodeAmf0StrictArray_outputs encs bs : len bs < 2 ^ 32 →
  Forall2 (λ m b, outputs m (len b) b) encs bs →
  outputs (EncodeAmf0StrictArray encs true) (len (strict_bytes bs)) (strict_bytes bs).
Proof.
  intros Hl Hall. pose proof (len_nonneg bs).
  assert (Hlen : len encs = len bs) by (unfold len; by rewrite (Forall2_length _ _ _ Hall)).
  unfold EncodeAmf0StrictArray, strict_bytes. rewrite Hlen, u32_small by (unfold fits; lia).
  eapply outputs_bind; [apply outputs_marker|].
  eapply outputs_bind; [apply outputs_on_err, outputs_binary|].
  eapply outputs_eq; [|reflexivity|]. 2: apply (outputs_bind_ret _ (λ m, 5 + m)), encode_all_outputs, Hall.
  by rewrite !len_app, Z.add_assoc.
Qed.

Lemma encode_entries_outputs encs bs :
  Forall2 (λ e b, e.1 = b.1 ∧ len b.1 < 65536 ∧ outputs e.2 (len b.2) b.2) encs bs →
  let out := mjoin ((λ '(k, b), key_bytes k ++ b) <$> bs) in
  outputs (encode_entries encs) (len out) out.
Proof.
  induction 1 as [|[k m] [k' b] encs bs (Hk & Hl & Hm) _ IH]; [apply outputs_ret|].
  simpl in Hk, Hl, Hm. subst k'. cbn [encode_entries fmap list_fmap]. cbv zeta in *.
  rewrite mjoin_cons, <- app_assoc. eapply outputs_bind; [by apply outputs_on_err, EncodeAmf0String_outputs|].
  eapply outputs_bind; [by apply outputs_on_err|].
  eapply outputs_eq; [|reflexivity|]. 2: apply (outputs_bind_ret _ (λ n, len (key_bytes k) + len b + n)), IH.
  rewrite !len_app. lia.
Qed.

Lemma EncodeAmf0Object_outputs encs bs :
  Forall2 (λ e b, e.1 = b.1 ∧ len b.1 < 65536 ∧ outputs e.2 (len b.2) b.2) encs bs →
  outputs (EncodeAmf0Object encs false) (len (entries_bytes bs)) (entries_bytes bs) ∧
  outputs (EncodeAmf0Object encs true) (len ([AMF0_OBJECT_MARKER] ++ entries_bytes bs))
    ([AMF0_OBJECT_MARKER] ++ entries_bytes bs).
Proof.
  intros Hall. pose proof (encode_entries_outputs encs bs Hall) as He. cbv zeta in He.
  unfold EncodeAmf0Object, entries_bytes.
  set (es := mjoin _) in *.
  assert (Hrest : ∀ n, outputs (m1 ← encode_entries encs;
    m2 ← on_err (EncodeAmf0String [] false)
           (Wrapf "encode amf0: unable to encode object empty string: %s");
    _ ← on_err (WriteMarker AMF0_OBJECT_END_MARKER)
          (Wrapf "encode amf0: unable to object end marker: %s");
    mret (n + m1 + m2 + 1)) (n + len es + 2 + 1) (es ++ key_bytes [] ++ [AMF0_OBJECT_END_MARKER])).
  { intros n. eapply outputs_bind; [exact He|].
    eapply outputs_bind; [by apply outputs_on_err, EncodeAmf0String_outputs|].
    apply (outputs_bind_ret _ (λ _, n + len es + 2 + 1) tt), outputs_on_err.
    apply (outputs_bind_ret _ (λ _, tt) 1), outputs_write. }
  assert (Hlen : len (es ++ key_bytes [] ++ [AMF0_OBJECT_END_MARKER]) = len es + 2 + 1)
    by (rewrite len_app; change (len (key_bytes [] ++ [AMF0_OBJECT_END_MARKER])) with 3; lia).
  split.
  - eapply outputs_eq; [| |eapply outputs_bind; [apply outputs_no_marker|apply Hrest]]; [|done].
    rewrite Hlen. lia.
  - eapply outputs_eq; [| |eapply outputs_bind; [apply outputs_marker|apply Hrest]]; [|done].
    rewrite len_app, Hlen. change (len [AMF0_OBJECT_MARKER]) with 1. lia.
Qed.

Lemma entries_outputs (o : object) : keys_ok o →
  Forall (λ kv, amf0_ok kv.2 → outputs (EncodeAmf0 kv.2) (len (amf0_bytes kv.2)) (amf0_bytes kv.2)) o →
  Forall (λ kv, amf0_ok kv.2) o →
  Forall2 (λ e b, e.1 = b.1 ∧ len b.1 < 65536 ∧ outputs e.2 (len b.2) b.2)
    (map (λ '(k, v), (k, EncodeAmf0 v)) o) (map (λ '(k, v), (k, amf0_bytes v)) o).
Proof.
  intros [_ Hk] IH Hok. induction o as [|[k v] o IHo]; [constructor|].
  inversion Hk as [|? ? [_ H1] H2]; inversion IH; inversion Hok; subst. simpl.
  constructor; [|by apply IHo]. simpl in *. auto.
Qed.

Lemma EncodeAmf0_outputs v : amf0_ok v → outputs (EncodeAmf0 v) (len (amf0_bytes v)) (amf0_bytes v).
Proof.
  induction v as [|b|wide z|wide z|bits|s|l IH|o IH|ty o IH|b|u|m] using value_nested_ind;
    intros Hok; try (exfalso; by inversion Hok).
  - apply outputs_marker.
  - cbn [EncodeAmf0 amf0_bytes]. unfold EncodeAmf0Boolean.
    set (x := if b then _ else _). change [AMF0_BOOLEAN_MARKER; x] with ([AMF0_BOOLEAN_MARKER] ++ [x]).
    eapply outputs_bind; [apply outputs_marker|].
    apply (outputs_bind_ret _ (λ m, 1 + m) 1), outputs_write.
  - apply EncodeAmf0Number_outputs.
  - apply EncodeAmf0Number_outputs.
  - apply EncodeAmf0Number_outputs.
  - inversion Hok; subst. cbn [EncodeAmf0 amf0_bytes]. unfold AMF0_STRING_MAX.
    destruct (len s <=? 65535) eqn:E; go_bool; [apply EncodeAmf0String_outputs; lia|].
    by apply EncodeAmf0LongString_outputs.
  - inversion Hok as [| | | | | |? Hl Hall| |]; subst. apply EncodeAmf0StrictArray_outputs.
    { unfold len in *. by rewrite length_map. }
    apply Forall2_fmap, Forall_Forall2_diag. rewrite Forall_forall in *. auto.
  - inversion Hok as [| | | | | | | |? Hk Hall]; subst.
    by apply EncodeAmf0Object_outputs, entries_outputs.
  - inversion Hok as [| | | | | | |? Hl|]; subst. apply EncodeAmf0StrictArray_outputs.
    { unfold len in *. by rewrite length_map. }
    apply Forall2_fmap, Forall_Forall2_diag, Forall_true. intros x. apply EncodeAmf0Number_outputs.
Qed.
End encode0_out.

(** ** The decoder reads them back *)

Abbreviation reads_any := (reads_if false).

Lemma binary_Read_split (n : nat) x rest : 0 ≤ x < 256 ^ Z.of_nat n →
  binary_Read_BE (Z.of_nat n) (be_split n x ++ rest) = (Ok x, rest).
Proof.
  intros Hx. unfold binary_Read_BE, fmap, go_fmap, io_ReadFull.
  rewrite (proj2 (Z.leb_le _ _)).
  2: { rewrite len_app. pose proof (len_nonneg rest). unfold len at 1. rewrite length_be_split. lia. }
  rewrite Nat2Z.id. pose proof (take_app_length (be_split n x) rest) as Ht.
  pose proof (drop_app_length (be_split n x) rest) as Hd. rewrite length_be_split in Ht, Hd.
  by rewrite Ht, Hd, be_combine_split_small.
Qed.

Lemma ReadBytes_app s rest : s ≠ [] → ReadBytes (len s) (s ++ rest) = (Ok s, rest).
Proof.
  intros Hs. unfold ReadBytes. erewrite go_bind_ok.
  2: { unfold Reader_Read. destruct (s ++ rest) as [|x l] eqn:E; [by destruct s|].
    rewrite <- E. unfold len. rewrite Nat2Z.id, take_app_length, drop_app_length. reflexivity. }
  by rewrite Z.eqb_refl.
Qed.

Lemma DecodeAmf0String_key s rest : len s < 65536 →
  DecodeAmf0String false (key_bytes s ++ rest) = (Ok s, rest).
Proof.
  intros Hs. pose proof (len_nonneg s). unfold DecodeAmf0String, key_bytes. rewrite <- app_assoc.
  erewrite go_bind_ok by reflexivity.
  erewrite go_bind_ok by (apply on_err_ok, (binary_Read_split 2); change (256 ^ Z.of_nat 2) with 65536; lia).
  destruct (len s =? 0) eqn:E; go_bool; [by destruct s|].
  by apply on_err_ok, ReadBytes_app; destruct s.
Qed.

Lemma DecodeAmf0LongString_reads s rest : AMF0_STRING_MAX < len s < 2 ^ 32 →
  DecodeAmf0LongString false (be_split 4 (len s) ++ s ++ rest) = (Ok s, rest).
Proof.
  intros Hs. unfold DecodeAmf0LongString. erewrite go_bind_ok by reflexivity.
  erewrite go_bind_ok.
  2: { apply on_err_ok, (binary_Read_split 4). change (256 ^ Z.of_nat 4) with (2 ^ 32).
    unfold AMF0_STRING_MAX in Hs. lia. }
  apply on_err_ok, ReadBytes_app. intros ->. destruct Hs as [Hs _]. by vm_compute in Hs.
Qed.

Lemma DecodeAmf0_marked_reads h fuel m b v :
  reads_any (decodeAmf0_marked (DecodeAmf0_loop h fuel) h fuel m) b v →
  reads_any (DecodeAmf0_loop h (S fuel)) ([m] ++ b) v.
Proof. intros Hr. cbn [DecodeAmf0_loop]. eapply reads_bind; [by apply reads_on_w|exact Hr]. Qed.

Lemma number_reads h fuel bits : fits 64 bits →
  reads_any (DecodeAmf0_loop h (S fuel)) (number_bytes bits) (VFloat bits).
Proof.
  intros Hb. apply DecodeAmf0_marked_reads. apply (reads_fmap _ VFloat). unfold DecodeAmf0Number.
  apply reads_on_w. intros rest _. erewrite go_bind_ok by reflexivity.
  apply on_err_ok, (binary_Read_split 8). change (256 ^ Z.of_nat 8) with (2 ^ 64). exact Hb.
Qed.

Lemma object_loop_reads (dec : go dec_state value) (encs : list (bytes * bytes)) (vals : object) :
  Forall2 (λ e kv, e.1 = kv.1 ∧ e.1 ≠ [] ∧ len e.1 < 65536 ∧ reads_any dec e.2 kv.2) encs vals →
  NoDup vals.*1 →
  ∀ fuel acc, (length encs < fuel)%nat → (∀ k, k ∈ vals.*1 → k ∉ acc.*1) →
  reads_any (object_loop dec fuel acc) (entries_bytes encs) (acc ++ vals).
Proof.
  unfold entries_bytes.
  induction 1 as [|[k b] [k' v] encs vals (Hk & Hne & Hl & Hb) Hall IH];
    intros Hnd [|fuel] acc Hf Hnew; simpl in Hf; try lia.
  - rewrite app_nil_r. cbn [fmap list_fmap app object_loop]. change (mjoin []) with (@nil Z).
    rewrite app_nil_l. eapply reads_bind.
    { apply reads_on_w. intros rest _. by apply DecodeAmf0String_key. }
    rewrite decide_True by done. apply (reads_then _ (λ _, acc) tt).
    apply reads_on_w. intros rest _. reflexivity.
  - simpl in Hk, Hne, Hl, Hb. subst k'. apply NoDup_cons in Hnd as [Hnk Hnd].
    cbn [fmap list_fmap object_loop]. rewrite mjoin_cons, <- !app_assoc.
    eapply reads_bind.
    { apply reads_on_w. intros rest _. by apply DecodeAmf0String_key. }
    rewrite decide_False by done. eapply reads_bind; [by apply reads_on_err|].
    rewrite obj_set_new by (apply Hnew; by left).
    replace (acc ++ (k, v) :: vals) with ((acc ++ [(k, v)]) ++ vals) by by rewrite <- app_assoc.
    apply IH; [done|lia|]. intros x Hx. rewrite fmap_app. apply not_elem_of_app.
    split; [by apply Hnew; right|]. intros ->%list_elem_of_singleton. done.
Qed.

Lemma strict_elements {A} h fuel (l : list A) (enc : A → bytes) (nv : A → value) :
  Forall (λ v, enc v ≠ [] ∧
    ((length (enc v) ≤ fuel)%nat → reads_any (DecodeAmf0_loop h fuel) (enc v) (nv v))) l →
  len l < 2 ^ 32 → (length (strict_bytes (map enc l)) ≤ S fuel)%nat →
  reads_any (DecodeAmf0_loop h (S fuel)) (strict_bytes (map enc l)) (VArray (map nv l)).
Proof.
  intros Hall Hl Hf. pose proof (len_nonneg l).
  assert (Hlm : len (map enc l) = len l) by (unfold len; by rewrite length_map).
  unfold strict_bytes in *. rewrite !length_app in Hf. simpl length in Hf.
  apply DecodeAmf0_marked_reads. apply (reads_fmap _ VArray). unfold DecodeAmf0StrictArray.
  apply (reads_after _ _ tt); [by apply reads_on_w|]. eapply reads_bind.
  { apply reads_on_w. intros rest _. apply on_err_ok, (binary_Read_split 4).
    change (256 ^ Z.of_nat 4) with (2 ^ 32). lia. }
  apply (reads_after _ _ tt); [apply reads_on_p|]. apply array_loop_reads.
  - apply Forall2_fmap, Forall_Forall2_diag. rewrite Forall_forall in Hall |- *. intros v Hin.
    apply Hall; [done|].
    assert (Hle : (length (enc v) ≤ length (mjoin (map enc l)))%nat)
      by by apply length_mjoin_elem, list_elem_of_fmap_2. lia.
  - assert (Hle : (length (map enc l) ≤ length (mjoin (map enc l)))%nat); [|lia].
    apply length_mjoin_count, Forall_fmap. eapply Forall_impl; [exact Hall|]. by intros v [? _].
Qed.

Lemma amf0_bytes_pos v : amf0_ok v → amf0_bytes v ≠ [].
Proof. intros Hok. destruct Hok; cbn [amf0_bytes]; repeat case_match; done. Qed.

Lemma key_bytes_pos k : (2 ≤ length (key_bytes k))%nat.
Proof. unfold key_bytes. rewrite length_app. simpl. lia. Qed.

(** The loop over the entries has fuel for all of them. *)
Lemma entries_fuel (encs : list (bytes * bytes)) :
  (length encs + 2 ≤ length (entries_bytes encs))%nat ∧
  ∀ k b, (k, b) ∈ encs → (length b ≤ length (entries_bytes encs))%nat.
Proof.
  unfold entries_bytes. set (l := _ <$> encs). rewrite !length_app. split.
  - assert (Hc : (length l ≤ length (mjoin l))%nat).
    { apply length_mjoin_count, Forall_fmap, Forall_true. intros [k b].
      pose proof (key_bytes_pos k). simpl. by destruct (key_bytes k). }
    unfold l in Hc at 1. rewrite length_fmap in Hc. pose proof (key_bytes_pos []). lia.
  - intros k b Hin. assert (Hle : (length (key_bytes k ++ b) ≤ length (mjoin l))%nat).
    { apply length_mjoin_elem. apply list_elem_of_fmap. by exists (k, b). }
    rewrite length_app in Hle. lia.
Qed.

Lemma entries_read h fuel (o : object) : keys_ok o → Forall (λ kv, amf0_ok kv.2) o →
  Forall (λ kv, (length (amf0_bytes kv.2) ≤ fuel)%nat →
    reads_any (DecodeAmf0_loop h fuel) (amf0_bytes kv.2) (amf0_norm kv.2)) o →
  let encs := map (λ '(k, v), (k, amf0_bytes v)) o in
  (length (entries_bytes encs) ≤ fuel)%nat →
  reads_any (DecodeAmf0Object (DecodeAmf0_loop h fuel) fuel false) (entries_bytes encs)
    (map (λ '(k, v), (k, amf0_norm v)) o).
Proof.
  intros [Hnd Hk] Hok Hall encs Hf. destruct (entries_fuel encs) as [Hc Hin].
  unfold DecodeAmf0Object.
  apply (reads_after _ _ tt); [by apply reads_on_w|]. apply (reads_after _ _ tt); [apply reads_on_p|].
  apply (object_loop_reads _ encs (map (λ '(k, v), (k, amf0_norm v)) o)).
  - apply Forall2_fmap, Forall_Forall2_diag. rewrite Forall_forall in Hall.
    rewrite Forall_forall in Hk. apply Forall_forall. intros [k v] Hkv. simpl. destruct (Hk k) as [H1 H2]; [by apply list_elem_of_fmap; exists (k, v)|].
    split_and!; [done|done|done|]. apply (Hall _ Hkv). simpl.
    assert (Hle : (length (amf0_bytes v) ≤ length (entries_bytes encs))%nat); [|lia].
    apply (Hin k). unfold encs. by apply list_elem_of_fmap; exists (k, v).
  - by rewrite keys_map.
  - lia.
  - intros k _. apply not_elem_of_nil.
Qed.

Lemma amf0_reads h v : ∀ fuel, amf0_ok v → (length (amf0_bytes v) ≤ fuel)%nat →
  reads_any (DecodeAmf0_loop h fuel) (amf0_bytes v) (amf0_norm v).
Proof.
  induction v as [|b|wide z|wide z|bits|s|l IH|o IH|ty o IH|b|u|m] using value_nested_ind;
    intros [|fuel] Hok Hf; pose proof (amf0_bytes_pos _ Hok) as Hpos;
    try (destruct (amf0_bytes _); simpl in Hf; [done|lia]); clear Hpos;
    try (exfalso; by inversion Hok).
  - by apply (DecodeAmf0_marked_reads h fuel _ []), reads_on_w.
  - cbn [amf0_bytes]. set (x := if b then _ else _).
    change [AMF0_BOOLEAN_MARKER; x] with ([AMF0_BOOLEAN_MARKER] ++ [x]).
    apply DecodeAmf0_marked_reads, (reads_fmap _ VBool), reads_on_w. intros rest _. by destruct b.
  - apply number_reads, float_fits.
  - apply number_reads, float_fits.
  - inversion Hok; subst. by apply number_reads.
  - inversion Hok; subst. cbn [amf0_bytes amf0_norm].
    destruct (len s <=? AMF0_STRING_MAX) eqn:E; unfold AMF0_STRING_MAX in E; go_bool;
      apply DecodeAmf0_marked_reads, (reads_fmap _ VString), reads_on_w; intros rest _.
    + apply DecodeAmf0String_key. lia.
    + rewrite <- app_assoc. apply DecodeAmf0LongString_reads. unfold AMF0_STRING_MAX. lia.
  - inversion Hok as [| | | | | |? Hl Hall| |]; subst. apply strict_elements; try done.
    rewrite Forall_forall in *. intros v Hin. split; [apply amf0_bytes_pos|apply IH]; auto.
  - inversion Hok as [| | | | | | | |? Hk Hall]; subst.
    apply DecodeAmf0_marked_reads, (reads_fmap _ VObject), entries_read; try done.
    + rewrite Forall_forall in *. intros kv Hin. apply IH; auto.
    + cbn [amf0_bytes] in Hf. rewrite length_app in Hf. simpl in Hf. lia.
  - inversion Hok as [| | | | | | |? Hl|]; subst.
    apply (strict_elements h fuel b (λ x, number_bytes (float64_of_int x))
      (λ x, VFloat (float64_of_int x))); [|done|exact Hf].
    apply Forall_true. intros x. split; [done|]. intros Hlen. destruct fuel; [simpl in Hlen; lia|].
    apply number_reads, float_fits.
Qed.

(** ** The decoder ends on every input *)

Lemma DecodeAmf0String_takes n b : takes length n 2 (DecodeAmf0String b).
Proof.
  unfold DecodeAmf0String. eapply takes_bind; [apply AssertMarker_takes|]. intros _.
  eapply takes_bind; [by apply takes_on_err, (binary_Read_takes _ 2)|]. intros l.
  destruct (l =? 0); [takes_go|]. apply takes_on_err.
  eapply takes_from; [apply ReadBytes_takes|lia].
Qed.

Lemma DecodeAmf0LongString_takes n b : takes length n 0 (DecodeAmf0LongString b).
Proof.
  unfold DecodeAmf0LongString. eapply takes_bind; [apply AssertMarker_takes|]. intros _.
  eapply takes_bind; [by apply takes_on_err, binary_Read_takes|]. intros l. apply takes_on_err.
  eapply takes_from; [apply ReadBytes_takes|lia].
Qed.

Lemma DecodeAmf0Number_takes n b : takes length n 8 (DecodeAmf0Number b).
Proof.
  unfold DecodeAmf0Number. eapply takes_bind; [apply AssertMarker_takes|]. intros _.
  by apply takes_on_err, (binary_Read_takes _ 8).
Qed.

Lemma takes_ignore_err {S A} (left : S → nat) n (d : A) m :
  takes left n 0 m → takes left n 0 (ignore_err d m).
Proof.
  intros Hm s Hs. specialize (Hm s Hs). unfold outcome, ignore_err in *.
  destruct (m s) as [[a|e|p|] s']; try done. lia.
Qed.

#[export] Hint Resolve DecodeAmf0String_takes DecodeAmf0LongString_takes DecodeAmf0Number_takes
  ReadBytes_takes : takes.

Section decode0_total.
Variable dec : go dec_state value.
Variable N : nat.
Hypothesis Hdec : ∀ n, (n ≤ N)%nat → takes left_dec n 1 dec.

Lemma object_loop_takes fuel : ∀ n obj, (n ≤ fuel)%nat → (n ≤ N)%nat →
  takes left_dec n 0 (object_loop dec fuel obj).
Proof.
  induction fuel as [|fuel IH]; intros n obj Hf Hn; cbn [object_loop].
  { replace n with 0%nat by lia. apply takes_zero. }
  eapply takes_bind; [takes_call|]. intros key. case_decide; [takes_go|].
  eapply takes_bind; [apply takes_on_err, Hdec; lia|]. intros v. apply IH; lia.
Qed.

Lemma DecodeAmf0Object_takes fuel n b : (n ≤ fuel)%nat → (n ≤ N)%nat →
  takes left_dec n 0 (DecodeAmf0Object dec fuel b).
Proof.
  intros Hf Hn. unfold DecodeAmf0Object, cache_ref. takes_go. apply object_loop_takes; lia.
Qed.

Variable h : ext_handlers.
Hypothesis Hh : ∀ ty m n, h ty = Some m → takes left_dec n 0 m.

Lemma decodeAmf0_marked_takes fuel n marker : (n ≤ fuel)%nat → (n ≤ N)%nat →
  takes left_dec n 0 (decodeAmf0_marked dec h fuel marker).
Proof.
  intros Hf Hn. unfold decodeAmf0_marked.
  repeat (match goal with |- takes _ _ _ (if ?b then _ else _) => destruct b end;
    [first
      [ by apply takes_fmap, DecodeAmf0Object_takes
      | solve [takes_go]
      | solve [unfold DecodeAmf0Boolean; takes_go]
      | solve [unfold DecodeAmf0Null, DecodeAmf0Undefined, DecodeAmf0Unsupported,
          DecodeAmf0Date, DecodeAmf0XmlDocument; takes_go]
      | idtac] |]).
  - apply takes_fmap. unfold DecodeAmf0EcmaArray. eapply takes_bind; [takes_call|]. intros _.
    apply (takes_bind _ _ _ 0).
    { apply takes_on_w, takes_ignore_err. eapply takes_from; [by apply (binary_Read_takes _ 4)|lia]. }
    intros _. apply takes_on_err, DecodeAmf0Object_takes; lia.
  - apply takes_fmap. unfold DecodeAmf0StrictArray, cache_ref. eapply takes_bind; [takes_call|].
    intros _. eapply takes_bind; [by apply takes_on_w, takes_on_err, binary_Read_takes|]. intros l.
    eapply takes_bind; [takes_call|]. intros _. eapply takes_from; [|reflexivity].
    eapply takes_weaken; [eapply (array_loop_takes dec N Hdec fuel _ n); lia|lia|lia].
  - unfold DecodeAmf0TypedObject, cache_ref. do 3 (eapply takes_bind; [takes_call|]; intros ?).
    apply (takes_bind _ _ _ 0); [apply takes_on_err, DecodeAmf0Object_takes; lia|]. takes_go.
  - intros s Hs.
    apply (takes_from _ (S (left_dec s)) 0 1 (DecodeAmf3_loop h (S (left_dec s)))); [|lia|lia].
    by apply DecodeAmf3_loop_takes.
  - apply takes_fail.
Qed.
End decode0_total.

Section decode_total.
Variable h : ext_handlers.
Hypothesis Hh : ∀ ty m n, h ty = Some m → takes left_dec n 0 m.

Lemma DecodeAmf0_loop_takes fuel : ∀ n, (n ≤ fuel)%nat → takes left_dec n 1 (DecodeAmf0_loop h fuel).
Proof.
  induction fuel as [|fuel IH]; intros n Hn.
  { replace n with 0%nat by lia. apply takes_zero. }
  cbn [DecodeAmf0_loop]. eapply takes_bind; [apply takes_on_w, ReadByte_takes|]. intros marker.
  apply (decodeAmf0_marked_takes _ fuel); [exact IH|exact Hh|lia|lia].
Qed.

Lemma amf_Decode_takes n ver : takes left_dec n 1 (amf_Decode h ver).
Proof.
  unfold amf_Decode. repeat case_match; [| |apply takes_fail]; intros s Hs.
  - eapply DecodeAmf0_loop_takes; [reflexivity|]. unfold left_dec. lia.
  - eapply (DecodeAmf3_loop_takes h Hh); [reflexivity|]. unfold left_dec. lia.
Qed.

Lemma decode_batch_ends ver fuel : ∀ s, (left_dec s < fuel)%nat →
  outcome (eq IndexOutOfRange) (λ _, False)
    (λ r s', (length r.1 + left_dec s' ≤ left_dec s)%nat) (decode_batch_loop h fuel ver) s.
Proof.
  induction fuel as [|fuel IH]; intros s Hs; [lia|]. unfold outcome. cbn [decode_batch_loop].
  pose proof (amf_Decode_takes (S (left_dec s)) ver s ltac:(lia)) as Hd. unfold outcome in Hd.
  unfold mbind at 1, go_bind at 1, try. destruct (amf_Decode h ver s) as [[v|e|p|] s']; try done.
  specialize (IH s' ltac:(lia)). unfold outcome in IH. unfold mbind, go_bind.
  destruct (decode_batch_loop h fuel ver s') as [[[vs e]|e|p|] s'']; try done. simpl in *. lia.
Qed.

End decode_total.

(** ** Properties *)

Lemma DecodeAmf0_bytes h v d rest : amf0_ok v →
  ∃ d', DecodeAmf0 h (d, amf0_bytes v ++ rest) = (Ok (amf0_norm v), (d', rest)).
Proof.
  intros Hok. apply amf0_reads; [done| |done]. simpl. rewrite length_app. lia.
Qed.

(** C17: Every value AMF0 can carry is encoded with the byte count the encoder reports and
    decoded to the same value; all numbers become floats, and the entries of an object keep
    their order. *)
Theorem amf0_roundtrip (W : Type) `{LawfulWriter W} (v : value) (w : W) h d rest :
  amf0_ok v → wr_ok w →
  ∃ b w' d', EncodeAmf0 v w = (Ok (len b), w') ∧ wr_ok w' ∧ wr_stream w' = wr_stream w ++ b ∧
    DecodeAmf0 h (d, b ++ rest) = (Ok (amf0_norm v), (d', rest)).
Proof.
  intros Hok Hw. destruct (EncodeAmf0_outputs v Hok w Hw) as (w' & He & Hw' & Hs).
  destruct (DecodeAmf0_bytes h v d rest Hok) as (d' & Hd). by exists (amf0_bytes v), w', d'.
Qed.

(** The command object of a connect. *)
Definition sample_object : value :=
  VObject [(str "app", VString (str "live")); (str "objectEncoding", VInt false 0);
           (str "caps", VArray [VBool true; VNil])].

Lemma sample_object_ok : amf0_ok sample_object.
Proof.
  repeat first [constructor | lia | by vm_compute]; apply (bool_decide_unpack _); vm_compute; exact I.
Qed.

Lemma amf0_roundtrip_witness :
  ∃ b w' d', EncodeAmf0 (W := bytes) sample_object [] = (Ok (len b), w') ∧ w' = b ∧
    DecodeAmf0 no_handlers (NewDecoder, b ++ []) =
      (Ok (VObject [(str "app", VString (str "live")); (str "objectEncoding", VFloat 0);
                    (str "caps", VArray [VBool true; VNil])]), (d', [])).
Proof.
  destruct (amf0_roundtrip bytes sample_object [] no_handlers NewDecoder [] sample_object_ok)
    as (b & w' & d' & H1 & _ & H2 & H3); [exact I|].
  exists b, w', d'. split; [exact H1|]. split; [exact H2|]. exact H3.
Defined.

Lemma batch_outputs (W : Type) `{LawfulWriter W} vals : Forall amf0_ok vals →
  outputs (W := W) (EncodeBatch AMF0 vals) 0 (mjoin (amf0_bytes <$> vals)).
Proof.
  induction 1 as [|v vals Hv _ IH]; [apply outputs_ret|]. cbn [EncodeBatch fmap list_fmap].
  rewrite mjoin_cons. eapply outputs_bind; [by apply EncodeAmf0_outputs|exact IH].
Qed.

Lemma batch_decoded h vals : Forall amf0_ok vals → ∀ fuel d, (length vals < fuel)%nat →
  ∃ d', decode_batch_loop h fuel AMF0 (d, mjoin (amf0_bytes <$> vals))
    = (Ok (amf0_norm <$> vals, EOF), (d', [])).
Proof.
  induction 1 as [|v vals Hv _ IH]; intros [|fuel] d Hf; simpl in Hf; try lia; [by exists d|].
  cbn [decode_batch_loop fmap list_fmap]. rewrite mjoin_cons.
  destruct (DecodeAmf0_bytes h v d (mjoin (amf0_bytes <$> vals)) Hv) as (d1 & H1).
  destruct (IH fuel d1 ltac:(lia)) as (d2 & H2). exists d2.
  erewrite go_bind_ok.
  2: { unfold try, amf_Decode. rewrite Z.eqb_refl, H1. reflexivity. }
  cbv beta iota. erewrite go_bind_ok by exact H2. reflexivity.
Qed.

Lemma batch_decodes h vals d : Forall amf0_ok vals →
  ∃ d', DecodeBatch h AMF0 (d, mjoin (amf0_bytes <$> vals)) = (Ok (amf0_norm <$> vals, EOF), (d', [])).
Proof.
  intros Hok. apply (batch_decoded h vals Hok). set (b := mjoin _).
  assert (Hc : (length (amf0_bytes <$> vals) ≤ length b)%nat).
  { apply length_mjoin_count, Forall_fmap. eapply Forall_impl; [exact Hok|]. apply amf0_bytes_pos. }
  rewrite length_fmap in Hc. simpl. lia.
Qed.

(** C19: A command, encoded value after value, is decoded by [DecodeBatch] to the list of its
    values, and the batch ends with [EOF]. *)
Theorem batch_roundtrip (W : Type) `{LawfulWriter W} (vals : list value) (w : W) h d :
  Forall amf0_ok vals → wr_ok w →
  ∃ b w' d', EncodeBatch AMF0 vals w = (Ok 0, w') ∧ wr_stream w' = wr_stream w ++ b ∧
    DecodeBatch h AMF0 (d, b) = (Ok (amf0_norm <$> vals, EOF), (d', [])).
Proof.
  intros Hok Hw. destruct (batch_outputs W vals Hok w Hw) as (w' & He & _ & Hs).
  destruct (batch_decodes h vals d Hok) as (d' & Hd). by exists (mjoin (amf0_bytes <$> vals)), w', d'.
Qed.

Lemma batch_roundtrip_witness :
  ∃ b w' d', EncodeBatch (W := bytes) AMF0 [VString (str "connect"); VInt false 1; sample_object] []
      = (Ok 0, w') ∧ w' = b ∧
    DecodeBatch no_handlers AMF0 (NewDecoder, b)
      = (Ok ([VString (str "connect"); VFloat 0x3ff0000000000000; amf0_norm sample_object], EOF),
         (d', [])).
Proof.
  destruct (batch_roundtrip bytes [VString (str "connect"); VInt false 1; sample_object] []
    no_handlers NewDecoder) as (b & w' & d' & H1 & H2 & H3).
  { apply Forall_cons_2; [constructor; by vm_compute|].
    apply Forall_cons_2; [constructor|]. apply Forall_singleton, sample_object_ok. }
  { exact I. }
  exists b, w', d'. split; [exact H1|]. split; [exact H2|]. exact H3.
Defined.

(** C33: [DecodeBatch] ends on every input in both versions, with at most one value per
    byte; its only panic is an AMF3 reference out of range. *)
Theorem decode_batch_total (h : ext_handlers) (ver : Z) (d : Decoder) (input : bytes) :
  (∀ ty m n, h ty = Some m → takes left_dec n 0 m) →
  outcome (eq IndexOutOfRange) (λ _, False) (λ r _, (length r.1 ≤ length input)%nat)
    (DecodeBatch h ver) (d, input).
Proof.
  intros Hh. eapply runs_mono; [apply (decode_batch_ends h Hh); unfold left_dec; lia|done|].
  unfold left_dec. simpl. intros [vs e] s'. simpl. lia.
Qed.

Lemma decode_batch_total_witness :
  outcome (eq IndexOutOfRange) (λ _, False) (λ r _, (length r.1 ≤ 4)%nat)
    (DecodeBatch no_handlers AMF0) (NewDecoder, [10; 0xff; 0xff; 0xff]).
Proof. apply (decode_batch_total no_handlers AMF0 NewDecoder [10; 0xff; 0xff; 0xff]). intros ty m n. done. Defined.

(** ** Metadata *)

Lemma decode_string s rest : len s < 2 ^ 32 →
  (amf_Decode no_handlers AMF0 (NewDecoder, amf0_bytes (VString s) ++ rest)).1 = Ok (VString s).
Proof.
  intros Hs. destruct (DecodeAmf0_bytes no_handlers (VString s) NewDecoder rest) as (d' & Hd);
    [by constructor|]. unfold amf_Decode. rewrite Z.eqb_refl, Hd. done.
Qed.

Lemma setFrameFrame_bytes : setFrameFrame = amf0_bytes (VString SetDataFrame).
Proof. vm_compute. reflexivity. Qed.

(** C38: Adding the frame puts "@setDataFrame" in front of metadata that does not have it and
    leaves other metadata alone, so that doing it twice changes nothing more; deleting it
    undoes this, and leaves metadata without the frame alone. *)
Theorem metadata_frame (s rest : bytes) : len s < 2 ^ 32 → s ≠ SetDataFrame →
  let p := amf0_bytes (VString s) ++ rest in
  let framed := setFrameFrame ++ p in
  MetaDataReform p ADD = Ok framed ∧ MetaDataReform framed ADD = Ok framed ∧
  MetaDataReform framed DEL = Ok p ∧ MetaDataReform p DEL = Ok p ∧
  (amf_Decode no_handlers AMF0 (NewDecoder, framed)).1 = Ok (VString SetDataFrame).
Proof.
  intros Hs Hne p framed. pose proof (decode_string s rest Hs) as Hp. fold p in Hp.
  assert (Hf : (amf_Decode no_handlers AMF0 (NewDecoder, framed)).1 = Ok (VString SetDataFrame)).
  { unfold framed. rewrite setFrameFrame_bytes. by apply decode_string. }
  assert (HA : ∀ q x, (amf_Decode no_handlers AMF0 (NewDecoder, q)).1 = Ok (VString x) →
    MetaDataReform q ADD = (if decide (x = SetDataFrame) then Ok q else Ok (setFrameFrame ++ q)) ∧
    MetaDataReform q DEL
      = (if decide (x = SetDataFrame) then slice_from q (len setFrameFrame) else Ok q)).
  { intros q x Hq. unfold MetaDataReform. by rewrite Hq. }
  destruct (HA _ _ Hp) as [-> ->]. destruct (HA _ _ Hf) as [-> ->].
  rewrite !(decide_True (P := SetDataFrame = SetDataFrame)), !decide_False by done.
  split_and!; try done. apply slice_suffix.
Qed.

Lemma metadata_frame_witness :
  let p := amf0_bytes (VString OnMetaData) ++ amf0_bytes (VObject []) in
  MetaDataReform p ADD = Ok (setFrameFrame ++ p) ∧ MetaDataReform (setFrameFrame ++ p) DEL = Ok p.
Proof.
  destruct (metadata_frame OnMetaData (amf0_bytes (VObject []))) as (H1 & _ & H2 & _);
    [by vm_compute|by apply (bool_decide_unpack _); vm_compute|].
  intros p. split; [exact H1|exact H2].
Defined.

(** *** Behaviour outside the format *)

(** The frame written as a long string is two bytes longer than what is deleted. *)
Example long_frame_badly_deleted :
  MetaDataReform ([AMF0_LONG_STRING_MARKER] ++ be_split 4 13 ++ SetDataFrame ++ [5]) DEL
    = Ok (str "me" ++ [5]).
Proof. vm_compute. reflexivity. Qed.

(** An empty long string at the end of the input is not read. *)
Example empty_long_string :
  (DecodeAmf0 no_handlers (NewDecoder, [AMF0_LONG_STRING_MARKER; 0; 0; 0; 0])).1
    = Err (Wrapf "decode amf0: unable to decode long string value: %s" EOF).
Proof. vm_compute. reflexivity. Qed.

(** An object with an empty key is cut short: the rest is read as another value. *)
Example empty_key_ends_object :
  (DecodeAmf0 no_handlers (NewDecoder, amf0_bytes (VObject [([], VBool true)]))).1
    = Err (Wrapf "decode amf0: expected object end marker: %s"
             (Errorf "decode assert marker failed: expected %v got %v")).
Proof. vm_compute. reflexivity. Qed.
