(* ===== verification/Forward.v ===== *)
(** * The server's side of a connection (src/protocol/core/forward_conn.go)

    After the handshake the server answers the commands of the client until the client
    publishes or plays.  Then the connection carries media. *)
From S2P Require Import Prelude GoIO ReadWriter Av Chunk Conn Amf Amf3 Amf0.

Definition publishLive : bytes := str "live".
Definition publishRecord : bytes := str "record".
Definition publishAppend : bytes := str "append".

Definition ErrReq : error := Errorf "req error".

Definition cmdConnect : bytes := str "connect".
Definition cmdFcpublish : bytes := str "FCPublish".
Definition cmdReleaseStream : bytes := str "releaseStream".
Definition cmdCreateStream : bytes := str "createStream".
Definition cmdPublish : bytes := str "publish".
Definition cmdFCUnpublish : bytes := str "FCUnpublish".
Definition cmdDeleteStream : bytes := str "deleteStream".
Definition cmdPlay : bytes := str "play".

(** The fields of the code's [ConnectInfo] that are ever set. *)
Record ConnectInfo := mkConnectInfo {
  ci_App : bytes; ci_Flashver : bytes; ci_TcURL : bytes; ci_ObjectEncoding : Z;
}.

Record PublishInfo := mkPublishInfo { pi_Name : bytes; pi_Type : bytes }.

(** [bytesw] is reset before every use, and the encoder has no state. *)
Record ForwardConnect := mkForward {
  fc_done : bool;
  fc_streamID : Z;
  fc_isPublisher : bool;
  fc_conn : RtmpConn;
  fc_transactionID : Z;
  fc_ConnInfo : ConnectInfo;
  fc_PublishInfo : PublishInfo;
  fc_decoder : Decoder;
}.

Definition NewForwardConnect (conn : RtmpConn) : ForwardConnect :=
  mkForward false 1 false conn 0 (mkConnectInfo [] [] [] 0) (mkPublishInfo [] []) NewDecoder.

Definition set_done v fc := mkForward v (fc_streamID fc) (fc_isPublisher fc) (fc_conn fc)
  (fc_transactionID fc) (fc_ConnInfo fc) (fc_PublishInfo fc) (fc_decoder fc).
Definition set_isPublisher v fc := mkForward (fc_done fc) (fc_streamID fc) v (fc_conn fc)
  (fc_transactionID fc) (fc_ConnInfo fc) (fc_PublishInfo fc) (fc_decoder fc).
Definition set_fc_conn v fc := mkForward (fc_done fc) (fc_streamID fc) (fc_isPublisher fc) v
  (fc_transactionID fc) (fc_ConnInfo fc) (fc_PublishInfo fc) (fc_decoder fc).
Definition set_transactionID v fc := mkForward (fc_done fc) (fc_streamID fc) (fc_isPublisher fc)
  (fc_conn fc) v (fc_ConnInfo fc) (fc_PublishInfo fc) (fc_decoder fc).
Definition set_ConnInfo v fc := mkForward (fc_done fc) (fc_streamID fc) (fc_isPublisher fc)
  (fc_conn fc) (fc_transactionID fc) v (fc_PublishInfo fc) (fc_decoder fc).
Definition set_PublishInfo v fc := mkForward (fc_done fc) (fc_streamID fc) (fc_isPublisher fc)
  (fc_conn fc) (fc_transactionID fc) (fc_ConnInfo fc) v (fc_decoder fc).
Definition set_fc_decoder v fc := mkForward (fc_done fc) (fc_streamID fc) (fc_isPublisher fc)
  (fc_conn fc) (fc_transactionID fc) (fc_ConnInfo fc) (fc_PublishInfo fc) v.

Definition set_App v i := mkConnectInfo v (ci_Flashver i) (ci_TcURL i) (ci_ObjectEncoding i).
Definition set_Flashver v i := mkConnectInfo (ci_App i) v (ci_TcURL i) (ci_ObjectEncoding i).
Definition set_TcURL v i := mkConnectInfo (ci_App i) (ci_Flashver i) v (ci_ObjectEncoding i).
Definition set_ObjectEncoding v i := mkConnectInfo (ci_App i) (ci_Flashver i) (ci_TcURL i) v.

(** Operations of [fc.conn]. *)
Definition on_conn {A} (m : go RtmpConn A) : go ForwardConnect A := λ fc,
  let '(r, c) := m (fc_conn fc) in (r, set_fc_conn c fc).

(** ** Values of a command *)

(** [v.(string)] and [int(v.(float64))] *)
Definition as_string (v : value) : res bytes :=
  match v with VString s => Ok s | _ => Panic TypeAssertion end.
Definition as_int (v : value) : res Z :=
  match v with VFloat bits => Ok (int_of_float64 bits) | _ => Panic TypeAssertion end.

(** [if x, ok := obimap[key]; ok { field = x.(T) }] *)
Definition set_from {A} (o : object) (key : bytes) (conv : value → res A)
    (set : A → ConnectInfo → ConnectInfo) : go ForwardConnect unit :=
  match assoc key o with
  | None => mret tt
  | Some v => x ← lift (conv v); modify (λ fc, set_ConnInfo (set x (fc_ConnInfo fc)) fc)
  end.

(** A loop over values with their index. *)
Fixpoint for_values {S} (body : Z → value → go S unit) (k : Z) (vs : list value) : go S unit :=
  match vs with
  | [] => mret tt
  | v :: vs => _ ← body k v; for_values body (k + 1) vs
  end.

Definition connect_value (_ : Z) (v : value) : go ForwardConnect unit :=
  match v with
  | VFloat f =>
      let id := int_of_float64 f in
      if negb (id =? 1) then fail ErrReq else modify (set_transactionID id)
  | VObject obimap =>
      _ ← set_from obimap (str "app") as_string set_App;
      _ ← set_from obimap (str "flashVer") as_string set_Flashver;
      _ ← set_from obimap (str "tcUrl") as_string set_TcURL;
      set_from obimap (str "objectEncoding") as_int set_ObjectEncoding
  | _ => mret tt
  end.

Definition connect (vs : list value) : go ForwardConnect unit := for_values connect_value 0 vs.

Definition releaseStream (vs : list value) : go ForwardConnect unit := mret tt.
Definition fcPublish (vs : list value) : go ForwardConnect unit := mret tt.

Definition createStream (vs : list value) : go ForwardConnect unit :=
  for_values (λ _ v,
    match v with
    | VFloat f => modify (set_transactionID (int_of_float64 f))
    | _ => mret tt
    end) 0 vs.

Definition publishOrPlay (vs : list value) : go ForwardConnect unit :=
  for_values (λ k v,
    match v with
    | VString s =>
        if k =? 2 then modify (λ fc, set_PublishInfo (mkPublishInfo s (pi_Type (fc_PublishInfo fc))) fc)
        else if k =? 3 then
          modify (λ fc, set_PublishInfo (mkPublishInfo (pi_Name (fc_PublishInfo fc)) s) fc)
        else mret tt
    | VFloat f => modify (set_transactionID (int_of_float64 f))
    | _ => mret tt
    end) 0 vs.

(** ** Answers *)

(** The bytes [writeMsg] collects in [bytesw]: the loop of [EncodeBatch]. *)
Definition encode_args (args : list value) : res bytes :=
  match EncodeBatch (W := bytes) AMF0 args [] with
  | (Ok _, b) => Ok b
  | (Err e, _) => Err e
  | (Panic p, _) => Panic p
  | (OutOfFuel, _) => OutOfFuel
  end.

(** The chunk stream of a command. *)
Definition command_msg (csid streamID : Z) (msg : bytes) : ChunkStream bytes :=
  newCS 0 csid 0 (u32 (len msg)) 20 streamID msg.

(** [fc.conn.Write(&c)]: its error is dropped. *)
Definition fc_send (c : ChunkStream bytes) : go ForwardConnect unit :=
  on_conn (ignore_err tt (_ ← RtmpConn_Write c; mret tt)).

Definition fc_writeMsg (csid streamID : Z) (args : list value) : go ForwardConnect unit :=
  msg ← lift (encode_args args);
  _ ← fc_send (command_msg csid streamID msg);
  on_conn RtmpConn_Flush.

Section forward.
(** The order in which a map is iterated. *)
Variable iter : object → object.

Definition connectResp (cur : ChunkStream bytes) : go ForwardConnect unit :=
  c ← lift (NewWindowAckSize 2500000);
  _ ← fc_send c;
  c ← lift (NewSetPeerBandwidth 2500000);
  _ ← fc_send c;
  c ← lift (NewSetChunkSize 1024);
  _ ← fc_send c;
  let resp := obj_set (str "capabilities") (VInt false 31)
    (obj_set (str "fmsVer") (VString (str "FMS/3,0,1,123")) []) in
  fc ← get;
  let event := obj_set (str "objectEncoding") (VInt false (ci_ObjectEncoding (fc_ConnInfo fc)))
    (obj_set (str "description") (VString (str "Connection succeeded."))
    (obj_set (str "code") (VString (str "NetConnection.Connect.Success"))
    (obj_set (str "level") (VString (str "status")) []))) in
  fc_writeMsg (CSID cur) (StreamID cur)
    [VString (str "_result"); VInt false (fc_transactionID fc); VObject (iter resp);
     VObject (iter event)].

Definition createStreamResp (cur : ChunkStream bytes) : go ForwardConnect unit :=
  fc ← get;
  fc_writeMsg (CSID cur) (StreamID cur)
    [VString (str "_result"); VInt false (fc_transactionID fc); VNil; VInt false (fc_streamID fc)].

(** The map of a status event. *)
Definition status_event (code description : bytes) (event : object) : object :=
  obj_set (str "description") (VString description)
    (obj_set (str "code") (VString code)
    (obj_set (str "level") (VString (str "status")) event)).

Definition write_status (cur : ChunkStream bytes) (event : object) : go ForwardConnect unit :=
  fc_writeMsg (CSID cur) (StreamID cur)
    [VString (str "onStatus"); VInt false 0; VNil; VObject (iter event)].

Definition publishResp (cur : ChunkStream bytes) : go ForwardConnect unit :=
  write_status cur (status_event (str "NetStream.Publish.Start") (str "Start publising.") []).

(** One map is used for the four events. *)
Definition playResp (cur : ChunkStream bytes) : go ForwardConnect unit :=
  _ ← on_conn SetRecorded;
  _ ← on_conn SetBegin;
  let event := status_event (str "NetStream.Play.Reset") (str "Playing and resetting stream.") [] in
  _ ← write_status cur event;
  let event := status_event (str "NetStream.Play.Start") (str "Started playing stream.") event in
  _ ← write_status cur event;
  let event := status_event (str "NetStream.Data.Start") (str "Started playing stream.") event in
  _ ← write_status cur event;
  let event := status_event (str "NetStream.Play.PublishNotify") (str "Started playing notify.") event in
  _ ← write_status cur event;
  on_conn RtmpConn_Flush.

(** ** Commands *)

(** A message as the caller finds it: the buffer is looked at right away. *)
Definition fc_Read : go ForwardConnect (ChunkStream bytes) :=
  on_conn (r ← RtmpConn_Read; gets (λ c, message_at (c_heap c) r)).

(** [if chunk.TypeID == 17 { chunk.Data = chunk.Data[1:] }] *)
Definition skip_version (c : ChunkStream bytes) : res (ChunkStream bytes) :=
  if TypeID c =? 17 then d ← slice_from (Data c) 1; Ok (set_Data d c) else Ok c.

(** [fc.decoder.DecodeBatch(bytes.NewReader(data), amf.AMF0)] *)
Definition fc_DecodeBatch (data : bytes) : go ForwardConnect (list value * error) := λ fc,
  let '(r, (d, _)) := DecodeBatch no_handlers AMF0 (fc_decoder fc, data) in
  (r, set_fc_decoder d fc).

(** The values of a command message; the end of the data is no error. *)
Definition decode_command (wrap : error → error) (data : bytes) : go ForwardConnect (list value) :=
  '(vs, e) ← fc_DecodeBatch data;
  if decide (e = EOF) then mret vs else fail (wrap e).

Definition handleCmdMsg (c : ChunkStream bytes) : go ForwardConnect unit :=
  c ← lift (skip_version c);
  vs ← decode_command id (Data c);
  match vs with
  | [] => crash IndexOutOfRange
  | VString cmd :: args =>
      if decide (cmd = cmdConnect) then _ ← connect args; connectResp c
      else if decide (cmd = cmdCreateStream) then _ ← createStream args; createStreamResp c
      else if decide (cmd = cmdPublish) then
        _ ← publishOrPlay args;
        _ ← publishResp c;
        _ ← modify (set_done true);
        modify (set_isPublisher true)
      else if decide (cmd = cmdPlay) then
        _ ← publishOrPlay args;
        _ ← playResp c;
        _ ← modify (set_done true);
        modify (set_isPublisher false)
      else if decide (cmd = cmdFcpublish) then ignore_err tt (fcPublish vs)
      else if decide (cmd = cmdReleaseStream) then ignore_err tt (releaseStream vs)
      else mret tt
  | _ => mret tt
  end.

(** One command of the set-up; the result says whether it is over. *)
Definition setup_command (chunk : ChunkStream bytes) (vs : list value) : go ForwardConnect bool :=
  match vs with
  | [] => crash IndexOutOfRange
  | VString cmd :: args =>
      if decide (cmd = cmdConnect) then
        _ ← on_err (connect args) (Wrapf "handle connect cmd failed, %v");
        _ ← on_err (connectResp chunk) (Wrapf "connect response failed, %v");
        mret false
      else if decide (cmd = cmdCreateStream) then
        _ ← on_err (createStream args) (Wrapf "handle create stream cmd failed, %v");
        _ ← on_err (createStreamResp chunk) (Wrapf "create stream response failed, %v");
        mret false
      else if decide (cmd = cmdPublish) then
        _ ← on_err (publishOrPlay args) (Wrapf "handle publish command failed, %v");
        _ ← on_err (publishResp chunk) (Wrapf "publish response failed, %v");
        _ ← modify (set_isPublisher true);
        mret true
      else if decide (cmd = cmdPlay) then
        _ ← on_err (publishOrPlay args) (Wrapf "handle play command failed, %v");
        _ ← on_err (playResp chunk) (Wrapf "play response failed, %v");
        _ ← modify (set_isPublisher false);
        mret true
      else if decide (cmd = cmdFcpublish) then _ ← ignore_err tt (fcPublish vs); mret false
      else if decide (cmd = cmdReleaseStream) then _ ← ignore_err tt (releaseStream vs); mret false
      else mret false
  | _ => mret false
  end.

(** One pass of the loop. *)
Definition setup_pass : go ForwardConnect bool :=
  chunk ← on_err fc_Read (Wrapf "Read chunk stream failed, %v");
  if negb (TypeID chunk =? 17) && negb (TypeID chunk =? 20) then mret false
  else
    chunk ← lift (skip_version chunk);
    vs ← decode_command (Wrapf "Amf DecodeBatch failed, %v") (Data chunk);
    setup_command chunk vs.

Fixpoint setup_loop (fuel : nat) : go ForwardConnect unit :=
  match fuel with
  | O => λ fc, (OutOfFuel, fc)
  | S fuel => finished ← setup_pass; if finished : bool then mret tt else setup_loop fuel
  end.

(** Every pass reads at least one byte. *)
Definition SetUpPlayOrPublish : go ForwardConnect unit := λ fc,
  setup_loop (S (length (rw_in (c_rw (fc_conn fc))))) fc.

Fixpoint ReadMsg_loop (fuel : nat) : go ForwardConnect unit :=
  match fuel with
  | O => λ fc, (OutOfFuel, fc)
  | S fuel =>
      c ← fc_Read;
      _ ← (if (TypeID c =? 20) || (TypeID c =? 17) then handleCmdMsg c else mret tt);
      fc ← get;
      if fc_done fc then mret tt else ReadMsg_loop fuel
  end.

Definition ReadMsg : go ForwardConnect unit := λ fc,
  ReadMsg_loop (S (length (rw_in (c_rw (fc_conn fc))))) fc.
End forward.

Definition IsPublisher (fc : ForwardConnect) : bool := fc_isPublisher fc.

(** The player of a stream gets the metadata without the frame of the publisher. *)
Definition fc_Write (c : ChunkStream bytes) : go ForwardConnect unit :=
  c ← (if (TypeID c =? TAG_SCRIPTDATAAMF0) || (TypeID c =? TAG_SCRIPTDATAAMF3) then
         d ← lift (MetaDataReform (Data c) DEL);
         mret (set_Length (u32 (len d)) (set_Data d c))
       else mret c);
  on_conn (_ ← RtmpConn_Write c; mret tt).

Definition fc_Flush : go ForwardConnect unit := on_conn RtmpConn_Flush.

Definition fc_GetStreamInfo (fc : ForwardConnect) : bytes * bytes * bytes :=
  (ci_App (fc_ConnInfo fc), pi_Name (fc_PublishInfo fc),
   ci_TcURL (fc_ConnInfo fc) ++ str "/" ++ pi_Name (fc_PublishInfo fc)).
