(* ===== verification/Commands.v ===== *)
(** * Command messages on a connection

    What the two sides of a connection share: the bytes of a command, their way over the
    wire, and the values that come out. *)
From S2P Require Import Prelude Pio GoIO ReadWriter Av Chunk Conn ConnSafe Exchange Amf Amf3 Amf0 Forward.

#[local] Set Warnings "-register-all".

(** ** The bytes of a command *)

(** The strings in a value are strings of bytes. *)
Inductive bytes_ok : value → Prop :=
  | bo_nil : bytes_ok VNil
  | bo_bool b : bytes_ok (VBool b)
  | bo_int wide n : bytes_ok (VInt wide n)
  | bo_uint wide n : bytes_ok (VUint wide n)
  | bo_float bits : bytes_ok (VFloat bits)
  | bo_string s : Forall is_byte s → bytes_ok (VString s)
  | bo_array l : Forall bytes_ok l → bytes_ok (VArray l)
  | bo_bytes b : bytes_ok (VBytes b)
  | bo_object o : Forall (λ kv, Forall is_byte kv.1 ∧ bytes_ok kv.2) o → bytes_ok (VObject o).

Lemma Forall_mjoin {A} (P : A → Prop) (ls : list (list A)) : Forall (Forall P) ls → Forall P (mjoin ls).
Proof. induction 1; [constructor|]. rewrite mjoin_cons. by apply Forall_app. Qed.

Lemma key_bytes_byte k : Forall is_byte k → Forall is_byte (key_bytes k).
Proof. intros Hk. apply Forall_app. split; [apply be_split_bytes|done]. Qed.

Lemma number_bytes_byte bits : Forall is_byte (number_bytes bits).
Proof. apply Forall_cons. split; [done|apply be_split_bytes]. Qed.

Lemma strict_bytes_byte ls : Forall (Forall is_byte) ls → Forall is_byte (strict_bytes ls).
Proof.
  intros H. apply Forall_cons. split; [done|]. apply Forall_app. split; [apply be_split_bytes|].
  by apply Forall_mjoin.
Qed.

Lemma amf0_bytes_byte v : bytes_ok v → Forall is_byte (amf0_bytes v).
Proof.
  assert (Hb : ∀ x, 0 ≤ x < 256 → is_byte x) by done.
  induction v using value_nested_ind; inversion 1 as [| | | | |s' Hs|l' Hl| |o' Ho]; subst; cbn [amf0_bytes].
  - by repeat constructor.
  - destruct b; by repeat constructor.
  - apply number_bytes_byte.
  - apply number_bytes_byte.
  - apply number_bytes_byte.
  - destruct (_ <=? _); (apply Forall_cons; split; [done|]); [by apply key_bytes_byte|].
    apply Forall_app. split; [apply be_split_bytes|done].
  - apply strict_bytes_byte, Forall_fmap. rewrite Forall_forall in *. intros x Hx.
    apply H; auto.
  - apply Forall_cons. split; [done|]. apply Forall_app. split; [|by repeat constructor].
    apply Forall_mjoin, Forall_fmap, Forall_fmap. rewrite Forall_forall in *.
    intros [k x] Hkx. destruct (Ho _ Hkx) as [Hk Hx]. cbn [fst snd] in *.
    apply Forall_app. split; [by apply key_bytes_byte|]. by apply (H (k, x)).
  - apply strict_bytes_byte, Forall_fmap, Forall_true. intros x. apply number_bytes_byte.
Qed.

(** *** Orders of iteration *)

Lemma assoc_perm {A} (o o' : list (bytes * A)) k : NoDup o.*1 → o ≡ₚ o' → assoc k o = assoc k o'.
Proof.
  intros Hnd Hp. induction Hp as [|[x v] o o' Hp IH|[x v] [y w] o|o o1 o' H1 IH1 H2 IH2]; [done|..].
  - simpl in *. apply NoDup_cons in Hnd as [_ Hnd]. by rewrite IH.
  - simpl in *. apply NoDup_cons in Hnd as [Hx _]. repeat case_decide; subst; try done.
    exfalso. apply Hx. by left.
  - rewrite IH1 by done. apply IH2. by rewrite <- H1.
Qed.

Lemma amf0_ok_perm o o' : o ≡ₚ o' → amf0_ok (VObject o) → amf0_ok (VObject o').
Proof.
  intros Hp H. inversion H as [| | | | | | | |? [Hnd Hk] Hv]; subst. constructor; [split|].
  - by rewrite <- Hp.
  - by rewrite <- Hp.
  - by rewrite <- Hp.
Qed.

Lemma bytes_ok_perm o o' : o ≡ₚ o' → bytes_ok (VObject o) → bytes_ok (VObject o').
Proof. intros Hp H. inversion H; subst. constructor. by rewrite <- Hp. Qed.

Lemma size_perm o o' : o ≡ₚ o' → len (amf0_bytes (VObject o)) = len (amf0_bytes (VObject o')).
Proof.
  intros Hp. unfold len. f_equal. cbn [amf0_bytes]. rewrite !length_app. f_equal.
  unfold entries_bytes. rewrite !length_app. f_equal.
  induction Hp as [|[x v] o o' Hp IH|[x v] [y w] o|o o1 o' H1 IH1 H2 IH2]; [done|..|lia];
    cbn [map fmap list_fmap]; rewrite !mjoin_cons, !length_app; lia.
Qed.

(** ** Commands as messages *)

Definition command_data (vals : list value) : bytes := mjoin (amf0_bytes <$> vals).

(** The message of a command. *)
Definition command (csid sid : Z) (vals : list value) : ChunkStream bytes :=
  command_msg csid sid (command_data vals).

(** A command the encoder writes as it is, of at most 2^20 bytes. *)
Record command_ok (vals : list value) : Prop := {
  co_some : vals ≠ [];
  co_values : Forall amf0_ok vals;
  co_bytes : Forall bytes_ok vals;
  co_size : len (command_data vals) < 2 ^ 20;
}.

Lemma encode_args_ok vals : Forall amf0_ok vals → encode_args vals = Ok (command_data vals).
Proof.
  intros Hok. unfold encode_args.
  destruct (batch_outputs bytes vals Hok []) as (w' & E & _ & Hs); [exact I|].
  rewrite E. simpl in Hs. by rewrite Hs.
Qed.

Lemma command_sendable csid sid vals : command_ok vals → 2 ≤ csid < 65600 → fits 32 sid →
  sendable (command csid sid vals).
Proof.
  intros [Hne Hv Hb Hs] Hc Hsid. pose proof (len_nonneg (command_data vals)) as H0.
  assert (Hl : u32 (len (command_data vals)) = len (command_data vals))
    by (apply u32_small; unfold fits; lia).
  assert (Hnil : command_data vals ≠ []).
  { destruct vals as [|v vals]; [done|]. unfold command_data. cbn [fmap list_fmap]. rewrite mjoin_cons.
    apply Forall_cons in Hv as [Hv _]. pose proof (amf0_bytes_pos v Hv). by destruct (amf0_bytes v). }
  constructor; simpl; try done || lia.
  - constructor; simpl; rewrite ?Hl; try done || lia. unfold fits. lia.
  - apply Forall_mjoin, Forall_fmap. eapply Forall_impl; [exact Hb|]. apply amf0_bytes_byte.
Qed.

Lemma command_len csid sid vals : command_ok vals → Length (command csid sid vals) = len (command_data vals).
Proof.
  intros [_ _ _ Hs]. pose proof (len_nonneg (command_data vals)). simpl. apply u32_small.
  unfold fits. lia.
Qed.

Lemma command_op_ok csid sid vals : command_ok vals → op_ok (OpWrite (command csid sid vals)).
Proof.
  intros Hok. pose proof (command_len csid sid vals Hok). pose proof (co_size _ Hok).
  split_and!; [done|cbn; lia| |done].
  apply Forall_mjoin, Forall_fmap. eapply Forall_impl; [apply co_bytes, Hok|]. apply amf0_bytes_byte.
Qed.

(** *** Sending *)

Lemma command_write a k out inp n c csid sid vals : endpoint a k out inp n c →
  command_ok vals → 2 ≤ csid < 65600 → fits 32 sid →
  ∃ c', (ignore_err tt (_ ← RtmpConn_Write (command csid sid vals); mret tt)) c = (Ok tt, c') ∧
    endpoint a k (out ++ wire_of k [command csid sid vals]) inp n c'.
Proof.
  intros He Hok Hc Hs. pose proof (command_sendable csid sid vals Hok Hc Hs) as Hm.
  destruct (endpoint_write a k out inp n c _ He Hm) as (m' & c' & E & He'); [done|].
  exists c'. split; [|exact He']. unfold ignore_err, mbind, go_bind. by rewrite E.
Qed.

Lemma fc_send_ok a k out inp n fc m : endpoint a k out inp n (fc_conn fc) → sendable m →
  size_fits k m →
  ∃ c', fc_send m fc = (Ok tt, set_fc_conn c' fc) ∧
    endpoint a (next_size k m) (out ++ wire_of k [writeChunk_csid m]) inp n c'.
Proof.
  intros He Hm Hf. destruct (endpoint_write a k out inp n _ m He Hm Hf) as (m' & c' & E & He').
  exists c'. split; [|done]. unfold fc_send, on_conn, ignore_err, mbind, go_bind. by rewrite E.
Qed.

Lemma fc_writeMsg_ok a k out inp n fc csid sid vals : endpoint a k out inp n (fc_conn fc) →
  command_ok vals → 2 ≤ csid < 65600 → fits 32 sid →
  ∃ c', fc_writeMsg csid sid vals fc = (Ok tt, set_fc_conn c' fc) ∧
    endpoint a k (out ++ wire_of k [command csid sid vals]) inp n c' ∧
    bw_sent (rw_w (c_rw c')) = out ++ wire_of k [command csid sid vals].
Proof.
  intros He Hok Hc Hs. unfold fc_writeMsg.
  rewrite (go_bind_lift _ _ _ _ (encode_args_ok _ (co_values _ Hok))). fold (command csid sid vals).
  destruct (command_write a k out inp n _ csid sid vals He Hok Hc Hs) as (c1 & E1 & He1).
  destruct (endpoint_flush _ _ _ _ _ c1 He1) as (c2 & E2 & He2 & Hsent).
  exists c2. split; [|done]. unfold fc_send, on_conn, mbind at 1, go_bind at 1. rewrite E1.
  simpl. by rewrite E2.
Qed.

(** *** Receiving *)

Lemma delivered_command csid sid vals :
  delivered (command csid sid vals) = command csid sid vals.
Proof. done. Qed.

Section receive.
Variables (a : AConn) (k : Z) (out rest : bytes) (n : Z).
Variable ctl : list (ChunkStream bytes).
Hypothesis Hs : Forall sendable ctl.
Hypothesis Hc : Forall (λ m, is_control (TypeID m) = true) ctl.
Hypothesis Hw : Forall (window_ok quota) ctl.
Hypothesis Ha : quota ≤ a_window a.

(** A command that comes after the control messages [ctl]. *)
Lemma read_command c csid sid vals :
  endpoint a k out (wire_of (a_size a) (ctl ++ [command csid sid vals]) ++ rest) n c →
  command_ok vals → 2 ≤ csid < 65600 → fits 32 sid → 0 ≤ n →
  n + total (ctl ++ [command csid sid vals]) < quota →
  ∃ c', (r ← RtmpConn_Read; gets (λ c, message_at (c_heap c) r)) c = (Ok (command csid sid vals), c') ∧
    endpoint (after a ctl) k out rest (n + total (ctl ++ [command csid sid vals])) c' ∧
    rw_w (c_rw c') = rw_w (c_rw c).
Proof.
  intros He Hok Hcs Hsid Hn Hlt.
  destruct (endpoint_read a k out ctl _ rest n c He) as (r & c' & E & Hat & He' & Hww); try done.
  { by apply command_sendable. }
  exists c'. split.
  - rewrite (go_bind_ok _ _ _ _ _ E). unfold gets. by rewrite Hat.
  - split; [|exact Hww]. replace (after a (ctl ++ [command csid sid vals])) with (after a ctl) in He'; [done|].
    unfold after. by rewrite foldl_app.
Qed.
End receive.
