(* ===== verification/ConnClient.v ===== *)
(** * The client's side of a connection (src/protocol/core/conn_client.go)

    A client dials a server, shakes hands, and sends the commands connect, createStream
    and publish or play, each after the answer to the one before. *)
From S2P Require Import Prelude GoIO ReadWriter Av Chunk Conn ConnSafe Handshake Amf Amf3 Amf0 Forward.

Definition PUBLISH : bytes := str "publish".
Definition PLAY : bytes := str "play".

Definition respResult : bytes := str "_result".
Definition respError : bytes := str "_error".
Definition onStatus : bytes := str "onStatus".
Definition publishStart : bytes := str "NetStream.Publish.Start".
Definition playStart : bytes := str "NetStream.Play.Start".
Definition playReset : bytes := str "NetStream.Play.Reset".
Definition connectSuccess : bytes := str "NetConnection.Connect.Success".
Definition onBWDone : bytes := str "onBWDone".

Definition errFail : error := Errorf "respone err".

(** [cc_conn] is nil before [connectServer]. *)
Record ConnClient := mkClient {
  cc_transID : Z;
  cc_url : bytes;
  cc_tcurl : bytes;
  cc_app : bytes;
  cc_title : bytes;
  cc_query : bytes;
  cc_curcmdName : bytes;
  cc_streamid : Z;
  cc_conn : option RtmpConn;
  cc_decoder : Decoder;
}.

Definition NewConnClient : ConnClient := mkClient 1 [] [] [] [] [] [] 0 None NewDecoder.

Definition set_cc_conn v cc := mkClient (cc_transID cc) (cc_url cc) (cc_tcurl cc) (cc_app cc)
  (cc_title cc) (cc_query cc) (cc_curcmdName cc) (cc_streamid cc) v (cc_decoder cc).
Definition set_cc_decoder v cc := mkClient (cc_transID cc) (cc_url cc) (cc_tcurl cc) (cc_app cc)
  (cc_title cc) (cc_query cc) (cc_curcmdName cc) (cc_streamid cc) (cc_conn cc) v.
Definition set_streamid v cc := mkClient (cc_transID cc) (cc_url cc) (cc_tcurl cc) (cc_app cc)
  (cc_title cc) (cc_query cc) (cc_curcmdName cc) v (cc_conn cc) (cc_decoder cc).
Definition set_curcmd v cc := mkClient (cc_transID cc) (cc_url cc) (cc_tcurl cc) (cc_app cc)
  (cc_title cc) (cc_query cc) v (cc_streamid cc) (cc_conn cc) (cc_decoder cc).
Definition set_transID v cc := mkClient v (cc_url cc) (cc_tcurl cc) (cc_app cc)
  (cc_title cc) (cc_query cc) (cc_curcmdName cc) (cc_streamid cc) (cc_conn cc) (cc_decoder cc).
Definition set_cc_url v cc := mkClient (cc_transID cc) v (cc_tcurl cc) (cc_app cc)
  (cc_title cc) (cc_query cc) (cc_curcmdName cc) (cc_streamid cc) (cc_conn cc) (cc_decoder cc).
Definition set_names app title query tcurl cc := mkClient (cc_transID cc) (cc_url cc) tcurl app
  title query (cc_curcmdName cc) (cc_streamid cc) (cc_conn cc) (cc_decoder cc).

(** Operations of [cc.conn]. *)
Definition on_cc {A} (m : go RtmpConn A) : go ConnClient A := λ cc,
  match cc_conn cc with
  | None => (Panic NilDereference, cc)
  | Some c => let '(r, c) := m c in (r, set_cc_conn (Some c) cc)
  end.

Definition cc_DecodeBatch (ver : Z) (data : bytes) : go ConnClient (list value * error) := λ cc,
  let '(r, (d, _)) := DecodeBatch no_handlers ver (cc_decoder cc, data) in
  (r, set_cc_decoder d cc).

Definition cc_Decode (ver : Z) (data : bytes) : go ConnClient (value * bytes) := λ cc,
  let '(r, (d, rest)) := amf_Decode no_handlers ver (cc_decoder cc, data) in
  ((λ v, (v, rest)) <$> r, set_cc_decoder d cc).

(** ** Reading answers *)

(** A message as the caller finds it: the buffer is looked at right away. *)
Definition cc_Read : go ConnClient (ChunkStream bytes) :=
  on_cc (r ← RtmpConn_Read; gets (λ c, message_at (c_heap c) r)).

(** [objmap["code"].(string) == code] *)
Definition has_code (v : value) (code : bytes) : bool :=
  match v with
  | VObject o =>
      match assoc (str "code") o with
      | Some (VString c) => bool_decide (c = code)
      | _ => false
      end
  | _ => false
  end.

Definition is_string (v : value) (s : bytes) : bool :=
  match v with VString x => bool_decide (x = s) | _ => false end.

(** [k == 1 && int(v) == transID] in some place of the list. *)
Fixpoint has_transID (transID k : Z) (vs : list value) : bool :=
  match vs with
  | [] => false
  | VFloat f :: vs =>
      ((k =? 1) && (int_of_float64 f =? transID)) || has_transID transID (k + 1) vs
  | _ :: vs => has_transID transID (k + 1) vs
  end.

(** [if k == 3 { cc.streamid = uint32(id) }] *)
Fixpoint stream_id (k : Z) (vs : list value) (cc : ConnClient) : ConnClient :=
  match vs with
  | [] => cc
  | v :: vs =>
      stream_id (k + 1) vs
        match v with
        | VFloat f => if k =? 3 then set_streamid (u32 (int_of_float64 f)) cc else cc
        | _ => cc
        end
  end.

(** The checks of [waitForResponse] on the values of an answer. *)
Definition check_answer (commandName : bytes) (vs : list value) : go ConnClient unit :=
  cc ← get;
  if decide (commandName = cmdConnect) then
    if existsb (λ v, is_string v respResult) vs && has_transID (cc_transID cc) 0 vs
       && existsb (λ v, has_code v connectSuccess) vs
    then mret tt else fail (Errorf "result:%v transID:%v code:%v")
  else if decide (commandName = cmdCreateStream) then
    _ ← modify (stream_id 0 vs);
    if existsb (λ v, is_string v respResult) vs && has_transID (cc_transID cc) 0 vs
    then mret tt else fail (Errorf "result:%v transID:%v")
  else if decide (commandName = cmdPlay) then
    if existsb (λ v, is_string v onStatus) vs
       && (existsb (λ v, has_code v playStart) vs || existsb (λ v, has_code v playReset) vs)
    then mret tt else fail (Errorf "result:%v start:%v reset:%v")
  else if decide (commandName = cmdPublish) then
    if existsb (λ v, is_string v onStatus) vs && existsb (λ v, has_code v publishStart) vs
    then mret tt else fail (Errorf "result:%v code:%v")
  else fail (Errorf "unknow command:%s").

(** The values of a command message: AMF0 in type 20, AMF3 in type 17. *)
Definition cc_decode_command (cs : ChunkStream bytes) : go ConnClient (list value) :=
  '(vs, e) ← cc_DecodeBatch (if TypeID cs =? 20 then AMF0 else AMF3) (Data cs);
  if decide (e = EOF) then mret vs else fail (Wrapf "decode chunk stream failed, %v" e).

(** What [waitForResponse] does with a message; the result says whether it returns. *)
Definition wait_message (commandName : bytes) (cs : ChunkStream bytes) : go ConnClient bool :=
  let ty := TypeID cs in
  if (ty =? 18) || (ty =? 15) then fail (Errorf "metadata message should not received")
  else if (ty =? 19) || (ty =? 16) then mret false
  else if (ty =? 8) || (ty =? 9) then fail (Errorf "video and audio message should not received")
  else if ty =? 22 then mret true
  else if ty =? 4 then mret false
  else if (ty =? 20) || (ty =? 17) then
    vs ← cc_decode_command cs;
    _ ← check_answer commandName vs;
    mret true
  else mret true.

Fixpoint wait_loop (fuel : nat) (commandName : bytes) : go ConnClient unit :=
  match fuel with
  | O => λ cc, (OutOfFuel, cc)
  | S fuel =>
      cs ← on_err cc_Read (Wrapf "read chunk stream failed, %v");
      finished ← wait_message commandName cs;
      if finished : bool then mret tt else wait_loop fuel commandName
  end.

(** Bytes still to come on the connection: every [Read] takes one at least. *)
Definition input_left (cc : ConnClient) : nat :=
  match cc_conn cc with Some c => S (length (rw_in (c_rw c))) | None => 1 end.

Definition waitForResponse (commandName : bytes) : go ConnClient unit := λ cc,
  wait_loop (input_left cc) commandName cc.

(** One value in [readRespMsg], where nothing but the command [curcmdName] matters. *)
Definition resp_value (k : Z) (v : value) : go ConnClient unit :=
  cc ← get;
  let cmd := cc_curcmdName cc in
  let connecting := bool_decide (cmd = cmdConnect) || bool_decide (cmd = cmdCreateStream) in
  match v with
  | VString s =>
      if connecting then if decide (s = respResult) then mret tt else fail (Errorf "%s")
      else if decide (cmd = cmdPublish) then
        if decide (s = onStatus) then mret tt else fail errFail
      else mret tt
  | VFloat f =>
      let id := int_of_float64 f in
      if connecting then
        if k =? 1 then if id =? cc_transID cc then mret tt else fail errFail
        else if k =? 3 then modify (set_streamid (u32 id))
        else mret tt
      else if decide (cmd = cmdPublish) then
        if id =? 0 then mret tt else fail errFail
      else mret tt
  | VObject objmap =>
      let want code :=
        match assoc (str "code") objmap with
        | Some c => c ← lift (as_string c); if decide (c = code) then mret tt else fail errFail
        | None => mret tt
        end in
      if decide (cmd = cmdConnect) then want connectSuccess
      else if decide (cmd = cmdPublish) then want publishStart
      else mret tt
  | _ => mret tt
  end.

(** At the end of the input the error is dropped and [rc.TypeID] reads a nil pointer. *)
Fixpoint readRespMsg_loop (fuel : nat) : go ConnClient unit :=
  match fuel with
  | O => λ cc, (OutOfFuel, cc)
  | S fuel =>
      r ← try cc_Read;
      match r with
      | inr e => if decide (e = EOF) then crash NilDereference else fail e
      | inl rc =>
          if (TypeID rc =? 20) || (TypeID rc =? 17) then
            '(vs, _) ← cc_DecodeBatch AMF0 (Data rc);
            for_values resp_value 0 vs
          else readRespMsg_loop fuel
      end
  end.

Definition readRespMsg : go ConnClient unit := λ cc, readRespMsg_loop (input_left cc) cc.

(** ** Commands *)

(** [cc.conn.Write(&c)]: its error is dropped. *)
Definition cc_writeMsg (args : list value) : go ConnClient unit :=
  msg ← lift (encode_args args);
  streamid ← gets cc_streamid;
  _ ← on_cc (ignore_err tt (_ ← RtmpConn_Write (command_msg 3 streamid msg); mret tt));
  on_cc RtmpConn_Flush.

Section client.
(** The order in which a map is iterated. *)
Variable iter : object → object.

Definition writeConnectMsg : go ConnClient unit :=
  cc ← get;
  let event := obj_set (str "tcUrl") (VString (cc_tcurl cc))
    (obj_set (str "flashVer") (VString (str "FMS.3.1"))
    (obj_set (str "type") (VString (str "nonprivate"))
    (obj_set (str "app") (VString (cc_app cc)) []))) in
  _ ← modify (set_curcmd cmdConnect);
  cc_writeMsg [VString cmdConnect; VInt false (cc_transID cc); VObject (iter event)].

Definition next_command (name : bytes) : go ConnClient ConnClient :=
  _ ← modify (λ cc, set_curcmd name (set_transID (i64 (cc_transID cc + 1)) cc));
  get.

Definition writeCreateStreamMsg : go ConnClient unit :=
  cc ← next_command cmdCreateStream;
  cc_writeMsg [VString cmdCreateStream; VInt false (cc_transID cc); VNil].

Definition writePublishMsg : go ConnClient unit :=
  cc ← next_command cmdPublish;
  cc_writeMsg [VString cmdPublish; VInt false (cc_transID cc); VNil; VString (cc_title cc);
               VString publishLive].

Definition writePlayMsg : go ConnClient unit :=
  cc ← next_command cmdPlay;
  cc_writeMsg [VString cmdPlay; VInt false 0; VNil; VString (cc_title cc)].

(** ** Checking answers, in the functions that send one command *)

Definition checkResponse_value (commandName : bytes) (k : Z) (v : value)
    : go (ConnClient * bool) unit := λ '(cc, ok),
  let connecting := bool_decide (commandName = cmdConnect)
                    || bool_decide (commandName = cmdCreateStream) in
  let publishing := bool_decide (commandName = cmdPublish) in
  match v with
  | VString s =>
      if connecting then
        if decide (s = respResult) then (Ok tt, (cc, true)) else (Err (Errorf "%s"), (cc, ok))
      else if publishing then
        if decide (s = onStatus) then (Ok tt, (cc, true)) else (Err errFail, (cc, ok))
      else (Ok tt, (cc, ok))
  | VFloat f =>
      let id := int_of_float64 f in
      if connecting then
        if k =? 1 then ((if id =? cc_transID cc then Ok tt else Err errFail), (cc, ok))
        else if k =? 3 then (Ok tt, (set_streamid (u32 id) cc, ok))
        else (Ok tt, (cc, ok))
      else if publishing then ((if id =? 0 then Ok tt else Err errFail), (cc, ok))
      else (Ok tt, (cc, ok))
  | VObject objmap =>
      let want code :=
        match assoc (str "code") objmap with
        | Some c => c ← as_string c; if decide (c = code) then Ok tt else Err errFail
        | None => Ok tt
        end in
      if decide (commandName = cmdConnect) then (want connectSuccess, (cc, ok))
      else if publishing then (want publishStart, (cc, ok))
      else (Ok tt, (cc, ok))
  | _ => (Ok tt, (cc, ok))
  end.

Definition checkResponse (commandName : bytes) (values : list value) : go ConnClient unit := λ cc,
  match for_values (checkResponse_value commandName) 0 values (cc, false) with
  | (Ok _, (cc, resultOK)) =>
      (if resultOK then Ok tt else Err (Errorf "check result failed"), cc)
  | (r, (cc, _)) => (r, cc)
  end.

(** The loop of [netConnection], [streamConnection] and [setupPlayOrPublish], which differ
    in the command and in the message [msg] of an answer that fails. *)
Fixpoint await_loop (fuel : nat) (command : bytes) (msg : string) : go ConnClient unit :=
  match fuel with
  | O => λ cc, (OutOfFuel, cc)
  | S fuel =>
      cs ← on_err cc_Read (Wrapf "read chunk stream failed, %v");
      let ty := TypeID cs in
      if (ty =? 20) || (ty =? 17) then
        vs ← cc_decode_command cs;
        on_err (checkResponse command vs) (Wrapf msg)
      else if (ty =? 18) || (ty =? 15) then fail (Errorf "metadata message should not received")
      else if (ty =? 8) || (ty =? 9) then fail (Errorf "video and audio message should not received")
      else await_loop fuel command msg
  end.

Definition await (command : bytes) (msg : string) : go ConnClient unit := λ cc,
  await_loop (input_left cc) command msg cc.

Definition netConnection : go ConnClient unit :=
  _ ← on_err writeConnectMsg (Wrapf "write connect message failed, %v");
  await cmdConnect "check connect response failed, %v".

Definition streamConnection : go ConnClient unit :=
  _ ← on_err writeCreateStreamMsg (Wrapf "write create stream failed, %v");
  await cmdCreateStream "check create stream response failed, %v".

(** The error of the command is overwritten by the next [Read]; the answer is checked as
    that of "play". *)
Definition setupPlayOrPublish (method : bytes) : go ConnClient unit :=
  if negb (bool_decide (method = PLAY)) && negb (bool_decide (method = PUBLISH))
  then fail (Errorf "unsupport method:%s")
  else
    _ ← ignore_err tt (if decide (method = PLAY) then writePlayMsg else writePublishMsg);
    await cmdPlay "check play response failed, %v".

(** ** Connecting *)

(** [strings.TrimLeft(s, "/")] *)
Fixpoint trim_slashes (s : bytes) : bytes :=
  match s with
  | 47 :: s => trim_slashes s
  | _ => s
  end.

(** The text before and after the first [sep]. *)
Fixpoint cut_first (sep : Z) (s : bytes) : option (bytes * bytes) :=
  match s with
  | [] => None
  | b :: s =>
      if b =? sep then Some ([], s)
      else match cut_first sep s with
           | Some (x, y) => Some (b :: x, y)
           | None => None
           end
  end.

(** The text before and after the last [sep]. *)
Definition cut_last (sep : Z) (s : bytes) : option (bytes * bytes) :=
  match cut_first sep (reverse s) with
  | Some (x, y) => Some (reverse y, reverse x)
  | None => None
  end.

Definition contains (b : Z) (s : bytes) : bool := bool_decide (b ∈ s).

(** [net.SplitHostPort] for a [hostport] that has a colon. *)
Definition SplitHostPort (hostport : bytes) : res (bytes * bytes) :=
  match cut_last 58 hostport with
  | None => Err (Errorf "missing port in address")
  | Some (before, port) =>
      match hostport with
      | 91 :: inner =>
          match cut_first 93 inner with
          | None => Err (Errorf "missing ']' in address")
          | Some (host, tail) =>
              match tail with
              | [] => Err (Errorf "missing port in address")
              | c :: tail' =>
                  if negb (c =? 58) then Err (Errorf "missing port in address")
                  else if contains 58 tail' then Err (Errorf "too many colons in address")
                  else if contains 91 inner then Err (Errorf "unexpected '[' in address")
                  else if contains 93 tail' then Err (Errorf "unexpected ']' in address")
                  else Ok (host, tail')
              end
          end
      | _ =>
          if contains 58 before then Err (Errorf "too many colons in address")
          else if contains 91 hostport then Err (Errorf "unexpected '[' in address")
          else if contains 93 hostport then Err (Errorf "unexpected ']' in address")
          else Ok (before, port)
      end
  end.

(** What [neturl.Parse] returns. *)
Record URL := mkURL { u_Host : bytes; u_Path : bytes; u_RawQuery : bytes }.

(** The world outside the program: the URL parser, the name service with the choice among
    its answers ([rand.Intn] of the length of the list), and the network, which resolves two
    addresses and dials. *)
Variable neturl_Parse : bytes → res URL.
Variable net_LookupIP : bytes → res (list bytes).
Variable rand_Intn : Z → Z.
Variable net_Dial : bytes → bytes → res ReadWriter.

Definition parseURL (url : bytes) : go ConnClient (bytes * bytes) :=
  parsedURL ← on_err (lift (neturl_Parse url)) (Wrapf "parse url failed, %v");
  _ ← modify (set_cc_url url);
  let path := trim_slashes (u_Path parsedURL) in
  match cut_first 47 path with
  | None => fail (Errorf "path err, %s")
  | Some (app, title) =>
      let host := u_Host parsedURL in
      _ ← modify (set_names app title (u_RawQuery parsedURL)
                    (str "rtmp://" ++ host ++ str "/" ++ app));
      '(host, port) ← (if contains 58 host then
                         '(host, port) ← lift (SplitHostPort host);
                         mret (host, str ":" ++ port)
                       else mret (host, str ":1935"));
      ips ← on_err (lift (net_LookupIP host)) (Wrapf "net.LookupIP failed, %v");
      match ips !! Z.to_nat (rand_Intn (len ips)) with
      | None => crash IndexOutOfRange
      | Some remote => mret (str ":0", if contains 58 remote then remote else remote ++ port)
      end
  end.

Definition connectServer (url : bytes) : go ConnClient unit :=
  '(localIP, remoteIP) ← on_err (parseURL url) (Wrapf "parse url:%s faile, %v");
  rw ← on_err (lift (net_Dial localIP remoteIP)) (Wrapf "net.DialTCP failed, %v");
  let '(r, rtmpConn) := HandshakeClient (NewRtmpConn rw) in
  _ ← on_err (lift r) (Wrapf "HandshakeClient failed,  %v");
  modify (set_cc_conn (Some rtmpConn)).

(** The command that is sent, and the one that follows its answer. *)
Definition send_command (curCommand : bytes) : go ConnClient unit :=
  if decide (curCommand = cmdConnect) then
    on_err writeConnectMsg (Wrapf "write connect msg failed, %v")
  else if decide (curCommand = cmdCreateStream) then
    on_err writeCreateStreamMsg (Wrapf "write create stream failed, %v")
  else if decide (curCommand = cmdPlay) then
    on_err writePlayMsg (Wrapf "write play msg failed, %v")
  else if decide (curCommand = cmdPublish) then
    on_err writePublishMsg (Wrapf "write publish msg failed, %v")
  else mret tt.

Definition following_command (method curCommand : bytes) : res (option bytes) :=
  if decide (curCommand = cmdConnect) then Ok (Some cmdCreateStream)
  else if decide (curCommand = cmdCreateStream) then
    if decide (method = PUBLISH) then Ok (Some cmdPublish)
    else if decide (method = PLAY) then Ok (Some cmdPlay)
    else Err (Errorf "unsupport method:%s")
  else Ok None.

Fixpoint start_loop (fuel : nat) (method curCommand : bytes) : go ConnClient unit :=
  match fuel with
  | O => λ cc, (OutOfFuel, cc)
  | S fuel =>
      _ ← send_command curCommand;
      _ ← on_err (waitForResponse curCommand) (Wrapf "wait for %s response failed, %v");
      next ← lift (following_command method curCommand);
      match next with
      | None => mret tt
      | Some next => start_loop fuel method next
      end
  end.

(** Three commands at most. *)
Definition Start (url method : bytes) : go ConnClient unit :=
  _ ← on_err (connectServer url) (Wrapf "connect to server failed, %v");
  start_loop 3 method cmdConnect.
End client.

(** A publisher puts the frame in front of metadata. *)
Definition cc_Write (c : ChunkStream bytes) : go ConnClient unit :=
  c ← (if (TypeID c =? TAG_SCRIPTDATAAMF0) || (TypeID c =? TAG_SCRIPTDATAAMF3) then
         d ← lift (MetaDataReform (Data c) ADD);
         mret (set_Length (u32 (len d)) (set_Data d c))
       else mret c);
  on_cc (_ ← RtmpConn_Write c; mret tt).

Definition cc_Flush : go ConnClient unit := on_cc RtmpConn_Flush.

(** The connection, an object of the network, is closed. *)
Definition cc_Close : go ConnClient unit := on_cc (mret tt).

Definition cc_GetStreamInfo (cc : ConnClient) : bytes * bytes * bytes :=
  (cc_app cc, cc_title cc, cc_url cc).

Definition GetStreamID (cc : ConnClient) : Z := cc_streamid cc.

(** ** Operations of the connection *)

Lemma on_cc_ok {A} (m : go RtmpConn A) cc c c' x : cc_conn cc = Some c → m c = (Ok x, c') →
  on_cc m cc = (Ok x, set_cc_conn (Some c') cc).
Proof. intros Hc E. unfold on_cc. by rewrite Hc, E. Qed.

(** ** Addresses *)

Lemma cut_first_mid sep x y : sep ∉ x → cut_first sep (x ++ sep :: y) = Some (x, y).
Proof.
  induction x as [|b x IH]; intros Hx; cbn [cut_first app]; [by rewrite Z.eqb_refl|].
  rewrite not_elem_of_cons in Hx. destruct Hx as [Hb Hx].
  rewrite (proj2 (Z.eqb_neq b sep)) by congruence. by rewrite IH.
Qed.

Lemma cut_last_mid sep x y : sep ∉ y → cut_last sep (x ++ sep :: y) = Some (x, y).
Proof.
  intros Hy. unfold cut_last. rewrite reverse_app, reverse_cons, <- app_assoc. simpl.
  rewrite cut_first_mid by (by rewrite elem_of_reverse). by rewrite !reverse_involutive.
Qed.

Lemma contains_true b s : b ∈ s → contains b s = true.
Proof. intros H. by apply bool_decide_eq_true_2. Qed.

Lemma contains_false b s : b ∉ s → contains b s = false.
Proof. intros H. by apply bool_decide_eq_false_2. Qed.

(** Text without a colon or a bracket. *)
Definition plain (s : bytes) : Prop := (58 ∉ s) ∧ (91 ∉ s) ∧ (93 ∉ s).

Lemma SplitHostPort_ok host port : plain host → plain port →
  SplitHostPort (host ++ 58 :: port) = Ok (host, port).
Proof.
  intros (H1 & H2 & H3) (P1 & P2 & P3). unfold SplitHostPort. rewrite cut_last_mid by done.
  assert (Hb : ∀ b, b ≠ 58 → b ∉ host → b ∉ port → contains b (host ++ 58 :: port) = false).
  { intros b Hb Hh Hp. apply contains_false. rewrite elem_of_app, elem_of_cons. tauto. }
  rewrite (contains_false 58 host), !Hb by done.
  destruct host as [|h host]; [done|]. apply not_elem_of_cons in H2 as [Hh _].
  cbn [app]. repeat case_match; try done; congruence.
Qed.

(** The name and the port in a host. *)
Definition host_port (hostport host port : bytes) : Prop :=
  (58 ∉ hostport) ∧ hostport = host ∧ port = str "1935" ∨
  hostport = host ++ 58 :: port ∧ plain host ∧ plain port.

Lemma parseURL_ok neturl_Parse net_LookupIP rand_Intn url u app title host port ips ip cc :
  neturl_Parse url = Ok u → trim_slashes (u_Path u) = app ++ 47 :: title → 47 ∉ app →
  host_port (u_Host u) host port →
  net_LookupIP host = Ok ips → ips !! Z.to_nat (rand_Intn (len ips)) = Some ip →
  parseURL neturl_Parse net_LookupIP rand_Intn url cc
  = (Ok (str ":0", if contains 58 ip then ip else ip ++ 58 :: port),
     set_names app title (u_RawQuery u) (str "rtmp://" ++ u_Host u ++ str "/" ++ app)
       (set_cc_url url cc)).
Proof.
  intros Hu Hpath Happ Hhost Hips Hip. unfold parseURL.
  erewrite go_bind_on_err by (unfold lift; rewrite Hu; reflexivity).
  rewrite go_bind_modify, Hpath, cut_first_mid, go_bind_modify by done.
  set (s := set_names _ _ _ _ _).
  assert (Hin : (if contains 58 (u_Host u) then
                   '(host, port) ← lift (SplitHostPort (u_Host u)); mret (host, str ":" ++ port)
                 else mret (u_Host u, str ":1935")) s = (Ok (host, 58 :: port), s)).
  { destruct Hhost as [(Hc & Hh & ->)|(-> & Hh & Hp)].
    { rewrite contains_false, Hh by done. reflexivity. }
    rewrite contains_true by (apply elem_of_app; right; by left).
    by rewrite (go_bind_lift _ _ _ _ (SplitHostPort_ok _ _ Hh Hp)). }
  rewrite (go_bind_ok _ _ _ _ _ Hin). cbv beta iota.
  erewrite go_bind_on_err by (unfold lift; rewrite Hips; reflexivity).
  by rewrite Hip.
Qed.

(** ** Where the client goes wrong *)

(** A client that is connected and has just received [input]. *)
Definition cc_on (input : bytes) : ConnClient := set_cc_conn (Some (conn_on input)) NewConnClient.

(** Any aggregate message is taken for the answer. *)
Example aggregate_is_an_answer : (waitForResponse cmdConnect (cc_on (hdr0 3 0 1 22 ++ [0]))).1 = Ok tt.
Proof. vm_compute. reflexivity. Qed.

(** Reading an answer when the connection has ended. *)
Example resp_at_eof_panics : (readRespMsg (cc_on [])).1 = Panic NilDereference.
Proof. vm_compute. reflexivity. Qed.

(** A host with an IPv6 address is dialled without a port. *)
Example ipv6_without_port :
  (parseURL (λ _, Ok (mkURL (str "h") (str "/a/b") [])) (λ _, Ok [str "2001:db8::1"]) (λ _, 0) [] NewConnClient).1
  = Ok (str ":0", str "2001:db8::1").
Proof. vm_compute. reflexivity. Qed.

(** The functions that send one command at a time ask for the answer to "play", which
    [checkResponse] never accepts. *)
Lemma check_play_fails vs cc : (checkResponse cmdPlay vs cc).1 ≠ Ok tt.
Proof.
  assert (H : ∀ k cc ok, ∃ cc', for_values (checkResponse_value cmdPlay) k vs (cc, ok) = (Ok tt, (cc', ok))).
  { induction vs as [|v vs' IH]; intros k cc0 ok; [by eexists|]. cbn [for_values].
    rewrite go_bind_ok with (a := tt) (s' := (cc0, ok)); [apply IH|by destruct v]. }
  destruct (H 0 cc false) as [cc' E]. unfold checkResponse. by rewrite E.
Qed.

Lemma on_err_fails {S A} (m : go S A) g s a : (m s).1 ≠ Ok a → (on_err m g s).1 ≠ Ok a.
Proof. unfold on_err. by destruct (m s) as [[]]. Qed.

Lemma setupPlayOrPublish_fails method cc : (setupPlayOrPublish method cc).1 ≠ Ok tt.
Proof.
  assert (H : ∀ fuel msg cc, (await_loop fuel cmdPlay msg cc).1 ≠ Ok tt).
  { induction fuel as [|fuel IH]; intros msg cc0; [done|]. cbn [await_loop]. unfold mbind at 1, go_bind at 1.
    destruct (on_err cc_Read _ cc0) as [[cs| | |] cc1]; try done. cbv zeta.
    repeat case_match; try done || apply IH. unfold mbind, go_bind.
    destruct (cc_decode_command cs cc1) as [[vs| | |] cc2]; try done. apply on_err_fails, check_play_fails. }
  unfold setupPlayOrPublish. destruct (_ && _); [done|]. unfold mbind, go_bind, ignore_err.
  destruct (decide (method = PLAY)).
  - destruct (writePlayMsg cc) as [[]]; try done; apply H.
  - destruct (writePublishMsg cc) as [[]]; try done; apply H.
Qed.
