(* ===== verification/Dialogue.v ===== *)
(** * The dialogue of a client and a server

    A client that publishes or plays and a server agree: on what the client writes the
    server reaches its end of the set-up, and on what the server writes the client does. *)
From S2P Require Import Prelude Pio GoIO ReadWriter Av Chunk Conn ConnSafe Exchange Crypto Handshake.
From S2P Require Import Amf Amf3 Amf0 Forward Commands ConnClient.

(** ** Commands without surprises *)

Lemma str_bytes s : Forall is_byte (str s).
Proof.
  unfold str. apply Forall_fmap, Forall_true. intros c. unfold is_byte. simpl.
  pose proof (Ascii.nat_ascii_bounded c). lia.
Qed.

(** The same value with the maps at its top in another order. *)
Definition reordered (v v' : value) : Prop :=
  v = v' ∨ ∃ o o', v = VObject o ∧ v' = VObject o' ∧ o ≡ₚ o'.

Lemma command_ok_reordered vals vals' : Forall2 reordered vals vals' →
  command_ok vals → command_ok vals'.
Proof.
  intros Hp [Hne Hv Hb Hs].
  assert (H : Forall amf0_ok vals' ∧ Forall bytes_ok vals' ∧
    len (command_data vals') = len (command_data vals)).
  { clear Hne Hs. unfold command_data. induction Hp as [|v v' vals vals' Hvv Hp IH]; [done|].
    apply Forall_cons in Hv as [Hv Hvs], Hb as [Hb Hbs]. destruct (IH Hvs Hbs) as (H1 & H2 & H3).
    cbn [fmap list_fmap]. rewrite !mjoin_cons, !len_app, H3.
    destruct Hvv as [->|(o & o' & -> & -> & Ho)]; [by auto|].
    rewrite (size_perm _ _ Ho). split_and!; [| |done]; constructor; try done.
    - by eapply amf0_ok_perm.
    - by eapply bytes_ok_perm. }
  destruct H as (H1 & H2 & H3). constructor; try done; [|by rewrite H3].
  by destruct Hp.
Qed.

Lemma reordered_object o o' : o' ≡ₚ o → reordered (VObject o) (VObject o').
Proof. intros Hp. right. exists o, o'. by split_and!. Qed.

Ltac reorder := repeat (apply Forall2_cons; split; [first [by left | by apply reordered_object]|]);
  by apply Forall2_nil.

(** Every value of a command of the dialogue is of one of these forms. *)
Ltac value_ok :=
  lazymatch goal with
  | |- amf0_ok VNil => apply ok0_nil
  | |- amf0_ok (VInt _ _) => apply ok0_int
  | |- amf0_ok (VString _) => apply ok0_string; first [lia | reflexivity]
  | |- amf0_ok (VObject _) =>
      apply ok0_object; [split; apply (bool_decide_unpack _); vm_compute; exact I|]
  | |- bytes_ok VNil => apply bo_nil
  | |- bytes_ok (VInt _ _) => apply bo_int
  | |- bytes_ok (VString _) => apply bo_string; first [assumption | apply str_bytes]
  | |- bytes_ok (VObject _) => apply bo_object
  | |- Forall _ (_ :: _) => apply Forall_cons_2
  | |- Forall _ [] => apply Forall_nil_2
  | |- Forall is_byte (_, _).1 ∧ _ => split; [apply str_bytes|]; cbn [snd]
  | |- amf0_ok (_, _).2 => cbn [snd]
  end.

Lemma string_size s : len (amf0_bytes (VString s)) ≤ 5 + len s.
Proof.
  cbn [amf0_bytes]. destruct (_ <=? _); unfold key_bytes, len; cbn [length app];
    rewrite ?length_app, length_be_split; simpl; lia.
Qed.

Lemma object_size o : len (amf0_bytes (VObject o))
  = 4 + foldr (λ kv t, 2 + len kv.1 + len (amf0_bytes kv.2) + t) 0 o.
Proof.
  cbn [amf0_bytes]. unfold entries_bytes. rewrite !len_app.
  induction o as [|[k v] o IH]; [done|]. cbn [map fmap list_fmap foldr fst snd] in *.
  rewrite mjoin_cons, !len_app. unfold key_bytes at 1. rewrite len_app.
  unfold len at 2. rewrite length_be_split. lia.
Qed.

(** The size of a command, with the lengths of all closed lists computed. *)
Ltac command_size :=
  unfold command_data; cbn [fmap list_fmap]; rewrite ?mjoin_cons, ?len_app, ?object_size;
  cbn [foldr fst snd];
  repeat match goal with
  | |- context [len ?l] =>
      let n := eval vm_compute in (len l) in
      match n with Z0 => change (len l) with n | Zpos _ => change (len l) with n end
  end.

(** ** The messages of the dialogue *)

Definition hello : list (ChunkStream bytes) :=
  [newCS 0 2 0 4 5 0 [0; 38; 37; 160]; newCS 0 2 0 5 6 0 [0; 38; 37; 160; 2];
   newCS 0 2 0 4 1 0 [0; 0; 4; 0]].

Lemma hello_sendable : Forall sendable hello.
Proof. repeat (apply Forall_cons; split; [sendable_sample|]). by apply Forall_nil. Qed.

Lemma hello_control : Forall (λ m, is_control (TypeID m) = true) hello.
Proof. by repeat constructor. Qed.

Lemma hello_window : Forall (window_ok quota) hello.
Proof. repeat constructor; intros E; vm_compute in E |- *; congruence. Qed.

Section dialogue.
Variables iterC iterS : object → object.
Hypothesis iterC_perm : ∀ o, iterC o ≡ₚ o.
Hypothesis iterS_perm : ∀ o, iterS o ≡ₚ o.
Variables url app title tcurl : bytes.
Hypothesis app_bytes : Forall is_byte app.
Hypothesis title_bytes : Forall is_byte title.
Hypothesis tcurl_bytes : Forall is_byte tcurl.
Hypothesis short : len app + len title + len tcurl < 2 ^ 19.

Definition connect_event : object :=
  [(str "app", VString app); (str "type", VString (str "nonprivate"));
   (str "flashVer", VString (str "FMS.3.1")); (str "tcUrl", VString tcurl)].

Definition connect_args : list value :=
  [VString cmdConnect; VInt false 1; VObject (iterC connect_event)].
Definition create_args : list value := [VString cmdCreateStream; VInt false 2; VNil].
Definition publish_args : list value :=
  [VString cmdPublish; VInt false 3; VNil; VString title; VString publishLive].
Definition play_args : list value := [VString cmdPlay; VInt false 0; VNil; VString title].

Definition connected_event : object :=
  [(str "level", VString (str "status")); (str "code", VString connectSuccess);
   (str "description", VString (str "Connection succeeded.")); (str "objectEncoding", VInt false 0)].
Definition server_info : object :=
  [(str "fmsVer", VString (str "FMS/3,0,1,123")); (str "capabilities", VInt false 31)].

Definition connect_result : list value :=
  [VString respResult; VInt false 1; VObject (iterS server_info); VObject (iterS connected_event)].
Definition create_result : list value := [VString respResult; VInt false 2; VNil; VInt false 1].

Definition event (code description : string) : object :=
  [(str "level", VString (str "status")); (str "code", VString (str code));
   (str "description", VString (str description))].
Definition status (code description : string) : list value :=
  [VString onStatus; VInt false 0; VNil; VObject (iterS (event code description))].

Lemma connect_args_ok : command_ok connect_args.
Proof.
  apply (command_ok_reordered [VString cmdConnect; VInt false 1; VObject connect_event]).
  { reorder. }
  pose proof (len_nonneg app). pose proof (len_nonneg title). pose proof (len_nonneg tcurl).
  constructor; [done| | |].
  - unfold connect_event. repeat value_ok.
  - unfold connect_event. repeat value_ok.
  - pose proof (string_size app). pose proof (string_size tcurl). unfold connect_event.
    command_size. lia.
Qed.

Lemma create_args_ok : command_ok create_args.
Proof. constructor; [done|unfold create_args; repeat value_ok..|by vm_compute]. Qed.

Lemma publish_args_ok : command_ok publish_args.
Proof.
  pose proof (len_nonneg app). pose proof (len_nonneg tcurl). pose proof (string_size title).
  constructor; [done|unfold publish_args; repeat value_ok..|].
  unfold publish_args. command_size. lia.
Qed.

Lemma play_args_ok : command_ok play_args.
Proof.
  pose proof (len_nonneg app). pose proof (len_nonneg tcurl). pose proof (string_size title).
  constructor; [done|unfold play_args; repeat value_ok..|].
  unfold play_args. command_size. lia.
Qed.

Lemma connect_result_ok : command_ok connect_result.
Proof.
  apply (command_ok_reordered
    [VString respResult; VInt false 1; VObject server_info; VObject connected_event]); [reorder|].
  constructor; [done|unfold server_info, connected_event; repeat value_ok..|by vm_compute].
Qed.

Lemma create_result_ok : command_ok create_result.
Proof. constructor; [done|unfold create_result; repeat value_ok..|by vm_compute]. Qed.

Lemma status_ok code description : len (str code) < 1000 → len (str description) < 1000 →
  command_ok (status code description).
Proof.
  intros Hc Hd. apply (command_ok_reordered
    [VString onStatus; VInt false 0; VNil; VObject (event code description)]); [reorder|].
  pose proof (string_size (str code)). pose proof (string_size (str description)).
  constructor; [done|unfold event; repeat value_ok..|].
  unfold event. command_size. lia.
Qed.

(** ** The server *)

Lemma decode_command_ok wrap vals fc : Forall amf0_ok vals →
  ∃ d, decode_command wrap (command_data vals) fc = (Ok (amf0_norm <$> vals), set_fc_decoder d fc).
Proof.
  intros Hok. destruct (batch_decodes no_handlers vals (fc_decoder fc) Hok) as (d & Hd). exists d.
  unfold decode_command, fc_DecodeBatch, mbind, go_bind. fold (command_data vals) in Hd.
  by rewrite Hd.
Qed.

(** A command that arrives is decoded and obeyed. *)
Lemma setup_pass_ok a k ka out rest n fc sid vals : a_size a = ka →
  endpoint a k out (wire_of ka [command 3 sid vals] ++ rest) n (fc_conn fc) →
  command_ok vals → fits 32 sid → quota ≤ a_window a → 0 ≤ n → n + len (command_data vals) < quota →
  ∃ c d, setup_pass iterS fc
      = setup_command iterS (command 3 sid vals) (amf0_norm <$> vals) (set_fc_decoder d (set_fc_conn c fc)) ∧
    endpoint a k out rest (n + len (command_data vals)) c.
Proof.
  intros <- He Hok Hsid Hw Hn Hlt.
  assert (Ht : total [command 3 sid vals] = len (command_data vals)) by (simpl; lia).
  destruct (read_command a k out rest n []) with (c := fc_conn fc) (csid := 3) (sid := sid)
    (vals := vals) as (c & E & He' & _); rewrite ?app_nil_l, ?Ht; auto; [lia|].
  rewrite app_nil_l, Ht in He'.
  destruct (decode_command_ok (Wrapf "Amf DecodeBatch failed, %v") vals (set_fc_conn c fc)
    (co_values _ Hok)) as (d & Hd).
  exists c, d. split; [|exact He']. unfold setup_pass.
  rewrite go_bind_on_err with (a := command 3 sid vals) (s' := set_fc_conn c fc)
    by (unfold fc_Read, on_conn; by rewrite E).
  cbv beta. change (negb (TypeID (command 3 sid vals) =? 17) && negb (TypeID (command 3 sid vals) =? 20))
    with false. cbv iota.
  rewrite go_bind_lift with (a := command 3 sid vals) by done.
  by rewrite (go_bind_ok _ _ _ _ _ Hd).
Qed.

(** A map looks the same in every order, and after its way through the encoder. *)
Lemma assoc_sent (iter : object → object) (o : object) key : (∀ o, iter o ≡ₚ o) → NoDup o.*1 →
  assoc key (map (λ '(k, v), (k, amf0_norm v)) (iter o)) = amf0_norm <$> assoc key o.
Proof.
  intros Hp Hnd. rewrite assoc_map. f_equal. symmetry. by apply assoc_perm.
Qed.

Lemma connect_ok fc : ci_ObjectEncoding (fc_ConnInfo fc) = 0 →
  connect (tail (amf0_norm <$> connect_args)) fc
  = (Ok tt, set_ConnInfo (mkConnectInfo app (str "FMS.3.1") tcurl 0) (set_transactionID 1 fc)).
Proof.
  intros Hz. assert (Ha : ∀ key, assoc key (map (λ '(k, v), (k, amf0_norm v)) (iterC connect_event))
    = amf0_norm <$> assoc key connect_event).
  { intros key. apply assoc_sent; [done|]. apply (bool_decide_unpack _). vm_compute. exact I. }
  unfold connect, connect_args. cbn [fmap list_fmap tail amf0_norm for_values].
  rewrite go_bind_ok with (a := tt) (s' := set_transactionID 1 fc) by done.
  rewrite go_bind_ok with (a := tt)
    (s' := set_ConnInfo (mkConnectInfo app (str "FMS.3.1") tcurl 0) (set_transactionID 1 fc)); [done|].
  cbn [connect_value]. unfold set_from. rewrite !Ha. destruct fc as [? ? ? ? ? [? ? ? ?] ? ?].
  simpl in Hz. by subst.
Qed.

(** Writing one of the three control messages. *)
Lemma send_control a k out inp n fc m : endpoint a k out inp n (fc_conn fc) → m ∈ hello →
  5 ≤ k →
  ∃ c, fc_send m fc = (Ok tt, set_fc_conn c fc) ∧
    endpoint a (next_size k m) (out ++ wire_of k [m]) inp n c.
Proof.
  intros He Hm Hk.
  assert (Hs : sendable m) by (pose proof hello_sendable as H; rewrite Forall_forall in H; auto).
  assert (Hcs : writeChunk_csid m = m ∧ size_fits k m).
  { unfold hello in Hm. rewrite !elem_of_cons, elem_of_nil in Hm.
    destruct Hm as [->|[->|[->|[]]]]; (split; [done|]); intros E; try done.
    change (size_value _) with 1024. change (len (Data _)) with 4. lia. }
  destruct Hcs as [Hcs Hf]. destruct (fc_send_ok a k out inp n fc m He Hs Hf) as (c & E & He').
  rewrite Hcs in He'. by exists c.
Qed.

Lemma connectResp_ok a out inp n fc vals : endpoint a 128 out inp n (fc_conn fc) →
  fc_transactionID fc = 1 → ci_ObjectEncoding (fc_ConnInfo fc) = 0 →
  ∃ c, connectResp iterS (command 3 0 vals) fc = (Ok tt, set_fc_conn c fc) ∧
    endpoint a 1024 (out ++ wire_of 128 (hello ++ [command 3 0 connect_result])) inp n c ∧
    bw_sent (rw_w (c_rw c)) = out ++ wire_of 128 (hello ++ [command 3 0 connect_result]).
Proof.
  intros He Ht Hz. unfold connectResp.
  erewrite go_bind_lift by reflexivity.
  destruct (send_control a 128 out inp n fc (newCS 0 2 0 4 5 0 [0; 38; 37; 160]) He)
    as (c1 & E1 & He1); [by left|done|]. change (next_size 128 _) with 128 in He1.
  erewrite go_bind_ok by exact E1. erewrite go_bind_lift by reflexivity.
  destruct (send_control _ _ _ _ _ (set_fc_conn c1 fc) (newCS 0 2 0 5 6 0 [0; 38; 37; 160; 2]) He1)
    as (c2 & E2 & He2); [by right; left|done|]. change (next_size 128 _) with 128 in He2.
  erewrite go_bind_ok by exact E2. erewrite go_bind_lift by reflexivity.
  destruct (send_control _ _ _ _ _ (set_fc_conn c2 fc) (newCS 0 2 0 4 1 0 [0; 0; 4; 0]) He2)
    as (c3 & E3 & He3); [by right; right; left|done|].
  erewrite go_bind_ok by exact E3.
  change (next_size 128 _) with 1024 in He3.
  destruct (fc_writeMsg_ok _ _ _ _ _ (set_fc_conn c3 fc) 3 0 connect_result He3 connect_result_ok)
    as (c4 & E4 & He4 & Hs4); [done|done|].
  exists c4. split; [|].
  { unfold get, mbind, go_bind. cbv beta zeta. cbn [set_fc_conn fc_ConnInfo fc_transactionID].
    rewrite Ht, Hz. exact E4. }
  replace (out ++ wire_of 128 (hello ++ [command 3 0 connect_result]))
    with (((out ++ wire_of 128 [newCS 0 2 0 4 5 0 [0; 38; 37; 160]])
      ++ wire_of 128 [newCS 0 2 0 5 6 0 [0; 38; 37; 160; 2]]) ++ wire_of 128 [newCS 0 2 0 4 1 0 [0; 0; 4; 0]]
      ++ wire_of 1024 [command 3 0 connect_result]).
  { by rewrite (app_assoc _ _ (wire_of 1024 _)). }
  rewrite wire_of_app, <- !app_assoc. done.
Qed.

Lemma setup_connect a out inp n fc : endpoint a 128 out inp n (fc_conn fc) →
  ci_ObjectEncoding (fc_ConnInfo fc) = 0 →
  ∃ c, setup_command iterS (command 3 0 connect_args) (amf0_norm <$> connect_args) fc
      = (Ok false, set_fc_conn c (set_ConnInfo (mkConnectInfo app (str "FMS.3.1") tcurl 0)
                                   (set_transactionID 1 fc))) ∧
    endpoint a 1024 (out ++ wire_of 128 (hello ++ [command 3 0 connect_result])) inp n c.
Proof.
  intros He Hz. destruct (connectResp_ok a out inp n (set_ConnInfo
    (mkConnectInfo app (str "FMS.3.1") tcurl 0) (set_transactionID 1 fc)) connect_args)
    as (c & E & He' & _); [done..|].
  exists c. split; [|done]. unfold setup_command. cbn [fmap list_fmap amf0_norm connect_args].
  rewrite decide_True by done.
  rewrite (go_bind_on_err _ _ _ _ _ _ (connect_ok fc Hz)).
  by rewrite (go_bind_on_err _ _ _ _ _ _ E).
Qed.

Lemma setup_create a k out inp n fc : endpoint a k out inp n (fc_conn fc) → fc_streamID fc = 1 →
  ∃ c, setup_command iterS (command 3 0 create_args) (amf0_norm <$> create_args) fc
      = (Ok false, set_fc_conn c (set_transactionID 2 fc)) ∧
    endpoint a k (out ++ wire_of k [command 3 0 create_result]) inp n c.
Proof.
  intros He Hs. destruct (fc_writeMsg_ok _ _ _ _ _ (set_transactionID 2 fc) 3 0 create_result He
    create_result_ok) as (c & E & He' & _); [done..|].
  exists c. split; [|done]. unfold setup_command. cbn [fmap list_fmap amf0_norm create_args].
  rewrite decide_False, decide_True by done.
  erewrite go_bind_ok by reflexivity.
  rewrite go_bind_on_err with (a := tt) (s' := set_fc_conn c (set_transactionID 2 fc)); [done|].
  unfold createStreamResp, get, mbind, go_bind. change (fc_transactionID _) with 2.
  match goal with |- context [fc_streamID ?x] => change (fc_streamID x) with (fc_streamID fc) end.
  rewrite Hs. exact E.
Qed.

Lemma write_status_ok a k out inp n fc vals code description : endpoint a k out inp n (fc_conn fc) →
  len (str code) < 1000 → len (str description) < 1000 →
  ∃ c, write_status iterS (command 3 1 vals) (event code description) fc = (Ok tt, set_fc_conn c fc) ∧
    endpoint a k (out ++ wire_of k [command 3 1 (status code description)]) inp n c ∧ flushed c.
Proof.
  intros He Hc Hd. destruct (fc_writeMsg_ok _ _ _ _ _ fc 3 1 (status code description) He)
    as (c & E & He' & Hs); [by apply status_ok|done..|]. exists c. split; [exact E|]. split; [exact He'|].
  by eapply endpoint_flushed.
Qed.

Lemma setup_publish a k out inp n fc : endpoint a k out inp n (fc_conn fc) →
  ∃ c, setup_command iterS (command 3 1 publish_args) (amf0_norm <$> publish_args) fc
      = (Ok true, set_isPublisher true (set_fc_conn c
          (set_PublishInfo (mkPublishInfo title publishLive) (set_transactionID 3 fc)))) ∧
    endpoint a k (out ++ wire_of k [command 3 1 (status "NetStream.Publish.Start" "Start publising.")])
      inp n c ∧ flushed c.
Proof.
  intros He. destruct (write_status_ok a k out inp n (set_PublishInfo (mkPublishInfo title publishLive)
    (set_transactionID 3 fc)) publish_args "NetStream.Publish.Start" "Start publising.")
    as (c & E & He'); [done..|].
  exists c. split; [|done]. unfold setup_command. cbn [fmap list_fmap amf0_norm publish_args].
  rewrite decide_False, decide_False, decide_True by done.
  erewrite go_bind_ok with (s' := set_PublishInfo (mkPublishInfo title publishLive)
    (set_transactionID 3 fc)) by (by destruct fc as [? ? ? ? ? ? []]).
  by rewrite (go_bind_on_err _ _ _ _ _ _ E).
Qed.

(** The four events of a player, in this order. *)
Definition play_events : list (ChunkStream bytes) :=
  [command 3 1 (status "NetStream.Play.Reset" "Playing and resetting stream.");
   command 3 1 (status "NetStream.Play.Start" "Started playing stream.");
   command 3 1 (status "NetStream.Data.Start" "Started playing stream.");
   command 3 1 (status "NetStream.Play.PublishNotify" "Started playing notify.")].

(** What [SetRecorded] and [SetBegin] send. *)
Definition stream_events : list (ChunkStream bytes) :=
  [newCS 0 2 0 6 4 1 [0; 4; 0; 0; 0; 1]; newCS 0 2 0 6 4 1 [0; 0; 0; 0; 0; 1]].

Lemma stream_events_sendable : Forall sendable stream_events.
Proof. repeat (apply Forall_cons; split; [sendable_sample|]). by apply Forall_nil. Qed.

Lemma stream_event_ok a k out inp n fc m (ev : go RtmpConn unit) : endpoint a k out inp n (fc_conn fc) →
  m ∈ stream_events → (∀ c, ev c = ignore_err tt (_ ← RtmpConn_Write m; mret tt) c) →
  ∃ c, on_conn ev fc = (Ok tt, set_fc_conn c fc) ∧ endpoint a k (out ++ wire_of k [m]) inp n c.
Proof.
  intros He Hm Hev.
  assert (Hs : sendable m) by (pose proof stream_events_sendable as H; rewrite Forall_forall in H; auto).
  assert (Hcs : writeChunk_csid m = m ∧ TypeID m = 4)
    by (unfold stream_events in Hm; rewrite !elem_of_cons, elem_of_nil in Hm;
        destruct Hm as [->|[->|[]]]; done).
  destruct Hcs as [Hcs Ht].
  destruct (fc_send_ok a k out inp n fc m He Hs) as (c & E & He'); [intros E; congruence|].
  rewrite Hcs in He'. unfold next_size in He'. rewrite Ht in He'. exists c. split; [|done].
  unfold on_conn. rewrite Hev. exact E.
Qed.

Lemma playResp_ok a k out inp n fc vals : endpoint a k out inp n (fc_conn fc) →
  ∃ c, playResp iterS (command 3 1 vals) fc = (Ok tt, set_fc_conn c fc) ∧
    endpoint a k (out ++ wire_of k (stream_events ++ play_events)) inp n c ∧ flushed c.
Proof.
  intros He. unfold playResp.
  destruct (stream_event_ok _ _ _ _ _ fc (newCS 0 2 0 6 4 1 [0; 4; 0; 0; 0; 1]) SetRecorded He)
    as (c1 & E1 & He1); [by left|done|]. erewrite go_bind_ok by exact E1.
  destruct (stream_event_ok _ _ _ _ _ (set_fc_conn c1 fc) (newCS 0 2 0 6 4 1 [0; 0; 0; 0; 0; 1]) SetBegin He1)
    as (c2 & E2 & He2); [by right; left|done|]. erewrite go_bind_ok by exact E2.
  destruct (write_status_ok _ _ _ _ _ (set_fc_conn c2 fc) vals "NetStream.Play.Reset"
    "Playing and resetting stream." He2) as (c3 & E3 & He3 & _); [done..|]. erewrite go_bind_ok by exact E3.
  destruct (write_status_ok _ _ _ _ _ (set_fc_conn c3 fc) vals "NetStream.Play.Start"
    "Started playing stream." He3) as (c4 & E4 & He4 & _); [done..|]. erewrite go_bind_ok by exact E4.
  destruct (write_status_ok _ _ _ _ _ (set_fc_conn c4 fc) vals "NetStream.Data.Start"
    "Started playing stream." He4) as (c5 & E5 & He5 & _); [done..|]. erewrite go_bind_ok by exact E5.
  destruct (write_status_ok _ _ _ _ _ (set_fc_conn c5 fc) vals "NetStream.Play.PublishNotify"
    "Started playing notify." He5) as (c6 & E6 & He6 & _); [done..|]. erewrite go_bind_ok by exact E6.
  destruct (endpoint_flush _ _ _ _ _ c6 He6) as (c7 & E7 & He7 & Hs7).
  exists c7. split; [unfold on_conn; cbn [fc_conn set_fc_conn]; by rewrite E7|].
  split; [|by eapply endpoint_flushed].
  cbn [wire_of] in He7. unfold stream_events, play_events. cbn [wire_of Datatypes.app].
  rewrite ?app_nil_r in *. rewrite <- ?app_assoc in He7. exact He7.
Qed.

Lemma setup_play a k out inp n fc : endpoint a k out inp n (fc_conn fc) →
  ∃ c, setup_command iterS (command 3 1 play_args) (amf0_norm <$> play_args) fc
      = (Ok true, set_isPublisher false (set_fc_conn c
          (set_PublishInfo (mkPublishInfo title (pi_Type (fc_PublishInfo fc))) (set_transactionID 0 fc)))) ∧
    endpoint a k (out ++ wire_of k (stream_events ++ play_events)) inp n c ∧ flushed c.
Proof.
  intros He. destruct (playResp_ok a k out inp n (set_PublishInfo
    (mkPublishInfo title (pi_Type (fc_PublishInfo fc))) (set_transactionID 0 fc)) play_args)
    as (c & E & He'); [done..|].
  exists c. split; [|done]. unfold setup_command. cbn [fmap list_fmap amf0_norm play_args].
  rewrite decide_False, decide_False, decide_False, decide_True by done.
  erewrite go_bind_ok with (s' := set_PublishInfo (mkPublishInfo title (pi_Type (fc_PublishInfo fc)))
    (set_transactionID 0 fc)) by (by destruct fc as [? ? ? ? ? ? []]).
  by rewrite (go_bind_on_err _ _ _ _ _ _ E).
Qed.

(** *** The whole set-up *)

Lemma fits_0 : fits 32 0.
Proof. done. Qed.

Lemma fits_1 : fits 32 1.
Proof. done. Qed.

Definition last_args (pub : bool) : list value := if pub then publish_args else play_args.

Definition client_messages (pub : bool) : list (ChunkStream bytes) :=
  [command 3 0 connect_args; command 3 0 create_args; command 3 1 (last_args pub)].

(** What follows the answer to createStream: the client looks at its first message that is
    no control message. *)
Definition last_answers (pub : bool) : list (ChunkStream bytes) :=
  if pub then [command 3 1 (status "NetStream.Publish.Start" "Start publising.")]
  else stream_events ++ play_events.

Definition server_messages (pub : bool) : list (ChunkStream bytes) :=
  (hello ++ [command 3 0 connect_result]) ++ [command 3 0 create_result] ++ last_answers pub.

Lemma server_wire pub : wire_of 128 (server_messages pub)
  = wire_of 128 (hello ++ [command 3 0 connect_result])
    ++ wire_of 1024 [command 3 0 create_result] ++ wire_of 1024 (last_answers pub).
Proof. unfold server_messages. by rewrite !wire_of_app. Qed.

Lemma client_wire pub : wire_of 128 (client_messages pub)
  = wire_of 128 [command 3 0 connect_args] ++ wire_of 128 [command 3 0 create_args]
    ++ wire_of 128 [command 3 1 (last_args pub)].
Proof. unfold client_messages. cbn [wire_of]. by rewrite !app_nil_r. Qed.

Lemma wire_of_pos k m : (0 < length (wire_of k [m]))%nat.
Proof.
  cbn [wire_of]. unfold message_wire, chunk_header, basic_header.
  rewrite !length_app. repeat case_match; simpl; lia.
Qed.

Lemma last_args_ok pub : command_ok (last_args pub).
Proof. destruct pub; [apply publish_args_ok|apply play_args_ok]. Qed.

(** One pass that is not the last. *)
Lemma setup_loop_next fuel fc fc' : setup_pass iterS fc = (Ok false, fc') →
  setup_loop iterS (S fuel) fc = setup_loop iterS fuel fc'.
Proof. intros E. cbn [setup_loop]. by rewrite (go_bind_ok _ _ _ _ _ E). Qed.

Lemma setup_loop_last fuel fc fc' : setup_pass iterS fc = (Ok true, fc') →
  setup_loop iterS (S fuel) fc = (Ok tt, fc').
Proof. intros E. cbn [setup_loop]. by rewrite (go_bind_ok _ _ _ _ _ E). Qed.

Lemma setup_last pub a k out inp n fc : endpoint a k out inp n (fc_conn fc) →
  ∃ c fc', setup_command iterS (command 3 1 (last_args pub)) (amf0_norm <$> last_args pub) fc
      = (Ok true, fc') ∧ fc_conn fc' = c ∧ fc_isPublisher fc' = pub ∧
    fc_ConnInfo fc' = fc_ConnInfo fc ∧ pi_Name (fc_PublishInfo fc') = title ∧
    endpoint a k (out ++ wire_of k (last_answers pub)) inp n c ∧ flushed c.
Proof.
  intros He. destruct pub.
  - destruct (setup_publish a k out inp n fc He) as (c & E & He' & Hs'). exists c. eexists.
    by split_and!; [exact E|..].
  - destruct (setup_play a k out inp n fc He) as (c & E & He' & Hs'). exists c. eexists.
    by split_and!; [exact E|..].
Qed.

Lemma server_setup pub a out rest c : a_size a = 128 → a_window a = quota →
  endpoint a 128 out (wire_of 128 (client_messages pub) ++ rest) 0 c →
  ∃ fc n, SetUpPlayOrPublish iterS (NewForwardConnect c) = (Ok tt, fc) ∧
    IsPublisher fc = pub ∧ fc_GetStreamInfo fc = (app, title, tcurl ++ str "/" ++ title) ∧
    endpoint a 1024 (out ++ wire_of 128 (server_messages pub)) rest n (fc_conn fc) ∧ flushed (fc_conn fc).
Proof.
  intros Hsz Hw He. rewrite client_wire in He.
  assert (Hin : rw_in (c_rw c) = (wire_of 128 [command 3 0 connect_args]
    ++ wire_of 128 [command 3 0 create_args] ++ wire_of 128 [command 3 1 (last_args pub)]) ++ rest)
    by apply He.
  assert (Hfuel : ∃ f, S (length (rw_in (c_rw c))) = S (S (S f))).
  { rewrite Hin. rewrite !length_app. pose proof (wire_of_pos 128 (command 3 0 connect_args)).
    pose proof (wire_of_pos 128 (command 3 0 create_args)).
    exists (length (wire_of 128 [command 3 0 connect_args]) + length (wire_of 128 [command 3 0 create_args])
      + length (wire_of 128 [command 3 1 (last_args pub)]) + length rest - 2)%nat. lia. }
  destruct Hfuel as [f Hf].
  assert (Hsum : 0 ≤ len (command_data connect_args) ∧ 0 ≤ len (command_data create_args) ∧
    0 ≤ len (command_data (last_args pub)) ∧ len (command_data connect_args)
      + len (command_data create_args) + len (command_data (last_args pub)) < quota).
  { pose proof (len_nonneg (command_data connect_args)). pose proof (len_nonneg (command_data create_args)).
    pose proof (len_nonneg (command_data (last_args pub))). pose proof (co_size _ connect_args_ok).
    pose proof (co_size _ (last_args_ok pub)). assert (len (command_data create_args) < 100) by (by vm_compute).
    lia. }
  assert (Hq : quota ≤ a_window a) by (rewrite Hw; apply Z.le_refl).
  rewrite <- !app_assoc in He.
  destruct (setup_pass_ok a 128 128 out _ 0 (NewForwardConnect c) 0 connect_args Hsz He connect_args_ok)
    as (c1 & d1 & E1 & He1); [exact fits_0|exact Hq|lia|lia|].
  destruct (setup_connect a out _ _ (set_fc_decoder d1 (set_fc_conn c1 (NewForwardConnect c))) He1)
    as (c2 & E2 & He2); [reflexivity|]. set (fc2 := set_fc_conn c2 _) in E2.
  destruct (setup_pass_ok a 1024 128 _ _ _ fc2 0 create_args Hsz He2 create_args_ok)
    as (c3 & d3 & E3 & He3); [exact fits_0|exact Hq|lia|lia|].
  destruct (setup_create a 1024 _ _ _ (set_fc_decoder d3 (set_fc_conn c3 fc2)) He3) as (c4 & E4 & He4);
    [reflexivity|]. set (fc4 := set_fc_conn c4 _) in E4.
  destruct (setup_pass_ok a 1024 128 _ _ _ fc4 1 (last_args pub) Hsz He4 (last_args_ok pub))
    as (c5 & d5 & E5 & He5); [exact fits_1|exact Hq|lia|lia|].
  destruct (setup_last pub a 1024 _ _ _ (set_fc_decoder d5 (set_fc_conn c5 fc4)) He5)
    as (c6 & fc6 & E6 & Hc6 & Hp6 & Hi6 & Hn6 & He6 & Hs6).
  exists fc6. eexists. split; [|split; [done|split]].
  - unfold SetUpPlayOrPublish. cbn [fc_conn NewForwardConnect]. rewrite Hf.
    erewrite setup_loop_next by (rewrite E1; exact E2).
    erewrite setup_loop_next by (rewrite E3; exact E4).
    by erewrite setup_loop_last by (rewrite E5; exact E6).
  - unfold fc_GetStreamInfo. by rewrite Hi6, Hn6.
  - rewrite Hc6. split; [|exact Hs6]. rewrite server_wire, !app_assoc. exact He6.
Qed.
(** ** The client *)

Lemma cc_writeMsg_ok a k out inp n cc c vals : cc_conn cc = Some c → endpoint a k out inp n c →
  command_ok vals → fits 32 (cc_streamid cc) →
  ∃ c', cc_writeMsg vals cc = (Ok tt, set_cc_conn (Some c') cc) ∧
    endpoint a k (out ++ wire_of k [command 3 (cc_streamid cc) vals]) inp n c' ∧ flushed c'.
Proof.
  intros Hcc He Hok Hs. unfold cc_writeMsg.
  rewrite (go_bind_lift _ _ _ _ (encode_args_ok _ (co_values _ Hok))), go_bind_gets.
  fold (command 3 (cc_streamid cc) vals).
  destruct (command_write a k out inp n c 3 (cc_streamid cc) vals He Hok) as (c1 & E1 & He1); [done..|].
  destruct (endpoint_flush _ _ _ _ _ c1 He1) as (c2 & E2 & He2 & Hsent).
  exists c2. split; [|split; [done|by eapply endpoint_flushed]].
  rewrite (go_bind_ok _ _ _ _ _ (on_cc_ok _ cc c c1 tt Hcc E1)).
  by rewrite (on_cc_ok _ (set_cc_conn (Some c1) cc) c1 c2 tt eq_refl E2).
Qed.

Lemma cc_decode_command_ok csid sid vals cc : Forall amf0_ok vals →
  ∃ d, cc_decode_command (command csid sid vals) cc
    = (Ok (amf0_norm <$> vals), set_cc_decoder d cc).
Proof.
  intros Hok. destruct (batch_decodes no_handlers vals (cc_decoder cc) Hok) as (d & Hd).
  exists d. unfold cc_decode_command.
  change (TypeID _) with 20. change (Data _) with (command_data vals). cbn [Z.eqb Pos.eqb].
  rewrite go_bind_ok with (a := (amf0_norm <$> vals, EOF)) (s' := set_cc_decoder d cc); [done|].
  unfold cc_DecodeBatch. fold (command_data vals) in Hd. by rewrite Hd.
Qed.

(** An answer that arrives after control messages is decoded and checked. *)
Lemma waitForResponse_ok a k out rest n cc c ctl sid vals name (checked : ConnClient → ConnClient) :
  cc_conn cc = Some c →
  endpoint a k out (wire_of (a_size a) (ctl ++ [command 3 sid vals]) ++ rest) n c →
  Forall sendable ctl → Forall (λ m, is_control (TypeID m) = true) ctl → Forall (window_ok quota) ctl →
  quota ≤ a_window a → command_ok vals → fits 32 sid →
  0 ≤ n → n + total (ctl ++ [command 3 sid vals]) < quota →
  (∀ c d, check_answer name (amf0_norm <$> vals) (set_cc_decoder d (set_cc_conn c cc))
    = (Ok tt, checked (set_cc_decoder d (set_cc_conn c cc)))) →
  ∃ c' d, waitForResponse name cc = (Ok tt, checked (set_cc_decoder d (set_cc_conn (Some c') cc))) ∧
    endpoint (after a ctl) k out rest (n + total (ctl ++ [command 3 sid vals])) c' ∧
    rw_w (c_rw c') = rw_w (c_rw c).
Proof.
  intros Hcc He Hs Hc Hw Ha Hok Hsid Hn Hlt Hcheck.
  destruct (read_command a k out rest n ctl Hs Hc Hw Ha c 3 sid vals He Hok) as (c' & E & He' & Hww); [done..|].
  destruct (cc_decode_command_ok 3 sid vals (set_cc_conn (Some c') cc) (co_values _ Hok)) as (d & Hd).
  exists c', d. split; [|split; [exact He'|exact Hww]]. unfold waitForResponse, input_left. rewrite Hcc. cbn [wait_loop].
  rewrite go_bind_on_err with (a := command 3 sid vals) (s' := set_cc_conn (Some c') cc)
    by (unfold cc_Read; by apply (on_cc_ok _ cc c c')).
  rewrite go_bind_ok with (a := true)
    (s' := checked (set_cc_decoder d (set_cc_conn (Some c') cc))); [done|].
  unfold wait_message. change (TypeID _) with 20. cbn [Z.eqb Pos.eqb orb].
  rewrite (go_bind_ok _ _ _ _ _ Hd). by rewrite (go_bind_ok _ _ _ _ _ (Hcheck _ _)).
Qed.

(** *** What the client makes of the answers *)

Lemma has_code_sent (o : object) code : NoDup o.*1 →
  has_code (VObject (map (λ '(k, v), (k, amf0_norm v)) (iterS o))) code
  = match assoc (str "code") o with
    | Some (VString c) => bool_decide (c = code)
    | _ => false
    end.
Proof.
  intros Hnd. unfold has_code. rewrite assoc_sent by done.
  by destruct (assoc _ o) as [[]|].
Qed.

Lemma connected_nodup : NoDup connected_event.*1.
Proof. apply (bool_decide_unpack _). vm_compute. exact I. Qed.

Lemma server_info_nodup : NoDup server_info.*1.
Proof. apply (bool_decide_unpack _). vm_compute. exact I. Qed.

Lemma event_nodup code description : NoDup (event code description).*1.
Proof. apply (bool_decide_unpack _). vm_compute. exact I. Qed.

Lemma check_connect cc : cc_transID cc = 1 →
  check_answer cmdConnect (amf0_norm <$> connect_result) cc = (Ok tt, cc).
Proof.
  intros Ht. unfold check_answer, get, mbind, go_bind. rewrite decide_True by done. rewrite Ht.
  cbn [fmap list_fmap amf0_norm connect_result existsb].
  rewrite !has_code_sent by (apply connected_nodup || apply server_info_nodup). done.
Qed.

Lemma check_create cc : cc_transID cc = 2 →
  check_answer cmdCreateStream (amf0_norm <$> create_result) cc = (Ok tt, set_streamid 1 cc).
Proof.
  intros Ht. unfold check_answer. rewrite go_bind_ok with (a := cc) (s' := cc) by done. rewrite Ht.
  rewrite decide_False, decide_True by done. by rewrite go_bind_modify.
Qed.

(** The code of the answer the client waits for. *)
Definition last_answer (pub : bool) : list value :=
  if pub then status "NetStream.Publish.Start" "Start publising."
  else status "NetStream.Play.Reset" "Playing and resetting stream.".

Definition last_command (pub : bool) : bytes := if pub then cmdPublish else cmdPlay.

Lemma check_last pub cc :
  check_answer (last_command pub) (amf0_norm <$> last_answer pub) cc = (Ok tt, cc).
Proof.
  unfold check_answer. rewrite go_bind_ok with (a := cc) (s' := cc) by done.
  destruct pub; cbn [last_command last_answer]; rewrite 2!decide_False by done.
  - rewrite decide_False, decide_True by done. cbn [status fmap list_fmap amf0_norm existsb].
    rewrite !has_code_sent by apply event_nodup. done.
  - rewrite decide_True by done. cbn [status fmap list_fmap amf0_norm existsb].
    rewrite !has_code_sent by apply event_nodup. done.
Qed.

Lemma last_answer_ok pub : command_ok (last_answer pub).
Proof. destruct pub; by apply status_ok. Qed.

(** What comes before and after the last answer. *)
Definition before_last (pub : bool) : list (ChunkStream bytes) := if pub then [] else stream_events.
Definition unread (pub : bool) : list (ChunkStream bytes) := if pub then [] else tail play_events.

Lemma last_answers_wire pub k : wire_of k (last_answers pub)
  = wire_of k (before_last pub ++ [command 3 1 (last_answer pub)]) ++ wire_of k (unread pub).
Proof.
  destruct pub; [symmetry; apply app_nil_r|].
  change (last_answers false)
    with ((before_last false ++ [command 3 1 (last_answer false)]) ++ unread false).
  by rewrite wire_of_app.
Qed.

(** *** The commands of the client *)

(** The names of the stream; the number of the last command and of the stream. *)
Record client_at (trans sid : Z) (c : RtmpConn) (cc : ConnClient) : Prop := {
  ca_trans : cc_transID cc = trans;
  ca_sid : cc_streamid cc = sid;
  ca_conn : cc_conn cc = Some c;
  ca_app : cc_app cc = app;
  ca_title : cc_title cc = title;
  ca_tcurl : cc_tcurl cc = tcurl;
  ca_url : cc_url cc = url;
}.

Lemma client_set_conn trans sid c c' cc : client_at trans sid c cc →
  client_at trans sid c' (set_cc_conn (Some c') cc).
Proof. intros []. by constructor. Qed.

Lemma client_set_decoder trans sid c d cc : client_at trans sid c cc →
  client_at trans sid c (set_cc_decoder d cc).
Proof. intros []. by constructor. Qed.

Lemma client_next trans sid c name cc : client_at trans sid c cc → 0 ≤ trans < 1000 →
  client_at (trans + 1) sid c (set_curcmd name (set_transID (i64 (cc_transID cc + 1)) cc)).
Proof.
  intros [] Ht. constructor; try done. cbn [cc_transID set_curcmd set_transID].
  rewrite ca_trans0. unfold i64. rewrite swrap_small by lia. done.
Qed.

Lemma send_connect a k out inp n cc c : client_at 1 0 c cc → endpoint a k out inp n c →
  ∃ c' cc', send_command iterC cmdConnect cc = (Ok tt, cc') ∧ client_at 1 0 c' cc' ∧
    endpoint a k (out ++ wire_of k [command 3 0 connect_args]) inp n c'.
Proof.
  intros Hc He. pose proof Hc as [Ht Hs Hcc Happ Htitle Htc Hurl].
  destruct (cc_writeMsg_ok a k out inp n (set_curcmd cmdConnect cc) c connect_args Hcc He connect_args_ok)
    as (c' & E & He' & _); [by simpl; rewrite Hs|].
  exists c'. eexists. split; [|split; [|by simpl in He'; rewrite Hs in He']].
  - unfold send_command. rewrite decide_True by done. unfold on_err.
    assert (E1 : writeConnectMsg iterC cc = cc_writeMsg connect_args (set_curcmd cmdConnect cc)).
    { unfold writeConnectMsg. rewrite go_bind_ok with (a := cc) (s' := cc), go_bind_modify by done.
      by rewrite Happ, Htc, Ht. }
    by rewrite E1, E.
  - apply (client_set_conn _ _ c). by constructor.
Qed.

Lemma send_create a k out inp n cc c : client_at 1 0 c cc → endpoint a k out inp n c →
  ∃ c' cc', send_command iterC cmdCreateStream cc = (Ok tt, cc') ∧ client_at 2 0 c' cc' ∧
    endpoint a k (out ++ wire_of k [command 3 0 create_args]) inp n c'.
Proof.
  intros Hc He. pose proof (client_next _ _ _ cmdCreateStream _ Hc) as Hn.
  pose proof (Hn ltac:(lia)) as Hc1. change (1 + 1) with 2 in Hc1. set (cc1 := set_curcmd _ _) in Hc1.
  destruct (cc_writeMsg_ok a k out inp n cc1 c create_args (ca_conn _ _ _ _ Hc1) He create_args_ok)
    as (c' & E & He' & _); [by rewrite (ca_sid _ _ _ _ Hc1)|].
  rewrite (ca_sid _ _ _ _ Hc1) in He'. exists c'. eexists.
  split; [|split; [by apply (client_set_conn _ _ c)|exact He']].
  unfold send_command. rewrite decide_False, decide_True by done. unfold on_err, writeCreateStreamMsg.
  rewrite go_bind_ok with (a := cc1) (s' := cc1) by done.
  rewrite (ca_trans _ _ _ _ Hc1). unfold create_args in E. by rewrite E.
Qed.

Lemma send_last pub a k out inp n cc c : client_at 2 1 c cc → endpoint a k out inp n c →
  ∃ c' cc', send_command iterC (last_command pub) cc = (Ok tt, cc') ∧ client_at 3 1 c' cc' ∧
    endpoint a k (out ++ wire_of k [command 3 1 (last_args pub)]) inp n c' ∧ flushed c'.
Proof.
  intros Hc He. pose proof (client_next _ _ _ (last_command pub) _ Hc) as Hn.
  pose proof (Hn ltac:(lia)) as Hc1. change (2 + 1) with 3 in Hc1. set (cc1 := set_curcmd _ _) in Hc1.
  destruct (cc_writeMsg_ok a k out inp n cc1 c (last_args pub) (ca_conn _ _ _ _ Hc1) He (last_args_ok pub))
    as (c' & E & He' & Hs'); [by rewrite (ca_sid _ _ _ _ Hc1)|].
  rewrite (ca_sid _ _ _ _ Hc1) in He'. exists c'. eexists.
  split; [|split; [by apply (client_set_conn _ _ c)|by split]].
  unfold send_command. destruct pub; cbn [last_command].
  - rewrite 3!decide_False, decide_True by done. unfold on_err, writePublishMsg.
    rewrite go_bind_ok with (a := cc1) (s' := cc1) by done.
    rewrite (ca_trans _ _ _ _ Hc1), (ca_title _ _ _ _ Hc1). unfold last_args, publish_args in E. by rewrite E.
  - rewrite 2!decide_False, decide_True by done. unfold on_err, writePlayMsg.
    rewrite go_bind_ok with (a := cc1) (s' := cc1) by done.
    rewrite (ca_title _ _ _ _ Hc1). unfold last_args, play_args in E. by rewrite E.
Qed.

(** *** The whole set-up *)

Lemma start_loop_step fuel method cur next cc cc1 cc2 :
  send_command iterC cur cc = (Ok tt, cc1) → waitForResponse cur cc1 = (Ok tt, cc2) →
  following_command method cur = Ok next →
  start_loop iterC (S fuel) method cur cc
  = match next with None => (Ok tt, cc2) | Some next => start_loop iterC fuel method next cc2 end.
Proof.
  intros E1 E2 E3. cbn [start_loop]. rewrite (go_bind_ok _ _ _ _ _ E1).
  rewrite (go_bind_on_err _ _ _ _ _ _ E2), (go_bind_lift _ _ _ _ E3). by destruct next.
Qed.

Definition method (pub : bool) : bytes := if pub then PUBLISH else PLAY.

(** How the client reads before and after the first control messages. *)
Definition reads_128 : AConn := mkA 128 quota ∅.
Definition reads_1024 : AConn := mkA 1024 quota ∅.

Lemma after_hello : after reads_128 hello = reads_1024.
Proof. reflexivity. Qed.

Lemma connect_step out rest cc c : client_at 1 0 c cc →
  endpoint reads_128 128 out (wire_of 128 (hello ++ [command 3 0 connect_result]) ++ rest) 0 c →
  ∃ c' cc' cc1, send_command iterC cmdConnect cc = (Ok tt, cc1) ∧
    waitForResponse cmdConnect cc1 = (Ok tt, cc') ∧ client_at 1 0 c' cc' ∧
    endpoint reads_1024 128 (out ++ wire_of 128 [command 3 0 connect_args]) rest
      (total (hello ++ [command 3 0 connect_result])) c'.
Proof.
  intros Hc He. destruct (send_connect _ _ _ _ _ cc c Hc He) as (c1 & cc1 & E1 & Hc1 & He1).
  destruct (waitForResponse_ok reads_128 128 _ rest 0 cc1 c1 hello 0 connect_result cmdConnect id
    (ca_conn _ _ _ _ Hc1) He1 hello_sendable hello_control hello_window) as (c2 & d & E2 & He2 & _);
    [apply Z.le_refl|exact connect_result_ok|exact fits_0|apply Z.le_refl| |
     intros; apply check_connect; apply Hc1|].
  { rewrite total_app. change (total hello) with 13. cbn [total foldr].
    pose proof (co_size _ connect_result_ok). change (Data _) with (command_data connect_result). lia. }
  exists c2. eexists _, _. split; [exact E1|]. split; [exact E2|].
  split; [by apply client_set_decoder, (client_set_conn _ _ c1)|].
  rewrite after_hello, Z.add_0_l in He2. exact He2.
Qed.

Lemma create_step out rest n cc c : client_at 1 0 c cc → 0 ≤ n < 2 ^ 21 →
  endpoint reads_1024 128 out (wire_of 1024 [command 3 0 create_result] ++ rest) n c →
  ∃ c' cc' cc1, send_command iterC cmdCreateStream cc = (Ok tt, cc1) ∧
    waitForResponse cmdCreateStream cc1 = (Ok tt, cc') ∧ client_at 2 1 c' cc' ∧
    endpoint reads_1024 128 (out ++ wire_of 128 [command 3 0 create_args]) rest
      (n + len (command_data create_result)) c'.
Proof.
  intros Hc Hn He. destruct (send_create _ _ _ _ _ cc c Hc He) as (c1 & cc1 & E1 & Hc1 & He1).
  assert (Hl : len (command_data create_result) < 100) by (by vm_compute).
  assert (Ht : total ([] ++ [command 3 0 create_result]) = len (command_data create_result))
    by (simpl; lia).
  destruct (waitForResponse_ok reads_1024 128 _ rest n cc1 c1 [] 0 create_result cmdCreateStream
    (set_streamid 1) (ca_conn _ _ _ _ Hc1) He1 (Forall_nil_2 _) (Forall_nil_2 _) (Forall_nil_2 _))
    as (c2 & d & E2 & He2 & _); [apply Z.le_refl|exact create_result_ok|exact fits_0|lia|rewrite Ht; lia|
     intros; apply check_create; apply Hc1|].
  exists c2. eexists _, _. split; [exact E1|]. split; [exact E2|]. rewrite Ht in He2.
  split; [|exact He2]. destruct Hc1. by constructor.
Qed.

Lemma before_last_ok pub : Forall sendable (before_last pub) ∧
  Forall (λ m, is_control (TypeID m) = true) (before_last pub) ∧
  Forall (window_ok quota) (before_last pub) ∧ total (before_last pub) < 100 ∧
  after reads_1024 (before_last pub) = reads_1024.
Proof.
  destruct pub; cbn [before_last]; [by split_and!; try constructor|].
  split_and!; [apply stream_events_sendable|by repeat constructor|by repeat constructor|done|done].
Qed.

Lemma last_step pub out rest n cc c : client_at 2 1 c cc → 0 ≤ n < 2 ^ 20 + 1000 →
  endpoint reads_1024 128 out (wire_of 1024 (last_answers pub) ++ rest) n c →
  ∃ c' cc' cc1 n', send_command iterC (last_command pub) cc = (Ok tt, cc1) ∧
    waitForResponse (last_command pub) cc1 = (Ok tt, cc') ∧ client_at 3 1 c' cc' ∧
    endpoint reads_1024 128 (out ++ wire_of 128 [command 3 1 (last_args pub)])
      (wire_of 1024 (unread pub) ++ rest) n' c' ∧ flushed c'.
Proof.
  intros Hc Hn He. destruct (send_last pub _ _ _ _ _ cc c Hc He) as (c1 & cc1 & E1 & Hc1 & He1 & Hs1).
  rewrite last_answers_wire, <- app_assoc in He1.
  destruct (before_last_ok pub) as (Hs & Hct & Hw & Ht & Ha).
  destruct (waitForResponse_ok reads_1024 128 _ _ n cc1 c1 (before_last pub) 1 (last_answer pub)
    (last_command pub) id (ca_conn _ _ _ _ Hc1) He1 Hs Hct Hw) as (c2 & d & E2 & He2 & Hww);
    [apply Z.le_refl|apply last_answer_ok|exact fits_1|lia| |intros; apply check_last|].
  { rewrite total_app. cbn [total foldr]. pose proof (co_size _ (last_answer_ok pub)).
    change (Data _) with (command_data (last_answer pub)). lia. }
  exists c2. eexists _, _, _. split; [exact E1|]. split; [exact E2|]. rewrite Ha in He2.
  split; [by apply client_set_decoder, (client_set_conn _ _ c1)|]. split; [exact He2|by eapply flushed_read].
Qed.

Lemma client_setup pub out rest cc c : client_at 1 0 c cc →
  endpoint reads_128 128 out (wire_of 128 (server_messages pub) ++ rest) 0 c →
  ∃ c' cc' n, start_loop iterC 3 (method pub) cmdConnect cc = (Ok tt, cc') ∧
    client_at 3 1 c' cc' ∧
    endpoint reads_1024 128 (out ++ wire_of 128 (client_messages pub))
      (wire_of 1024 (unread pub) ++ rest) n c' ∧ flushed c'.
Proof.
  intros Hc He. rewrite server_wire, <- !app_assoc in He.
  destruct (connect_step out _ cc c Hc He) as (c2 & cc2 & cc1 & E1 & E2 & Hc2 & He2).
  assert (Hn : 0 ≤ total (hello ++ [command 3 0 connect_result]) < 2 ^ 20 + 100).
  { split; [apply total_nonneg|]. rewrite total_app. change (total hello) with 13. cbn [total foldr].
    pose proof (co_size _ connect_result_ok). change (Data _) with (command_data connect_result). lia. }
  assert (Hl : 0 ≤ len (command_data create_result) < 100) by (by vm_compute).
  set (n1 := total _) in Hn, He2. set (n2 := n1 + len (command_data create_result)).
  destruct (create_step _ _ n1 cc2 c2 Hc2 ltac:(lia) He2) as (c4 & cc4 & cc3 & E3 & E4 & Hc4 & He4).
  destruct (last_step pub _ _ n2 cc4 c4 Hc4 ltac:(lia) He4) as (c6 & cc6 & cc5 & n & E5 & E6 & Hc6 & He6 & Hs6).
  exists c6, cc6, n. split; [|split; [done|split; [by rewrite client_wire, !app_assoc|done]]].
  rewrite (start_loop_step _ _ _ _ _ _ _ E1 E2 eq_refl).
  rewrite (start_loop_step _ _ _ (Some (last_command pub)) _ _ _ E3 E4) by (by destruct pub).
  by rewrite (start_loop_step _ _ _ None _ _ _ E5 E6) by (by destruct pub).
Qed.

(** ** Both together *)

Section session.
Variable neturl_Parse : bytes → res URL.
Variable net_LookupIP : bytes → res (list bytes).
Variable rand_Intn : Z → Z.
Variable net_Dial : bytes → bytes → res ReadWriter.
Variable rand_Read : nat → Z → bytes.

(** The address names the stream, the name service knows the host. *)
Variables host port ip : bytes.
Variable u : URL.
Variable ips : list bytes.
Hypothesis url_parsed : neturl_Parse url = Ok u.
Hypothesis url_path : trim_slashes (u_Path u) = app ++ 47 :: title.
Hypothesis app_plain : 47 ∉ app.
Hypothesis url_host : host_port (u_Host u) host port.
Hypothesis host_known : net_LookupIP host = Ok ips.
Hypothesis ip_chosen : ips !! Z.to_nat (rand_Intn (len ips)) = Some ip.
Hypothesis tcurl_is : tcurl = str "rtmp://" ++ u_Host u ++ str "/" ++ app.

Definition remote_address : bytes := if contains 58 ip then ip else ip ++ 58 :: port.

(** All that a client writes, and all that a server writes. *)
Definition client_says (pub : bool) : bytes :=
  (3 :: make_bytes 1536 ++ make_bytes 1536) ++ wire_of 128 (client_messages pub).
Definition server_says (pub : bool) : bytes :=
  (3 :: make_bytes 1536 ++ make_bytes 1536) ++ wire_of 128 (server_messages pub).

(** A connection that can be written, with [p] to read. *)
Definition fresh (p : bytes) (rw : ReadWriter) : Prop :=
  rw_wok rw ∧ readError rw = None ∧ rw_in rw = p.

Lemma zeros_bytes : Forall is_byte (make_bytes 1536).
Proof. apply Forall_replicate. split; [apply Z.le_refl|done]. Qed.

Lemma zeros_len : len (make_bytes 1536) = 1536.
Proof. reflexivity. Qed.

Lemma client_session pub rest rw : fresh (server_says pub ++ rest) rw →
  net_Dial (str ":0") remote_address = Ok rw →
  ∃ cc c n, Start iterC neturl_Parse net_LookupIP rand_Intn net_Dial url (method pub) NewConnClient
      = (Ok tt, cc) ∧
    cc_GetStreamInfo cc = (app, title, url) ∧ GetStreamID cc = 1 ∧ cc_conn cc = Some c ∧
    endpoint reads_1024 128 (rw_stream rw ++ client_says pub) (wire_of 1024 (unread pub) ++ rest) n c ∧
    flushed c.
Proof.
  intros (Hw & Hre & Hin) Hdial. unfold server_says in Hin. rewrite <- app_assoc in Hin.
  destruct (HandshakeClient_ok (NewRtmpConn rw) (make_bytes 1536) (make_bytes 1536)
    (wire_of 128 (server_messages pub) ++ rest)) as (rw' & E & Hw' & Hre' & Hst & Hin' & _);
    [done|by split|apply zeros_bytes|apply zeros_len|apply zeros_len|].
  pose proof (endpoint_rw _ _ _ _ _ _ rw' (endpoint_new rw Hw Hre) Hw' Hre') as He.
  rewrite Hst, Hin' in He.
  set (cc0 := set_cc_conn (Some (set_rw rw' (NewRtmpConn rw)))
    (set_names app title (u_RawQuery u) (str "rtmp://" ++ u_Host u ++ str "/" ++ app)
       (set_cc_url url NewConnClient))).
  assert (Hc0 : connectServer neturl_Parse net_LookupIP rand_Intn net_Dial url NewConnClient
    = (Ok tt, cc0)).
  { unfold connectServer. erewrite go_bind_on_err by (by eapply parseURL_ok). cbv beta iota.
    fold remote_address. erewrite go_bind_on_err by (unfold lift; rewrite Hdial; reflexivity).
    rewrite E. reflexivity. }
  destruct (client_setup pub _ _ cc0 _ (Build_client_at 1 0 (set_rw rw' (NewRtmpConn rw)) cc0 eq_refl eq_refl
    eq_refl eq_refl eq_refl (eq_sym tcurl_is) eq_refl) He) as (c & cc & n & Es & [Ht Hs Hc Ha Hti Htc Hu] & He' & Hfl).
  exists cc, c, n. split.
  { unfold Start. by rewrite (go_bind_on_err _ _ _ _ _ _ Hc0). }
  split; [|split; [done|split; [done|]]].
  - unfold cc_GetStreamInfo. by rewrite Ha, Hti, Hu.
  - unfold client_says. rewrite app_assoc. by split.
Qed.

Lemma server_session pub rest rw : fresh (client_says pub ++ rest) rw →
  ∃ fc c n, HandshakeServer rand_Read (NewRtmpConn rw) = (Ok tt, c) ∧
    SetUpPlayOrPublish iterS (NewForwardConnect c) = (Ok tt, fc) ∧ IsPublisher fc = pub ∧
    fc_GetStreamInfo fc = (app, title, tcurl ++ str "/" ++ title) ∧
    endpoint reads_128 1024 (rw_stream rw ++ server_says pub) rest n (fc_conn fc) ∧ flushed (fc_conn fc).
Proof.
  intros (Hw & Hre & Hin). unfold client_says in Hin. rewrite <- app_assoc in Hin.
  assert (Ha : hs_answer rand_Read (make_bytes 1536) (block_time (make_bytes 1536))
      (block_version (make_bytes 1536)) = Ok (3 :: make_bytes 1536, make_bytes 1536)) by reflexivity.
  destruct (HandshakeServer_ok rand_Read (NewRtmpConn rw) (make_bytes 1536) (make_bytes 1536)
    (make_bytes 1536) (make_bytes 1536) (wire_of 128 (client_messages pub) ++ rest))
    as (rw' & E & Hw' & Hre' & Hst & Hin' & _);
    [done|by split|apply zeros_bytes|apply zeros_len|apply zeros_len|exact Ha|].
  pose proof (endpoint_rw _ _ _ _ _ _ rw' (endpoint_new rw Hw Hre) Hw' Hre') as He.
  rewrite Hst, Hin' in He.
  destruct (server_setup pub reads_128 _ rest _ eq_refl eq_refl He) as (fc & n & Es & Hp & Hi & He' & Hfl).
  exists fc. eexists _, n. split; [exact E|]. split; [exact Es|]. split; [done|]. split; [done|].
  unfold server_says. rewrite app_assoc. by split.
Qed.

(** C2: A client and a server come to an understanding.  Let the address of the client name
    an application and a stream, and let it dial a server.  On all that the server says the
    client's [Start] ends with the stream 1, having said [client_says]; on [client_says] the
    server's handshake and set-up end, having said [server_says], and the server knows
    whether the client publishes or plays, and which stream.  Of the answers to a player
    the client has then read all but the last three, and what follows is left to both; with
    a publisher the two are at the same place of the conversation. *)
Theorem dialogue pub rest rest' rw rw' :
  fresh (server_says pub ++ rest) rw → fresh (client_says pub ++ rest') rw' →
  net_Dial (str ":0") remote_address = Ok rw →
  (∃ cc c, Start iterC neturl_Parse net_LookupIP rand_Intn net_Dial url (method pub) NewConnClient
      = (Ok tt, cc) ∧
    cc_GetStreamInfo cc = (app, title, url) ∧ GetStreamID cc = 1 ∧ cc_conn cc = Some c ∧
    bw_sent (rw_w (c_rw c)) = rw_stream rw ++ client_says pub ∧
    rw_in (c_rw c) = wire_of 1024 (unread pub) ++ rest ∧
    remoteChunkSize c = 1024 ∧ chunkSize c = 128) ∧
  (∃ fc c, HandshakeServer rand_Read (NewRtmpConn rw') = (Ok tt, c) ∧
    SetUpPlayOrPublish iterS (NewForwardConnect c) = (Ok tt, fc) ∧ IsPublisher fc = pub ∧
    fc_GetStreamInfo fc = (app, title, tcurl ++ str "/" ++ title) ∧
    bw_sent (rw_w (c_rw (fc_conn fc))) = rw_stream rw' ++ server_says pub ∧
    rw_in (c_rw (fc_conn fc)) = rest' ∧
    remoteChunkSize (fc_conn fc) = 128 ∧ chunkSize (fc_conn fc) = 1024).
Proof.
  intros Hc Hs Hd. split.
  - destruct (client_session pub rest rw Hc Hd) as (cc & c & n & E & Hi & Hid & Hcc & [Hr _ Hk Ho Hin _] & Hfl).
    exists cc, c. split_and!; try done; [by rewrite Hfl|apply Hr].
  - destruct (server_session pub rest' rw' Hs) as (fc & c & n & E & Es & Hp & Hi & [Hr _ Hk Ho Hin _] & Hfl).
    exists fc, c. split_and!; try done; [by rewrite Hfl|apply Hr].
Qed.
End session.
End dialogue.

(** A sample: [rtmp://h/live/s] on a host with one address. *)
Definition sample_tcurl : bytes := str "rtmp://h/live".
Definition sample_dial (localIP remoteIP : bytes) : res ReadWriter :=
  if decide (remoteIP = str "10.0.0.1:1935") then Ok (sample_rw (server_says id true))
  else Err (Errorf "no route").

Lemma dialogue_witness :
  let url := str "rtmp://h/live/s" in
  let parse := λ _ : bytes, Ok (mkURL (str "h") (str "/live/s") []) in
  let lookup := λ _ : bytes, Ok [str "10.0.0.1"] in
  (∃ cc c, Start id parse lookup (λ _, 0) sample_dial url PUBLISH NewConnClient = (Ok tt, cc) ∧
    cc_GetStreamInfo cc = (str "live", str "s", url) ∧ GetStreamID cc = 1 ∧ cc_conn cc = Some c) ∧
  (∃ fc c, HandshakeServer sample_rand
      (NewRtmpConn (sample_rw (client_says id (str "live") (str "s") sample_tcurl true))) = (Ok tt, c) ∧
    SetUpPlayOrPublish id (NewForwardConnect c) = (Ok tt, fc) ∧ IsPublisher fc = true).
Proof.
  assert (Hs : 47 ∉ str "live") by (apply (bool_decide_unpack _); vm_compute; exact I).
  assert (Hh : 58 ∉ str "h") by (apply (bool_decide_unpack _); vm_compute; exact I).
  pose proof (dialogue id id (λ o, reflexivity o) (λ o, reflexivity o)
    (str "rtmp://h/live/s") (str "live") (str "s") sample_tcurl (str_bytes _) (str_bytes _) (str_bytes _)
    (@eq_refl comparison Lt)
    (λ _, Ok (mkURL (str "h") (str "/live/s") [])) (λ _, Ok [str "10.0.0.1"]) (λ _, 0) sample_dial sample_rand
    (str "h") (str "1935") (str "10.0.0.1") (mkURL (str "h") (str "/live/s") []) [str "10.0.0.1"]
    eq_refl eq_refl Hs (or_introl (conj Hh (conj eq_refl eq_refl)))
    eq_refl eq_refl eq_refl true [] []
    (sample_rw (server_says id true)) (sample_rw (client_says id (str "live") (str "s") sample_tcurl true)))
    as H.
  destruct H as [(cc & c & E & Hi & Hid & Hc & _) (fc & c' & E1 & E2 & Hp & _)].
  - split; [apply sample_rw_wok|]. split; [reflexivity|]. symmetry. apply app_nil_r.
  - split; [apply sample_rw_wok|]. split; [reflexivity|]. symmetry. apply app_nil_r.
  - reflexivity.
  - split; [exists cc, c|exists fc, c']; [exact (conj E (conj Hi (conj Hid Hc)))|exact (conj E1 (conj E2 Hp))].
Defined.
