(* ===== verification/Client.v ===== *)
(** * The client of the library (src/client.go)

    A publisher hands packets over, which are packed into tags and sent as messages; a
    player reads messages and gives the packets in them to a callback. *)
From S2P Require Import Prelude Pio GoIO ReadWriter Av Chunk Conn Handshake H264 Media Flv Exchange.
From S2P Require Import Messages Amf Amf3 Amf0 Forward Commands ConnClient.

(** The callbacks are recorded: [onPacketReceive] and [onClosed] say whether the caller
    gave one, [rc_packets] has the packets given to the first, in order, and [rc_closed]
    counts the calls of the second.  The demuxer has no state. *)
Record RtmpClient := mkRtmpClient {
  rc_conn : option ConnClient;
  onPacketReceive : bool;
  onClosed : bool;
  isPublish : bool;
  videoFirst : bool;
  audioFirst : bool;
  rc_packets : list Packet;
  rc_closed : nat;
}.

Definition NewRtmpClient : RtmpClient := mkRtmpClient None false false false true true [] 0.

Definition set_rc_conn v c := mkRtmpClient v (onPacketReceive c) (onClosed c) (isPublish c)
  (videoFirst c) (audioFirst c) (rc_packets c) (rc_closed c).
Definition set_callbacks v w c := mkRtmpClient (rc_conn c) v w (isPublish c)
  (videoFirst c) (audioFirst c) (rc_packets c) (rc_closed c).
Definition set_isPublish v c := mkRtmpClient (rc_conn c) (onPacketReceive c) (onClosed c) v
  (videoFirst c) (audioFirst c) (rc_packets c) (rc_closed c).
Definition set_videoFirst v c := mkRtmpClient (rc_conn c) (onPacketReceive c) (onClosed c) (isPublish c)
  v (audioFirst c) (rc_packets c) (rc_closed c).
Definition set_audioFirst v c := mkRtmpClient (rc_conn c) (onPacketReceive c) (onClosed c) (isPublish c)
  (videoFirst c) v (rc_packets c) (rc_closed c).
Definition set_rc_packets v c := mkRtmpClient (rc_conn c) (onPacketReceive c) (onClosed c) (isPublish c)
  (videoFirst c) (audioFirst c) v (rc_closed c).
Definition set_rc_closed v c := mkRtmpClient (rc_conn c) (onPacketReceive c) (onClosed c) (isPublish c)
  (videoFirst c) (audioFirst c) (rc_packets c) v.

(** Operations of [c.conn]. *)
Definition on_client {A} (m : go ConnClient A) : go RtmpClient A := λ c,
  match rc_conn c with
  | None => (Panic NilDereference, c)
  | Some cc => let '(r, cc) := m cc in (r, set_rc_conn (Some cc) c)
  end.

(** [c.onPacketReceive(&pkt)] *)
Definition receive_packet (pkt : Packet) : go RtmpClient unit := λ c,
  if onPacketReceive c then (Ok tt, set_rc_packets (rc_packets c ++ [pkt]) c)
  else (Panic NilDereference, c).

Section open.
Variable iter : object → object.
Variable neturl_Parse : bytes → res URL.
Variable net_LookupIP : bytes → res (list bytes).
Variable rand_Intn : Z → Z.
Variable net_Dial : bytes → bytes → res ReadWriter.

Definition open_conn (url method : bytes) : go RtmpClient unit :=
  _ ← modify (set_rc_conn (Some NewConnClient));
  on_client (Start iter neturl_Parse net_LookupIP rand_Intn net_Dial url method).

Definition OpenPublish (url : bytes) : go RtmpClient unit :=
  _ ← open_conn url PUBLISH;
  modify (set_isPublish true).

(** Then [streamPlayProc] starts to run. *)
Definition OpenPlay (url : bytes) (has_receive has_closed : bool) : go RtmpClient unit :=
  _ ← open_conn url PLAY;
  modify (set_callbacks has_receive has_closed).
End open.

(** The connection is closed and, if there is one, the callback called. *)
Definition rc_Close : go RtmpClient unit :=
  _ ← on_client cc_Close;
  modify (λ c, if onClosed c then set_rc_closed (S (rc_closed c)) c else c).

(** ** Publishing *)

Definition message_type (packetType : Z) : res Z :=
  if packetType =? PacketTypeVideo then Ok TAG_VIDEO
  else if packetType =? PacketTypeAudio then Ok TAG_AUDIO
  else if packetType =? PacketTypeMetadata then Ok TAG_SCRIPTDATAAMF0
  else Err (Errorf "Unsupport packet type:%d").

Definition sendPacketData (data : bytes) (timestamp packetType : Z) : go RtmpClient unit :=
  if len data =? 0 then fail (Errorf "data length is zero")
  else
    typeID ← lift (message_type packetType);
    sid ← on_client (gets GetStreamID);
    _ ← on_client (cc_Write (newCS 0 0 timestamp (u32 (len data)) typeID sid data));
    on_client cc_Flush.

(** [if pkt.Data, err = f(); err != nil { return ... }]: the data of a packet that cannot be
    packed is lost. *)
Definition pack_into (r : res bytes) (msg : string) : go Packet unit := λ p,
  match r with
  | Ok d => (Ok tt, set_pkt_Data d p)
  | Err e => (Err (Wrapf msg e), set_pkt_Data [] p)
  | Panic x => (Panic x, p)
  | OutOfFuel => (OutOfFuel, p)
  end.

(** The caller's packet is changed: the state is the client and the packet. *)
Definition sendAudioPacket : go (RtmpClient * Packet) unit :=
  '(c, pkt) ← get;
  _ ← (if (SoundFormat (AHeader pkt) =? SOUND_AAC) && audioFirst c then
         _ ← on_p (on_err (sendPacketData (NewAACSequenceHeader (AHeader pkt)) (TimeStamp pkt)
                             PacketTypeAudio) (Wrapf "send aac sequence header failed. %v"));
         on_p (modify (set_audioFirst false))
       else mret tt);
  _ ← on_w (pack_into (PackAudioData (AHeader pkt) (pkt_StreamID pkt) (pkt_Data pkt) (TimeStamp pkt))
              "Pack audio failed. %v");
  '(c, pkt) ← get;
  on_p (on_err (sendPacketData (pkt_Data pkt) (TimeStamp pkt) PacketTypeAudio)
          (Wrapf "send packet failed, %v")).

(** The last parameter sets among the units. *)
Definition find_sets (nalus : list bytes) : res (option bytes * option bytes) :=
  foldl (λ r nalu,
    '(sps, pps) ← r;
    b0 ← index_at nalu 0;
    let naluType := Z.land b0 0x1F in
    if naluType =? 7 then Ok (Some nalu, pps)
    else if naluType =? 8 then Ok (sps, Some nalu)
    else Ok (sps, pps)) (Ok (None, None)) nalus.

(** The sequence header before the first picture; [false] if the picture is dropped. *)
Definition send_sequence (pkt : Packet) : go RtmpClient bool :=
  c ← get;
  if (CodecID (VHeader pkt) =? VIDEO_H264) && videoFirst c then
    nalus ← lift (ParseNalus (pkt_Data pkt));
    sets ← lift (find_sets nalus);
    match sets with
    | (Some sps, Some pps) =>
        _ ← on_err (sendPacketData (NewAVCSequenceHeader sps pps (TimeStamp pkt)) (TimeStamp pkt)
                      PacketTypeVideo) (Wrapf "send flv sequence header failed, %v");
        _ ← modify (set_videoFirst false);
        mret true
    | _ => mret false
    end
  else mret true.

Definition sendVideoPacket : go (RtmpClient * Packet) unit :=
  '(c, pkt) ← get;
  go_on ← on_p (send_sequence pkt);
  if go_on : bool then
    _ ← on_w (pack_into (PackVideoData (VHeader pkt) (pkt_Data pkt) (TimeStamp pkt))
                "Pack video failed, %v");
    '(c, pkt) ← get;
    on_p (on_err (sendPacketData (pkt_Data pkt) (TimeStamp pkt) PacketTypeVideo)
            (Wrapf "send packet failed, %v"))
  else mret tt.

Definition sendMetaPacket : go (RtmpClient * Packet) unit := fail (Errorf "Mata data unsupport").

Definition SendPacket : go (RtmpClient * Packet) unit :=
  '(c, pkt) ← get;
  if negb (isPublish c) then fail (Errorf "It is not publish mode")
  else if PacketType pkt =? PacketTypeAudio then sendAudioPacket
  else if PacketType pkt =? PacketTypeVideo then sendVideoPacket
  else if PacketType pkt =? PacketTypeMetadata then sendMetaPacket
  else fail (Errorf "Unknow packet type:%d").

(** ** Playing *)

(** The units of a picture, each after its length, are given to the callback one by one in
    the packet [pkt]; the loop ends, as every pass takes the length at least. *)
Fixpoint nalu_packets (fuel : nat) (naluData : bytes) (pkt : Packet) (index : Z) : go RtmpClient unit :=
  match fuel with
  | O => λ c, (OutOfFuel, c)
  | S fuel =>
      tail ← lift (slice_from naluData index);
      let remain := len tail in
      if remain <? 4 then mret tt
      else
        length ← lift (BigEndian_Uint32 tail);
        if u32 (remain - 4) <? length then fail (Errorf "invalid data length:%d remain:%d")
        else
          let index := index + 4 in
          d ← lift (slice naluData index (index + length));
          _ ← receive_packet (set_pkt_Data d pkt);
          nalu_packets fuel naluData pkt (index + length)
  end.

Definition packet_type (typeID : Z) : res Z :=
  if typeID =? TAG_VIDEO then Ok PacketTypeVideo
  else if typeID =? TAG_AUDIO then Ok PacketTypeAudio
  else if (typeID =? TAG_SCRIPTDATAAMF0) || (typeID =? TAG_SCRIPTDATAAMF3) then Ok PacketTypeMetadata
  else Err (Errorf "Unknow chunk type:%d").

(** Of several parameter sets the first. *)
Definition receive_first (sets : list bytes) (pkt : Packet) : go RtmpClient unit :=
  match sets with
  | s :: _ => receive_packet (set_pkt_Data s pkt)
  | [] => mret tt
  end.

Definition handleVideoAudio (cs : ChunkStream bytes) : go RtmpClient unit :=
  pktType ← lift (packet_type (TypeID cs));
  let '(r, pkt) := Demux (mkPacket pktType (Timestamp cs) (StreamID cs) no_VHeader no_AHeader (Data cs)) in
  _ ← on_err (lift r) (Wrapf "Demux failed, %v");
  if PacketType pkt =? PacketTypeAudio then receive_packet pkt
  else if PacketType pkt =? PacketTypeVideo then
    if (CodecID (VHeader pkt) =? VIDEO_H264) && (FrameType (VHeader pkt) =? FRAME_KEY)
       && (AVCPacketType (VHeader pkt) =? AVC_SEQHDR) then
      '(spss, ppss) ← on_err (lift (ParseAVCSequenceHeader (pkt_Data pkt)))
                        (Wrapf "Parse avc sequence header failed, %v");
      _ ← receive_first spss pkt;
      receive_first ppss pkt
    else nalu_packets (S (length (pkt_Data pkt))) (pkt_Data pkt) pkt 0
  else if (PacketType pkt =? TAG_SCRIPTDATAAMF0) || (PacketType pkt =? TAG_SCRIPTDATAAMF3) then
    fail (Errorf "TODO")
  else fail (Errorf "unknow chunk stream type:%d").

(** The values are only logged. *)
Definition decode_values (ver : Z) (data : bytes) (msg : string) : go RtmpClient unit :=
  '(_, e) ← on_client (cc_DecodeBatch ver data);
  if decide (e = EOF) then mret tt else fail (Wrapf msg e).

Definition handleMetadata (cs : ChunkStream bytes) : go RtmpClient unit :=
  if TypeID cs =? TAG_SCRIPTDATAAMF0 then decode_values AMF0 (Data cs) "decode metadata failed, %v"
  else if TypeID cs =? TAG_SCRIPTDATAAMF3 then decode_values AMF3 (Data cs) "decode metadata failed, %v"
  else mret tt.

Definition handleCommand (cs : ChunkStream bytes) : go RtmpClient unit :=
  if TypeID cs =? 20 then decode_values AMF0 (Data cs) "Decode amf failed, %v"
  else if TypeID cs =? 17 then decode_values AMF3 (Data cs) "Decode amf failed, %v"
  else mret tt.

(** One message; an error is only logged. *)
Definition play_message (cs : ChunkStream bytes) : go RtmpClient unit :=
  let ty := TypeID cs in
  ignore_err tt
    (if (ty =? TAG_AUDIO) || (ty =? TAG_VIDEO) then handleVideoAudio cs
     else if (ty =? TAG_SCRIPTDATAAMF0) || (ty =? TAG_SCRIPTDATAAMF3) then handleMetadata cs
     else if (ty =? 17) || (ty =? 20) then handleCommand cs
     else mret tt).

Fixpoint play_loop (fuel : nat) : go RtmpClient unit :=
  match fuel with
  | O => λ c, (OutOfFuel, c)
  | S fuel =>
      r ← try (on_client cc_Read);
      match r with
      | inr _ => mret tt
      | inl cs => _ ← play_message cs; play_loop fuel
      end
  end.

(** [defer c.Close()] runs when the loop ends, and when it panics. *)
Definition streamPlayProc : go RtmpClient unit := λ c,
  let fuel := match rc_conn c with Some cc => input_left cc | None => 1%nat end in
  match play_loop fuel c with
  | (OutOfFuel, c') => (OutOfFuel, c')
  | (r, c') => let '(r', c'') := rc_Close c' in (match r' with Ok _ => r | _ => r' end, c'')
  end.

(** ** What a publisher puts on the wire *)

(** A publisher on a connection. *)
Record publisher (rc : RtmpClient) (cc : ConnClient) (c : RtmpConn) : Prop := {
  pb_conn : rc_conn rc = Some cc;
  pb_rtmp : cc_conn cc = Some c;
  pb_sid : fits 32 (cc_streamid cc);
  pb_publish : isPublish rc = true;
}.

Definition with_conn (c : RtmpConn) (cc : ConnClient) (rc : RtmpClient) : RtmpClient :=
  set_rc_conn (Some (set_cc_conn (Some c) cc)) rc.

Lemma sendPacketData_ok a k out inp n rc cc c ty pt ts data :
  publisher rc cc c → endpoint a k out inp n c → tag_ok ts data → media_type ty →
  message_type pt = Ok ty →
  ∃ c', sendPacketData data ts pt rc = (Ok tt, with_conn c' cc rc) ∧
    endpoint a k (out ++ wire_of k [media_message ty ts (cc_streamid cc) data]) inp n c' ∧
    bw_sent (rw_w (c_rw c')) = out ++ wire_of k [media_message ty ts (cc_streamid cc) data].
Proof.
  intros [Hrc Hcc Hsid _] He Ht Hty Hpt. unfold sendPacketData. pose proof Ht as [Hne _ Hl _].
  rewrite (proj2 (Z.eqb_neq _ _)) by (destruct data; [done|unfold len; simpl; lia]).
  rewrite (go_bind_lift _ _ _ _ Hpt).
  rewrite go_bind_ok with (a := cc_streamid cc) (s' := rc)
    by (unfold on_client; rewrite Hrc; unfold gets; destruct rc; simpl in Hrc; by subst).
  rewrite u32_small by (pose proof (len_nonneg data); unfold fits; lia).
  destruct (endpoint_write a k out inp n c _ He (media_sendable ty ts _ data Hty Ht Hsid)) as (m' & c1 & E1 & He1).
  { unfold size_fits, media_message. rewrite writeChunk_csid_TypeID.
    destruct Hty as [-> | ->]; intros E; vm_compute in E; congruence. }
  set (m0 := newCS 0 0 ts (len data) ty (cc_streamid cc) data) in *.
  change (media_message ty ts (cc_streamid cc) data) with (writeChunk_csid m0) in *.
  rewrite writeChunk_csid_idem in He1. rewrite Write_csid in E1.
  assert (Hn : next_size k (writeChunk_csid m0) = k).
  { unfold next_size. rewrite writeChunk_csid_TypeID. by destruct Hty as [-> | ->]. }
  rewrite Hn in He1. destruct (endpoint_flush _ _ _ _ _ c1 He1) as (c2 & E2 & He2 & Hsent).
  exists c2. split; [|by split].
  assert (Hw : cc_Write m0 cc = (Ok tt, set_cc_conn (Some c1) cc)).
  { unfold cc_Write. replace (_ || _) with false by (by destruct Hty as [-> | ->]).
    rewrite go_bind_ret. apply (on_cc_ok _ cc c c1); [done|]. by rewrite (go_bind_ok _ _ _ _ _ E1). }
  rewrite go_bind_ok with (a := tt) (s' := with_conn c1 cc rc)
    by (unfold on_client; by rewrite Hrc, Hw).
  unfold on_client. cbn [rc_conn with_conn set_rc_conn]. unfold cc_Flush.
  by rewrite (on_cc_ok _ (set_cc_conn (Some c1) cc) c1 c2 tt eq_refl E2).
Qed.

Lemma with_conn_publisher rc cc c c' : publisher rc cc c →
  publisher (with_conn c' cc rc) (set_cc_conn (Some c') cc) c'.
Proof. intros []. by constructor. Qed.

(** ** A session of pictures and sound *)

(** What a publisher hands over: a picture of units in the start-code format, with or
    without the first start code, or a frame of AAC sound. *)
Inductive item : Type :=
  | Picture (h : VideoPacketHeader) (code : bool) (x : bytes) (rest : list bytes) (ts : Z)
  | Frame (ah : AudioPacketHeader) (data : bytes) (ts : Z).

Definition item_packet (it : item) : Packet :=
  match it with
  | Picture h code x rest ts =>
      mkPacket PacketTypeVideo ts 0 h no_AHeader
        ((if code then StartCode4 else []) ++ x ++ annexb rest)
  | Frame ah data ts => mkPacket PacketTypeAudio ts 0 no_VHeader ah data
  end.

Record aac_ok (ah : AudioPacketHeader) : Prop := {
  ao_format : SoundFormat ah = SOUND_AAC;
  ao_rate : 0 ≤ SoundRate ah < 14;
  ao_size : 0 ≤ SoundSize ah < 2;
  ao_type : 0 ≤ SoundType ah < 2;
}.

(** Units of bytes that fit into messages, with the header a publisher fills in. *)
Definition item_ok (it : item) : Prop :=
  match it with
  | Picture h code x rest ts =>
      (CodecID h = VIDEO_H264 ∧ AVCPacketType h = AVC_NALU) ∧
      picture_ok x rest ∧ splittable (x :: rest) ∧
      Forall (λ u, Forall is_byte u ∧ len u < 65536) (x :: rest) ∧
      len (avcc (x :: rest)) < 2 ^ 23 ∧ 0 ≤ ts < 0xffffff
  | Frame ah data ts =>
      aac_ok ah ∧ data ≠ [] ∧ Forall is_byte data ∧ len data < 2 ^ 23 ∧ 0 ≤ ts < 0xffffff
  end.

(** The packet a player gets, on the stream [sid]. *)
Definition played_video (sid ts ft apt : Z) (u : bytes) : Packet :=
  mkPacket PacketTypeVideo ts sid (mkVHeader ft apt VIDEO_H264 0) no_AHeader u.
Definition played_audio (sid ts apt : Z) (ah : AudioPacketHeader) (d : bytes) : Packet :=
  mkPacket PacketTypeAudio ts sid no_VHeader
    (mkAHeader SOUND_AAC (SoundRate ah mod 4) (SoundSize ah) (SoundType ah) apt) d.

Definition picture_data (h : VideoPacketHeader) (x : bytes) (rest : list bytes) (ts : Z) : bytes :=
  muxerTagData (video_tag h (picture_type x) ts (x ++ annexb rest)) ++ avcc (x :: rest).
Definition frame_data (ah : AudioPacketHeader) (data : bytes) (ts : Z) : bytes :=
  muxerTagData (audio_tag ah 0 ts data) ++ data.

Definition aac_config (ah : AudioPacketHeader) : bytes :=
  SpecificConfig 2 (frequencyIndex (SoundRate ah)) (channelConfiguration (SoundType ah)).

Section session.
Variable sid : Z.

(** The messages an item is sent as, and the packets a player gets for it; the flags say
    whether the sequence headers are still to be sent.  Without parameter sets the first
    picture is dropped. *)
Definition video_step (vf : bool) h x rest ts : bool * list (ChunkStream bytes) * list Packet :=
  let m := media_message TAG_VIDEO ts sid (picture_data h x rest ts) in
  let units := played_video sid ts (picture_type x) AVC_NALU <$> x :: rest in
  if vf then
    match find_sets (x :: rest) with
    | Ok (Some sps, Some pps) =>
        (false, [media_message TAG_VIDEO ts sid (NewAVCSequenceHeader sps pps ts); m],
         (played_video sid ts FRAME_KEY AVC_SEQHDR <$> [sps; pps]) ++ units)
    | _ => (true, [], [])
    end
  else (false, [m], units).

Definition audio_step (af : bool) ah data ts : bool * list (ChunkStream bytes) * list Packet :=
  let m := media_message TAG_AUDIO ts sid (frame_data ah data ts) in
  let p := played_audio sid ts AAC_RAW ah data in
  if af then
    (false, [media_message TAG_AUDIO ts sid (NewAACSequenceHeader ah); m],
     [played_audio sid ts AAC_SEQHDR ah (aac_config ah); p])
  else (false, [m], [p]).

Definition item_step (vf af : bool) (it : item)
    : bool * bool * list (ChunkStream bytes) * list Packet :=
  match it with
  | Picture h code x rest ts =>
      let '(vf, ms, ps) := video_step vf h x rest ts in (vf, af, ms, ps)
  | Frame ah data ts => let '(af, ms, ps) := audio_step af ah data ts in (vf, af, ms, ps)
  end.

Fixpoint session_of (vf af : bool) (its : list item) : list (ChunkStream bytes) * list Packet :=
  match its with
  | [] => ([], [])
  | it :: its =>
      let '(vf, af, ms, ps) := item_step vf af it in
      let '(ms', ps') := session_of vf af its in (ms ++ ms', ps ++ ps')
  end.
End session.

(** The caller sends one packet after the other, each in a packet of its own. *)
Fixpoint send_items (its : list item) : go RtmpClient unit := λ c,
  match its with
  | [] => (Ok tt, c)
  | it :: its =>
      match SendPacket (c, item_packet it) with
      | (Ok _, (c, _)) => send_items its c
      | (r, (c, _)) => (r, c)
      end
  end.

(** *** Tags are messages *)

Lemma lor_is_byte a b : is_byte a → is_byte b → is_byte (Z.lor a b).
Proof.
  intros [Ha1 Ha2] [Hb1 Hb2]. split; [by apply Z.lor_nonneg|].
  destruct (decide (Z.lor a b = 0)) as [->|Hne]; [lia|].
  assert (0 < Z.lor a b) by (pose proof (proj2 (Z.lor_nonneg a b) (conj Ha1 Hb1)); lia).
  assert (Hlog : ∀ x, 0 ≤ x < 256 → Z.log2 x < 8).
  { intros x Hx. destruct (decide (x = 0)) as [->|]; [done|]. apply Z.log2_lt_pow2; lia. }
  apply (Z.log2_lt_pow2 (Z.lor a b) 8); [done|]. rewrite Z.log2_lor by done.
  pose proof (Hlog a). pose proof (Hlog b). lia.
Qed.

Lemma land_is_byte a n : 0 ≤ n ≤ 8 → is_byte (Z.land a (Z.ones n)).
Proof.
  intros Hn. rewrite Z.land_ones by lia. pose proof (Z.mod_pos_bound a (2 ^ n)).
  assert (2 ^ n ≤ 2 ^ 8) by (apply Z.pow_le_mono_r; lia). unfold is_byte. lia.
Qed.

Lemma land_byte a b : is_byte b → is_byte (Z.land a b).
Proof.
  intros [H1 H2]. assert (Hb : Z.land b (Z.ones 8) = b) by (rewrite Z.land_ones, Z.mod_small; lia).
  rewrite <- Hb, Z.land_assoc. by apply (land_is_byte _ 8).
Qed.

Lemma shiftr_is_byte a n : 0 ≤ n → is_byte a → is_byte (Z.shiftr a n).
Proof.
  intros Hn [H1 H2]. rewrite Z.shiftr_div_pow2 by done. pose proof (Z.pow_pos_nonneg 2 n).
  split; [apply Z.div_pos; lia|]. apply Z.div_lt_upper_bound; nia.
Qed.

Lemma video_tag_bytes h ft apt : fType h = TAG_VIDEO → is_byte apt →
  let t := muxerTagData (mkTag h (video_media ft VIDEO_H264 apt 0)) in
  Forall is_byte t ∧ len t = 5.
Proof.
  intros Hh Ha. unfold muxerTagData. cbn [flvt mediat codecID video_media frameType avcPacketType
    compositionTime]. rewrite Hh, !Z.eqb_refl. split; [|done].
  apply Forall_cons; split; [apply lor_is_byte; [apply u8_byte|done]|].
  apply Forall_cons; split; [done|apply be_split_bytes].
Qed.

Lemma audio_tag_bytes h sr ss st apt : fType h = TAG_AUDIO → is_byte apt →
  let t := muxerTagData (mkTag h (audio_media SOUND_AAC sr ss st apt)) in
  Forall is_byte t ∧ len t = 2.
Proof.
  intros Hh Ha. unfold muxerTagData. cbn [flvt mediat audio_media soundFormat soundRate
    soundSize soundType aacPacketType]. rewrite Hh. change (TAG_AUDIO =? TAG_VIDEO) with false.
  rewrite !Z.eqb_refl. split; [|done]. apply Forall_cons; split.
  - apply lor_is_byte; [apply lor_is_byte; [apply lor_is_byte|]|]; by apply u8_byte || by apply land_byte.
  - apply Forall_cons; split; [done|by apply Forall_nil].
Qed.

Lemma avcc_bytes nalus : Forall (Forall is_byte) nalus → Forall is_byte (avcc nalus).
Proof.
  intros H. apply Forall_mjoin, Forall_fmap. eapply Forall_impl; [exact H|].
  intros u Hu. apply Forall_app. split; [apply be_split_bytes|done].
Qed.

Lemma picture_type_byte x : picture_type x = FRAME_KEY ∨ picture_type x = FRAME_INTER.
Proof. unfold picture_type. destruct (_ || _); auto. Qed.

Lemma picture_tag_ok h code x rest ts : item_ok (Picture h code x rest ts) →
  tag_ok ts (picture_data h x rest ts).
Proof.
  intros ((Hc & Ha) & Hp & _ & Hb & Hl & Ht). unfold picture_data, video_tag. rewrite Hc, Ha.
  set (t := muxerTagData _).
  assert (Forall is_byte t ∧ len t = 5) as [H1 H2] by (by apply video_tag_bytes).
  constructor; try done.
  - apply Forall_app. split; [done|]. apply avcc_bytes. eapply Forall_impl; [exact Hb|]. by intros u [? _].
  - rewrite len_app, H2. lia.
Qed.

Lemma frame_tag_ok ah data ts : item_ok (Frame ah data ts) → tag_ok ts (frame_data ah data ts).
Proof.
  intros ([Hf _ _ _] & Hne & Hb & Hl & Ht). unfold frame_data, audio_tag. rewrite Hf.
  set (t := muxerTagData _).
  assert (Forall is_byte t ∧ len t = 2) as [H1 H2] by (by apply audio_tag_bytes). pose proof (len_nonneg data). constructor; try done.
  - by apply Forall_app.
  - rewrite len_app, H2. lia.
Qed.

Lemma sequence_tag_ok sps pps ts : Forall is_byte sps → Forall is_byte pps →
  len sps < 65536 → len pps < 65536 → 0 ≤ ts < 0xffffff →
  tag_ok ts (NewAVCSequenceHeader sps pps ts).
Proof.
  intros Hs Hp Hsl Hpl Ht. unfold NewAVCSequenceHeader.
  set (record := AVCDecoderConfigurationRecord sps pps).
  assert (Hr : Forall is_byte record ∧ len record < 200000).
  { unfold record, AVCDecoderConfigurationRecord. pose proof (len_nonneg sps). pose proof (len_nonneg pps).
    assert (Hx : ∀ l, Forall is_byte l → len l < 65536 → 
      Forall is_byte (if decide (l = StartCode4) then [] else l) ∧
      len (if decide (l = StartCode4) then [] else l) < 65536).
    { intros l Hl Hll. destruct (decide _); [by split; [apply Forall_nil|]|done]. }
    destruct (Hx sps Hs Hsl) as [Hs1 Hs2], (Hx pps Hp Hpl) as [Hp1 Hp2].
    set (s' := if decide (sps = _) then _ else _) in *. set (p' := if decide (pps = _) then _ else _) in *.
    split.
    - apply Forall_app; split; [by apply (bool_decide_unpack _); vm_compute; exact I|].
      repeat (apply Forall_app; split); try done || apply be_split_bytes.
      by repeat constructor.
    - rewrite !len_app.
      assert (Hbe : ∀ v, len (be_split 2 v) = 2) by (intros v; unfold len; by rewrite length_be_split).
      rewrite !Hbe. change (len [1]) with 1.
      match goal with |- context [len ?l + (2 + _)] => change (len l) with 6 end. lia. }
  destruct Hr as [Hr Hrl].
  set (t := muxerTagData _).
  assert (Forall is_byte t ∧ len t = 5) as [H1 H2] by (by apply video_tag_bytes).
  constructor; try done.
  - by apply Forall_app.
  - rewrite len_app, H2. lia.
Qed.

Lemma aac_config_bytes ah : Forall is_byte (aac_config ah).
Proof.
  pose proof (frequencyIndex_range (SoundRate ah)). unfold aac_config, SpecificConfig.
  repeat (apply Forall_cons; split; [apply lor_is_byte|]); try apply u8_byte; [|by apply Forall_nil].
  apply shiftr_is_byte; [done|]. unfold is_byte. lia.
Qed.

Lemma config_tag_ok ah ts : aac_ok ah → 0 ≤ ts < 0xffffff → tag_ok ts (NewAACSequenceHeader ah).
Proof.
  intros [Hf _ _ _] Ht. unfold NewAACSequenceHeader. fold (aac_config ah).
  rewrite Hf. set (t := muxerTagData _).
  assert (Forall is_byte t ∧ len t = 2) as [H1 H2] by (by apply audio_tag_bytes).
  constructor; try done.
  apply Forall_app. split; [done|apply aac_config_bytes].
Qed.

(** *** Sending *)

Lemma find_sets_spec nalus : Forall (λ u, u ≠ []) nalus →
  ∃ s p, find_sets nalus = Ok (s, p) ∧
    (∀ u, s = Some u → u ∈ nalus ∧ nal_type u = 7) ∧ (∀ u, p = Some u → u ∈ nalus ∧ nal_type u = 8).
Proof.
  induction nalus as [|y l IH] using rev_ind; intros H; [by exists None, None|].
  apply Forall_app in H as [Hl [Hy _]%Forall_cons]. destruct (IH Hl) as (s & p & E & Hs & Hp).
  unfold find_sets in *. rewrite foldl_app, E. cbn [foldl mbind res_bind].
  assert (Hb : index_at y 0 = Ok (nth 0 y 0)) by (by destruct y). rewrite Hb. cbn [mbind res_bind].
  fold (nal_type y).
  assert (Hin : ∀ u ty (o : option bytes), (∀ u, o = Some u → u ∈ l ∧ nal_type u = ty) →
    o = Some u → u ∈ l ++ [y] ∧ nal_type u = ty)
    by (intros u ty o Ho Hu; destruct (Ho u Hu); split; [by apply elem_of_app; left|done]).
  assert (Hyin : y ∈ l ++ [y]) by (apply elem_of_app; right; by left).
  change (Z.land (nth 0 y 0) 31) with (nal_type y).
  destruct (Z.eqb_spec (nal_type y) 7) as [E7|]; [|destruct (Z.eqb_spec (nal_type y) 8) as [E8|]];
    eexists _, _; (split; [reflexivity|]); split; eauto; by intros u [= <-].
Qed.

(** A parameter set of a picture is one for a sequence header. *)
Lemma set_ok ty (u : bytes) nalus : (ty = 7 ∨ ty = 8) →
  Forall (λ u, Forall is_byte u ∧ len u < 65536) nalus → u ∈ nalus → nal_type u = ty →
  u ≠ [] ∧ u ≠ StartCode4 ∧ Forall is_byte u ∧ len u < 65536.
Proof.
  intros Hty Hall Hin Ht. rewrite Forall_forall in Hall. destruct (Hall u Hin) as [H1 H2].
  split_and!; try done; intros ->; vm_compute in Ht; lia.
Qed.

Lemma item_data_splits h code x rest ts : item_ok (Picture h code x rest ts) →
  ParseNalus ((if code then StartCode4 else []) ++ x ++ annexb rest) = Ok (x :: rest).
Proof.
  intros (_ & _ & Hs & _). unfold ParseNalus. destruct code.
  - rewrite <- annexb_cons. apply ParseNalusN_split_code; [done|lia|done].
  - rewrite app_nil_l. apply ParseNalusN_split; [done|lia].
Qed.

Lemma item_packs h code x rest ts : item_ok (Picture h code x rest ts) →
  PackVideoData h ((if code then StartCode4 else []) ++ x ++ annexb rest) ts
  = Ok (picture_data h x rest ts).
Proof.
  intros ((Hc & _) & Hp & _). apply PackVideoData_picture; [done|done|destruct code; auto].
Qed.

(** A publisher whose output is [out], all of it flushed. *)
Record publishes (a : AConn) (k : Z) (out inp : bytes) (n sid : Z) (vf af : bool) (rc : RtmpClient) : Prop := {
  ps_state : ∃ cc c, publisher rc cc c ∧ cc_streamid cc = sid ∧ endpoint a k out inp n c ∧
    bw_sent (rw_w (c_rw c)) = out;
  ps_video : videoFirst rc = vf;
  ps_audio : audioFirst rc = af;
}.

Lemma send_data a k out inp n sid vf af rc ty pt ts data :
  publishes a k out inp n sid vf af rc → tag_ok ts data → media_type ty → message_type pt = Ok ty →
  ∃ rc', sendPacketData data ts pt rc = (Ok tt, rc') ∧
    publishes a k (out ++ wire_of k [media_message ty ts sid data]) inp n sid vf af rc'.
Proof.
  intros [(cc & c & Hp & Hsid & He & Hs) Hv Ha] Ht Hty Hpt.
  destruct (sendPacketData_ok a k out inp n rc cc c ty pt ts data Hp He Ht Hty Hpt) as (c' & E & He' & Hs').
  rewrite Hsid in He', Hs'. eexists. split; [exact E|]. constructor; [|done..].
  exists (set_cc_conn (Some c') cc), c'. split; [by apply with_conn_publisher with c|]. by split.
Qed.

Lemma publishes_flags a k out inp n sid vf af rc : publishes a k out inp n sid vf af rc →
  publishes a k out inp n sid false af (set_videoFirst false rc) ∧
  publishes a k out inp n sid vf false (set_audioFirst false rc).
Proof.
  intros [(cc & c & [] & H) Hv Ha]. split; (constructor; [exists cc, c; split; [by constructor|done]|done..]).
Qed.

Lemma on_p_ok {P W A} (m : go P A) (p : P) (w : W) a p' : m p = (Ok a, p') →
  on_p (W := W) m (p, w) = (Ok a, (p', w)).
Proof. intros H. unfold on_p. by rewrite H. Qed.

Lemma on_w_ok2 {P W A} (m : go W A) (p : P) (w : W) a w' : m w = (Ok a, w') →
  on_w (W := W) m (p, w) = (Ok a, (p, w')).
Proof. intros H. unfold on_w. by rewrite H. Qed.

Lemma on_err_done {S A} (m : go S A) g s a s' : m s = (Ok a, s') → on_err m g s = (Ok a, s').
Proof. intros H. unfold on_err. by rewrite H. Qed.

(** The sequence header goes out before the first picture that has parameter sets. *)
Lemma send_sequence_ok a k out inp n sid vf af rc h code x rest ts :
  publishes a k out inp n sid vf af rc → item_ok (Picture h code x rest ts) →
  ∃ (b : bool) rc' ms ps, send_sequence (item_packet (Picture h code x rest ts)) rc = (Ok b, rc') ∧
    publishes a k (out ++ wire_of k ms) inp n sid (negb b) af rc' ∧
    (∀ m, wire_of k (ms ++ [m]) = wire_of k ms ++ wire_of k [m]) ∧
    let units := played_video sid ts (picture_type x) AVC_NALU <$> x :: rest in
    let m := media_message TAG_VIDEO ts sid (picture_data h x rest ts) in
    video_step sid vf h x rest ts = (if b then (false, ms ++ [m], ps ++ units) else (true, [], [])) ∧
    (b = false → ms = []).
Proof.
  intros Hp Hok. pose proof Hok as ((Hc & _) & _ & Hs & Hb & _ & Ht).
  assert (Hv : media_type TAG_VIDEO) by (by right). unfold send_sequence, video_step.
  rewrite go_bind_get, (ps_video _ _ _ _ _ _ _ _ _ Hp). cbn [item_packet VHeader pkt_Data TimeStamp].
  rewrite Hc, Z.eqb_refl. cbn [andb].
  destruct vf; [|by exists true, rc, [], []; rewrite app_nil_r; split_and!].
  destruct (find_sets_spec (x :: rest)) as (s & p & Ef & Hs1 & Hp1).
  { eapply Forall_impl; [apply Hs|]. by intros u [? _]. }
  rewrite (go_bind_lift _ _ _ _ (item_data_splits _ _ _ _ _ Hok)), (go_bind_lift _ _ _ _ Ef), Ef.
  assert (Hno : ∃ (b : bool) rc' ms ps, (mret false : go RtmpClient bool) rc = (Ok b, rc') ∧
    publishes a k (out ++ wire_of k ms) inp n sid (negb b) af rc' ∧
    (∀ m, wire_of k (ms ++ [m]) = wire_of k ms ++ wire_of k [m]) ∧
    (true, [], []) = (if b then (false, ms ++ [media_message TAG_VIDEO ts sid (picture_data h x rest ts)],
      ps ++ (played_video sid ts (picture_type x) AVC_NALU <$> x :: rest)) else (true, [], [])) ∧
    (b = false → ms = [])).
  { exists false, rc, [], []. rewrite app_nil_r. by split_and!. }
  destruct s as [sps|]; [|exact Hno]. destruct p as [pps|]; [|exact Hno]. clear Hno.
  destruct (Hs1 sps eq_refl) as [Hi1 Ht1], (Hp1 pps eq_refl) as [Hi2 Ht2].
  destruct (set_ok 7 sps _ (or_introl eq_refl) Hb Hi1 Ht1) as (_ & _ & Hb1 & Hl1).
  destruct (set_ok 8 pps _ (or_intror eq_refl) Hb Hi2 Ht2) as (_ & _ & Hb2 & Hl2).
  destruct (send_data _ _ _ _ _ _ _ _ rc TAG_VIDEO PacketTypeVideo ts _ Hp
    (sequence_tag_ok sps pps ts Hb1 Hb2 Hl1 Hl2 Ht) Hv eq_refl) as (rc' & E & Hp').
  exists true, (set_videoFirst false rc'), [media_message TAG_VIDEO ts sid (NewAVCSequenceHeader sps pps ts)],
    (played_video sid ts FRAME_KEY AVC_SEQHDR <$> [sps; pps]).
  rewrite (go_bind_ok _ _ _ _ _ (on_err_done _ _ _ _ _ E)), go_bind_modify.
  split; [done|]. split; [by apply (publishes_flags _ _ _ _ _ _ true)|]. split; [|done].
  intros m. by apply media_wire.
Qed.

Lemma send_picture a k out inp n sid vf af rc h code x rest ts :
  publishes a k out inp n sid vf af rc → item_ok (Picture h code x rest ts) →
  ∃ rc' pkt', let '(vf', ms, _) := video_step sid vf h x rest ts in
    sendVideoPacket (rc, item_packet (Picture h code x rest ts)) = (Ok tt, (rc', pkt')) ∧
    publishes a k (out ++ wire_of k ms) inp n sid vf' af rc'.
Proof.
  intros Hp Hok. pose proof Hok as ((Hc & _) & _ & Hs & Hb & _ & Ht).
  destruct (send_sequence_ok _ _ _ _ _ _ _ _ _ h code x rest ts Hp Hok)
    as (b & rc1 & ms & ps & E1 & Hp1 & Hwire & Hstep & Hms).
  unfold sendVideoPacket. destruct b; rewrite Hstep; last first.
  { rewrite (Hms eq_refl) in Hp1. exists rc1, (item_packet (Picture h code x rest ts)).
    split; [|exact Hp1]. rewrite go_bind_get. cbv beta iota.
    by rewrite (go_bind_ok _ _ _ _ _ (on_p_ok _ _ _ _ _ E1)). }
  destruct (send_data _ _ _ _ _ _ _ _ rc1 TAG_VIDEO PacketTypeVideo ts (picture_data h x rest ts) Hp1
    (picture_tag_ok _ _ _ _ _ Hok) (or_intror eq_refl) eq_refl) as (rc' & E & Hp').
  exists rc'. eexists. split; [|by rewrite Hwire, app_assoc].
  rewrite go_bind_get. cbv beta iota. rewrite (go_bind_ok _ _ _ _ _ (on_p_ok _ _ _ _ _ E1)). cbv iota.
  erewrite go_bind_ok by (apply on_w_ok2; unfold pack_into; cbn [item_packet pkt_Data VHeader TimeStamp];
    rewrite (item_packs _ _ _ _ _ Hok); reflexivity).
  rewrite go_bind_get. cbv beta iota. cbn [pkt_Data TimeStamp set_pkt_Data item_packet].
  exact (on_p_ok _ _ _ _ _ (on_err_done _ _ _ _ _ E)).
Qed.

Lemma send_frame a k out inp n sid vf af rc ah data ts :
  publishes a k out inp n sid vf af rc → item_ok (Frame ah data ts) →
  ∃ rc' pkt', let '(af', ms, _) := audio_step sid af ah data ts in
    sendAudioPacket (rc, item_packet (Frame ah data ts)) = (Ok tt, (rc', pkt')) ∧
    publishes a k (out ++ wire_of k ms) inp n sid vf af' rc'.
Proof.
  intros Hp Hok. pose proof Hok as ([Hf ? ? ?] & _ & _ & _ & Ht). unfold sendAudioPacket, audio_step.
  rewrite go_bind_get. cbv beta iota. cbn [item_packet AHeader pkt_Data TimeStamp pkt_StreamID].
  rewrite (ps_audio _ _ _ _ _ _ _ _ _ Hp), Hf, Z.eqb_refl. cbn [andb].
  assert (Hlast : ∀ out vf rc1, publishes a k out inp n sid vf false rc1 → ∃ rc' pkt',
    (_ ← on_w (pack_into (PackAudioData ah 0 data ts) "Pack audio failed. %v");
     '(_, pkt) ← get;
     on_p (on_err (sendPacketData (pkt_Data pkt) (TimeStamp pkt) PacketTypeAudio)
       (Wrapf "send packet failed, %v"))) (rc1, mkPacket PacketTypeAudio ts 0 no_VHeader ah data)
    = (Ok tt, (rc', pkt')) ∧
    publishes a k (out ++ wire_of k [media_message TAG_AUDIO ts sid (frame_data ah data ts)]) inp n
      sid vf false rc').
  { intros out' vf' rc1 Hp1. destruct (send_data _ _ _ _ _ _ _ _ rc1 TAG_AUDIO PacketTypeAudio ts
      (frame_data ah data ts) Hp1 (frame_tag_ok _ _ _ Hok) (or_introl eq_refl) eq_refl) as (rc' & E & Hp').
    exists rc'. eexists. split; [|exact Hp'].
    erewrite go_bind_ok by (apply on_w_ok2; unfold pack_into, PackAudioData; rewrite Hf, Z.eqb_refl;
      cbn [negb]; reflexivity).
    rewrite go_bind_get. cbv beta iota. cbn [pkt_Data TimeStamp set_pkt_Data].
    exact (on_p_ok _ _ _ _ _ (on_err_done _ _ _ _ _ E)). }
  destruct af; [|rewrite go_bind_ret; exact (Hlast _ _ _ Hp)].
  destruct (send_data _ _ _ _ _ _ _ _ rc TAG_AUDIO PacketTypeAudio ts (NewAACSequenceHeader ah) Hp
    (config_tag_ok ah ts ltac:(by constructor) Ht) (or_introl eq_refl) eq_refl) as (rc1 & E & Hp1).
  destruct (publishes_flags _ _ _ _ _ _ _ _ _ Hp1) as [_ Hp2].
  destruct (Hlast _ _ _ Hp2) as (rc' & pkt' & E2 & Hp').
  exists rc', pkt'. split; [|by rewrite media_wire, app_assoc by (by left)].
  rewrite go_bind_ok with (a := tt) (s' := (set_audioFirst false rc1,
    mkPacket PacketTypeAudio ts 0 no_VHeader ah data)); [exact E2|].
  rewrite (go_bind_ok _ _ _ _ _ (on_p_ok _ _ _ _ _ (on_err_done _ _ _ _ _ E))). done.
Qed.

Lemma send_item a k out inp n sid vf af rc it : publishes a k out inp n sid vf af rc → item_ok it →
  ∃ rc' pkt', let '(vf', af', ms, _) := item_step sid vf af it in
    SendPacket (rc, item_packet it) = (Ok tt, (rc', pkt')) ∧
    publishes a k (out ++ wire_of k ms) inp n sid vf' af' rc'.
Proof.
  intros Hp Hok. pose proof Hp as [(cc & c & [_ _ _ Hpub] & _) _ _].
  unfold SendPacket, item_step. destruct it as [h code x rest ts|ah data ts].
  - destruct (send_picture _ _ _ _ _ _ _ _ _ h code x rest ts Hp Hok) as (rc' & pkt' & H).
    exists rc', pkt'. destruct (video_step _ _ _ _ _ _) as [[vf' ms] ps]. destruct H as [E Hp'].
    split; [|done]. rewrite go_bind_get. cbv beta iota. rewrite Hpub. exact E.
  - destruct (send_frame _ _ _ _ _ _ _ _ _ ah data ts Hp Hok) as (rc' & pkt' & H).
    exists rc', pkt'. destruct (audio_step _ _ _ _ _) as [[af' ms] ps]. destruct H as [E Hp'].
    split; [|done]. rewrite go_bind_get. cbv beta iota. rewrite Hpub. exact E.
Qed.

(** All that is sent are tags. *)
Lemma item_step_media sid vf af it : let '(_, _, ms, _) := item_step sid vf af it in
  Forall (λ m, ∃ ty ts d, media_type ty ∧ m = media_message ty ts sid d) ms.
Proof.
  destruct it as [h code x rest ts|ah data ts]; simpl; unfold video_step, audio_step;
    repeat case_match; simplify_eq;
    repeat (apply Forall_cons; split; [eexists _, _, _; (split; [|reflexivity]); first [by left|by right]|]);
    by apply Forall_nil_2.
Qed.

Lemma media_wire_app k sid ms1 ms2 :
  Forall (λ m, ∃ ty ts d, media_type ty ∧ m = media_message ty ts sid d) ms1 →
  wire_of k (ms1 ++ ms2) = wire_of k ms1 ++ wire_of k ms2.
Proof.
  intros H. rewrite wire_of_app. f_equal. f_equal. induction H as [|m ms (ty & ts & d & Ht & ->) _ IH]; [done|].
  cbn [foldl]. rewrite <- IH. f_equal. unfold next_size, media_message.
  rewrite writeChunk_csid_TypeID. by destruct Ht as [-> | ->].
Qed.

Lemma send_items_ok a k inp n sid its : Forall item_ok its → ∀ out vf af rc,
  publishes a k out inp n sid vf af rc →
  ∃ rc' vf' af', send_items its rc = (Ok tt, rc') ∧
    publishes a k (out ++ wire_of k (session_of sid vf af its).1) inp n sid vf' af' rc'.
Proof.
  induction 1 as [|it its Hit _ IH]; intros out vf af rc Hp.
  { exists rc, vf, af. cbn. by rewrite app_nil_r. }
  destruct (send_item _ _ _ _ _ _ _ _ _ it Hp Hit) as (rc1 & pkt' & H).
  pose proof (item_step_media sid vf af it) as Hm. cbn [send_items session_of].
  destruct (item_step sid vf af it) as [[[vf1 af1] ms] ps]. destruct H as [E Hp1]. rewrite E.
  destruct (IH _ _ _ _ Hp1) as (rc' & vf' & af' & E' & Hp').
  exists rc', vf', af'. split; [exact E'|]. destruct (session_of sid vf1 af1 its) as [ms' ps']. cbn [fst] in *.
  by rewrite (media_wire_app _ sid), app_assoc.
Qed.

(** *** Playing *)

(** What the callback has seen. *)
Definition got (ps : list Packet) (rc : RtmpClient) : RtmpClient :=
  set_rc_packets (rc_packets rc ++ ps) rc.

Lemma got_got ps qs rc : got qs (got ps rc) = got (ps ++ qs) rc.
Proof. unfold got. destruct rc. cbn. by rewrite app_assoc. Qed.

Lemma receive_packet_ok p rc : onPacketReceive rc = true → receive_packet p rc = (Ok tt, got [p] rc).
Proof. intros H. unfold receive_packet. by rewrite H. Qed.

(** The message [m] gives [ps] to the callback. *)
Definition plays (m : ChunkStream bytes) (ps : list Packet) : Prop :=
  ∀ rc, onPacketReceive rc = true → play_message (delivered m) rc = (Ok tt, got ps rc).

Lemma nalu_packets_ok us : ∀ d0 fuel pkt rc, onPacketReceive rc = true →
  Forall (λ u, len u < 2 ^ 32) us → (length us < fuel)%nat → len (d0 ++ avcc us) < 2 ^ 32 →
  nalu_packets fuel (d0 ++ avcc us) pkt (len d0) rc
  = (Ok tt, got ((λ u, set_pkt_Data u pkt) <$> us) rc).
Proof.
  induction us as [|u us IH]; intros d0 fuel pkt rc Hrc Hl Hf Hsz; (destruct fuel as [|fuel]; [simpl in Hf; lia|]);
    cbn [nalu_packets]; rewrite (go_bind_lift _ _ _ _ (slice_suffix d0 _)).
  { change (len (avcc [])) with 0. cbn. unfold got. rewrite app_nil_r. by destruct rc. }
  apply Forall_cons in Hl as [Hu Hl]. pose proof (len_nonneg u) as Hu0. pose proof (len_nonneg d0).
  pose proof (len_nonneg (avcc us)). rewrite avcc_cons in *. set (sz := be_split 4 (len u)) in *.
  assert (H4 : len sz = 4) by (unfold sz, len at 1; by rewrite length_be_split).
  assert (Hl4 : length sz = 4%nat) by (unfold sz; by rewrite length_be_split).
  rewrite !len_app, H4 in *.
  rewrite (proj2 (Z.ltb_ge _ _)) by lia. rewrite (go_bind_lift _ _ _ (len u)); last first.
  { rewrite BigEndian_Uint32_app, take_ge by lia. f_equal. unfold sz.
    apply be_combine_split_small. change (256 ^ Z.of_nat 4) with (2 ^ 32). lia. }
  rewrite u32_small by (unfold fits; lia). rewrite (proj2 (Z.ltb_ge _ _)) by lia.
  assert (Hd : slice (d0 ++ sz ++ u ++ avcc us) (len d0 + 4) (len d0 + 4 + len u) = Ok u).
  { rewrite (app_assoc d0 sz). apply slice_mid; rewrite len_app; lia. }
  rewrite (go_bind_lift _ _ _ _ Hd), (go_bind_ok _ _ _ _ _ (receive_packet_ok _ _ Hrc)).
  replace (d0 ++ sz ++ u ++ avcc us) with ((d0 ++ sz ++ u) ++ avcc us) by (by rewrite <- !app_assoc).
  replace (len d0 + 4 + len u) with (len (d0 ++ sz ++ u)) by (rewrite !len_app; lia).
  rewrite IH; [|done|done|simpl in Hf; lia|rewrite !len_app; lia]. by rewrite got_got.
Qed.

Section plays.
Variables sid ts : Z.

Lemma handle_video d p : Demux (video_packet_on sid ts d) = (Ok tt, p) →
  ∀ rc, play_message (delivered (media_message TAG_VIDEO ts sid d)) rc
  = ignore_err tt
      (if PacketType p =? PacketTypeAudio then receive_packet p
       else if PacketType p =? PacketTypeVideo then
         if (CodecID (VHeader p) =? VIDEO_H264) && (FrameType (VHeader p) =? FRAME_KEY)
            && (AVCPacketType (VHeader p) =? AVC_SEQHDR) then
           '(spss, ppss) ← on_err (lift (ParseAVCSequenceHeader (pkt_Data p)))
                             (Wrapf "Parse avc sequence header failed, %v");
           _ ← receive_first spss p;
           receive_first ppss p
         else nalu_packets (S (length (pkt_Data p))) (pkt_Data p) p 0
       else if (PacketType p =? TAG_SCRIPTDATAAMF0) || (PacketType p =? TAG_SCRIPTDATAAMF3) then
         fail (Errorf "TODO")
       else fail (Errorf "unknow chunk stream type:%d")) rc.
Proof.
  intros Hd rc. unfold play_message, handleVideoAudio.
  change (TypeID (delivered _)) with TAG_VIDEO.
  change (Timestamp (delivered _)) with ts. change (StreamID (delivered _)) with sid.
  change (Data (delivered _)) with d.
  change (if (TAG_VIDEO =? TAG_AUDIO) || (TAG_VIDEO =? TAG_VIDEO) then ?x else _) with x.
  unfold ignore_err. rewrite (go_bind_lift _ _ _ PacketTypeVideo) by done.
  fold (video_packet_on sid ts d). rewrite Hd.
  by rewrite go_bind_on_err with (a := tt) (s' := rc) by done.
Qed.

Lemma plays_sequence sps pps : sps ≠ [] → pps ≠ [] → sps ≠ StartCode4 → pps ≠ StartCode4 →
  len sps < 65536 → len pps < 65536 →
  plays (media_message TAG_VIDEO ts sid (NewAVCSequenceHeader sps pps ts))
    (played_video sid ts FRAME_KEY AVC_SEQHDR <$> [sps; pps]).
Proof.
  intros H1 H2 H3 H4 H5 H6 rc Hrc.
  rewrite (handle_video _ (played_video sid ts FRAME_KEY AVC_SEQHDR (AVCDecoderConfigurationRecord sps pps)))
    by (by apply Demux_h264_on).
  cbn [PacketType played_video VHeader CodecID FrameType AVCPacketType pkt_Data].
  change (PacketTypeVideo =? PacketTypeAudio) with false. rewrite !Z.eqb_refl. cbn [andb].
  unfold ignore_err. erewrite go_bind_on_err
    by (unfold lift; rewrite ParseAVCSequenceHeader_of by done; reflexivity).
  cbn [receive_first]. rewrite (go_bind_ok _ _ _ _ _ (receive_packet_ok _ _ Hrc)).
  rewrite receive_packet_ok by done. by rewrite got_got.
Qed.

Lemma plays_picture h code x rest : item_ok (Picture h code x rest ts) →
  plays (media_message TAG_VIDEO ts sid (picture_data h x rest ts))
    (played_video sid ts (picture_type x) AVC_NALU <$> x :: rest).
Proof.
  intros ((Hc & Ha) & Hp & _ & Hb & Hl & _) rc Hrc.
  assert (Hft : 0 ≤ picture_type x < 16) by (destruct (picture_type_byte x) as [-> | ->]; by vm_compute).
  rewrite (handle_video _ (played_video sid ts (picture_type x) AVC_NALU (avcc (x :: rest))));
    [|unfold picture_data, video_tag; rewrite Hc, Ha; by apply Demux_h264_on].
  cbn [PacketType played_video VHeader CodecID FrameType AVCPacketType pkt_Data].
  change (PacketTypeVideo =? PacketTypeAudio) with false. rewrite !Z.eqb_refl.
  change (AVC_NALU =? AVC_SEQHDR) with false. rewrite andb_false_r. unfold ignore_err.
  pose proof (nalu_packets_ok (x :: rest) [] (S (length (avcc (x :: rest))))
    (played_video sid ts (picture_type x) AVC_NALU (avcc (x :: rest))) rc Hrc) as H.
  rewrite app_nil_l in H. change (len []) with 0 in H. rewrite H; [done| | |].
  - eapply Forall_impl; [exact Hb|]. intros u [_ Hu]. lia.
  - pose proof (avcc_length (x :: rest)). lia.
  - lia.
Qed.
End plays.

Lemma handle_audio sid ts d p : Demux (audio_packet_on sid ts d) = (Ok tt, p) →
  PacketType p = PacketTypeAudio → plays (media_message TAG_AUDIO ts sid d) [p].
Proof.
  intros Hd Hp rc Hrc. unfold play_message, handleVideoAudio.
  change (TypeID (delivered _)) with TAG_AUDIO.
  change (Timestamp (delivered _)) with ts. change (StreamID (delivered _)) with sid.
  change (Data (delivered _)) with d.
  change (if (TAG_AUDIO =? TAG_AUDIO) || (TAG_AUDIO =? TAG_VIDEO) then ?x else _) with x.
  unfold ignore_err. rewrite (go_bind_lift _ _ _ PacketTypeAudio) by done.
  fold (audio_packet_on sid ts d). rewrite Hd.
  rewrite go_bind_on_err with (a := tt) (s' := rc) by done.
  rewrite Hp, Z.eqb_refl. by rewrite receive_packet_ok.
Qed.

Lemma plays_frame sid ts ah data : aac_ok ah →
  plays (media_message TAG_AUDIO ts sid (frame_data ah data ts)) [played_audio sid ts AAC_RAW ah data].
Proof.
  intros [Hf Hr Hs Ht]. apply handle_audio; [|done]. unfold frame_data, audio_tag. rewrite Hf.
  apply Demux_aac_on; done || lia.
Qed.

Lemma plays_config sid ts ah : aac_ok ah →
  plays (media_message TAG_AUDIO ts sid (NewAACSequenceHeader ah))
    [played_audio sid ts AAC_SEQHDR ah (aac_config ah)].
Proof.
  intros [Hf Hr Hs Ht]. apply handle_audio; [|done]. unfold NewAACSequenceHeader. rewrite Hf.
  apply Demux_aac_on; done || lia.
Qed.

(** Messages that are read one after the other. *)
Inductive played (sid : Z) : list (ChunkStream bytes) → list Packet → Prop :=
  | played_nil : played sid [] []
  | played_cons ty ts d ms ps qs : media_type ty → tag_ok ts d →
      plays (media_message ty ts sid d) ps → played sid ms qs →
      played sid (media_message ty ts sid d :: ms) (ps ++ qs).

Lemma played_app sid ms ps ms' ps' : played sid ms ps → played sid ms' ps' →
  played sid (ms ++ ms') (ps ++ ps').
Proof. induction 1; intros H'; [done|]. cbn [app]. rewrite <- app_assoc. by constructor; auto. Qed.

Lemma played_one sid ty ts d ps : media_type ty → tag_ok ts d →
  plays (media_message ty ts sid d) ps → played sid [media_message ty ts sid d] ps.
Proof. intros. rewrite <- (app_nil_r ps). apply played_cons; [assumption..|apply played_nil]. Qed.

Lemma item_played sid vf af it : item_ok it →
  let '(_, _, ms, ps) := item_step sid vf af it in played sid ms ps.
Proof.
  intros Hok. destruct it as [h code x rest ts|ah data ts]; cbn [item_step].
  - unfold video_step. pose proof (played_one sid TAG_VIDEO ts _ _ (or_intror eq_refl)
      (picture_tag_ok _ _ _ _ _ Hok) (plays_picture sid ts h code x rest Hok)) as Hm.
    destruct Hok as (_ & _ & [Hs _] & Hb & _ & Ht). destruct vf; [|exact Hm].
    destruct (find_sets_spec (x :: rest)) as (s & p & -> & Hs1 & Hp1).
    { eapply Forall_impl; [apply Hs|]. by intros u [? _]. }
    destruct s as [sps|], p as [pps|]; try apply played_nil.
    destruct (Hs1 sps eq_refl) as [Hi1 Ht1], (Hp1 pps eq_refl) as [Hi2 Ht2].
    destruct (set_ok 7 sps _ (or_introl eq_refl) Hb Hi1 Ht1) as (Hn1 & Hc1 & Hb1 & Hl1).
    destruct (set_ok 8 pps _ (or_intror eq_refl) Hb Hi2 Ht2) as (Hn2 & Hc2 & Hb2 & Hl2).
    constructor; [by right|by apply sequence_tag_ok|by apply plays_sequence|exact Hm].
  - unfold audio_step. pose proof (frame_tag_ok _ _ _ Hok) as Hf. destruct Hok as (Ha & _ & _ & _ & Ht).
    pose proof (played_one sid TAG_AUDIO ts _ _ (or_introl eq_refl) Hf (plays_frame sid ts ah data Ha)) as Hm.
    destruct af; [|exact Hm].
    change [?p; ?q] with ([p] ++ [q]). constructor;
      [by left|by apply config_tag_ok|by apply plays_config|exact Hm].
Qed.

Lemma session_played sid its : Forall item_ok its → ∀ vf af,
  played sid (session_of sid vf af its).1 (session_of sid vf af its).2.
Proof.
  induction 1 as [|it its Hit _ IH]; intros vf af; [by apply played_nil|]. cbn [session_of].
  pose proof (item_played sid vf af it Hit) as H. destruct (item_step sid vf af it) as [[[vf1 af1] ms] ps].
  specialize (IH vf1 af1). destruct (session_of sid vf1 af1 its) as [ms' ps']. by apply played_app.
Qed.

(** A player on a connection that has [ms] to read and then ends. *)
Record player (a : AConn) (ms : list (ChunkStream bytes)) (rc : RtmpClient) : Prop := {
  pl_state : ∃ cc c, rc_conn rc = Some cc ∧ cc_conn cc = Some c ∧ ready a (wire_of (a_size a) ms) c;
  pl_callback : onPacketReceive rc = true;
}.

Lemma play_loop_ok sid ms ps : fits 32 sid → played sid ms ps → ∀ a fuel rc, player a ms rc →
  (length ms < fuel)%nat → ∃ cc c,
  play_loop fuel rc = (Ok tt, got ps (set_rc_conn (Some (set_cc_conn (Some c) cc)) rc)).
Proof.
  intros Hsid. induction 1 as [|ty ts d ms ps qs Hty Ht Hplays Hms IH];
    intros a fuel rc [(cc & c & Hcc & Hc & Hr) Hcb] Hf; (destruct fuel as [|fuel]; [simpl in Hf; lia|]).
  - destruct (Read_at_end c) as (e & c' & E); [apply Hr|]. exists cc, c'. cbn [play_loop].
    rewrite go_bind_ok with (a := inr e) (s' := set_rc_conn (Some (set_cc_conn (Some c') cc)) rc).
    { cbn. unfold got. rewrite app_nil_r. by destruct rc. }
    unfold try, on_client. rewrite Hcc. unfold cc_Read, on_cc. rewrite Hc.
    unfold mbind, go_bind. by rewrite E.
  - destruct (read_media a c ty ts sid d ms Hty Ht Hsid Hr) as (r & c' & E & Hat & Hr').
    set (rc1 := set_rc_conn (Some (set_cc_conn (Some c') cc)) rc).
    assert (Hcb1 : onPacketReceive rc1 = true) by done. cbn [play_loop].
    rewrite go_bind_ok with (a := inl (delivered (media_message ty ts sid d))) (s' := rc1); last first.
    { unfold try, on_client. rewrite Hcc. unfold cc_Read, on_cc. rewrite Hc.
      rewrite (go_bind_ok _ _ _ _ _ E). unfold gets. by rewrite Hat. }
    rewrite (go_bind_ok _ _ _ _ _ (Hplays rc1 Hcb1)).
    destruct (IH a fuel (got ps rc1)) as (cc' & c2 & E2).
    { constructor; [|done]. exists (set_cc_conn (Some c') cc), c'. by split_and!. }
    { simpl in Hf. lia. }
    exists cc', c2. rewrite E2. f_equal. unfold got. cbn. by rewrite app_assoc.
Qed.

Lemma wire_of_length ms : ∀ k, (length ms ≤ length (wire_of k ms))%nat.
Proof.
  induction ms as [|m ms IH]; intros k; [done|]. cbn [wire_of]. rewrite length_app.
  specialize (IH (next_size k m)). unfold message_wire, chunk_header, basic_header.
  rewrite !length_app. simpl length. repeat case_match; simpl; lia.
Qed.

(** When the loop ends the connection is closed, and the callback called. *)
Lemma streamPlayProc_ends rc rc1 cc c ps : (let fuel := match rc_conn rc with Some cc => input_left cc | None => 1%nat end in
    play_loop fuel rc = (Ok tt, got ps (set_rc_conn (Some (set_cc_conn (Some c) cc)) rc1))) →
  ∃ rc', streamPlayProc rc = (Ok tt, rc') ∧ rc_packets rc' = rc_packets rc1 ++ ps ∧
    rc_closed rc' = if onClosed rc1 then S (rc_closed rc1) else rc_closed rc1.
Proof.
  intros E. unfold streamPlayProc. cbv zeta in E. rewrite E. unfold rc_Close.
  rewrite go_bind_ok with (a := tt) (s' := got ps (set_rc_conn (Some (set_cc_conn (Some c) cc)) rc1)) by done.
  eexists. split; [reflexivity|]. unfold modify. destruct (onClosed rc1) eqn:Ho; simpl; rewrite Ho; done.
Qed.

Lemma player_plays sid ms ps a rc : fits 32 sid → played sid ms ps → player a ms rc →
  ∃ rc', streamPlayProc rc = (Ok tt, rc') ∧ rc_packets rc' = rc_packets rc ++ ps ∧
    rc_closed rc' = if onClosed rc then S (rc_closed rc) else rc_closed rc.
Proof.
  intros Hsid Hms Hp. pose proof Hp as [(cc & c & Hcc & Hc & Hr) Hcb].
  destruct (play_loop_ok sid ms ps Hsid Hms a (S (length (wire_of (a_size a) ms))) rc Hp) as (cc' & c' & E).
  { pose proof (wire_of_length ms (a_size a)). lia. }
  apply streamPlayProc_ends with cc' c'. cbv zeta. rewrite Hcc. unfold input_left. by rewrite Hc, (rd_in _ _ _ Hr).
Qed.

(** A command between the media is decoded and forgotten. *)
Lemma play_command fuel a rc cc c csid sid vals rest : rc_conn rc = Some cc → cc_conn cc = Some c →
  ready a (wire_of (a_size a) [command csid sid vals] ++ rest) c →
  command_ok vals → 2 ≤ csid < 65600 → fits 32 sid →
  ∃ cc' c', play_loop (S fuel) rc = play_loop fuel (set_rc_conn (Some cc') rc) ∧ cc_conn cc' = Some c' ∧
    ready a rest c'.
Proof.
  intros Hcc Hc Hr Hok Hcs Hsid.
  destruct (read_one a c (command csid sid vals) rest) as (r & c' & E & Hat & Hr');
    [by apply command_sendable|done|exact Hr|]. rewrite delivered_command in Hat.
  destruct (batch_decodes no_handlers vals (cc_decoder cc) (co_values _ Hok)) as (d & Hd).
  set (cc1 := set_cc_conn (Some c') cc).
  exists (set_cc_decoder d cc1), c'. split; [|done]. cbn [play_loop].
  rewrite go_bind_ok with (a := inl (command csid sid vals)) (s' := set_rc_conn (Some cc1) rc).
  2: { unfold try, on_client. rewrite Hcc. unfold cc_Read, on_cc. rewrite Hc.
    rewrite (go_bind_ok _ _ _ _ _ E). unfold gets. by rewrite Hat. }
  cbv beta iota. rewrite go_bind_ok with (a := tt) (s' := set_rc_conn (Some (set_cc_decoder d cc1)) rc); [done|].
  change (play_message (command csid sid vals))
    with (ignore_err tt (decode_values AMF0 (command_data vals) "Decode amf failed, %v")).
  unfold ignore_err, decode_values.
  rewrite go_bind_ok with (a := (amf0_norm <$> vals, EOF)) (s' := set_rc_conn (Some (set_cc_decoder d cc1)) rc); [done|].
  unfold on_client. cbn [rc_conn set_rc_conn]. unfold cc_DecodeBatch, command_data.
  change (cc_decoder cc1) with (cc_decoder cc). by rewrite Hd.
Qed.


Definition sample_items : list item :=
  [Frame (mkAHeader SOUND_AAC 3 1 1 0) [7; 8] 5;
   Picture (mkVHeader 0 AVC_NALU VIDEO_H264 0) true [0x67; 1; 2; 3] [[0x68; 4]; [0x65; 7; 0; 9]] 9].

Lemma sample_items_ok : Forall item_ok sample_items.
Proof.
  assert (Hs : splittable [[0x67; 1; 2; 3]; [0x68; 4]; [0x65; 7; 0; 9]]).
  { split; [|by eexists]. repeat (apply Forall_cons; split; [split; [done|by simpl; split_and!]|]).
    by apply Forall_nil. }
  repeat (apply Forall_cons; split); [| |by apply Forall_nil].
  - split; [constructor; simpl; done || lia|].
    split_and!; try done. by repeat constructor.
  - split; [done|]. split; [|split; [exact Hs|]].
    + constructor; try done. by repeat (apply Forall_cons; split; [split|]).
    + split; [|done]. repeat (apply Forall_cons; split); try done; (split; [by repeat constructor|done]).
Qed.

Definition sample_client (input : bytes) : RtmpClient :=
  mkRtmpClient (Some (mkClient 3 [] [] [] [] [] [] 1 (Some (NewRtmpConn (sample_rw input))) NewDecoder))
    true true true true true [] 0.


(** A picture of four units, as encoders send them with supplemental information: the third
    and the fourth arrive as one unit with a start code in the middle. *)
Example fourth_unit_not_split :
  PackVideoData (mkVHeader 0 AVC_NALU VIDEO_H264 0)
    ([0x67; 1; 2] ++ annexb [[0x68; 4]; [6; 5]; [0x65; 7; 0; 9]]) 0
  = Ok ([0x17; 1; 0; 0; 0] ++ avcc [[0x67; 1; 2]; [0x68; 4]; [6; 5; 0; 0; 0; 1; 0x65; 7; 0; 9]]).
Proof. vm_compute. reflexivity. Qed.

(** A client that could not connect cannot be closed. *)
Example close_unconnected_panics :
  let c := (open_conn id (λ _, Err (Errorf "no")) (λ _, Ok []) (λ _, 0) (λ _ _, Err EOF) [] PUBLISH NewRtmpClient).2 in
  (rc_Close c).1 = Panic NilDereference.
Proof. reflexivity. Qed.
