(* ===== verification/ClientSafe.v ===== *)
(** * The client on any input

    Whatever arrives on the connections a client dials, opening them ends, and so does the
    goroutine that plays: with the callback called once, or with one of two kinds of panic. *)
From S2P Require Import Prelude Pio GoIO ReadWriter Av Chunk Conn ConnSafe Safe Exchange Handshake H264 Media Flv.
From S2P Require Import Messages Amf Amf3 Amf0 Forward Commands ConnClient Dialogue Client.

(** ** The states of a client *)

(** Names the URL has given, short enough for a command. *)
Definition names_ok (cc : ConnClient) : Prop :=
  (Forall is_byte (cc_app cc) ∧ Forall is_byte (cc_title cc) ∧ Forall is_byte (cc_tcurl cc)) ∧
  len (cc_app cc) + len (cc_title cc) + len (cc_tcurl cc) < 2 ^ 19.

Definition client_good (cc : ConnClient) : Prop :=
  names_ok cc ∧ ∃ c, cc_conn cc = Some c ∧ conn_wf c.

Definition client_onward (cc cc' : ConnClient) : Prop :=
  client_good cc' ∧ (input_left cc' ≤ input_left cc)%nat.

#[export] Program Instance client_safety : Safety ConnClient := {
  good := client_good; onward := client_onward; may_panic := short_or_cut;
}.
Next Obligation. by intros cc Hcc. Qed.
Next Obligation. intros a b c [_ H1] [Hc H2]. split; [done|lia]. Qed.
Next Obligation. by intros cc cc' []. Qed.

(** The parts of a client that nothing after the connection is made changes. *)
Definition same_place (cc cc' : ConnClient) : Prop :=
  cc_conn cc' = cc_conn cc ∧ cc_app cc' = cc_app cc ∧ cc_title cc' = cc_title cc ∧ cc_tcurl cc' = cc_tcurl cc.

Lemma same_place_onward cc cc' : client_good cc → same_place cc cc' → client_onward cc cc'.
Proof.
  intros [Hn Hc] (E1 & E2 & E3 & E4). unfold client_onward, client_good, names_ok, input_left.
  by rewrite E1, E2, E3, E4.
Qed.

Lemma safe_place f : (∀ cc, same_place cc (f cc)) → safe (S := ConnClient) (modify f).
Proof. intros Hf. apply safe_modify. intros cc Hcc. by apply same_place_onward. Qed.

Lemma on_cc_outcome {A} C (E : RtmpConn → Prop) (Q : A → RtmpConn → Prop) (m : go RtmpConn A) cc c :
  cc_conn cc = Some c → outcome C E Q m c →
  outcome C (λ cc', ∃ c', E c' ∧ cc' = set_cc_conn (Some c') cc)
    (λ a cc', ∃ c', Q a c' ∧ cc' = set_cc_conn (Some c') cc) (on_cc m) cc.
Proof. intros Hc H. unfold outcome, on_cc in *. rewrite Hc. destruct (m c) as [[]]; eauto. Qed.

Lemma set_conn_onward cc c c' : client_good cc → cc_conn cc = Some c → wf_frame c c' →
  client_onward cc (set_cc_conn (Some c') cc).
Proof.
  intros [Hn _] Hc [Hw Hl]. split; [split; [exact Hn|by exists c']|].
  unfold input_left. rewrite Hc. cbn. lia.
Qed.

Lemma safe_on_cc {A} (m : go RtmpConn A) : safe m → safe (on_cc m).
Proof.
  intros Hm cc Hcc. pose proof Hcc as [_ (c & Hc & Hw)].
  eapply runs_mono; [exact (on_cc_outcome _ _ _ m cc c Hc (Hm c Hw))|..].
  - intros cc' (c' & Hf & ->). by apply set_conn_onward with c.
  - intros a cc' (c' & Hf & ->). by apply set_conn_onward with c.
Qed.

#[local] Hint Resolve safe_flush safe_on_cc : safe.
#[local] Hint Extern 1 (safe (modify _)) => apply safe_place; by intros [] : safe.

Lemma cc_Read_safe cc : good cc →
  outcome may_panic (onward cc) (λ m cc', onward cc cc' ∧ Forall is_byte (Data m) ∧
    (input_left cc' < input_left cc)%nat) cc_Read cc.
Proof.
  intros Hcc. pose proof Hcc as [_ (c & Hc & Hw)]. change cc_Read with (on_cc read_message).
  eapply runs_mono; [exact (on_cc_outcome _ _ _ _ cc c Hc (read_message_safe c Hw))|..].
  - intros cc' (c' & Hf & ->). by apply set_conn_onward with c.
  - intros m cc' (c' & (Hf & Hb & Hl) & ->). split; [by apply set_conn_onward with c|]. split; [done|].
    unfold input_left. rewrite Hc. cbn. lia.
Qed.

Lemma cc_DecodeBatch_safe ver data : safe (cc_DecodeBatch ver data).
Proof.
  intros cc Hcc. unfold outcome, cc_DecodeBatch.
  pose proof (decode_batch_ends no_handlers ltac:(done) ver (S (length data)) (cc_decoder cc, data)
    (Nat.lt_succ_diag_r _)) as H. unfold outcome in H.
  change (decode_batch_loop no_handlers (S (length data)) ver (cc_decoder cc, data))
    with (DecodeBatch no_handlers ver (cc_decoder cc, data)) in H.
  destruct (DecodeBatch no_handlers ver (cc_decoder cc, data)) as [[r|e|p|] [d rest]]; try done.
  subst p. by right.
Qed.
#[local] Hint Resolve cc_DecodeBatch_safe : safe.

(** ** Answers *)

Lemma stream_id_place vs : ∀ k cc, same_place cc (stream_id k vs cc).
Proof.
  induction vs as [|v vs IH]; intros k cc; [done|]. cbn [stream_id].
  destruct (IH (k + 1) match v with VFloat f => if k =? 3 then set_streamid (u32 (int_of_float64 f)) cc else cc
    | _ => cc end) as (E1 & E2 & E3 & E4).
  unfold same_place. rewrite E1, E2, E3, E4. by destruct v; try done; destruct (k =? 3).
Qed.

Lemma check_answer_safe command vs : safe (check_answer command vs).
Proof.
  apply safe_bind; [apply safe_get|]. intros cc. repeat apply safe_decide; auto with safe.
  apply safe_bind; [|auto with safe]. apply safe_place. intros cc'. apply stream_id_place.
Qed.

Lemma cc_decode_command_safe cs : safe (cc_decode_command cs).
Proof. apply safe_bind; [apply cc_DecodeBatch_safe|]. intros [vs e]. auto with safe. Qed.
#[local] Hint Resolve check_answer_safe cc_decode_command_safe : safe.

Lemma wait_message_safe command cs : safe (wait_message command cs).
Proof. unfold wait_message. cbv zeta. auto 12 with safe. Qed.

Lemma wait_loop_safe command fuel : ∀ cc, good cc → (input_left cc ≤ fuel)%nat →
  outcome may_panic (onward cc) (λ _, onward cc) (wait_loop fuel command) cc.
Proof.
  induction fuel as [|fuel IH]; intros cc Hcc Hf.
  { unfold input_left in Hf. destruct (cc_conn cc); lia. }
  cbn [wait_loop]. eapply runs_bind; [apply runs_on_err, runs_mono with (1 := cc_Read_safe cc Hcc)|].
  { done. } { intros m cc' H. exact H. }
  intros m cc1 (Ho1 & _ & Hl1). pose proof (onward_good _ _ Ho1) as Hg1. eapply runs_bind.
  { eapply runs_mono; [by apply wait_message_safe|intros cc2; by apply onward_trans|].
    intros b cc2 H. exact H. }
  intros finished cc2 Ho2. pose proof (onward_trans _ _ _ Ho1 Ho2) as Ho.
  destruct finished; [exact Ho|]. apply outcome_onward; [exact Ho|].
  apply IH; [by apply (onward_good cc)|]. destruct Ho2. lia.
Qed.

Lemma waitForResponse_safe command : safe (waitForResponse command).
Proof. intros cc Hcc. by apply wait_loop_safe. Qed.

(** ** Commands *)

Lemma cc_writeMsg_safe vals : command_ok vals → safe (cc_writeMsg vals).
Proof.
  intros Hok. unfold cc_writeMsg. rewrite encode_args_ok by apply Hok.
  apply safe_bind_res; [exact I|]. intros msg [= <-].
  apply safe_bind; [apply safe_gets|]. intros sid. apply safe_bind; [|auto with safe].
  apply safe_on_cc, safe_ignore, safe_bind; [|auto with safe]. by apply safe_write, command_op_ok.
Qed.

Lemma number_size wide n : len (amf0_bytes (VInt wide n)) = 9.
Proof. change (len (number_bytes (float64_of_int n)) = 9). unfold number_bytes. unfold len. by rewrite length_app, length_be_split. Qed.

(** The number of a command takes nine bytes, whatever it is. *)
Lemma command_ok_number c n m vals :
  command_ok (VString c :: VInt false n :: vals) → command_ok (VString c :: VInt false m :: vals).
Proof.
  intros [_ Hv Hb Hs]. apply Forall_cons in Hv as [Hc Hv]. apply Forall_cons in Hv as [_ Hv].
  apply Forall_cons in Hb as [Hc' Hb]. apply Forall_cons in Hb as [_ Hb].
  constructor; [done|..].
  - repeat (apply Forall_cons; split; [done || constructor|]); done.
  - repeat (apply Forall_cons; split; [done || constructor|]); done.
  - revert Hs. unfold command_data. cbn [fmap list_fmap]. rewrite !mjoin_cons, !len_app.
    by rewrite !number_size.
Qed.

Section commands.
Variable iter : object → object.
Hypothesis iter_perm : ∀ o, iter o ≡ₚ o.

Lemma writeConnectMsg_safe : safe (writeConnectMsg iter).
Proof.
  apply safe_bind_get. intros cc [[(Ha & Ht & Hu) Hs] _]. apply safe_bind; [auto with safe|]. intros _.
  apply cc_writeMsg_safe, (command_ok_number _ 1).
  by apply (connect_args_ok iter iter_perm (cc_app cc) (cc_title cc) (cc_tcurl cc)).
Qed.

Lemma next_command_safe {A} name (k : ConnClient → go ConnClient A) :
  (∀ cc, good cc → safe (k cc)) → safe (next_command name ≫= k).
Proof.
  intros Hk cc Hcc.
  assert (Ho : onward cc (set_curcmd name (set_transID (i64 (cc_transID cc + 1)) cc)))
    by (by apply same_place_onward).
  exact (safe_later _ _ _ Ho (Hk _ (onward_good _ _ Ho))).
Qed.

Lemma writeCreateStreamMsg_safe : safe writeCreateStreamMsg.
Proof.
  apply next_command_safe. intros cc Hcc. apply cc_writeMsg_safe, (command_ok_number _ 2).
  by apply create_args_ok.
Qed.

Lemma writePublishMsg_safe : safe writePublishMsg.
Proof.
  apply next_command_safe. intros cc [[(Ha & Ht & Hu) Hs] _]. apply cc_writeMsg_safe, (command_ok_number _ 3).
  by apply (publish_args_ok (cc_app cc) (cc_title cc) (cc_tcurl cc)).
Qed.

Lemma writePlayMsg_safe : safe writePlayMsg.
Proof.
  apply next_command_safe. intros cc [[(Ha & Ht & Hu) Hs] _]. apply cc_writeMsg_safe.
  by apply (play_args_ok (cc_app cc) (cc_title cc) (cc_tcurl cc)).
Qed.

#[local] Hint Resolve writeConnectMsg_safe writeCreateStreamMsg_safe writePublishMsg_safe writePlayMsg_safe
  waitForResponse_safe : safe.

Lemma send_command_safe command : safe (send_command iter command).
Proof. unfold send_command. auto 10 with safe. Qed.

Lemma following_command_ok method command : no_panic (following_command method command).
Proof. unfold following_command. by repeat case_decide. Qed.

(** Three commands are enough: after publish or play nothing follows. *)
Definition commands_left (command : bytes) : nat :=
  if decide (command = cmdConnect) then 3 else if decide (command = cmdCreateStream) then 2 else 1.

Lemma following_shorter method command next : following_command method command = Ok (Some next) →
  (commands_left next < commands_left command)%nat.
Proof.
  unfold following_command, commands_left. case_decide as H1; [by intros [= <-]; apply Nat.ltb_lt|].
  case_decide as H2; [|done]. repeat case_decide; intros [= <-]; by apply Nat.ltb_lt.
Qed.

Lemma start_loop_safe method fuel : ∀ command, (commands_left command ≤ fuel)%nat →
  safe (start_loop iter fuel method command).
Proof.
  induction fuel as [|fuel IH]; intros command Hf.
  { exfalso. unfold commands_left in Hf. repeat case_decide; lia. }
  cbn [start_loop]. apply safe_bind; [apply send_command_safe|]. intros _.
  apply safe_bind; [auto with safe|]. intros _.
  apply safe_bind_res; [apply no_panic_safe, following_command_ok|].
  intros [next|] E; [|auto with safe]. apply IH. pose proof (following_shorter _ _ _ E). lia.
Qed.
End commands.

(** ** Connecting *)

Lemma cut_first_parts sep s x y : cut_first sep s = Some (x, y) → s = x ++ sep :: y.
Proof.
  revert x y. induction s as [|b s IH]; intros x y; [done|]. cbn [cut_first].
  destruct (b =? sep) eqn:E; [go_bool; by intros [= <- <-]; subst|].
  destruct (cut_first sep s) as [[x' y']|]; [|done]. intros [= <- <-]. by rewrite (IH x' y').
Qed.

Lemma trim_slashes_suffix s : ∃ t, s = t ++ trim_slashes s.
Proof.
  induction s as [|b s [t IH]]; [by exists []|]. destruct (decide (b = 47)) as [->|Hb].
  - exists (47 :: t). simpl. by f_equal.
  - exists []. simpl. by repeat case_match.
Qed.

Lemma SplitHostPort_no_panic hostport : no_panic (SplitHostPort hostport).
Proof. unfold SplitHostPort. by repeat case_match. Qed.

Definition url_ok (u : URL) : Prop :=
  (Forall is_byte (u_Host u) ∧ Forall is_byte (u_Path u)) ∧ len (u_Host u) + len (u_Path u) < 2 ^ 16.

(** A result that satisfies [Q], or an error. *)
Definition gives {A} (Q : A → Prop) (r : res A) : Prop :=
  match r with Ok a => Q a | Err _ => True | _ => False end.

(** The parser of URLs, the name service and the network give results or errors: host and
    path of a URL are bytes, and short, and on a connection bytes arrive. *)
Record world_ok (neturl_Parse : bytes → res URL) (net_LookupIP : bytes → res (list bytes))
    (net_Dial : bytes → bytes → res ReadWriter) : Prop := {
  wo_parse url : gives url_ok (neturl_Parse url);
  wo_lookup host : no_panic (net_LookupIP host);
  wo_dial from to : gives (λ rw, Forall is_byte (rw_in rw)) (net_Dial from to);
}.

Section connecting.
Variable iter : object → object.
Hypothesis iter_perm : ∀ o, iter o ≡ₚ o.
Variable neturl_Parse : bytes → res URL.
Variable net_LookupIP : bytes → res (list bytes).
Variable rand_Intn : Z → Z.
Variable net_Dial : bytes → bytes → res ReadWriter.

Hypothesis outside : world_ok neturl_Parse net_LookupIP net_Dial.

Lemma names_of_path u app title cc : url_ok u →
  cut_first 47 (trim_slashes (u_Path u)) = Some (app, title) →
  names_ok (set_names app title (u_RawQuery u) (str "rtmp://" ++ u_Host u ++ str "/" ++ app) cc).
Proof.
  intros [[Hh Hp] Hl] E. apply cut_first_parts in E. destruct (trim_slashes_suffix (u_Path u)) as [t Ht].
  rewrite E in Ht. rewrite Ht in Hp, Hl. apply Forall_app in Hp as [_ Hp].
  apply Forall_app in Hp as [Ha Hp]. apply Forall_cons in Hp as [_ Ht'].
  rewrite !len_app in Hl. change (len (47 :: title)) with (len ([47] ++ title)) in Hl. rewrite len_app in Hl.
  change (len [47]) with 1 in Hl. pose proof (len_nonneg t). pose proof (len_nonneg app).
  pose proof (len_nonneg title). pose proof (len_nonneg (u_Host u)). split; [split; [done|split; [done|]]|].
  - cbn [cc_tcurl set_names]. rewrite !Forall_app. split_and!; [apply str_bytes|done|apply str_bytes|done].
  - cbn [cc_app cc_title cc_tcurl set_names]. rewrite !len_app.
    change (len (str "rtmp://")) with 7. change (len (str "/")) with 1. lia.
Qed.

Lemma parseURL_names url cc :
  outcome short_or_cut (λ _, True) (λ _, names_ok) (parseURL neturl_Parse net_LookupIP rand_Intn url) cc.
Proof.
  unfold parseURL. pose proof (wo_parse _ _ _ outside url) as Hp.
  destruct (neturl_Parse url) as [u|e|p|]; try done.
  apply runs_bind with (λ x s, x = u ∧ s = cc); [done|].
  intros u' cc' [-> ->]. apply runs_bind_modify. cbv zeta.
  destruct (cut_first 47 (trim_slashes (u_Path u))) as [[app title]|] eqn:E; [|done].
  apply runs_bind_modify.
  set (cc1 := set_names _ _ _ _ _). assert (Hn : names_ok cc1) by (by apply names_of_path).
  clearbody cc1.
  apply runs_bind with (λ _ cc2, cc2 = cc1).
  { destruct (contains _ _); [|done]. pose proof (SplitHostPort_no_panic (u_Host u)).
    by destruct (SplitHostPort (u_Host u)) as [[host port]|e|p|]. }
  intros [host port] cc2 ->. pose proof (wo_lookup _ _ _ outside host) as Hl.
  destruct (net_LookupIP host) as [ips|e|p|]; try done.
  apply runs_bind with (λ x s, x = ips ∧ s = cc1); [done|].
  intros ips' cc3 [-> ->]. destruct (ips !! _); [exact Hn|by right].
Qed.

Lemma HandshakeClient_wf rw : Forall is_byte (rw_in rw) →
  runs (λ _, True) (λ _, conn_wf) HandshakeClient (NewRtmpConn rw).
Proof.
  intros Hb. eapply runs_mono; [by apply HandshakeClient_runs|done|].
  intros u c' [_ (rw' & -> & Hb')]. by split; [apply (NewRtmpConn_inv rw')|].
Qed.

Lemma connectServer_good url cc :
  outcome short_or_cut (λ _, True) (λ _, good) (connectServer neturl_Parse net_LookupIP rand_Intn net_Dial url) cc.
Proof.
  unfold connectServer. eapply runs_bind; [apply runs_on_err, parseURL_names|]. intros [from to] cc1 Hn.
  pose proof (wo_dial _ _ _ outside from to) as Hd. destruct (net_Dial from to) as [rw|e|p|]; try done.
  apply runs_bind with (λ x s, x = rw ∧ s = cc1); [done|].
  intros rw' cc2 [-> ->]. pose proof (HandshakeClient_wf rw Hd) as Hw. unfold outcome in Hw.
  destruct (HandshakeClient (NewRtmpConn rw)) as [[u|e|p|] c]; try done.
  apply runs_bind with (λ _ cc2, cc2 = cc1); [done|]. intros v cc2 ->. split; [exact Hn|by exists c].
Qed.

(** *** Opening *)

Lemma Start_good url method cc :
  outcome short_or_cut (λ _, True) (λ _, good) (Start iter neturl_Parse net_LookupIP rand_Intn net_Dial url method) cc.
Proof.
  unfold Start. eapply runs_bind; [apply runs_on_err, connectServer_good|]. intros u cc1 Hg.
  eapply runs_mono; [apply (start_loop_safe iter iter_perm method 3 cmdConnect (Nat.le_refl _) cc1 Hg)|done|].
  intros v cc2. apply onward_good.
Qed.
End connecting.

(** ** Playing *)

Definition is_media (p : Packet) : Prop := PacketType p = PacketTypeAudio ∨ PacketType p = PacketTypeVideo.

Definition player_good (rc : RtmpClient) : Prop :=
  onPacketReceive rc = true ∧ ∃ cc, rc_conn rc = Some cc ∧ client_good cc.

Definition player_left (rc : RtmpClient) : nat :=
  match rc_conn rc with Some cc => input_left cc | None => 1%nat end.

(** The callback is given pictures and sound, one after the other, and nothing is closed. *)
Record player_onward (rc rc' : RtmpClient) : Prop := {
  po_good : player_good rc';
  po_left : (player_left rc' ≤ player_left rc)%nat;
  po_closed : onClosed rc' = onClosed rc ∧ rc_closed rc' = rc_closed rc;
  po_packets : ∃ ps, rc_packets rc' = rc_packets rc ++ ps ∧ Forall is_media ps;
}.

#[export] Program Instance player_safety : Safety RtmpClient := {
  good := player_good; onward := player_onward; may_panic := short_or_cut;
}.
Next Obligation. intros rc Hg. constructor; [done..|]. exists []. by rewrite app_nil_r. Qed.
Next Obligation.
  intros a b c [_ Hl1 [Ho1 Hc1] (ps1 & E1 & H1)] [Hg Hl2 [Ho2 Hc2] (ps2 & E2 & H2)].
  constructor; [done|lia|split; congruence|]. exists (ps1 ++ ps2). rewrite E2, E1, app_assoc. split; [done|].
  by apply Forall_app.
Qed.
Next Obligation. by intros rc rc' []. Qed.

Lemma set_conn_player rc cc cc' : player_good rc → rc_conn rc = Some cc → client_onward cc cc' →
  player_onward rc (set_rc_conn (Some cc') rc).
Proof.
  intros [Hr _] Hc [Hg Hl]. constructor; [split; [exact Hr|by exists cc']| |done|].
  - unfold player_left. rewrite Hc. exact Hl.
  - exists []. by rewrite app_nil_r.
Qed.

Lemma on_client_outcome {A} C (E : ConnClient → Prop) (Q : A → ConnClient → Prop) (m : go ConnClient A) rc cc :
  rc_conn rc = Some cc → outcome C E Q m cc →
  outcome C (λ rc', ∃ cc', E cc' ∧ rc' = set_rc_conn (Some cc') rc)
    (λ a rc', ∃ cc', Q a cc' ∧ rc' = set_rc_conn (Some cc') rc) (on_client m) rc.
Proof. intros Hc H. unfold outcome, on_client in *. rewrite Hc. destruct (m cc) as [[]]; eauto. Qed.

Lemma safe_on_client {A} (m : go ConnClient A) : safe m → safe (on_client m).
Proof.
  intros Hm rc Hrc. pose proof Hrc as [_ (cc & Hc & Hg)].
  eapply runs_mono; [exact (on_client_outcome _ _ _ m rc cc Hc (Hm cc Hg))|..].
  - intros rc' (cc' & Hf & ->). by apply set_conn_player with cc.
  - intros a rc' (cc' & Hf & ->). by apply set_conn_player with cc.
Qed.

Lemma receive_safe p : is_media p → safe (receive_packet p).
Proof.
  intros Hp rc [Hr Hc]. unfold outcome, receive_packet. rewrite Hr. constructor; [done..|].
  exists [p]. by split; [|apply Forall_singleton].
Qed.

Lemma receive_first_safe sets p : is_media p → safe (receive_first sets p).
Proof. intros Hp. destruct sets; [apply safe_ret|]. by apply receive_safe. Qed.

(** *** Pictures *)

(** Every unit takes its length of four bytes at least. *)
Lemma nalu_packets_safe data p : Forall is_byte data → is_media p → ∀ fuel i,
  0 ≤ i ≤ len data → len data - i < Z.of_nat fuel → safe (nalu_packets fuel data p i).
Proof.
  intros Hb Hp. induction fuel as [|fuel IH]; intros i Hi Hf; [lia|]. cbn [nalu_packets].
  unfold slice_from at 1. destruct (slice_sub data i (len data)) as (tail & -> & Hl & Hbt); [lia|lia|done|].
  apply safe_bind_res; [exact I|]. intros tail' [= <-]. destruct (len tail <? 4) eqn:E4; [auto with safe|].
  go_bool.
  assert (Hn : fits 32 (be_combine (take 4 tail))) by (apply be_combine_32; [done|lia]).
  unfold BigEndian_Uint32. rewrite (proj2 (Z.leb_le _ _)) by lia.
  apply safe_bind_res; [exact I|]. intros n [= <-]. set (n := be_combine _) in *. unfold fits in Hn.
  destruct (u32 (len tail - 4) <? n) eqn:En; [auto with safe|].
  assert (Hle : u32 (len tail - 4) ≤ len tail - 4) by (apply Z.mod_le; lia). go_bool.
  destruct (slice_sub data (i + 4) (i + 4 + n)) as (d & -> & _); [lia|lia|done|].
  apply safe_bind_res; [exact I|]. intros d' [= <-].
  apply safe_bind; [by apply receive_safe|]. intros _. apply IH; lia.
Qed.

(** *** Messages *)

(** A reader of bytes gives a result or an error. *)
Definition ends {A} (m : go bytes A) : Prop := ∀ s, runs (λ _, True) (λ _ _, True) m s.

Lemma ends_ret {A} (a : A) : ends (mret a).
Proof. by intros s. Qed.

Lemma ends_fail {A} e : ends (fail (A := A) e).
Proof. by intros s. Qed.

Lemma ends_modify f : ends (modify f).
Proof. by intros s. Qed.

Lemma ends_bind {A B} (m : go bytes A) (k : A → go bytes B) : ends m → (∀ a, ends (k a)) → ends (m ≫= k).
Proof. intros Hm Hk s. eapply runs_bind; [apply Hm|]. intros a s' _. apply Hk. Qed.

Lemma ends_on_err {A} (m : go bytes A) g : ends m → ends (on_err m g).
Proof. intros Hm s. apply runs_on_err, Hm. Qed.

Lemma ends_if {A} (b : bool) (m1 m2 : go bytes A) : ends m1 → ends m2 → ends (if b then m1 else m2).
Proof. by destruct b. Qed.

Lemma ends_ReadByte : ends Reader_ReadByte.
Proof. by intros []. Qed.

Lemma ends_read_array n msg : ends (read_array n msg).
Proof. apply ends_bind; [|intros p; apply ends_ret]. apply ends_on_err. by intros []. Qed.

#[local] Hint Resolve ends_ret ends_fail ends_modify ends_bind ends_on_err ends_if ends_ReadByte
  ends_read_array : safe.

Lemma ends_read_sets n : ends (read_sets n).
Proof. induction n; cbn [read_sets]; auto 8 with safe. Qed.
#[local] Hint Resolve ends_read_sets : safe.

Lemma ParseAVCSequenceHeader_no_panic data : no_panic (ParseAVCSequenceHeader data).
Proof.
  unfold ParseAVCSequenceHeader.
  match goal with |- no_panic (fst (?m data)) =>
    assert (H : ends m) by auto 20 with safe; specialize (H data); unfold outcome in H; by destruct (m data) as [[]]
  end.
Qed.

(** The header of a packet is there, or a byte of it is missing. *)
Lemma index_at_cases (b : bytes) i : (∃ x, index_at b i = Ok x) ∨ index_at b i = Panic IndexOutOfRange.
Proof. unfold index_at. repeat case_match; eauto. Qed.

Ltac index_at :=
  match goal with |- context [lift (index_at ?b ?i)] =>
    let E := fresh "E" in
    destruct (index_at_cases b i) as [[? E]|E]; rewrite E; [|reflexivity]; apply runs_bind_lift with (1 := eq_refl)
  end.

Lemma ParseAudioHeader_safe b t :
  outcome (eq IndexOutOfRange) (λ _, True) (λ n _, 0 ≤ n) (ParseAudioHeader b) t.
Proof.
  unfold ParseAudioHeader. apply runs_if; intros _; [exact I|]. index_at.
  apply runs_bind_modify. apply runs_if; intros _; [|cbn; lia]. index_at. apply runs_bind_modify. cbn. lia.
Qed.

Lemma ParseVideoHeader_safe b t :
  outcome (eq IndexOutOfRange) (λ _, True) (λ n _, 0 ≤ n) (ParseVideoHeader b) t.
Proof.
  unfold ParseVideoHeader. apply runs_if; intros _; [exact I|]. index_at.
  apply runs_bind_modify. apply runs_if; intros _; [|cbn; lia]. do 4 index_at. apply runs_bind_modify. cbn. lia.
Qed.

Lemma demux_header_safe msg p :
  outcome (eq IndexOutOfRange) (λ _, True)
    (λ n p', 0 ≤ n ∧ pkt_Data p' = pkt_Data p ∧ PacketType p' = PacketType p) (demux_header msg) p.
Proof.
  unfold outcome, demux_header. pose proof (ParseAudioHeader_safe (pkt_Data p) no_tag) as Ha.
  pose proof (ParseVideoHeader_safe (pkt_Data p) no_tag) as Hv. unfold outcome in *.
  destruct (_ =? _); [by destruct (ParseAudioHeader _ _) as [[]]|].
  destruct (_ =? _); [by destruct (ParseVideoHeader _ _) as [[]]|done].
Qed.

Lemma Demux_safe p : Forall is_byte (pkt_Data p) →
  outcome short_or_cut (λ _, True) (λ _ p', Forall is_byte (pkt_Data p') ∧ PacketType p' = PacketType p) Demux p.
Proof.
  intros Hb. unfold Demux. eapply runs_bind.
  { eapply outcome_weaken; [apply demux_header_safe|]. intros q <-. by right. }
  intros n p1 (Hn & Hd & Ht). unfold outcome, get, mbind, go_bind, lift, modify, slice_from, slice. rewrite Hd.
  destruct (_ && _); [|by left]. split; [by apply Forall_take, Forall_drop|exact Ht].
Qed.

Lemma handleVideoAudio_safe cs : Forall is_byte (Data cs) → safe (handleVideoAudio cs).
Proof.
  intros Hb. unfold handleVideoAudio.
  apply safe_bind_res; [apply no_panic_safe; unfold packet_type; by repeat case_match|].
  intros ty _. set (p0 := mkPacket _ _ _ _ _ _). pose proof (Demux_safe p0 Hb) as Hd. unfold outcome in Hd.
  destruct (Demux p0) as [[u|e|x|] p]; cbn [lift]; try done.
  - destruct Hd as [Hp _]. apply safe_bind; [apply safe_on_err, safe_ret|]. intros _.
    destruct (PacketType p =? PacketTypeAudio) eqn:Ea; [go_bool; apply receive_safe; by left|].
    destruct (PacketType p =? PacketTypeVideo) eqn:Ev; [|auto with safe].
    assert (Hm : is_media p) by (go_bool; by right).
    apply safe_if; [|apply nalu_packets_safe; [done|done|pose proof (len_nonneg (pkt_Data p)); lia|unfold len; lia]].
    apply safe_bind; [apply safe_on_err, safe_lift, no_panic_safe, ParseAVCSequenceHeader_no_panic|].
    intros [spss ppss]. apply safe_bind; [by apply receive_first_safe|]. intros _. by apply receive_first_safe.
  - intros rc Hrc. by apply onward_refl.
  - by intros rc Hrc.
Qed.

Lemma decode_values_safe ver data msg : safe (decode_values ver data msg).
Proof.
  apply safe_bind; [apply safe_on_client, cc_DecodeBatch_safe|]. intros [vs e]. auto with safe.
Qed.
#[local] Hint Resolve handleVideoAudio_safe decode_values_safe : safe.

Lemma play_message_ends cs rc : Forall is_byte (Data cs) → good rc →
  outcome may_panic (λ _, False) (λ _, onward rc) (play_message cs) rc.
Proof.
  intros Hb Hrc. apply ignore_ends; [|done]. unfold handleMetadata, handleCommand. auto 12 with safe.
Qed.

Lemma client_Read_safe rc : good rc →
  outcome may_panic (onward rc) (λ m rc', onward rc rc' ∧ Forall is_byte (Data m) ∧
    (player_left rc' < player_left rc)%nat) (on_client cc_Read) rc.
Proof.
  intros Hrc. pose proof Hrc as [_ (cc & Hc & Hg)].
  eapply runs_mono; [exact (on_client_outcome _ _ _ cc_Read rc cc Hc (cc_Read_safe cc Hg))|..].
  - intros rc' (cc' & Hf & ->). by apply set_conn_player with cc.
  - intros m rc' (cc' & (Hf & Hb & Hl) & ->). split; [by apply set_conn_player with cc|]. split; [done|].
    unfold player_left. by rewrite Hc.
Qed.

(** The loop ends when nothing more can be read. *)
Lemma play_loop_safe fuel : ∀ rc, good rc → (player_left rc ≤ fuel)%nat →
  outcome may_panic (λ _, False) (λ _, onward rc) (play_loop fuel) rc.
Proof.
  induction fuel as [|fuel IH]; intros rc Hrc Hf.
  { pose proof Hrc as [_ (cc & Hc & _ & c & Hcc & _)]. unfold player_left, input_left in Hf.
    rewrite Hc, Hcc in Hf. lia. }
  cbn [play_loop]. eapply runs_bind.
  { apply runs_try. exact (client_Read_safe rc Hrc). }
  intros [m|e] rc1; [|exact id]. intros (Ho1 & Hb & Hl1). pose proof (onward_good _ _ Ho1) as Hg1.
  eapply runs_bind; [by apply play_message_ends|]. intros u rc2 Ho2. pose proof (onward_trans _ _ _ Ho1 Ho2) as Ho.
  eapply runs_mono; [apply IH; [by apply (onward_good rc)|]|done|].
  - pose proof (po_left _ _ Ho2). lia.
  - intros v rc3. by apply onward_trans.
Qed.

(** *** The end *)

(** What stays true until the end: there is a connection, and nothing has been closed. *)
Definition still_open (rc0 rc : RtmpClient) : Prop :=
  (∃ cc c, rc_conn rc = Some cc ∧ cc_conn cc = Some c) ∧ onClosed rc = onClosed rc0 ∧ rc_closed rc = rc_closed rc0 ∧
  rc_packets rc0 `prefix_of` rc_packets rc.

Section still.
Variable rc0 : RtmpClient.

Lemma keeps_on_client {A} (m : go ConnClient A) : keeps (λ cc, ∃ c, cc_conn cc = Some c) m →
  keeps (still_open rc0) (on_client m).
Proof.
  intros Hm rc [(cc & c & Hc & Hcc) H]. specialize (Hm cc (ex_intro _ c Hcc)). unfold on_client. rewrite Hc.
  destruct (m cc) as [r cc'], Hm as [c' Hc']. split; [by exists cc', c'|exact H].
Qed.

Lemma keeps_Read : keeps (still_open rc0) (on_client cc_Read).
Proof.
  apply keeps_on_client. intros cc [c Hc]. change cc_Read with (on_cc read_message). unfold on_cc. rewrite Hc.
  destruct (read_message c) as [r c']. by exists c'.
Qed.

Lemma keeps_decode ver data : keeps (still_open rc0) (on_client (cc_DecodeBatch ver data)).
Proof.
  apply keeps_on_client. intros cc [c Hc]. unfold cc_DecodeBatch. destruct (DecodeBatch _ _ _) as [r [d rest]].
  by exists c.
Qed.

Lemma keeps_receive p : keeps (still_open rc0) (receive_packet p).
Proof.
  intros rc H. unfold receive_packet. destruct (onPacketReceive rc); [|exact H]. destruct H as (Hc & Ho & Hn & Hp).
  split_and!; [done..|]. by apply prefix_app_r.
Qed.
#[local] Hint Resolve keeps_Read keeps_decode keeps_receive : safe.

Lemma keeps_first sets p : keeps (still_open rc0) (receive_first sets p).
Proof. destruct sets; cbn [receive_first]; auto with safe. Qed.

Lemma keeps_nalus fuel : ∀ data p i, keeps (still_open rc0) (nalu_packets fuel data p i).
Proof. induction fuel as [|fuel IH]; intros data p i; [by intros rc|]. cbn [nalu_packets]. auto 12 with safe. Qed.

Lemma keeps_values ver data msg : keeps (still_open rc0) (decode_values ver data msg).
Proof. apply keeps_bind; [auto with safe|]. intros [vs e]. auto with safe. Qed.
#[local] Hint Resolve keeps_first keeps_nalus keeps_values : safe.

Lemma keeps_media cs : keeps (still_open rc0) (handleVideoAudio cs).
Proof.
  apply keeps_bind; [auto with safe|]. intros ty. destruct (Demux _) as [r p]. apply keeps_bind; [auto with safe|].
  intros _. repeat apply keeps_if; auto with safe. apply keeps_bind; [auto with safe|]. intros [spss ppss].
  auto with safe.
Qed.
#[local] Hint Resolve keeps_media : safe.

Lemma keeps_message cs : keeps (still_open rc0) (play_message cs).
Proof. unfold play_message, handleMetadata, handleCommand. cbv zeta. auto 12 with safe. Qed.
#[local] Hint Resolve keeps_message : safe.

Lemma keeps_loop fuel : keeps (still_open rc0) (play_loop fuel).
Proof.
  induction fuel as [|fuel IH]; [by intros rc|]. cbn [play_loop]. apply keeps_bind; [auto with safe|].
  intros [m|e]; auto with safe.
Qed.
End still.

(** The connection is closed and the callback, if there is one, called once. *)
Definition closed_once (rc rc' : RtmpClient) : Prop :=
  rc_closed rc' = if onClosed rc then S (rc_closed rc) else rc_closed rc.

Lemma rc_Close_open rc0 rc : still_open rc0 rc →
  ∃ rc', rc_Close rc = (Ok tt, rc') ∧ closed_once rc0 rc' ∧ rc_packets rc' = rc_packets rc.
Proof.
  intros [(cc & c & Hc & Hcc) (Ho & Hn & _)].
  assert (E : on_client (on_cc (mret tt)) rc = (Ok tt, set_rc_conn (Some (set_cc_conn (Some c) cc)) rc))
    by (unfold on_client, on_cc; by rewrite Hc, Hcc).
  unfold rc_Close. rewrite (go_bind_ok _ _ _ _ _ E). unfold modify. eexists. split; [reflexivity|].
  unfold closed_once. cbn. rewrite Ho. destruct (onClosed rc0); cbn; by rewrite Hn.
Qed.

Lemma streamPlayProc_safe rc : player_good rc →
  let '(r, rc') := streamPlayProc rc in
  closed_once rc rc' ∧
  match r with
  | Ok _ => ∃ ps, rc_packets rc' = rc_packets rc ++ ps ∧ Forall is_media ps
  | Panic p => short_or_cut p
  | _ => False
  end.
Proof.
  intros Hrc. pose proof (play_loop_safe (player_left rc) rc Hrc (Nat.le_refl _)) as H.
  assert (Hk : still_open rc (play_loop (player_left rc) rc).2).
  { apply keeps_loop. destruct Hrc as (_ & cc & Hc & _ & c & Hcc & _). split; [by exists cc, c|done]. }
  unfold streamPlayProc. unfold outcome, player_left in H, Hk.
  destruct (play_loop _ rc) as [[u|e|p|] rc1]; try done;
    cbn [snd] in Hk; destruct (rc_Close_open _ _ Hk) as (rc' & -> & Hcl & Hps); (split; [exact Hcl|]); [|exact H].
  rewrite Hps. apply (po_packets _ _ H).
Qed.

(** ** A whole player *)

Section player.
Variable iter : object → object.
Hypothesis iter_perm : ∀ o, iter o ≡ₚ o.
Variable neturl_Parse : bytes → res URL.
Variable net_LookupIP : bytes → res (list bytes).
Variable rand_Intn : Z → Z.
Variable net_Dial : bytes → bytes → res ReadWriter.
Hypothesis outside : world_ok neturl_Parse net_LookupIP net_Dial.

End player.

(** A server that answers, and then sends sound of a single byte. *)
Definition says_and (rest : bytes) : bytes := server_says id false ++ rest.
Definition one_byte_sound : bytes := hdr0 4 0 1 8 ++ [0xaf].

Definition sample_open (input : bytes) : res unit * RtmpClient :=
  OpenPlay id (λ _, Ok (mkURL (str "h") (str "/live/s") [])) (λ _, Ok [str "10.0.0.1"]) (λ _, 0)
    (λ _ _, Ok (sample_rw input)) (str "rtmp://h/live/s") true true NewRtmpClient.


(** ** Inputs that bring the player down *)

(** The connection is made, and the sound ends the program: the second byte of its header is
    read without a check. *)
Example one_byte_sound_panics :
  let '(r, rc) := sample_open (says_and one_byte_sound) in
  r = Ok tt ∧ (streamPlayProc rc).1 = Panic IndexOutOfRange ∧ rc_closed (streamPlayProc rc).2 = 1%nat.
Proof. vm_compute. repeat split. Qed.
