(* ===== verification/PublisherSafe.v ===== *)
(** * The publisher on any packet

    Whatever pictures and sound a caller hands over, and however its connection fails,
    sending ends; the one panic is that of a picture with a start code near its end. *)
From S2P Require Import Prelude Pio GoIO ReadWriter Av Chunk Conn ConnSafe Safe Exchange Handshake H264 Media Flv.
From S2P Require Import Messages Amf Amf3 Amf0 Forward Commands ConnClient Dialogue Client ClientSafe.

(** ** Splitting any picture *)

Definition total_len (l : list bytes) : Z := foldr (λ x t, len x + t) 0 l.

Lemma total_len_app l l' : total_len (l ++ l') = total_len l + total_len l'.
Proof. unfold total_len. induction l as [|x l IH]; [done|]. simpl. lia. Qed.

Lemma total_len_nonneg l : 0 ≤ total_len l.
Proof. unfold total_len. induction l as [|x l IH]; [done|]. simpl. pose proof (len_nonneg x). lia. Qed.

Lemma total_len_in x l : x ∈ l → len x ≤ total_len l.
Proof.
  intros [l1 [l2 ->]]%list_elem_of_split. change (x :: l2) with ([x] ++ l2). rewrite !total_len_app.
  change (total_len [x]) with (len x + 0). pose proof (total_len_nonneg l1). pose proof (total_len_nonneg l2). lia.
Qed.

(** Units that were cut from the first [n] bytes of a picture. *)
Definition pieces (n : Z) (l : list bytes) : Prop :=
  Forall (λ x, x ≠ [] ∧ Forall is_byte x) l ∧ total_len l ≤ n.

Lemma pieces_snoc src l lo hi : Forall is_byte src → pieces lo l → 0 ≤ lo < hi → hi ≤ len src →
  ∃ x, slice src lo hi = Ok x ∧ pieces hi (l ++ [x]).
Proof.
  intros Hb [Hl Ht] H1 H2. destruct (slice_sub src lo hi) as (x & Hx & Hlx & Hbx); [lia|lia|done|].
  exists x. split; [done|]. split.
  - apply Forall_app. split; [done|]. apply Forall_singleton. split; [|done]. intros ->. change (len []) with 0 in Hlx. lia.
  - rewrite total_len_app. change (total_len [x]) with (len x + 0). lia.
Qed.

Lemma pieces_mono n m l : pieces n l → n ≤ m → pieces m l.
Proof. intros [Hl Ht] Hm. split; [done|lia]. Qed.

Lemma slice_cases (b : bytes) lo hi :
  (∃ x, slice b lo hi = Ok x ∧ hi ≤ len b) ∨ slice b lo hi = Panic SliceBounds.
Proof. unfold slice. destruct (_ && _) eqn:E; [left|by right]. go_bool. eauto. Qed.

Lemma slice_split (b c : bytes) lo hi : slice b lo hi = Ok c → 0 ≤ lo ≤ hi ∧ hi ≤ len b ∧
  b = take (Z.to_nat lo) b ++ c ++ drop (Z.to_nat hi) b.
Proof.
  unfold slice. destruct (_ && _) eqn:E; [|done]. intros [= <-]. go_bool. split; [lia|]. split; [lia|].
  replace (Z.to_nat hi) with (Z.to_nat lo + Z.to_nat (hi - lo))%nat by lia. by rewrite <- drop_drop, take_drop, take_drop.
Qed.

(** A start code with less than four bytes behind it. *)
Definition code_at_end (src : bytes) : Prop := ∃ a b, src = a ++ StartCode3 ++ b ∧ len b < 4.

Lemma code_at_end_app a src : code_at_end src → code_at_end (a ++ src).
Proof. intros (x & y & -> & H). exists (a ++ x), y. by rewrite <- app_assoc. Qed.

(** A start code that ends at [i]. *)
Definition code_before (src : bytes) (i : Z) : Prop := ∃ a b, src = a ++ StartCode3 ++ b ∧ len b = len src - i.

Lemma code_before_end src i : code_before src i → len src < i + 4 → code_at_end src.
Proof. intros (a & b & E & H) Hl. exists a, b. split; [done|lia]. Qed.

Lemma code_found src i (k : Z) c : slice src i (i + k) = Ok c → (k = 3 ∧ c = StartCode3 ∨ k = 4 ∧ c = StartCode4) →
  code_before src (i + k).
Proof.
  intros H Hc. pose proof (slice_split src c i (i + k) H) as (H1 & H2 & E).
  assert (Hd : len (drop (Z.to_nat (i + k)) src) = len src - (i + k)) by (unfold len in *; rewrite length_drop; lia).
  destruct Hc as [[-> ->]|[-> ->]].
  - exists (take (Z.to_nat i) src), (drop (Z.to_nat (i + 3)) src). by split.
  - exists (take (Z.to_nat i) src ++ [0]), (drop (Z.to_nat (i + 4)) src). split; [|done]. by rewrite <- app_assoc.
Qed.

(** Cutting panics for one reason only, and only if [C]. *)
Definition cuts {A} (C : Prop) (Q : A → Prop) (r : res A) : Prop :=
  match r with Ok a => Q a | Err _ => True | Panic p => p = SliceBounds ∧ C | OutOfFuel => False end.

Section publisher_panics.
(** The caller's picture is one of those that can panic. *)
Variable C : Prop.

Lemma nalus_loop_cuts src fuel : Forall is_byte src → (code_at_end src → C) → ∀ n pre index l,
  pieces pre l → 0 ≤ pre ≤ index → index ≤ len src → len src - index < Z.of_nat fuel →
  index + 4 ≤ len src ∨ code_before src index →
  cuts C (λ '(i, p, l), pieces p l ∧ 0 ≤ p ≤ len src) (nalus_loop fuel src n pre index l).
Proof.
  intros Hb HC. induction fuel as [|fuel IH]; intros n pre index l Hp H1 H2 Hf Hroom; [lia|]. cbn [nalus_loop].
  destruct (n =? 1); [cbn; split; [done|lia]|].
  assert (Hcut : ∀ k, k ≤ 4 → slice src index (index + k) = Panic SliceBounds → 0 ≤ k → C).
  { intros k Hk Hs Hk0. apply HC. destruct Hroom as [Hroom|Hroom].
    - destruct (slice_sub src index (index + k)) as (x & Hx & _); [lia|lia|done|]. congruence.
    - apply code_before_end with index; [done|]. destruct (Z.lt_ge_cases (len src) (index + 4)) as [|Hge]; [done|].
      destruct (slice_sub src index (index + k)) as (x & Hx & _); [lia|lia|done|]. congruence. }
  destruct (slice_cases src index (index + 3)) as [(c3 & E3 & H3)|E3]; rewrite E3;
    [|cbn; split; [done|by apply (Hcut 3)]]. cbn [mbind res_bind].
  assert (Hcode : cuts C (λ k, 0 ≤ k ∧ index + k ≤ len src ∧ (0 < k → code_before src (index + k)) ∧
      (k = 0 → index + 4 ≤ len src))
    (if decide (c3 = StartCode3) then Ok 3
     else c4 ← slice src index (index + 4); if decide (c4 = StartCode4) then Ok 4 else Ok 0)).
  { case_decide; [cbn; split_and!; try lia; intros _; apply code_found with c3; auto|].
    destruct (slice_cases src index (index + 4)) as [(c4 & E4 & H4)|E4]; rewrite E4;
      [|cbn; split; [done|by apply (Hcut 4)]].
    cbn [mbind res_bind]. case_decide; cbn; split_and!; try lia. intros _. apply code_found with c4; auto. }
  destruct (if decide _ then _ else _) as [k|e|p|]; try done. cbn [mbind res_bind]. destruct Hcode as (Hk0 & Hk & Hkc & Hk4).
  destruct (0 <? k) eqn:Ek; go_bool.
  - destruct (pre <? index) eqn:Ei; go_bool.
    + destruct (pieces_snoc src l pre index Hb Hp) as (x & -> & Hp'); [lia|lia|]. cbn [mbind res_bind].
      apply IH; [apply pieces_mono with index; [done|lia]|lia|lia|lia|right; auto].
    + apply IH; [apply pieces_mono with pre; [done|lia]|lia|lia|lia|right; auto].
  - destruct (len src <? index + 1 + 4) eqn:El; go_bool; [cbn; split; [done|lia]|].
    apply IH; [done|lia|lia|lia|left; lia].
Qed.

Lemma ParseNalusN_cuts src n : Forall is_byte src → (code_at_end src → C) → cuts C (pieces (len src)) (ParseNalusN src n).
Proof.
  intros Hb HC. pose proof (len_nonneg src) as Hl. assert (H0 : pieces (len src) []) by (split; [constructor|exact Hl]).
  unfold ParseNalusN, naluBytesLen. destruct (_ <? _) eqn:E4; [exact H0|]. destruct (n =? 0); [exact H0|].
  pose proof (nalus_loop_cuts src (S (length src)) Hb HC n 0 0 [] ltac:(by split) ltac:(lia) Hl ltac:(unfold len; lia)
    ltac:(left; go_bool; lia)) as H.
  destruct (nalus_loop _ src n 0 0 []) as [[[i p] l]|e|x|]; try done. cbn [mbind res_bind]. destruct H as [Hp [Hp0 Hp1]].
  destruct (_ && _) eqn:E; [|by apply pieces_mono with p].
  go_bool. unfold slice_from. by destruct (pieces_snoc src l p (len src) Hb Hp) as (x & -> & Hx); [lia|lia|].
Qed.

(** ** Tags of any packet *)

(** Data that fits into a message. *)
Definition fits_message (d : bytes) : Prop := Forall is_byte d ∧ len d < 2 ^ 32.

(** A packet a caller may hand over, at most 2^28 bytes long. *)
Record packet_ok (p : Packet) : Prop := {
  pk_data : Forall is_byte (pkt_Data p);
  pk_size : len (pkt_Data p) < 2 ^ 28;
  pk_avc : is_byte (AVCPacketType (VHeader p));
}.

Lemma muxerTagData_small t : is_byte (avcPacketType (mediat t)) → is_byte (aacPacketType (mediat t)) →
  Forall is_byte (muxerTagData t) ∧ len (muxerTagData t) ≤ 5.
Proof.
  intros Hv Ha. unfold muxerTagData. destruct (_ =? _); [|destruct (_ =? _)]; [..|by split; [constructor|]].
  - split; [|by destruct (_ =? _)]. apply Forall_cons. split; [apply lor_is_byte; [apply u8_byte|by apply land_byte]|].
    destruct (_ =? _); [|constructor]. apply Forall_cons. split; [done|apply be_split_bytes].
  - split; [|by destruct (_ =? _)]. apply Forall_cons. split.
    + repeat apply lor_is_byte; by apply u8_byte || by apply land_byte.
    + destruct (_ =? _); [by apply Forall_singleton|constructor].
Qed.

Lemma tagged_fits t d : is_byte (avcPacketType (mediat t)) → is_byte (aacPacketType (mediat t)) →
  Forall is_byte d → len d < 2 ^ 31 → fits_message (muxerTagData t ++ d).
Proof.
  intros Hv Ha Hd Hl. destruct (muxerTagData_small t Hv Ha) as [Hb Ht]. split; [by apply Forall_app|].
  rewrite len_app. lia.
Qed.

Lemma len_be_split n v : len (be_split n v) = Z.of_nat n.
Proof. unfold len. by rewrite length_be_split. Qed.

Lemma packed_units l n : pieces n l →
  let d := mjoin ((λ nalu, if 0 <? len nalu then be_split 4 (u32 (len nalu)) ++ nalu else []) <$> l) in
  Forall is_byte d ∧ len d ≤ 5 * n.
Proof.
  intros [Hl Ht]. cbv zeta. split.
  - apply Forall_mjoin, Forall_fmap. eapply Forall_impl; [exact Hl|]. intros x [_ Hx].
    change (Forall is_byte (if 0 <? len x then be_split 4 (u32 (len x)) ++ x else [])).
    case_match; [|constructor]. apply Forall_app. split; [apply be_split_bytes|done].
  - assert (H : len (mjoin ((λ nalu, if 0 <? len nalu then be_split 4 (u32 (len nalu)) ++ nalu else []) <$> l))
      ≤ 5 * total_len l); [|lia].
    clear Ht. induction l as [|x l IH]; [done|]. apply Forall_cons in Hl as [[Hx _] Hl]. specialize (IH Hl).
    rewrite fmap_cons, mjoin_cons, len_app. change (total_len (x :: l)) with (len x + total_len l).
    destruct (Z.ltb_spec 0 (len x)); [rewrite len_app, len_be_split; lia|]. change (len []) with 0. pose proof (len_nonneg x). lia.
Qed.

Lemma len_drop_prefix (b : bytes) : len (drop 4 b) ≤ len b.
Proof. unfold len. rewrite length_drop. lia. Qed.

Lemma PackVideoData_cuts h src ts : Forall is_byte src → len src < 2 ^ 28 → is_byte (AVCPacketType h) →
  (CodecID h = VIDEO_H264 → code_at_end src → C) → cuts C fits_message (PackVideoData h src ts).
Proof.
  intros Hb Hl Ha HC. unfold PackVideoData. destruct (CodecID h =? VIDEO_H264) eqn:Ec.
  - assert (Hs : ∃ src', (if 4 <=? len src then c ← slice src 0 4; if decide (c = StartCode4) then slice_from src 4
        else Ok src else Ok src) = Ok src' ∧ Forall is_byte src' ∧ len src' < 2 ^ 28 ∧ (code_at_end src' → C)).
    { apply Z.eqb_eq in Ec. specialize (HC Ec). destruct (4 <=? len src) eqn:E; [|by exists src]. go_bool.
      destruct (slice_sub src 0 4) as (c & -> & _); [lia|lia|done|]. cbn [mbind res_bind].
      case_decide; [|by exists src]. unfold slice_from.
      destruct (slice_sub src 4 (len src)) as (x & Ex & Hx & Hbx); [lia|lia|done|]. exists x. split_and!; [done..|lia|].
      intros Hx'. apply HC. destruct (slice_split _ _ _ _ Ex) as (_ & _ & ->).
      rewrite drop_ge, app_nil_r by (unfold len; lia). by apply code_at_end_app. }
    destruct Hs as (src' & -> & Hb' & Hl' & HC'). cbn [mbind res_bind]. destruct (_ =? 0) eqn:E0; [done|].
    destruct (index_at_ok src' 0) as [b0 ->]; [go_bool; pose proof (len_nonneg src'); lia|]. cbn [mbind res_bind].
    destruct (_ || _) eqn:Eh.
    + pose proof (ParseNalusN_cuts src' 3 Hb' HC') as H. destruct (ParseNalusN src' 3) as [l|e|p|]; try done.
      cbn [mbind res_bind]. destruct (packed_units l (len src') H) as [Hp Hn]. by apply tagged_fits; [..|lia].
    + apply tagged_fits; [done..| |].
      * apply Forall_app. split; [apply be_split_bytes|done].
      * rewrite len_app, len_be_split. lia.
  - destruct (_ || _); [|done]. destruct (_ =? 0); [done|]. apply tagged_fits; [done..| |].
    + apply Forall_app. split; [apply be_split_bytes|done].
    + rewrite len_app, len_be_split. lia.
Qed.

Lemma PackAudioData_cuts ah sid src ts : Forall is_byte src → len src < 2 ^ 28 →
  cuts C fits_message (PackAudioData ah sid src ts).
Proof.
  intros Hb Hl. unfold PackAudioData. destruct (negb _); [done|]. apply tagged_fits; [done..|lia].
Qed.

Lemma NewAACSequenceHeader_fits ah : fits_message (NewAACSequenceHeader ah).
Proof. apply tagged_fits; [done|done|apply aac_config_bytes|by vm_compute]. Qed.

Lemma avc_record_small sps pps : Forall is_byte sps → Forall is_byte pps →
  Forall is_byte (AVCDecoderConfigurationRecord sps pps) ∧
  len (AVCDecoderConfigurationRecord sps pps) ≤ 11 + len sps + len pps.
Proof.
  intros Hs Hp. unfold AVCDecoderConfigurationRecord.
  assert (Hx : ∀ l, Forall is_byte l → Forall is_byte (if decide (l = StartCode4) then [] else l) ∧
    len (if decide (l = StartCode4) then [] else l) ≤ len l).
  { intros l Hl. case_decide; [|done]. split; [constructor|apply len_nonneg]. }
  destruct (Hx sps Hs) as [Hs1 Hs2], (Hx pps Hp) as [Hp1 Hp2]. cbv zeta.
  set (s' := if decide (sps = _) then _ else _) in *. set (p' := if decide (pps = _) then _ else _) in *.
  set (head := [1; 66; 0; 40; _; _]).
  assert (Hh : Forall is_byte head ∧ len head = 6) by (by split; [apply (bool_decide_unpack _); vm_compute; exact I|]).
  split.
  - repeat (apply Forall_app; split); try done || apply be_split_bytes; [apply Hh|by apply Forall_singleton].
  - rewrite !len_app, !len_be_split, (proj2 Hh). change (len [1]) with 1. lia.
Qed.

Lemma NewAVCSequenceHeader_fits sps pps ts : Forall is_byte sps → Forall is_byte pps →
  len sps < 2 ^ 28 → len pps < 2 ^ 28 → fits_message (NewAVCSequenceHeader sps pps ts).
Proof.
  intros Hs Hp Hsl Hpl. destruct (avc_record_small sps pps Hs Hp) as [Hr Hl]. by apply tagged_fits; [..|lia].
Qed.

(** ** Sending *)

Definition publisher_good (rc : RtmpClient) : Prop := ∃ cc, rc_conn rc = Some cc ∧ client_good cc.

(** Sending changes the connection and the flags of the first packets. *)
Record publisher_onward (rc rc' : RtmpClient) : Prop := {
  pu_good : publisher_good rc';
  pu_mode : isPublish rc' = isPublish rc;
  pu_calls : onClosed rc' = onClosed rc ∧ rc_closed rc' = rc_closed rc ∧ rc_packets rc' = rc_packets rc;
}.

#[local] Program Instance publisher_safety : Safety RtmpClient := {
  good := publisher_good; onward := publisher_onward; may_panic := λ x, x = SliceBounds ∧ C;
}.
Next Obligation. by intros rc Hg. Qed.
Next Obligation. intros a b c [_ H1 (H2 & H3 & H4)] [Hg H5 (H6 & H7 & H8)]. constructor; [done|congruence|split_and!; congruence]. Qed.
Next Obligation. by intros rc rc' []. Qed.

(** The client and the packet the caller has handed over. *)
#[local] Program Instance sending_safety : Safety (RtmpClient * Packet) := {
  good s := publisher_good s.1; onward s s' := publisher_onward s.1 s'.1; may_panic := λ x, x = SliceBounds ∧ C;
}.
Next Obligation. by intros [rc p] Hg. Qed.
Next Obligation. intros a b c. exact (@onward_trans _ publisher_safety a.1 b.1 c.1). Qed.
Next Obligation. by intros a b []. Qed.

Lemma set_conn_publisher rc cc cc' : rc_conn rc = Some cc → client_onward cc cc' →
  publisher_onward rc (set_rc_conn (Some cc') rc).
Proof. intros _ [Hg _]. constructor; [by exists cc'|done|done]. Qed.

(** An operation of the connection that only writes. *)
Lemma write_runs {A} (m : go RtmpConn A) rc :
  (∀ c, conn_wf c → runs (wf_frame c) (λ _, wf_frame c) m c) → publisher_good rc →
  runs (publisher_onward rc) (λ _, publisher_onward rc) (on_client (on_cc m)) rc.
Proof.
  intros Hm (cc & Hc & Hg). pose proof Hg as [_ (c & Hcc & Hw)].
  eapply runs_mono.
  { exact (on_client_outcome _ _ _ _ rc cc Hc (on_cc_outcome _ _ _ m cc c Hcc (Hm c Hw))). }
  - intros rc' (cc' & (c' & Hf & ->) & ->). apply set_conn_publisher with cc; [done|by apply set_conn_onward with c].
  - intros a rc' (cc' & (c' & Hf & ->) & ->). apply set_conn_publisher with cc; [done|by apply set_conn_onward with c].
Qed.

Lemma write_safe {A} (m : go RtmpConn A) : (∀ c, conn_wf c → runs (wf_frame c) (λ _, wf_frame c) m c) →
  safe (on_client (on_cc m)).
Proof. intros Hm rc Hg. by apply runs_outcome, write_runs. Qed.

Lemma message_type_cases pt : message_type pt = Ok TAG_VIDEO ∨ message_type pt = Ok TAG_AUDIO ∨
  message_type pt = Ok TAG_SCRIPTDATAAMF0 ∨ ∃ e, message_type pt = Err e.
Proof. unfold message_type. repeat case_match; eauto. Qed.

(** Pictures and sound go out without a panic. *)
Lemma sendPacketData_safe d ts pt : pt = PacketTypeVideo ∨ pt = PacketTypeAudio → fits_message d →
  safe (sendPacketData d ts pt).
Proof.
  intros Hpt [Hb Hl]. unfold sendPacketData. destruct (_ =? 0); [auto with safe|].
  assert (Ht : ∃ ty, message_type pt = Ok ty ∧ (ty = TAG_VIDEO ∨ ty = TAG_AUDIO)).
  { destruct Hpt as [->| ->]; [exists TAG_VIDEO|exists TAG_AUDIO]; auto. }
  destruct Ht as (ty & -> & Hty). apply safe_bind_res; [exact I|]. intros ty' [= <-].
  apply safe_bind; [|intros sid; apply safe_bind].
  - intros rc (cc & Hc & Hg). unfold outcome, on_client. rewrite Hc. cbn.
    apply set_conn_publisher with cc; [done|by split].
  - set (m := newCS _ _ _ _ _ _ _).
    assert (Hw : cc_Write m = on_cc (_ ← RtmpConn_Write m; mret tt)).
    { unfold cc_Write. by replace (_ || _) with false by (by destruct Hty as [->| ->]). }
    rewrite Hw. apply write_safe. intros c Hc. eapply runs_bind; [apply RtmpConn_Write_safe; [done|]|].
    + pose proof (len_nonneg d). split_and!; [by apply u32_small|done|done|].
      destruct Hty as [->| ->]; intros E; vm_compute in E; congruence.
    + by intros a c' Hf.
  - intros _. apply write_safe. intros c Hc. apply conn_write_safe; [done|apply RW_Flush_safe].
Qed.

Lemma safe_on_p {A} (m : go RtmpClient A) : safe m → safe (on_p m : go (RtmpClient * Packet) A).
Proof.
  intros Hm [rc p] Hg. specialize (Hm rc Hg). unfold outcome, on_p in *. by destruct (m rc) as [[]].
Qed.

(** After packing the data of the packet fits into a message. *)
Lemma safe_pack {A} r msg (k : RtmpClient * Packet → go (RtmpClient * Packet) A) : cuts C fits_message r →
  (∀ rc p, fits_message (pkt_Data p) → safe (k (rc, p))) →
  safe (_ ← on_w (pack_into r msg); s ← get; k s).
Proof.
  intros Hr Hk [rc p] Hg. destruct r as [d|e|x|]; try done.
  apply (Hk rc (set_pkt_Data d p) Hr (rc, set_pkt_Data d p) Hg).
Qed.

Lemma safe_flag f : (∀ rc, publisher_good rc → publisher_onward rc (f rc)) → safe (S := RtmpClient) (modify f).
Proof. intros Hf. by apply safe_modify. Qed.

Lemma send_data_safe d ts pt msg : pt = PacketTypeVideo ∨ pt = PacketTypeAudio → fits_message d →
  safe (on_p (on_err (sendPacketData d ts pt) (Wrapf msg)) : go (RtmpClient * Packet) unit).
Proof. intros. by apply safe_on_p, safe_on_err, sendPacketData_safe. Qed.

(** A picture that can panic. *)
Definition cut_short (p : Packet) : Prop := CodecID (VHeader p) = VIDEO_H264 ∧ code_at_end (pkt_Data p).

(** A handler that begins with [get] runs on the packet it was given. *)
Definition sends (P : Packet → Prop) (m : go (RtmpClient * Packet) unit) : Prop := ∀ rc p, publisher_good rc → packet_ok p →
  P p → outcome may_panic (onward (rc, p)) (λ _, onward (rc, p)) m (rc, p).

Lemma sends_get P (k : RtmpClient * Packet → go (RtmpClient * Packet) unit) :
  (∀ rc p, packet_ok p → P p → safe (k (rc, p))) → sends P (get ≫= k).
Proof. intros Hk rc p Hg Hp HP. exact (Hk rc p Hp HP (rc, p) Hg). Qed.

Lemma sends_safe P m : safe m → sends P m.
Proof. intros Hm rc p Hg _ _. exact (Hm (rc, p) Hg). Qed.

Lemma sendAudioPacket_sends P : sends P sendAudioPacket.
Proof.
  apply sends_get. intros rc p [Hb Hl _] _. apply safe_bind.
  - apply safe_if; [|auto with safe]. apply safe_bind.
    + apply send_data_safe; [by right|apply NewAACSequenceHeader_fits].
    + intros _. apply safe_on_p, safe_flag. intros rc' Hg. by constructor.
  - intros _. apply safe_pack; [by apply PackAudioData_cuts|]. intros rc' p' Hf. by apply send_data_safe; [right|].
Qed.

Lemma cuts_safe {A} (Q : A → Prop) r : cuts C Q r → safe_res (S := RtmpClient) r.
Proof. by destruct r. Qed.

Lemma send_sequence_safe p : packet_ok p → (cut_short p → C) → safe (send_sequence p).
Proof.
  intros [Hb Hl _] HC. apply safe_bind; [auto with safe|]. intros c.
  destruct ((CodecID (VHeader p) =? VIDEO_H264) && videoFirst c) eqn:Ec; [|auto with safe].
  assert (HC' : code_at_end (pkt_Data p) → C) by (intros Hx; apply HC; split; [by go_bool|done]).
  pose proof (ParseNalusN_cuts (pkt_Data p) (-1) Hb HC') as H. fold (ParseNalus (pkt_Data p)) in H.
  apply safe_bind_res; [by apply cuts_safe with (1 := H)|]. intros l E. rewrite E in H. destruct H as [Hl1 Hl2].
  destruct (find_sets_spec l) as (s & q & -> & Hs & Hq); [eapply Forall_impl; [exact Hl1|by intros y []]|].
  apply safe_bind_res; [exact I|]. intros sets [= <-].
  destruct s as [sps|], q as [pps|]; auto with safe.
  destruct (Hs sps eq_refl) as [Hin1 _], (Hq pps eq_refl) as [Hin2 _]. rewrite Forall_forall in Hl1.
  pose proof (total_len_in _ _ Hin1). pose proof (total_len_in _ _ Hin2).
  apply safe_bind; [apply safe_on_err, sendPacketData_safe; [by left|]|].
  - apply NewAVCSequenceHeader_fits; [by apply Hl1|by apply Hl1|lia|lia].
  - intros _. apply safe_bind; [|auto with safe]. apply safe_flag. intros rc Hg. by constructor.
Qed.

Lemma sendVideoPacket_sends : sends (λ p, cut_short p → C) sendVideoPacket.
Proof.
  apply sends_get. intros rc p Hp HC. pose proof Hp as [Hb Hl Ha]. apply safe_bind.
  - by apply safe_on_p, send_sequence_safe.
  - intros go_on. apply safe_if; [|auto with safe].
    apply safe_pack; [apply PackVideoData_cuts; [done..|]; by intros; apply HC|].
    intros rc' p' Hf. by apply send_data_safe; [left|].
Qed.

Lemma SendPacket_sends : sends (λ p, PacketType p = PacketTypeVideo ∧ cut_short p → C) SendPacket.
Proof.
  intros rc p Hg Hp HC. unfold SendPacket. change ((get ≫= ?k) (rc, p)) with (k (rc, p) (rc, p)).
  unfold outcome. rewrite go_bind_get. cbn beta iota.
  destruct (negb (isPublish rc)); [by apply sends_safe with (P := λ _, True); [auto with safe|..]|].
  destruct (PacketType p =? PacketTypeAudio); [by apply (sendAudioPacket_sends (λ _, True))|].
  destruct (PacketType p =? PacketTypeVideo) eqn:Et.
  { apply sendVideoPacket_sends; [done..|]. intros Hx. apply HC. split; [by go_bool|done]. }
  destruct (PacketType p =? PacketTypeMetadata); by apply sends_safe with (P := λ _, True); [auto with safe|..].
Qed.
End publisher_panics.

(** ** What a packet that is taken does *)

Lemma go_bind_inv {S A B} (m : go S A) (k : A → go S B) s b s' : (m ≫= k) s = (Ok b, s') →
  ∃ a s1, m s = (Ok a, s1) ∧ k a s1 = (Ok b, s').
Proof. unfold mbind, go_bind. destruct (m s) as [[a|e|x|] s1]; [by exists a, s1|done..]. Qed.

Lemma on_p_inv {P W A} (m : go P A) (p : P) (w : W) a s' : (on_p m : go (P * W) A) (p, w) = (Ok a, s') →
  ∃ p', m p = (Ok a, p') ∧ s' = (p', w).
Proof. unfold on_p. destruct (m p) as [r p']. intros [= -> <-]. by exists p'. Qed.

Lemma on_err_inv {S A} (m : go S A) g s a s' : on_err m g s = (Ok a, s') → m s = (Ok a, s').
Proof. unfold on_err. by destruct (m s) as [[a'|e|x|] s1]. Qed.

Lemma pack_inv r msg (rc : RtmpClient) p a s' : (on_w (pack_into r msg) : go (RtmpClient * Packet) unit) (rc, p) = (Ok a, s') →
  ∃ d, r = Ok d ∧ s' = (rc, set_pkt_Data d p).
Proof. unfold on_w, pack_into. destruct r as [d|e|x|]; intros [= <- <-]. by exists d. Qed.

(** The data of the packet as a message carries it. *)
Definition packed (p : Packet) : res bytes :=
  if PacketType p =? PacketTypeAudio
  then PackAudioData (AHeader p) (pkt_StreamID p) (pkt_Data p) (TimeStamp p)
  else PackVideoData (VHeader p) (pkt_Data p) (TimeStamp p).

(** A sequence header goes out before the first sound and before the first picture that has
    parameter sets. *)
Definition headed (p : Packet) (c c1 : RtmpClient) : Prop :=
  if PacketType p =? PacketTypeAudio then
    if (SoundFormat (AHeader p) =? SOUND_AAC) && audioFirst c then
      ∃ c2, sendPacketData (NewAACSequenceHeader (AHeader p)) (TimeStamp p) PacketTypeAudio c = (Ok tt, c2) ∧
        c1 = set_audioFirst false c2
    else c1 = c
  else
    if (CodecID (VHeader p) =? VIDEO_H264) && videoFirst c then
      ∃ l sps pps c2, ParseNalus (pkt_Data p) = Ok l ∧ find_sets l = Ok (Some sps, Some pps) ∧
        sendPacketData (NewAVCSequenceHeader sps pps (TimeStamp p)) (TimeStamp p) PacketTypeVideo c = (Ok tt, c2) ∧
        c1 = set_videoFirst false c2
    else c1 = c.

(** The packed data is written to the connection and flushed. *)
Definition sent (p : Packet) (c c' : RtmpClient) : Prop :=
  (PacketType p = PacketTypeAudio ∨ PacketType p = PacketTypeVideo) ∧
  ∃ d c1, packed p = Ok d ∧ headed p c c1 ∧ sendPacketData d (TimeStamp p) (PacketType p) c1 = (Ok tt, c').

(** An H.264 picture that comes before any with both parameter sets, and has not got them
    either, is dropped without an error. *)
Definition dropped (p : Packet) (c c' : RtmpClient) : Prop :=
  PacketType p = PacketTypeVideo ∧ CodecID (VHeader p) = VIDEO_H264 ∧ videoFirst c = true ∧ c' = c ∧
  ∃ l sps pps, ParseNalus (pkt_Data p) = Ok l ∧ find_sets l = Ok (sps, pps) ∧ (sps = None ∨ pps = None).

Lemma sendAudioPacket_inv rc p rc' p' : PacketType p = PacketTypeAudio →
  sendAudioPacket (rc, p) = (Ok tt, (rc', p')) → sent p rc rc'.
Proof.
  intros Ht. unfold sendAudioPacket. rewrite go_bind_get. intros H.
  apply go_bind_inv in H as (a & s1 & H1 & H). apply go_bind_inv in H as (b & s2 & H2 & H).
  assert (Hc : ∃ c1, s1 = (c1, p) ∧ headed p rc c1).
  { unfold headed. rewrite Ht, Z.eqb_refl. destruct (_ && _); [|injection H1 as <- <-; by exists rc].
    apply go_bind_inv in H1 as (u & s & H3 & H4). apply on_p_inv in H3 as (c2 & H3%on_err_inv & ->).
    destruct u. injection H4 as <- <-. exists (set_audioFirst false c2). split; [done|by exists c2]. }
  destruct Hc as (c1 & -> & Hc). apply pack_inv in H2 as (d & Hd & ->). rewrite go_bind_get in H.
  apply on_p_inv in H as (c' & H%on_err_inv & [= -> ->]). split; [by left|]. exists d, c1. unfold packed.
  by rewrite Ht, Z.eqb_refl.
Qed.

Lemma send_sequence_inv rc p b rc' : PacketType p = PacketTypeVideo → send_sequence p rc = (Ok b, rc') →
  if b then headed p rc rc' else dropped p rc rc'.
Proof.
  intros Ht. unfold send_sequence. rewrite go_bind_get. unfold headed, dropped. rewrite Ht.
  change (PacketTypeVideo =? PacketTypeAudio) with false. cbn iota.
  destruct ((_ =? _) && videoFirst rc) eqn:Ec; [|by intros [= <- <-]].
  apply andb_prop in Ec as [Ec%Z.eqb_eq Ev]. intros H.
  apply go_bind_inv in H as (l & s1 & H1 & H). apply go_bind_inv in H as (sets & s2 & H2 & H).
  injection H1 as E1 <-. injection H2 as E2 <-.
  destruct sets as [[sps|] [pps|]]; try (injection H as <- <-; split_and!; [done..|]; eexists _, _, _; eauto).
  apply go_bind_inv in H as (u & c2 & H3%on_err_inv & H). destruct u. injection H as <- <-. by exists l, sps, pps, c2.
Qed.

Lemma sendVideoPacket_inv rc p rc' p' : PacketType p = PacketTypeVideo →
  sendVideoPacket (rc, p) = (Ok tt, (rc', p')) → sent p rc rc' ∨ dropped p rc rc'.
Proof.
  intros Ht. unfold sendVideoPacket. rewrite go_bind_get. intros H.
  apply go_bind_inv in H as (b & s1 & H1 & H). apply on_p_inv in H1 as (c1 & H1 & ->).
  apply (send_sequence_inv _ _ _ _ Ht) in H1. destruct b; [left|right; by injection H as <- <-].
  apply go_bind_inv in H as (u & s2 & H2 & H). apply pack_inv in H2 as (d & Hd & ->). rewrite go_bind_get in H.
  apply on_p_inv in H as (c' & H%on_err_inv & [= -> ->]). split; [by right|]. exists d, c1. unfold packed. by rewrite Ht.
Qed.

(** Without an error a packet was sent or dropped. *)
Lemma SendPacket_inv rc p rc' p' : SendPacket (rc, p) = (Ok tt, (rc', p')) → sent p rc rc' ∨ dropped p rc rc'.
Proof.
  unfold SendPacket. rewrite go_bind_get. destruct (negb _); [done|].
  destruct (PacketType p =? PacketTypeAudio) eqn:Ea; go_bool; [left; by apply sendAudioPacket_inv with p'|].
  destruct (PacketType p =? PacketTypeVideo) eqn:Ev; go_bool; [by apply sendVideoPacket_inv|]. by destruct (_ =? _).
Qed.

(** ** A whole publisher *)

(** A call of [SendPacket]: the packet, the client before, the result, the client after. *)
Record call := mkCall { call_packet : Packet; call_before : RtmpClient; call_result : res unit; call_after : RtmpClient }.

(** The packets one after the other, whatever becomes of each; a panic ends the program. *)
Fixpoint send_all (ps : list Packet) (c : RtmpClient) : list call :=
  match ps with
  | [] => []
  | p :: ps =>
      let '(r, (c', _)) := SendPacket (c, p) in
      mkCall p c r c' :: match r with Ok _ | Err _ => send_all ps c' | _ => [] end
  end.

(** A publisher that can be called: the connection it has keeps its invariant, and neither
    callback has been called. *)
Definition callable (rc : RtmpClient) : Prop :=
  isPublish rc = true ∧ publisher_good rc ∧ rc_packets rc = [] ∧ rc_closed rc = 0%nat.

Definition call_ok (k : call) : Prop :=
  match call_result k with
  | Ok _ => callable (call_after k) ∧
      (sent (call_packet k) (call_before k) (call_after k) ∨ dropped (call_packet k) (call_before k) (call_after k))
  | Err _ => callable (call_after k)
  | Panic x => x = SliceBounds ∧ PacketType (call_packet k) = PacketTypeVideo ∧ cut_short (call_packet k)
  | OutOfFuel => False
  end.

Definition call_panics (k : call) : bool := panics (call_result k).

(** Every packet is handed over, unless a call panics. *)
Definition all_called (ps : list Packet) (ks : list call) : Prop :=
  call_packet <$> ks = ps ∨ ∃ ks' k, ks = ks' ++ [k] ∧ call_panics k = true ∧ call_packet <$> ks `prefix_of` ps.

Lemma SendPacket_call rc p : callable rc → packet_ok p →
  let '(r, (rc', _)) := SendPacket (rc, p) in call_ok (mkCall p rc r rc').
Proof.
  intros (Hm & Hg & Hk & Hz) Hp.
  pose proof (SendPacket_sends (PacketType p = PacketTypeVideo ∧ cut_short p) rc p Hg Hp id) as H.
  unfold outcome in H. pose proof (SendPacket_inv rc p) as Hi.
  assert (Hnext : ∀ rc', publisher_onward rc rc' → callable rc').
  { intros rc' [Hg' Hm' (_ & Hc & Hp')]. split_and!; [congruence|done|congruence|congruence]. }
  destruct (SendPacket (rc, p)) as [[[]|e|x|] [rc' p']]; cbn in *; [split|..]; eauto.
Qed.

Lemma send_all_ok ps : Forall packet_ok ps → ∀ rc, callable rc →
  Forall call_ok (send_all ps rc) ∧ all_called ps (send_all ps rc).
Proof.
  induction 1 as [|p ps Hp _ IH]; intros rc Hc; [by split; [constructor|left]|]. cbn [send_all].
  pose proof (SendPacket_call rc p Hc Hp) as H. destruct (SendPacket (rc, p)) as [r [rc' p']].
  assert (Hnext : callable rc' → Forall call_ok (mkCall p rc r rc' :: send_all ps rc') ∧
    all_called (p :: ps) (mkCall p rc r rc' :: send_all ps rc')).
  { intros [Ha Hb]%IH. split; [by constructor|]. destruct Hb as [E|(ks & k & E & Hk & Hx)]; [left; cbn; by rewrite E|].
    right. exists (mkCall p rc r rc' :: ks), k. rewrite E in *. split_and!; [done..|]. by apply prefix_cons. }
  destruct r as [u|e|x|]; [apply Hnext, H..| |done].
  split; [constructor; [exact H|constructor]|]. right. exists [], (mkCall p rc (Panic x) rc'). split_and!; [done..|]. by exists ps.
Qed.

Section publisher.
Variable iter : object → object.
Hypothesis iter_perm : ∀ o, iter o ≡ₚ o.
Variable neturl_Parse : bytes → res URL.
Variable net_LookupIP : bytes → res (list bytes).
Variable rand_Intn : Z → Z.
Variable net_Dial : bytes → bytes → res ReadWriter.
Hypothesis outside : world_ok neturl_Parse net_LookupIP net_Dial.

End publisher.

(** Sound, a picture whose units are sets of parameters and a slice, a packet of no type,
    one that is too short. *)
Definition sample_packets : list Packet :=
  [mkPacket PacketTypeAudio 0 0 no_VHeader (mkAHeader SOUND_AAC 4 1 1 0) [1; 2];
   mkPacket PacketTypeVideo 0 0 (mkVHeader 0 AVC_NALU VIDEO_H264 0) no_AHeader
     ([0x67; 1; 2] ++ annexb [[0x68; 4]; [0x65; 7; 0; 9]]);
   mkPacket 77 0 0 no_VHeader no_AHeader [];
   mkPacket PacketTypeVideo 0 0 (mkVHeader 0 AVC_NALU VIDEO_H264 0) no_AHeader []].

Definition sample_publish (input : bytes) : res unit * RtmpClient :=
  OpenPublish id (λ _, Ok (mkURL (str "h") (str "/live/s") [])) (λ _, Ok [str "10.0.0.1"]) (λ _, 0)
    (λ _ _, Ok (sample_rw input)) (str "rtmp://h/live/s") NewRtmpClient.


(** What becomes of them: two are sent, two are refused. *)
Example sample_packets_sent :
  let '(r, rc) := sample_publish (server_says id true) in
  r = Ok tt ∧ (λ k, is_ok (call_result k)) <$> send_all sample_packets rc = [true; true; false; false].
Proof. vm_compute. repeat split. Qed.

(** A picture without parameter sets is dropped before one that has them, and sent after. *)
Example early_picture_dropped :
  let slice := mkPacket PacketTypeVideo 0 0 (mkVHeader 0 AVC_NALU VIDEO_H264 0) no_AHeader [0x65; 7; 0; 9] in
  let '(_, rc) := sample_publish (server_says id true) in
  let out c := (λ cc, (λ rtmp, length (bw_sent (rw_w (c_rw rtmp)))) <$> cc_conn cc) <$> rc_conn c in
  (λ k, (is_ok (call_result k), bool_decide (out (call_after k) = out (call_before k)))) <$>
    send_all ([slice] ++ take 1 (drop 1 sample_packets) ++ [slice]) rc = [(true, true); (true, false); (true, false)].
Proof. vm_compute. reflexivity. Qed.

(** A picture that ends in a start code ends the program of the publisher. *)
Example code_at_the_end_panics :
  let '(_, rc) := sample_publish (server_says id true) in
  call_result <$> send_all [mkPacket PacketTypeVideo 0 0 (mkVHeader 0 AVC_NALU VIDEO_H264 0) no_AHeader
    [0x67; 1; 2; 3; 0; 0; 0; 1]] rc = [Panic SliceBounds].
Proof. vm_compute. reflexivity. Qed.
