(* ===== verification/StreamRW.v ===== *)
(** * The two ends of a stream (src/protocol/stream_rw.go)

    A reader turns the messages of a publisher into packets; a writer queues the packets
    of the stream and sends them to a player as messages. *)
From S2P Require Import Prelude Pio GoIO ReadWriter Av Chunk Conn Handshake H264 Media Flv Exchange.
From S2P Require Import ConnSafe Safe Messages Amf Amf3 Amf0 Forward Commands.

Definition maxQueueNum : nat := 1024.
Definition saveStaticsInterval : Z := 5000.

(** [time.Second * 10] *)
Definition rw_timeout : Z := 10000000000.

(** ** Statistics *)

Record StaticsBW := mkStatics {
  bw_StreamID : Z;
  VideoDatainBytes : Z;
  LastVideoDatainBytes : Z;
  VideoSpeedInBytesperMS : Z;
  AudioDatainBytes : Z;
  LastAudioDatainBytes : Z;
  AudioSpeedInBytesperMS : Z;
  LastTimestamp : Z;
}.

Definition no_statics : StaticsBW := mkStatics 0 0 0 0 0 0 0 0.

(** [StreamWriter.SaveStatics]; [nowInMS] is the clock. *)
Definition SaveStatics (nowInMS streamid length : Z) (isVideoFlag : bool) (b : StaticsBW) : StaticsBW :=
  let video := if isVideoFlag then u64 (VideoDatainBytes b + length) else VideoDatainBytes b in
  let audio := if isVideoFlag then AudioDatainBytes b else u64 (AudioDatainBytes b + length) in
  if LastTimestamp b =? 0 then
    mkStatics streamid video (LastVideoDatainBytes b) (VideoSpeedInBytesperMS b)
      audio (LastAudioDatainBytes b) (AudioSpeedInBytesperMS b) nowInMS
  else if saveStaticsInterval <=? i64 (nowInMS - LastTimestamp b) then
    let diffTimestamp := Z.quot (i64 (nowInMS - LastTimestamp b)) 1000 in
    let speed data last := u64 (u64 (data - last) * 8) / u64 diffTimestamp / 1000 in
    mkStatics streamid video video (speed video (LastVideoDatainBytes b))
      audio audio (speed audio (LastAudioDatainBytes b)) nowInMS
  else
    mkStatics streamid video (LastVideoDatainBytes b) (VideoSpeedInBytesperMS b)
      audio (LastAudioDatainBytes b) (AudioSpeedInBytesperMS b) (LastTimestamp b).

(** ** StreamWriter *)

(** Bytes still to come on a connection. *)
Definition fc_input (fc : ForwardConnect) : nat := S (length (rw_in (c_rw (fc_conn fc)))).

Definition is_video {D} (p : PacketOf D) : bool := PacketType p =? PacketTypeVideo.
Definition is_key {D} (p : PacketOf D) : bool := is_video p && (FrameType (VHeader p) =? FRAME_KEY).

Section writer.
(** The data of the packets in a queue: they share it with the reader. *)
Context {D : Type}.

(** [packetQueue] is a channel: its packets, and whether it is closed.  [sw_cs] is the
    message of the goroutine that sends, which lives as long as the writer. *)
Record StreamWriter := mkWriter {
  sw_base : RWBaser;
  sw_closed : bool;
  keyframeNeed : bool;
  sw_conn : ForwardConnect;
  packetQueue : list (PacketOf D);
  queue_closed : bool;
  WriteBWInfo : StaticsBW;
  sw_cs : ChunkStream bytes;
}.

Definition NewStreamWriter (conn : ForwardConnect) (now : Z) : StreamWriter :=
  mkWriter (NewRWBaser rw_timeout now) false true conn [] false no_statics
    (newCS 0 0 0 0 0 0 []).

Definition set_sw_base v w := mkWriter v (sw_closed w) (keyframeNeed w) (sw_conn w) (packetQueue w)
  (queue_closed w) (WriteBWInfo w) (sw_cs w).
Definition set_sw_closed v w := mkWriter (sw_base w) v (keyframeNeed w) (sw_conn w) (packetQueue w)
  (queue_closed w) (WriteBWInfo w) (sw_cs w).
Definition set_keyframeNeed v w := mkWriter (sw_base w) (sw_closed w) v (sw_conn w) (packetQueue w)
  (queue_closed w) (WriteBWInfo w) (sw_cs w).
Definition set_sw_conn v w := mkWriter (sw_base w) (sw_closed w) (keyframeNeed w) v (packetQueue w)
  (queue_closed w) (WriteBWInfo w) (sw_cs w).
Definition set_packetQueue v w := mkWriter (sw_base w) (sw_closed w) (keyframeNeed w) (sw_conn w) v
  (queue_closed w) (WriteBWInfo w) (sw_cs w).
Definition set_queue_closed v w := mkWriter (sw_base w) (sw_closed w) (keyframeNeed w) (sw_conn w)
  (packetQueue w) v (WriteBWInfo w) (sw_cs w).
Definition set_WriteBWInfo v w := mkWriter (sw_base w) (sw_closed w) (keyframeNeed w) (sw_conn w)
  (packetQueue w) (queue_closed w) v (sw_cs w).
Definition set_sw_cs v w := mkWriter (sw_base w) (sw_closed w) (keyframeNeed w) (sw_conn w)
  (packetQueue w) (queue_closed w) (WriteBWInfo w) v.

(** [Write]; the panic of a send on a closed channel is recovered. *)
Definition sw_Write (p : PacketOf D) : go StreamWriter unit := λ w,
  if sw_closed w then (Err (Errorf "PeerWriter closed"), w)
  else if is_video p && keyframeNeed w && negb (FrameType (VHeader p) =? FRAME_KEY) then (Ok tt, w)
  else
    let w := if is_video p && keyframeNeed w then set_keyframeNeed false w else w in
    if queue_closed w then (Err (Errorf "Panic %v"), w)
    else if Nat.ltb (length (packetQueue w)) maxQueueNum
    then (Ok tt, set_packetQueue (packetQueue w ++ [p]) w)
    else (Ok tt, if is_key p then set_keyframeNeed true w else w).

(** [cs.TypeID] keeps its value for a packet of another type. *)
Definition packet_message (base : Z) (p : Packet) (cs : ChunkStream bytes) : ChunkStream bytes :=
  let ty :=
    if PacketType p =? PacketTypeVideo then TAG_VIDEO
    else if PacketType p =? PacketTypeAudio then TAG_AUDIO
    else if PacketType p =? PacketTypeMetadata then TAG_SCRIPTDATAAMF0
    else TypeID cs in
  newCS 0 0 (u32 (TimeStamp p + base)) (u32 (len (pkt_Data p))) ty (pkt_StreamID p) (pkt_Data p).

Definition on_sw_conn {A} (m : go ForwardConnect A) : go StreamWriter A := λ w,
  let '(r, c) := m (sw_conn w) in (r, set_sw_conn c w).

(** What [SendPacket] does with one packet from the queue; [now] and [nowInMS] are the clock. *)
Definition send_one (now nowInMS : Z) (p : Packet) : go StreamWriter unit :=
  _ ← modify (λ w, set_sw_cs (packet_message (BaseTimeStamp (sw_base w)) p (sw_cs w)) w);
  w ← get;
  let cs := sw_cs w in
  _ ← modify (λ w, set_WriteBWInfo
        (SaveStatics nowInMS (pkt_StreamID p) (Length cs) (is_video p) (WriteBWInfo w)) w);
  _ ← modify (λ w, set_sw_base (RecTimeStamp (Timestamp cs) (TypeID cs) (SetPreTime now (sw_base w))) w);
  r ← try (on_sw_conn (fc_Write cs));
  match r with
  | inr e => _ ← modify (set_sw_closed true); fail e
  | inl _ => ignore_err tt (on_sw_conn fc_Flush)
  end.

(** One pass of [SendPacket]: a packet is taken, or the closed queue is empty; [None] if
    it waits.  Its data is what [load] finds now. *)
Definition SendPacket_pass (load : D → bytes) (now nowInMS : Z) (w : StreamWriter)
    : option (res unit * StreamWriter) :=
  match packetQueue w with
  | p :: q => Some (send_one now nowInMS (with_data (load (pkt_Data p)) p) (set_packetQueue q w))
  | [] => if queue_closed w then Some (Err (Errorf "closed"), w) else None
  end.

(** The connection is closed, too. *)
Definition sw_Close (w : StreamWriter) : StreamWriter :=
  set_sw_closed true (if sw_closed w then w else set_queue_closed true w).

(** [Check]: what the player says is read until the connection fails, and dropped. *)
Fixpoint check_loop (fuel : nat) : go StreamWriter unit :=
  match fuel with
  | O => λ w, (OutOfFuel, w)
  | S fuel =>
      r ← try (on_sw_conn fc_Read);
      match r with
      | inl _ => check_loop fuel
      | inr _ => modify sw_Close
      end
  end.

Definition sw_Check : go StreamWriter unit := λ w, check_loop (fc_input (sw_conn w)) w.
End writer.
Arguments StreamWriter : clear implicits.

(** ** StreamReader *)

Record StreamReader := mkReader {
  rd_base : RWBaser;
  rd_conn : ForwardConnect;
  ReadBWInfo : StaticsBW;
}.

Definition NewStreamReader (conn : ForwardConnect) (now : Z) : StreamReader :=
  mkReader (NewRWBaser rw_timeout now) conn no_statics.

Definition on_rd_conn {A} (m : go ForwardConnect A) : go StreamReader A := λ r,
  let '(x, c) := m (rd_conn r) in (x, mkReader (rd_base r) c (ReadBWInfo r)).

Definition is_media (ty : Z) : bool :=
  (ty =? TAG_AUDIO) || (ty =? TAG_VIDEO) || (ty =? TAG_SCRIPTDATAAMF0) || (ty =? TAG_SCRIPTDATAAMF3).

(** The buffers behind the packets of a reader. *)
Definition heap_of (r : StreamReader) : heap := c_heap (fc_conn (rd_conn r)).

(** The next message with media in it; its data is in a buffer of the connection. *)
Fixpoint media_loop (fuel : nat) : go StreamReader (ChunkStream sref) :=
  match fuel with
  | O => λ r, (OutOfFuel, r)
  | S fuel =>
      cs ← on_rd_conn (on_conn RtmpConn_Read);
      if is_media (TypeID cs) then mret cs else media_loop fuel
  end.

Definition next_media : go StreamReader (ChunkStream sref) := λ r, media_loop (fc_input (rd_conn r)) r.

Definition media_packet_type (ty : Z) : Z :=
  if ty =? TAG_VIDEO then PacketTypeVideo
  else if ty =? TAG_AUDIO then PacketTypeAudio
  else PacketTypeMetadata.

(** A panic is recovered: [Read] then returns no error, with the packet as it is. *)
Definition recover {S} (m : go S unit) : go S unit := λ s,
  match m s with
  | (Panic _, s') => (Ok tt, s')
  | r => r
  end.

(** [StreamReader.SaveStatics] counts on its own, in the same way. *)
Definition rd_SaveStatics (nowInMS streamid length : Z) (isVideoFlag : bool) (r : StreamReader) : StreamReader :=
  let b := ReadBWInfo r in
  let video := if isVideoFlag then u64 (VideoDatainBytes b + length) else VideoDatainBytes b in
  let audio := if isVideoFlag then AudioDatainBytes b else u64 (AudioDatainBytes b + length) in
  let elapsed := i64 (nowInMS - LastTimestamp b) in
  mkReader (rd_base r) (rd_conn r)
    (if LastTimestamp b =? 0 then
       mkStatics streamid video (LastVideoDatainBytes b) (VideoSpeedInBytesperMS b)
         audio (LastAudioDatainBytes b) (AudioSpeedInBytesperMS b) nowInMS
     else if saveStaticsInterval <=? elapsed then
       let speed data last := u64 (u64 (data - last) * 8) / u64 (Z.quot elapsed 1000) / 1000 in
       mkStatics streamid video video (speed video (LastVideoDatainBytes b))
         audio audio (speed audio (LastAudioDatainBytes b)) nowInMS
     else
       mkStatics streamid video (LastVideoDatainBytes b) (VideoSpeedInBytesperMS b)
         audio (LastAudioDatainBytes b) (AudioSpeedInBytesperMS b) (LastTimestamp b)).

(** The packet with the bytes its buffer holds now. *)
Definition load (h : heap) (p : PacketOf sref) : Packet := with_data (sr_get h (pkt_Data p)) p.

(** [DemuxH] looks at the first bytes of the data and leaves it as it is. *)
Definition DemuxH_at (h : heap) : go (PacketOf sref) unit := λ p,
  let '(r, p') := ignore_err tt DemuxH (load h p) in (r, with_data (pkt_Data p) p').

(** The error of the demuxer is dropped. *)
Definition sr_Read (now nowInMS : Z) : go (StreamReader * PacketOf sref) unit :=
  recover
    (_ ← on_p (modify (λ r, mkReader (SetPreTime now (rd_base r)) (rd_conn r) (ReadBWInfo r)));
     cs ← on_p next_media;
     _ ← on_w (modify (λ p, mkPacket (media_packet_type (TypeID cs)) (Timestamp cs) (StreamID cs)
                               (VHeader p) (AHeader p) (Data cs)));
     _ ← on_p (modify (rd_SaveStatics nowInMS (StreamID cs) (sr_len (Data cs)) (TypeID cs =? TAG_VIDEO)));
     h ← on_p (gets heap_of);
     on_w (DemuxH_at h)).

(** ** From a message to a packet and back *)

Definition no_packet : PacketOf sref := mkPacket 0 0 0 no_VHeader no_AHeader nil_ref.

(** The packet of a message of the publisher: its header is filled in if it can be parsed. *)
Definition packet_of (ty ts sid : Z) (d : bytes) : Packet :=
  (DemuxH (mkPacket (media_packet_type ty) ts sid no_VHeader no_AHeader d)).2.

Lemma DemuxH_keeps p : let p' := (DemuxH p).2 in
  PacketType p' = PacketType p ∧ TimeStamp p' = TimeStamp p ∧ pkt_StreamID p' = pkt_StreamID p ∧
  pkt_Data p' = pkt_Data p.
Proof.
  unfold DemuxH, mbind, go_bind, demux_header. cbv zeta.
  destruct (PacketType p =? PacketTypeAudio);
    [destruct (ParseAudioHeader _ _) as [[]?]; done|].
  destruct (PacketType p =? PacketTypeVideo);
    [destruct (ParseVideoHeader _ _) as [[]?]; done|done].
Qed.

Lemma lift_fuel {S A B} (r : res A) (k : A → go S B) s :
  r ≠ OutOfFuel → (∀ a, r = Ok a → (k a s).1 ≠ OutOfFuel) → ((lift r ≫= k) s).1 ≠ OutOfFuel.
Proof. intros H1 H2. unfold mbind, go_bind, lift. destruct r; try done. by apply H2. Qed.

Lemma index_at_fuel b i : index_at b i ≠ OutOfFuel.
Proof. unfold index_at. destruct (0 <=? i); [|done]. by destruct (b !! _). Qed.

Lemma DemuxH_ends p : (DemuxH p).1 ≠ OutOfFuel.
Proof.
  assert (H1 : ∀ b t, (ParseAudioHeader b t).1 ≠ OutOfFuel).
  { intros b t. unfold ParseAudioHeader. destruct (_ <? _); [done|].
    apply lift_fuel; [apply index_at_fuel|intros a _]. unfold set_mediat. rewrite go_bind_modify.
    destruct (_ =? _); [|done]. by apply lift_fuel; [apply index_at_fuel|]. }
  assert (H2 : ∀ b t, (ParseVideoHeader b t).1 ≠ OutOfFuel).
  { intros b t. unfold ParseVideoHeader. destruct (_ <? _); [done|].
    apply lift_fuel; [apply index_at_fuel|intros a _]. unfold set_mediat. rewrite go_bind_modify.
    destruct (_ =? _); [|done]. by do 4 (apply lift_fuel; [apply index_at_fuel|intros]). }
  unfold DemuxH, mbind, go_bind, demux_header.
  destruct (_ =? _); [specialize (H1 (pkt_Data p) no_tag)|destruct (_ =? _); [specialize (H2 (pkt_Data p) no_tag)|done]];
    by destruct (_ (pkt_Data p) no_tag) as [[]?].
Qed.

(** [Read] gives the next media message as a packet, whatever its header is like; right
    after it the buffer of the packet holds the data. *)
Lemma sr_Read_media now nowInMS a ty ts sid d ms r :
  media_type ty → tag_ok ts d → fits 32 sid →
  ready a (wire_of (a_size a) (media_message ty ts sid d :: ms)) (fc_conn (rd_conn r)) →
  ∃ r' p, sr_Read now nowInMS (r, no_packet) = (Ok tt, (r', p)) ∧
    load (heap_of r') p = packet_of ty ts sid d ∧
    ready a (wire_of (a_size a) ms) (fc_conn (rd_conn r')).
Proof.
  intros Hty Ht Hsid Hr. destruct (read_media a _ ty ts sid d ms Hty Ht Hsid Hr) as (x & c' & E & Hat & Hr').
  set (m := media_message ty ts sid d) in *.
  set (r1 := mkReader (SetPreTime now (rd_base r)) (rd_conn r) (ReadBWInfo r)).
  set (r2 := mkReader (rd_base r1) (set_fc_conn c' (rd_conn r)) (ReadBWInfo r1)).
  assert (HT : TypeID x = ty)
    by (apply (f_equal TypeID) in Hat; etransitivity; [exact Hat|apply writeChunk_csid_TypeID]).
  assert (Hm : next_media r1 = (Ok x, r2)).
  { unfold next_media, fc_input. cbn [media_loop].
    rewrite go_bind_ok with (a := x) (s' := r2) by (unfold on_rd_conn, on_conn; cbn [rd_conn r1]; by rewrite E).
    rewrite HT. by destruct Hty as [-> | ->]. }
  assert (Hb : ∀ A (m : go (StreamReader * PacketOf sref) A) B (k : A → go (StreamReader * PacketOf sref) B) s a s',
    m s = (Ok a, s') → (m ≫= k) s = k a s') by (intros; by apply go_bind_ok).
  set (p0 := mkPacket (media_packet_type ty) ts sid no_VHeader no_AHeader d).
  set (q := mkPacket (media_packet_type (TypeID x)) (Timestamp x) (StreamID x) no_VHeader no_AHeader (Data x)).
  assert (Hd : load (c_heap c') q = p0).
  { unfold load, q, with_data, p0. cbn [PacketType TimeStamp pkt_StreamID VHeader AHeader pkt_Data]. rewrite HT.
    pose proof (f_equal Timestamp Hat) as Ht1. pose proof (f_equal StreamID Hat) as Ht2.
    pose proof (f_equal Data Hat) as Ht3. cbn in Ht1, Ht2, Ht3. rewrite Ht1, Ht2, Ht3.
    unfold m, media_message, writeChunk_csid. by destruct Hty as [-> | ->]. }
  eexists _, (with_data (Data x) (DemuxH p0).2). split; [|split].
  - unfold sr_Read, recover. erewrite Hb by reflexivity. cbn [fst snd]. fold r1.
    erewrite Hb by (unfold on_p; rewrite Hm; reflexivity).
    erewrite Hb by reflexivity. erewrite Hb by reflexivity. erewrite Hb by reflexivity.
    unfold on_w, DemuxH_at, ignore_err. cbn [fst snd].
    change (heap_of _) with (c_heap c'). change (mkPacket _ _ _ _ _ _) with q. rewrite Hd.
    pose proof (DemuxH_ends p0) as Hf.
    destruct (DemuxH p0) as [[[]| | |]?]; first [reflexivity|by destruct Hf].
  - change (heap_of _) with (c_heap c'). unfold packet_of. fold p0.
    destruct (DemuxH_keeps p0) as (_ & _ & _ & Hk). unfold load. cbn [pkt_Data with_data].
    pose proof (f_equal Data Hat) as Ht3. cbn in Ht3. rewrite Ht3. unfold m, media_message.
    rewrite writeChunk_csid_Data. cbn [Data newCS]. destruct (DemuxH p0) as [? [? ? ? ? ? ?]].
    cbn in *. unfold with_data. cbn. by rewrite Hk.
  - exact Hr'.
Qed.

Lemma Demux_header p p' : Demux p = (Ok tt, p') →
  VHeader (DemuxH p).2 = VHeader p' ∧ AHeader (DemuxH p).2 = AHeader p'.
Proof.
  unfold Demux, DemuxH, mbind, go_bind.
  assert (Hm : demux_header "Unsupport type" p = demux_header "Unsupport type:%d" p ∨
    ∃ e e', demux_header "Unsupport type" p = (Err e, p) ∧ demux_header "Unsupport type:%d" p = (Err e', p)).
  { unfold demux_header. repeat case_match; try (by left). right. by eexists _, _. }
  destruct Hm as [->|(e & e' & -> & ->)]; [|done].
  destruct (demux_header _ p) as [[n| | |] q]; try done.
  unfold get, lift. destruct (slice_from _ _); try done. by intros [= <-].
Qed.

(** A writer on a connection with [out] written to it, all of it flushed. *)
Record writing {D} (k : Z) (out : bytes) (w : StreamWriter D) : Prop := {
  wt_conn : ∃ a inp n, endpoint a k out inp n (fc_conn (sw_conn w)) ∧
    bw_sent (rw_w (c_rw (fc_conn (sw_conn w)))) = out;
  wt_open : sw_closed w = false;
}.

(** The packet [p] carries the tag [d] of the type [ty]. *)
Record carries (ty ts sid : Z) (d : bytes) (p : Packet) : Prop := {
  cy_type : PacketType p = media_packet_type ty;
  cy_ts : TimeStamp p = ts;
  cy_sid : pkt_StreamID p = sid;
  cy_data : pkt_Data p = d;
}.

Lemma packet_of_carries ty ts sid d : carries ty ts sid d (packet_of ty ts sid d).
Proof. destruct (DemuxH_keeps (mkPacket (media_packet_type ty) ts sid no_VHeader no_AHeader d)) as (?&?&?&?). by constructor. Qed.

(** Sending a packet puts its message on the wire, at the writer's time. *)
Lemma send_one_ok {D} now nowInMS k out ty ts sid d p (w : StreamWriter D) :
  writing k out w → carries ty ts sid d p → media_type ty → fits 32 sid →
  let ts' := u32 (ts + BaseTimeStamp (sw_base w)) in tag_ok ts' d →
  ∃ w', send_one now nowInMS p w = (Ok tt, w') ∧
    writing k (out ++ wire_of k [media_message ty ts' sid d]) w' ∧
    packetQueue w' = packetQueue w ∧ keyframeNeed w' = keyframeNeed w ∧
    queue_closed w' = queue_closed w ∧ BaseTimeStamp (sw_base w') = BaseTimeStamp (sw_base w).
Proof.
  intros [(a & inp & n & He & _) Hop] [Hpt <- <- <-] Hty Hsid ts' Ht. unfold send_one. rewrite !go_bind_modify.
  rewrite go_bind_ok with (a := set_sw_cs (packet_message (BaseTimeStamp (sw_base w)) p (sw_cs w)) w)
    (s' := set_sw_cs (packet_message (BaseTimeStamp (sw_base w)) p (sw_cs w)) w) by done.
  rewrite !go_bind_modify. cbn [sw_cs set_sw_cs].
  pose proof (to_len _ _ Ht) as Hl. pose proof (len_nonneg (pkt_Data p)).
  assert (Hcs : packet_message (BaseTimeStamp (sw_base w)) p (sw_cs w)
    = newCS 0 0 ts' (len (pkt_Data p)) ty (pkt_StreamID p) (pkt_Data p)).
  { unfold packet_message. rewrite Hpt, (u32_small (len _)) by (unfold fits; lia).
    by destruct Hty as [-> | ->]. }
  rewrite Hcs. set (cs := newCS _ _ _ _ _ _ _). set (w1 := set_sw_base _ _).
  assert (Hs : sendable (writeChunk_csid cs)) by (by apply media_sendable).
  assert (Hn : ∀ j, next_size j (writeChunk_csid cs) = j).
  { intros j. unfold next_size. rewrite writeChunk_csid_TypeID. by destruct Hty as [-> | ->]. }
  destruct (endpoint_write a k out inp n (fc_conn (sw_conn w)) (writeChunk_csid cs) He Hs)
    as (m' & c1 & E1 & He1).
  { unfold size_fits. rewrite writeChunk_csid_TypeID. by destruct Hty as [-> | ->]. }
  rewrite Write_csid in E1. rewrite Hn, writeChunk_csid_idem in He1.
  destruct (endpoint_flush _ _ _ _ _ c1 He1) as (c2 & E2 & He2 & Hsent).
  assert (Hw : fc_Write cs (sw_conn w) = (Ok tt, set_fc_conn c1 (sw_conn w))).
  { unfold fc_Write. replace (_ || _) with false by (by destruct Hty as [-> | ->]).
    rewrite go_bind_ret. unfold on_conn. by rewrite (go_bind_ok _ _ _ _ _ E1). }
  rewrite go_bind_ok with (a := inl tt) (s' := set_sw_conn (set_fc_conn c1 (sw_conn w)) w1)
    by (unfold try, on_sw_conn; change (sw_conn w1) with (sw_conn w); by rewrite Hw).
  unfold ignore_err, on_sw_conn, fc_Flush, on_conn.
  change (fc_conn (sw_conn (set_sw_conn (set_fc_conn c1 (sw_conn w)) w1))) with c1. rewrite E2.
  eexists. split; [reflexivity|]. split; [|split_and!; try done].
  - constructor; [by exists a, inp, n|done].
  - unfold w1, BaseTimeStamp, RecTimeStamp. cbn. by repeat case_match.
Qed.

(** ** Through a stream *)

(** A tag of a publisher, as a message and as a packet. *)
Record mtag := mkMTag { mt_type : Z; mt_ts : Z; mt_data : bytes }.

Definition mtag_ok (t : mtag) : Prop := media_type (mt_type t) ∧ tag_ok (mt_ts t) (mt_data t).
Definition tag_message (sid : Z) (t : mtag) : ChunkStream bytes :=
  media_message (mt_type t) (mt_ts t) sid (mt_data t).
Definition tag_packet (sid : Z) (t : mtag) : Packet := packet_of (mt_type t) (mt_ts t) sid (mt_data t).

Section gate.
Variable sid : Z.

(** What a player gets of some tags: no picture before the first key frame. *)
Fixpoint gate_tags (need : bool) (ts : list mtag) : list mtag :=
  match ts with
  | [] => []
  | t :: ts =>
      let p := tag_packet sid t in
      if is_video p && need && negb (FrameType (VHeader p) =? FRAME_KEY) then gate_tags need ts
      else t :: gate_tags (if is_video p then false else need) ts
  end.

Lemma gate_tags_ok ts : Forall mtag_ok ts → ∀ need, Forall mtag_ok (gate_tags need ts).
Proof.
  induction 1 as [|t ts Ht _ IH]; intros need; [by apply Forall_nil|]. cbn [gate_tags].
  destruct (_ && negb _); [apply IH|]. by apply Forall_cons.
Qed.

Lemma gate_open ts : gate_tags false ts = ts.
Proof.
  induction ts as [|t ts IH]; [done|]. cbn [gate_tags]. rewrite andb_false_r. cbn [andb].
  f_equal. by destruct (is_video _).
Qed.

End gate.

(** The key frame at the start of a picture. *)
Lemma key_tag_opens sid t ts : is_key (tag_packet sid t) = true → gate_tags sid true (t :: ts) = t :: ts.
Proof.
  unfold is_key. intros [Hv Hk]%andb_prop. cbn [gate_tags]. rewrite Hv, Hk. cbn [negb andb].
  by rewrite gate_open.
Qed.

(** ** Reading any input *)

Lemma media_loop_ends fuel : ∀ r, conn_inv (fc_conn (rd_conn r)) →
  (length (rw_in (c_rw (fc_conn (rd_conn r)))) < fuel)%nat →
  outcome (read_panic (fc_conn (rd_conn r))) (λ r', conn_inv (fc_conn (rd_conn r')))
    (λ m r', conn_inv (fc_conn (rd_conn r')) ∧ is_media (TypeID m) = true) (media_loop fuel) r.
Proof.
  induction fuel as [|fuel IH]; intros r Hc Hf; [lia|]. cbn [media_loop].
  pose proof (Read_strict _ Hc) as H. unfold outcome at 1, mbind, go_bind, on_rd_conn, on_conn. unfold outcome in H.
  destruct (RtmpConn_Read (fc_conn (rd_conn r))) as [[m|e|p|] c']; try done.
  destruct H as (Hc' & Hs & Hl). destruct (is_media (TypeID m)) eqn:Hm; [by split|].
  set (r' := mkReader _ _ _). refine (outcome_weaken _ _ _ _ _ r' (IH r' Hc' ltac:(cbn; lia)) _).
  intros p. unfold read_panic, r'. cbn. by rewrite Hs.
Qed.

(** The packet [p] is that of the message [cs], whose data is in a buffer of [r]: its type,
    time, stream and data, and its header as far as the data can be parsed. *)
Definition filled (cs : ChunkStream sref) (r : StreamReader) (p : PacketOf sref) : Prop :=
  pkt_Data p = Data cs ∧
  load (heap_of r) p = packet_of (TypeID cs) (Timestamp cs) (StreamID cs) (sr_get (heap_of r) (Data cs)).

(** C29: The reader of a stream returns on every input, never by a panic, whatever the
    publisher sends, and the result is one of three: an error; no error, and the packet of
    the next media message; or no error and the packet still empty, when reading the
    message panicked, for one of the reasons of [Read], and the panic was recovered.  But
    for the last case the connection is well formed afterwards. *)
Theorem sr_Read_total now nowInMS r : conn_inv (fc_conn (rd_conn r)) →
  let next := next_media (mkReader (SetPreTime now (rd_base r)) (rd_conn r) (ReadBWInfo r)) in
  ∃ x r' p', sr_Read now nowInMS (r, no_packet) = (x, (r', p')) ∧
    match x with
    | Ok _ =>
        (∃ cs r2, next = (Ok cs, r2) ∧ is_media (TypeID cs) = true ∧ filled cs r' p' ∧
           conn_inv (fc_conn (rd_conn r'))) ∨
        (∃ e r2, next = (Panic e, r2) ∧ read_panic (fc_conn (rd_conn r)) e ∧ p' = no_packet)
    | Err _ => conn_inv (fc_conn (rd_conn r'))
    | _ => False
    end.
Proof.
  intros Hc next. unfold sr_Read, recover. set (r1 := mkReader (SetPreTime now (rd_base r)) (rd_conn r) (ReadBWInfo r)) in *.
  pose proof (media_loop_ends (fc_input (rd_conn r1)) r1 Hc (Nat.lt_succ_diag_r _)) as H. unfold outcome in H.
  unfold mbind, go_bind, on_p, on_w, modify, gets. fold r1. unfold next, next_media in *.
  destruct (media_loop (fc_input (rd_conn r1)) r1) as [[m|e|q|] r2]; [| | |done].
  - destruct H as [Hi Hm]. unfold DemuxH_at, ignore_err. set (p0 := mkPacket _ _ _ _ _ (Data m)). set (r3 := rd_SaveStatics _ _ _ _ _).
    set (p1 := load (heap_of r3) p0). change p1 with (mkPacket (media_packet_type (TypeID m)) (Timestamp m) (StreamID m)
      no_VHeader no_AHeader (sr_get (heap_of r3) (Data m))) in *.
    set (p2 := mkPacket _ _ _ _ _ (sr_get _ _)). pose proof (DemuxH_ends p2) as Hd. destruct (DemuxH_keeps p2) as (_ & _ & _ & Hk).
    assert (Hfill : filled m r3 (with_data (Data m) (DemuxH p2).2)).
    { split; [done|]. unfold packet_of. fold p2. unfold load, with_data. cbn. cbn in Hk. destruct (DemuxH p2) as [? [? ? ? ? ? ?]].
      cbn in *. by rewrite Hk. }
    destruct (DemuxH p2) as [[b|e|q|] p3]; try (by destruct Hd); eexists _, _, _; (split; [reflexivity|]);
      left; exists m, r2; by split_and!.
  - by eexists _, _, _.
  - eexists _, _, _. split; [reflexivity|]. right. by exists q, r2.
Qed.

(** A byte that cannot be a message, and a control message cut short: an error, and an empty
    packet. *)
Lemma sr_Read_total_witness : let r := NewStreamReader (NewForwardConnect (conn_on [200; 1; 255])) 0 in
  ∃ x r' p', sr_Read 1 1 (r, no_packet) = (x, (r', p')) ∧ match x with Err _ => True | _ => False end ∧
    conn_inv (fc_conn (rd_conn r')).
Proof.
  intros r. assert (Hc : conn_inv (fc_conn (rd_conn r))) by (apply NewRtmpConn_inv; by repeat constructor).
  destruct (sr_Read_total 1 1 r Hc) as (x & r' & p' & E & H). exists x, r', p'. split; [exact E|].
  assert (Hx : match (sr_Read 1 1 (r, no_packet)).1 with Err _ => True | _ => False end) by (vm_compute; exact I).
  rewrite E in Hx. by destruct x.
Defined.

Example sr_Read_recovers : let r := NewStreamReader (NewForwardConnect (conn_on (hdr0 2 0 3 1 ++ [1; 2; 3]))) 0 in
  (sr_Read 1 1 (r, no_packet)).1 = Ok tt ∧ (sr_Read 1 1 (r, no_packet)).2.2 = no_packet.
Proof. split; vm_compute; reflexivity. Qed.

Lemma check_loop_ends {D} fuel : ∀ w : StreamWriter D, conn_inv (fc_conn (sw_conn w)) →
  (length (rw_in (c_rw (fc_conn (sw_conn w)))) < fuel)%nat →
  outcome (read_panic (fc_conn (sw_conn w))) (λ _, False)
    (λ _ w', sw_closed w' = true ∧ queue_closed w' = queue_closed w || negb (sw_closed w) ∧
       packetQueue w' = packetQueue w ∧ keyframeNeed w' = keyframeNeed w) (check_loop fuel) w.
Proof.
  induction fuel as [|fuel IH]; intros w Hc Hf; [lia|]. cbn [check_loop].
  pose proof (Read_strict _ Hc) as H. unfold outcome at 1, mbind, go_bind, try, on_sw_conn, fc_Read, on_conn.
  unfold outcome in H. unfold mbind, go_bind.
  destruct (RtmpConn_Read (fc_conn (sw_conn w))) as [[m|e|p|] c']; try done.
  - destruct H as (Hc' & Hs & Hl). set (w' := set_sw_conn (set_fc_conn c' (sw_conn w)) w).
    assert (Hl' : (length (rw_in (c_rw (fc_conn (sw_conn w')))) < fuel)%nat) by (unfold w'; cbn; lia).
    refine (outcome_weaken _ _ _ _ _ w' (IH w' Hc' Hl') _). intros p. unfold read_panic, w'. cbn. by rewrite Hs.
  - cbn. unfold sw_Close. cbn. destruct (sw_closed w); cbn; by rewrite ?orb_false_r, ?orb_true_r.
Qed.


