(* ===== verification/Stream.v ===== *)
(** * One stream (src/protocol/stream.go)

    The loop of a stream and the goroutines around it: those that hand readers and writers
    to it, those that read the publisher, and for every writer the one that sends its queue
    and the one that watches its player.  Each event is one turn of one of them. *)
From S2P Require Import Prelude Pio GoIO ReadWriter Av Chunk Conn Cache H264 Media Flv.
From S2P Require Import Amf Amf3 Amf0 Forward Commands StreamRW.

Record StreamInfo := mkInfo { App : bytes; Name : bytes; URL : bytes }.

(** The capacities of the channels. *)
Definition pktChan_cap : nat := 16.
Definition writerChan_cap : nat := 1.
Definition readerChan_cap : nat := 1.

(** The loop runs; it has returned and the deferred function is to remove the stream; it
    closes what is left; it is done. *)
Inductive phase := Running | Removing | Closing | Exited.

#[export] Instance phase_eq_dec : EqDecision phase.
Proof. solve_decision. Defined.

(** A packet in the stream: its data is a slice of a buffer of its reader's connection. *)
Abbreviation dref := (nat * sref)%type.
Abbreviation SPacket := (PacketOf dref).

(** A goroutine in [startRead]: before [wg.Add], at the top of its loop, with a packet to
    put into [pktChan], and after [wg.Done]. *)
Inductive read_pc := Spawned | Reading | Holding (p : SPacket) | Stopped.

(** A writer with its two goroutines. *)
Record Writer := mkW { w_obj : StreamWriter dref; w_sending : bool; w_checking : bool }.

(** A stream with the goroutines that work for it.  Readers and writers are shared: the
    stream, its channels and the goroutines name them by their place in the two heaps.
    [adding_writers] and [adding_readers] are in the goroutines of [AddWriter] and
    [AddReader], before the channel. *)
Record World := mkWorld {
  s_info : StreamInfo;
  s_cache : Cache dref;
  s_reader : option nat;
  s_writers : list nat;
  pktChan : list SPacket;
  writerChan : list nat;
  readerChan : list nat;
  s_phase : phase;
  adding_writers : gset nat;
  adding_readers : gset nat;
  reading : list read_pc;
  heap_w : gmap nat Writer;
  heap_r : gmap nat StreamReader;
}.

Definition NewStream (info : StreamInfo) (gopNum : Z) : World :=
  mkWorld info (NewCache gopNum) None [] [] [] [] Running ∅ ∅ [] ∅ ∅.

Definition set_s_cache v w := mkWorld (s_info w) v (s_reader w) (s_writers w) (pktChan w) (writerChan w)
  (readerChan w) (s_phase w) (adding_writers w) (adding_readers w) (reading w) (heap_w w) (heap_r w).
Definition set_s_reader v w := mkWorld (s_info w) (s_cache w) v (s_writers w) (pktChan w) (writerChan w)
  (readerChan w) (s_phase w) (adding_writers w) (adding_readers w) (reading w) (heap_w w) (heap_r w).
Definition set_s_writers v w := mkWorld (s_info w) (s_cache w) (s_reader w) v (pktChan w) (writerChan w)
  (readerChan w) (s_phase w) (adding_writers w) (adding_readers w) (reading w) (heap_w w) (heap_r w).
Definition set_pktChan v w := mkWorld (s_info w) (s_cache w) (s_reader w) (s_writers w) v (writerChan w)
  (readerChan w) (s_phase w) (adding_writers w) (adding_readers w) (reading w) (heap_w w) (heap_r w).
Definition set_writerChan v w := mkWorld (s_info w) (s_cache w) (s_reader w) (s_writers w) (pktChan w) v
  (readerChan w) (s_phase w) (adding_writers w) (adding_readers w) (reading w) (heap_w w) (heap_r w).
Definition set_readerChan v w := mkWorld (s_info w) (s_cache w) (s_reader w) (s_writers w) (pktChan w)
  (writerChan w) v (s_phase w) (adding_writers w) (adding_readers w) (reading w) (heap_w w) (heap_r w).
Definition set_s_phase v w := mkWorld (s_info w) (s_cache w) (s_reader w) (s_writers w) (pktChan w)
  (writerChan w) (readerChan w) v (adding_writers w) (adding_readers w) (reading w) (heap_w w) (heap_r w).
Definition set_adding_writers v w := mkWorld (s_info w) (s_cache w) (s_reader w) (s_writers w) (pktChan w)
  (writerChan w) (readerChan w) (s_phase w) v (adding_readers w) (reading w) (heap_w w) (heap_r w).
Definition set_adding_readers v w := mkWorld (s_info w) (s_cache w) (s_reader w) (s_writers w) (pktChan w)
  (writerChan w) (readerChan w) (s_phase w) (adding_writers w) v (reading w) (heap_w w) (heap_r w).
Definition set_reading v w := mkWorld (s_info w) (s_cache w) (s_reader w) (s_writers w) (pktChan w)
  (writerChan w) (readerChan w) (s_phase w) (adding_writers w) (adding_readers w) v (heap_w w) (heap_r w).
Definition set_heap_w v w := mkWorld (s_info w) (s_cache w) (s_reader w) (s_writers w) (pktChan w)
  (writerChan w) (readerChan w) (s_phase w) (adding_writers w) (adding_readers w) (reading w) v (heap_r w).
Definition set_heap_r v w := mkWorld (s_info w) (s_cache w) (s_reader w) (s_writers w) (pktChan w)
  (writerChan w) (readerChan w) (s_phase w) (adding_writers w) (adding_readers w) (reading w) (heap_w w) v.

(** A call on the writer [i]. *)
Definition on_w_obj {A} (i : nat) (m : go (StreamWriter dref) A) : go World A := λ w,
  match heap_w w !! i with
  | Some o => let '(r, x) := m (w_obj o) in
      (r, set_heap_w (<[i := mkW x (w_sending o) (w_checking o)]> (heap_w w)) w)
  | None => (Panic NilDereference, w)
  end.

(** ** Adding readers and writers *)

(** [NewStreamWriter] starts the two goroutines of the writer. *)
Definition AddWriter (i : nat) (conn : ForwardConnect) (now : Z) (w : World) : World :=
  set_adding_writers ({[i]} ∪ adding_writers w)
    (set_heap_w (<[i := mkW (NewStreamWriter conn now) true true]> (heap_w w)) w).

Definition AddReader (i : nat) (conn : ForwardConnect) (now : Z) (w : World) : World :=
  set_adding_readers ({[i]} ∪ adding_readers w)
    (set_heap_r (<[i := NewStreamReader conn now]> (heap_r w)) w).

(** ** startRead *)

(** Goroutines between [wg.Add] and [wg.Done]. *)
Definition in_wg (pc : read_pc) : bool := match pc with Reading | Holding _ => true | _ => false end.

(** One turn of the loop up to the [select]; the reader is that of the stream at this moment. *)
Definition read_turn (g : nat) (now nowInMS : Z) : go World unit := λ w,
  match s_reader w with
  | None => (Panic NilDereference, w)
  | Some i =>
      match heap_r w !! i with
      | None => (Panic NilDereference, w)
      | Some r =>
          match sr_Read now nowInMS (r, no_packet) with
          | (Ok _, (r, q)) =>
              let p := with_data (i, pkt_Data q) q in
              (Ok tt, set_heap_r (<[i := r]> (heap_r w))
                (set_s_cache (Cache_Write p (s_cache w)) (set_reading (<[g := Holding p]> (reading w)) w)))
          | (Err _, (r, _)) =>
              (Ok tt, set_heap_r (<[i := r]> (heap_r w)) (set_reading (<[g := Stopped]> (reading w)) w))
          | (Panic e, (r, _)) => (Panic e, set_heap_r (<[i := r]> (heap_r w)) w)
          | (OutOfFuel, (r, _)) => (OutOfFuel, set_heap_r (<[i := r]> (heap_r w)) w)
          end
      end
  end.

(** The [select]: a packet is dropped when the channel is full. *)
Definition push_turn (g : nat) (p : SPacket) (w : World) : World :=
  set_reading (<[g := Reading]> (reading w))
    (if Nat.ltb (length (pktChan w)) pktChan_cap then set_pktChan (pktChan w ++ [p]) w else w).

(** ** streamLoop *)

(** [w.Write(pkt)]; a writer with an error is closed, and its place set to nil. *)
Definition forward_to (p : SPacket) (i : nat) : go World (option nat) :=
  r ← try (on_w_obj i (sw_Write p));
  match r with
  | inl _ => mret (Some i)
  | inr _ => _ ← on_w_obj i (modify sw_Close); mret None
  end.

Fixpoint forward_all (p : SPacket) (ids : list nat) : go World (list (option nat)) :=
  match ids with
  | [] => mret []
  | i :: ids => o ← forward_to p i; os ← forward_all p ids; mret (o :: os)
  end.

(** The loop that takes the nils out. *)
Fixpoint compact (fuel i : nat) (l : list (option nat)) : list (option nat) :=
  match fuel with
  | O => l
  | S fuel =>
      match l !! i with
      | None => l
      | Some None => compact fuel i (take i l ++ drop (S i) l)
      | Some (Some _) => compact fuel (S i) l
      end
  end.

Definition take_packet : go World unit :=
  w ← get;
  match pktChan w with
  | [] => mret tt
  | p :: ps =>
      _ ← modify (set_pktChan ps);
      os ← forward_all p (s_writers w);
      modify (set_s_writers (omap id (compact (S (length os)) 0 os)))
  end.

(** A writer is sent the cache; without an error it is one of the stream's. *)
Definition join : go World unit :=
  w ← get;
  match writerChan w with
  | [] => mret tt
  | i :: rest =>
      _ ← modify (set_writerChan rest);
      r ← try (on_w_obj i (λ sw,
            let ch := mkChan (maxQueueNum - length (packetQueue sw)) (packetQueue sw) (queue_closed sw) in
            let '(r, ch) := Cache_Send (s_cache w) ch in (r, set_packetQueue (ch_sent ch) sw)));
      match r with
      | inl _ => modify (λ w, set_s_writers (s_writers w ++ [i]) w)
      | inr _ => _ ← on_w_obj i (modify sw_Close); modify (set_s_phase Removing)
      end
  end.

(** [for _, w := range s.writers { ... }] with one call in the loop. *)
Fixpoint each_writer (f : StreamWriter dref → StreamWriter dref) (ids : list nat) : go World unit :=
  match ids with
  | [] => mret tt
  | i :: ids => _ ← on_w_obj i (modify f); each_writer f ids
  end.

Definition calc_base (sw : StreamWriter dref) : StreamWriter dref := set_sw_base (CalcBaseTimestamp (sw_base sw)) sw.

(** A new publisher; with an old one the loop has waited for [wg] and empties [pktChan]. *)
Definition replace : go World unit :=
  w ← get;
  match readerChan w with
  | [] => mret tt
  | r :: rest =>
      _ ← modify (set_readerChan rest);
      _ ← match s_reader w with
          | None => mret tt
          | Some _ => _ ← modify (set_pktChan []); each_writer calc_base (s_writers w)
          end;
      modify (λ w, set_reading (reading w ++ [Spawned]) (set_s_reader (Some r) w))
  end.

Definition reader_alive (now : Z) (w : World) : bool :=
  match s_reader w with
  | None => false
  | Some i => match heap_r w !! i with Some r => Alive now (rd_base r) | None => false end
  end.

Fixpoint tick_loop (fuel : nat) (now : Z) (i : nat) : go World unit :=
  match fuel with
  | O => λ w, (OutOfFuel, w)
  | S fuel =>
      w ← get;
      match s_writers w !! i with
      | None => mret tt
      | Some k =>
          alive ← on_w_obj k (gets (λ sw, Alive now (sw_base sw)));
          if alive : bool then tick_loop fuel now (S i)
          else
            _ ← modify (set_s_writers (take i (s_writers w) ++ drop (S i) (s_writers w)));
            _ ← on_w_obj k (modify sw_Close);
            tick_loop fuel now i
      end
  end.

(** Every 30 seconds: without a publisher that reads, the loop returns. *)
Definition tick (now : Z) : go World unit := λ w,
  if reader_alive now w then tick_loop (S (length (s_writers w))) now 0 w
  else (Ok tt, set_s_phase Removing w).

(** *** close *)

Definition close_pending : go World unit :=
  w ← get;
  match writerChan w with
  | [] => mret tt
  | i :: rest => _ ← modify (set_writerChan rest); on_w_obj i (modify sw_Close)
  end.

Definition finish : go World unit :=
  w ← get;
  _ ← each_writer sw_Close (s_writers w);
  modify (set_s_phase Exited).

(** ** The goroutines of a writer *)

(** The bytes behind a packet, at this moment. *)
Definition bytes_at (m : gmap nat StreamReader) (d : dref) : bytes :=
  match m !! d.1 with Some r => sr_get (heap_of r) d.2 | None => [] end.

Definition send_turn (i : nat) (now nowInMS : Z) (o : Writer) (w : World) : option (res unit * World) :=
  match SendPacket_pass (bytes_at (heap_r w)) now nowInMS (w_obj o) with
  | None => None
  | Some (r, x) =>
      let alive := match r with Err _ => false | _ => true end in
      Some (match r with Err _ => Ok tt | _ => r end,
            set_heap_w (<[i := mkW x alive (w_checking o)]> (heap_w w)) w)
  end.

(** One turn of [Check]. *)
Definition check_turn (i : nat) (o : Writer) (w : World) : res unit * World :=
  match on_sw_conn fc_Read (w_obj o) with
  | (Ok _, x) => (Ok tt, set_heap_w (<[i := mkW x (w_sending o) true]> (heap_w w)) w)
  | (Err _, x) => (Ok tt, set_heap_w (<[i := mkW (sw_Close x) (w_sending o) false]> (heap_w w)) w)
  | (Panic e, x) => (Panic e, set_heap_w (<[i := mkW x (w_sending o) true]> (heap_w w)) w)
  | (OutOfFuel, x) => (OutOfFuel, set_heap_w (<[i := mkW x (w_sending o) true]> (heap_w w)) w)
  end.

(** ** Events *)

Inductive event :=
  | EAddWriter (i : nat) (conn : ForwardConnect) (now : Z)
  | EAddReader (i : nat) (conn : ForwardConnect) (now : Z)
  | EPutWriter (i : nat)
  | EPutReader (i : nat)
  | EStart (g : nat)
  | ERead (g : nat) (now nowInMS : Z)
  | EPush (g : nat)
  | EPacket
  | EJoin
  | EReplace
  | ETick (now : Z)
  | ERemoved
  | ECloseWriter
  | ECloseReader
  | EFinish
  | ESend (i : nat) (now nowInMS : Z)
  | ECheck (i : nat).

(** [do m when b] *)
Definition only {A} (b : bool) (x : A) : option A := if b then Some x else None.

Definition running (w : World) : bool := bool_decide (s_phase w = Running).
Definition closing (w : World) : bool := bool_decide (s_phase w = Closing).

(** What an event does, if it can happen now; a panic ends the whole program. *)
Definition exec (ev : event) (w : World) : option (res unit * World) :=
  match ev with
  | EAddWriter i conn now => only (bool_decide (heap_w w !! i = None)) (Ok tt, AddWriter i conn now w)
  | EAddReader i conn now => only (bool_decide (heap_r w !! i = None)) (Ok tt, AddReader i conn now w)
  | EPutWriter i =>
      only (bool_decide (i ∈ adding_writers w) && Nat.ltb (length (writerChan w)) writerChan_cap)
        (Ok tt, set_adding_writers (adding_writers w ∖ {[i]}) (set_writerChan (writerChan w ++ [i]) w))
  | EPutReader i =>
      only (bool_decide (i ∈ adding_readers w) && Nat.ltb (length (readerChan w)) readerChan_cap)
        (Ok tt, set_adding_readers (adding_readers w ∖ {[i]}) (set_readerChan (readerChan w ++ [i]) w))
  | EStart g =>
      match reading w !! g with
      | Some Spawned => Some (Ok tt, set_reading (<[g := Reading]> (reading w)) w)
      | _ => None
      end
  | ERead g now nowInMS =>
      match reading w !! g with
      | Some Reading => Some (read_turn g now nowInMS w)
      | _ => None
      end
  | EPush g =>
      match reading w !! g with
      | Some (Holding p) => Some (Ok tt, push_turn g p w)
      | _ => None
      end
  | EPacket => only (running w && negb (bool_decide (pktChan w = []))) (take_packet w)
  | EJoin => only (running w && negb (bool_decide (writerChan w = []))) (join w)
  | EReplace =>
      only (running w && negb (bool_decide (readerChan w = []))
            && (bool_decide (s_reader w = None) || negb (existsb in_wg (reading w))))
        (replace w)
  | ETick now => only (running w) (tick now w)
  | ERemoved => only (bool_decide (s_phase w = Removing)) (Ok tt, set_s_phase Closing w)
  | ECloseWriter => only (closing w && negb (bool_decide (writerChan w = []))) (close_pending w)
  | ECloseReader =>
      only (closing w && negb (bool_decide (readerChan w = [])))
        (Ok tt, set_readerChan (drop 1 (readerChan w)) w)
  | EFinish => only (closing w && bool_decide (writerChan w = []) && bool_decide (readerChan w = [])) (finish w)
  | ESend i now nowInMS =>
      match heap_w w !! i with
      | Some o => if w_sending o then send_turn i now nowInMS o w else None
      | None => None
      end
  | ECheck i =>
      match heap_w w !! i with
      | Some o => if w_checking o then Some (check_turn i o w) else None
      | None => None
      end
  end.

(** ** The loops *)

Lemma omap_Some {A} (l : list A) : omap id (Some <$> l) = l.
Proof. induction l as [|x l IH]; [done|]. cbn. by f_equal. Qed.

Lemma compact_app l1 l2 : ∀ fuel, (length l2 < fuel)%nat →
  compact fuel (length l1) ((Some <$> l1) ++ l2) = Some <$> (l1 ++ omap id l2 : list nat).
Proof.
  revert l1. induction l2 as [|o l2 IH]; intros l1 fuel Hf; (destruct fuel as [|fuel]; [simpl in Hf; lia|]); cbn [compact].
  - rewrite app_nil_r, lookup_ge_None_2 by (by rewrite length_fmap). cbn. by rewrite app_nil_r.
  - rewrite (list_lookup_middle _ _ o) by (by rewrite length_fmap). simpl in Hf. destruct o as [x|].
    + specialize (IH (l1 ++ [x]) fuel ltac:(lia)). rewrite length_app, fmap_app in IH.
      replace (length l1 + length [x])%nat with (S (length l1)) in IH by (simpl; lia).
      rewrite <- !(app_assoc _ [x]), <- !(app_assoc (Some <$> l1)) in IH. exact IH.
    + rewrite take_app_length' by (by rewrite length_fmap).
      rewrite drop_app_ge by (rewrite length_fmap; lia). rewrite length_fmap.
      replace (S (length l1) - length l1)%nat with 1%nat by lia. cbn [drop].
      apply IH. lia.
Qed.

(** The loop takes out the nils and nothing else. *)
Lemma compact_all l : omap id (compact (S (length l)) 0 l) = omap id l.
Proof.
  pose proof (compact_app [] l (S (length l)) (Nat.lt_succ_diag_r _)) as E. cbn [length fmap list_fmap app] in E.
  rewrite E. apply omap_Some.
Qed.

Definition write_obj (p : SPacket) (sw : StreamWriter dref) : StreamWriter dref :=
  match sw_Write p sw with
  | (Err _, sw') => sw_Close sw'
  | (_, sw') => sw'
  end.

(** What one writer does in [sw_Write], when its channel is only closed with it. *)
Record written (p : SPacket) (a b : StreamWriter dref) : Prop := {
  wr_base : sw_base b = sw_base a;
  wr_conn : sw_conn b = sw_conn a;
  wr_closed : sw_closed b = sw_closed a;
  wr_qclosed : queue_closed b = queue_closed a;
  wr_case : packetQueue b = packetQueue a ∧ (keyframeNeed b = false → keyframeNeed a = false) ∨
    packetQueue b = packetQueue a ++ [p] ∧ (length (packetQueue a) < maxQueueNum)%nat ∧
      (is_video p = true → is_key p = true ∨ keyframeNeed a = false) ∧
      (keyframeNeed b = false → is_video p = true ∨ keyframeNeed a = false);
}.

Lemma sw_Write_written p sw : (queue_closed sw = true → sw_closed sw = true) →
  (sw_Write p sw).1 = (if sw_closed sw then Err (Errorf "PeerWriter closed") else Ok tt) ∧
  written p sw (write_obj p sw).
Proof.
  intros Hq. unfold write_obj, sw_Write. destruct (sw_closed sw) eqn:Hc.
  { split; [done|]. unfold sw_Close. rewrite Hc. constructor; cbn; try done. left. split; [done|]. by destruct sw. }
  destruct (queue_closed sw) eqn:Hqc; [by discriminate Hq|].
  destruct (is_video p && keyframeNeed sw && _) eqn:Hd; [by split; [|constructor; try done; left]|].
  assert (Hnext : ∀ need,
    (if is_video p && keyframeNeed sw then set_keyframeNeed false sw else sw) = set_keyframeNeed need sw →
    need = negb (is_video p) && keyframeNeed sw).
  { intros need E. apply (f_equal keyframeNeed) in E. cbn in E. rewrite <- E. by destruct (is_video p), (keyframeNeed sw) eqn:?. }
  assert (Hset : (if is_video p && keyframeNeed sw then set_keyframeNeed false sw else sw)
    = set_keyframeNeed (negb (is_video p) && keyframeNeed sw) sw).
  { destruct sw as [? ? k ? ? ? ? ?]. cbn. by destruct (is_video p), k. }
  rewrite Hset. cbn [queue_closed set_keyframeNeed packetQueue]. rewrite Hqc.
  destruct (Nat.ltb_spec (length (packetQueue sw)) maxQueueNum) as [Hl|Hl].
  - split; [done|]. constructor; try done. right. cbn. split_and!; try done.
    + intros Hv. unfold is_key. rewrite Hv in *. destruct (keyframeNeed sw); [|by right]. left. cbn in *.
      by destruct (_ =? _).
    + destruct (is_video p); [by left|]. by right.
  - split; [done|]. constructor; try (by destruct (is_key p)). left. split; [by destruct (is_key p)|].
    destruct (is_key p) eqn:Hk; [done|]. cbn. intros Hn. destruct (keyframeNeed sw); [|done].
    unfold is_key in Hk. destruct (is_video p); [|done]. cbn in *. by rewrite Hk in Hd.
Qed.

Section heap.
Implicit Types (w : World) (m : gmap nat Writer).

Definition upd_obj (f : StreamWriter dref → StreamWriter dref) (o : Writer) : Writer := mkW (f (w_obj o)) (w_sending o) (w_checking o).

(** The writers of a heap keep their channels open as long as they are open. *)
Definition channels_ok m : Prop := ∀ i o, m !! i = Some o → queue_closed (w_obj o) = true → sw_closed (w_obj o) = true.

Definition known (ids : list nat) m : Prop := ∀ i, i ∈ ids → is_Some (m !! i).

(** The heap after a change of the writers [ids]. *)
Definition upd_all (f : StreamWriter dref → StreamWriter dref) (ids : list nat) m : gmap nat Writer :=
  map_imap (λ i o, Some (if bool_decide (i ∈ ids) then upd_obj f o else o)) m.

Lemma lookup_upd_all f ids m i :
  upd_all f ids m !! i = (λ o, if bool_decide (i ∈ ids) then upd_obj f o else o) <$> m !! i.
Proof. unfold upd_all. rewrite map_lookup_imap. by destruct (m !! i). Qed.

Lemma upd_all_nil f m : upd_all f [] m = m.
Proof.
  apply map_eq. intros i. rewrite lookup_upd_all. rewrite bool_decide_false by apply not_elem_of_nil.
  by destruct (m !! i).
Qed.

Lemma upd_all_cons f i ids m o : m !! i = Some o → i ∉ ids →
  upd_all f ids (<[i := upd_obj f o]> m) = upd_all f (i :: ids) m.
Proof.
  intros Hi Hn. apply map_eq. intros j. rewrite !lookup_upd_all. destruct (decide (j = i)) as [->|Hj].
  - rewrite lookup_insert_eq, Hi. cbn. rewrite bool_decide_false by done. by rewrite bool_decide_true by left.
  - rewrite lookup_insert_ne by done. destruct (m !! j); [|done]. cbn. f_equal.
    replace (bool_decide (j ∈ i :: ids)) with (bool_decide (j ∈ ids)); [done|].
    apply bool_decide_ext. rewrite elem_of_cons. split; [by right|by intros [->|]].
Qed.
End heap.

Lemma on_w_obj_ok {A} i (m : go (StreamWriter dref) A) w o r x : heap_w w !! i = Some o → m (w_obj o) = (r, x) →
  on_w_obj i m w = (r, set_heap_w (<[i := upd_obj (λ _, x) o]> (heap_w w)) w).
Proof. intros Ho Hm. unfold on_w_obj. by rewrite Ho, Hm. Qed.

Lemma known_insert ids i o m : known ids m → known ids (<[i:=o]> m).
Proof. intros H j Hj. destruct (decide (j = i)) as [->|]; [by rewrite lookup_insert_eq|rewrite lookup_insert_ne by done; by apply H]. Qed.

Lemma known_upd f l ids m : known ids m → known ids (upd_all f l m).
Proof. intros H j Hj. rewrite lookup_upd_all. by apply fmap_is_Some, H. Qed.

Lemma each_writer_ok f ids : NoDup ids → ∀ w, known ids (heap_w w) →
  each_writer f ids w = (Ok tt, set_heap_w (upd_all f ids (heap_w w)) w).
Proof.
  induction 1 as [|i ids Hi _ IH]; intros w Hk.
  { rewrite upd_all_nil. by destruct w. }
  destruct (Hk i) as [o Ho]; [by left|]. cbn [each_writer].
  rewrite go_bind_ok with (a := tt) (s' := set_heap_w (<[i := upd_obj f o]> (heap_w w)) w)
    by (by apply (on_w_obj_ok i (modify f) w o)).
  rewrite IH; [|by apply known_insert; intros j Hj; apply Hk; right].
  cbn [heap_w set_heap_w]. by rewrite (upd_all_cons f i ids (heap_w w) o).
Qed.

Definition open_in (m : gmap nat Writer) (i : nat) : bool :=
  match m !! i with Some o => negb (sw_closed (w_obj o)) | None => false end.

(** A packet goes to every writer; those that are closed are left out. *)
Lemma forward_all_ok p ids : NoDup ids → ∀ w, known ids (heap_w w) → channels_ok (heap_w w) →
  forward_all p ids w
  = (Ok ((λ i, if open_in (heap_w w) i then Some i else None) <$> ids),
     set_heap_w (upd_all (write_obj p) ids (heap_w w)) w).
Proof.
  induction 1 as [|i ids Hi _ IH]; intros w Hk Hc.
  { rewrite upd_all_nil. by destruct w. }
  destruct (Hk i) as [o Ho]; [by left|]. cbn [forward_all fmap list_fmap].
  destruct (sw_Write_written p (w_obj o) (Hc i o Ho)) as [Hr Hwr].
  set (w1 := set_heap_w (<[i := upd_obj (write_obj p) o]> (heap_w w)) w).
  assert (E : forward_to p i w = (Ok (if open_in (heap_w w) i then Some i else None), w1)).
  { unfold forward_to, try, mbind, go_bind, open_in, w1, upd_obj, write_obj. rewrite Ho.
    destruct (sw_Write p (w_obj o)) as [r x] eqn:Ex. cbn in Hr. subst r.
    rewrite (on_w_obj_ok i (sw_Write p) w o _ x Ho Ex). destruct (sw_closed (w_obj o)); [|done]. cbn.
    rewrite on_w_obj_ok with (o := upd_obj (λ _, x) o) (r := Ok tt) (x := sw_Close x);
      [|by cbn; rewrite lookup_insert_eq|done].
    cbn. by rewrite insert_insert_eq. }
  rewrite (go_bind_ok _ _ _ _ _ E).
  assert (Hc1 : channels_ok (heap_w w1)).
  { intros j x. cbn. destruct (decide (j = i)) as [->|]; [rewrite lookup_insert_eq; intros [= <-]|rewrite lookup_insert_ne by done; apply Hc].
    cbn. rewrite (wr_qclosed _ _ _ Hwr), (wr_closed _ _ _ Hwr). by apply (Hc i). }
  rewrite (go_bind_ok _ _ _ _ _ (IH w1 ltac:(apply known_insert; intros j Hj; apply Hk; by right) Hc1)).
  cbn [heap_w set_heap_w w1]. rewrite (upd_all_cons _ i ids (heap_w w) o) by done. unfold mret, go_ret. f_equal. f_equal. f_equal.
  apply list_fmap_ext. intros k j Hj. unfold open_in. rewrite lookup_insert_ne; [done|].
  intros <-. by apply Hi, list_elem_of_lookup_2 with k.
Qed.

Lemma omap_keep {A} (f : A → bool) (l : list A) : omap id ((λ i, if f i then Some i else None) <$> l) = filter (λ i, f i = true) l.
Proof.
  induction l as [|x l IH]; [done|]. rewrite fmap_cons, filter_cons. cbn [omap list_omap].
  destruct (f x); cbn [id]; [by rewrite decide_True, IH|by rewrite decide_False].
Qed.

(** A packet from the publisher reaches the open writers, and only they stay. *)
Lemma take_packet_ok w p ps : pktChan w = p :: ps → NoDup (s_writers w) →
  known (s_writers w) (heap_w w) → channels_ok (heap_w w) →
  take_packet w = (Ok tt, set_s_writers (filter (λ i, open_in (heap_w w) i = true) (s_writers w))
    (set_heap_w (upd_all (write_obj p) (s_writers w) (heap_w w)) (set_pktChan ps w))).
Proof.
  intros Hp Hn Hk Hc. unfold take_packet. rewrite go_bind_get, Hp. rewrite go_bind_modify.
  rewrite (go_bind_ok _ _ _ _ _ (forward_all_ok p (s_writers w) Hn (set_pktChan ps w) Hk Hc)).
  unfold modify. by rewrite compact_all, omap_keep.
Qed.

Definition alive_in (now : Z) (m : gmap nat Writer) (i : nat) : bool :=
  match m !! i with Some o => Alive now (sw_base (w_obj o)) | None => false end.

Definition keep_alive now m (l : list nat) : list nat := filter (λ i, alive_in now m i = true) l.
Definition drop_dead now m (l : list nat) : list nat := filter (λ i, alive_in now m i = false) l.

(** Closing does not touch the clock of a writer. *)
Lemma alive_close now i m o j : m !! i = Some o → alive_in now (<[i := upd_obj sw_Close o]> m) j = alive_in now m j.
Proof.
  intros Hi. unfold alive_in. destruct (decide (j = i)) as [->|]; [|by rewrite lookup_insert_ne].
  rewrite lookup_insert_eq, Hi. cbn. unfold sw_Close. by destruct (sw_closed (w_obj o)).
Qed.

Lemma tick_loop_ok now l2 : ∀ l1 w fuel, s_writers w = l1 ++ l2 → NoDup l2 →
  known l2 (heap_w w) → (length l2 < fuel)%nat →
  tick_loop fuel now (length l1) w
  = (Ok tt, set_s_writers (l1 ++ keep_alive now (heap_w w) l2)
      (set_heap_w (upd_all sw_Close (drop_dead now (heap_w w) l2) (heap_w w)) w)).
Proof.
  induction l2 as [|i l2 IH]; intros l1 w fuel Hw Hn Hk Hf; (destruct fuel as [|fuel]; [simpl in Hf; lia|]); cbn [tick_loop].
  - rewrite go_bind_get, Hw, lookup_ge_None_2 by (rewrite length_app; simpl; lia).
    unfold drop_dead, keep_alive. rewrite !filter_nil, upd_all_nil, <- Hw. by destruct w.
  - apply NoDup_cons in Hn as [Hi Hn]. destruct (Hk i) as [o Ho]; [by left|].
    rewrite go_bind_get, Hw, list_lookup_middle by done.
    rewrite go_bind_ok with (a := Alive now (sw_base (w_obj o))) (s' := w); last first.
    { erewrite on_w_obj_ok by done. destruct w as [? ? ? ? ? ? ? ? ? ? ? hw ?], o. cbn in *. by rewrite insert_id. }
    unfold keep_alive, drop_dead. rewrite !filter_cons. simpl in Hf.
    assert (Ha : alive_in now (heap_w w) i = Alive now (sw_base (w_obj o))) by (unfold alive_in; by rewrite Ho).
    destruct (Alive now (sw_base (w_obj o))) eqn:Ea.
    + rewrite decide_True, decide_False by (rewrite Ha; done). specialize (IH (l1 ++ [i]) w fuel).
      rewrite length_app, Nat.add_1_r, <- !app_assoc in IH. apply IH; try done || lia. intros j Hj. apply Hk. by right.
    + rewrite decide_False, decide_True by (rewrite Ha; done). rewrite go_bind_modify.
      rewrite take_app_length, drop_app_ge by lia. replace (S (length l1) - length l1)%nat with 1%nat by lia. cbn [drop].
      set (w1 := set_s_writers (l1 ++ l2) w).
      rewrite go_bind_ok with (a := tt) (s' := set_heap_w (<[i := upd_obj sw_Close o]> (heap_w w1)) w1)
        by (by apply (on_w_obj_ok i (modify sw_Close) w1 o)).
      rewrite (IH l1 _ fuel); [|done|done|by apply known_insert; intros j Hj; apply Hk; right|lia].
      assert (Hf1 : ∀ j, alive_in now (<[i := upd_obj sw_Close o]> (heap_w w)) j = alive_in now (heap_w w) j)
        by (intros; by apply alive_close).
      unfold keep_alive, drop_dead. cbn [heap_w set_heap_w set_s_writers w1].
      rewrite (list_filter_iff (λ j, alive_in now (<[i := upd_obj sw_Close o]> (heap_w w)) j = true)
        (λ j, alive_in now (heap_w w) j = true) l2) by (intros; by rewrite Hf1).
      rewrite (list_filter_iff (λ j, alive_in now (<[i := upd_obj sw_Close o]> (heap_w w)) j = false)
        (λ j, alive_in now (heap_w w) j = false) l2) by (intros; by rewrite Hf1).
      rewrite (upd_all_cons _ i _ (heap_w w) o Ho); [done|]. by intros []%list_elem_of_filter.
Qed.

(** The tick: the writers that wait longer than their time are closed and left out. *)
Lemma tick_ok now w : NoDup (s_writers w) → known (s_writers w) (heap_w w) → reader_alive now w = true →
  tick now w = (Ok tt, set_s_writers (keep_alive now (heap_w w) (s_writers w))
    (set_heap_w (upd_all sw_Close (drop_dead now (heap_w w) (s_writers w)) (heap_w w)) w)).
Proof. intros Hn Hk Ha. unfold tick. rewrite Ha. by rewrite (tick_loop_ok now (s_writers w) [] w); [|..|lia]. Qed.

Definition set_queue (q : list SPacket) (o : Writer) : Writer := upd_obj (set_packetQueue q) o.

Lemma cached_few (c : Cache dref) : (length (cachePkts c) ≤ 3)%nat.
Proof. unfold cachePkts. rewrite !length_app. by destruct (metadata c), (videoSeq c), (audioSeq c); simpl; lia. Qed.

Lemma send_cached (l : list SPacket) n closed :
  (length (cachePkts (cache_of l)) ≤ n)%nat → closed = false ∨ cachePkts (cache_of l) = [] →
  ∃ n', Cache_Send (cache_of l) (mkChan n [] closed) = (Ok tt, mkChan n' (cachePkts (cache_of l)) closed).
Proof.
  intros Hn Hop. unfold Cache_Send. destruct Hop as [-> |E].
  - replace n with (length (cachePkts (cache_of l)) + (n - length (cachePkts (cache_of l))))%nat by lia.
    rewrite (go_bind_ok _ _ _ _ _ (send_headers_ok _ _ [])). by eexists.
  - rewrite E. by eexists.
Qed.

(** A new writer has room for the cache and becomes one of the stream's. *)
Lemma join_ok w i rest o l : writerChan w = i :: rest → heap_w w !! i = Some o → packetQueue (w_obj o) = [] →
  s_cache w = cache_of l → queue_closed (w_obj o) = false ∨ cachePkts (cache_of l) = [] →
  join w = (Ok tt, set_s_writers (s_writers w ++ [i])
    (set_heap_w (<[i := set_queue (cachePkts (cache_of l)) o]> (heap_w w)) (set_writerChan rest w))).
Proof.
  intros Hc Ho Hq Hl Hop. unfold join. rewrite go_bind_get, Hc, go_bind_modify.
  set (w1 := set_writerChan rest w). pose proof (cached_few (cache_of l)) as H3.
  destruct (send_cached l maxQueueNum (queue_closed (w_obj o))) as (n' & E); [unfold maxQueueNum; lia|done|].
  rewrite go_bind_ok with (a := inl tt)
    (s' := set_heap_w (<[i := set_queue (cachePkts (cache_of l)) o]> (heap_w w1)) w1); [done|].
  unfold try. rewrite (on_w_obj_ok i _ w1 o (Ok tt) (set_packetQueue (cachePkts (cache_of l)) (w_obj o)) Ho); [done|].
  cbv zeta. rewrite Hq, Hl. cbn [length].
  rewrite Nat.sub_0_r. by rewrite E.
Qed.

(** ** History *)

(** What has been read from publishers, put into [pktChan], and taken from it by the loop,
    and what the goroutine of each writer has taken from its queue. *)
Record hist := mkHist {
  h_read : list SPacket;
  h_pushed : list SPacket;
  h_taken : list SPacket;
  h_sent : gmap nat (list SPacket);
}.

Definition no_hist : hist := mkHist [] [] [] ∅.

Definition sent_of (h : hist) (i : nat) : list SPacket := default [] (h_sent h !! i).

(** The history after an event that led from [w] to [w']. *)
Definition note (ev : event) (w w' : World) (h : hist) : hist :=
  match ev with
  | ERead g _ _ =>
      match reading w' !! g with
      | Some (Holding p) => mkHist (h_read h ++ [p]) (h_pushed h) (h_taken h) (h_sent h)
      | _ => h
      end
  | EPush g =>
      match reading w !! g with
      | Some (Holding p) =>
          if Nat.ltb (length (pktChan w)) pktChan_cap
          then mkHist (h_read h) (h_pushed h ++ [p]) (h_taken h) (h_sent h) else h
      | _ => h
      end
  | EPacket => mkHist (h_read h) (h_pushed h) (h_taken h ++ take 1 (pktChan w)) (h_sent h)
  | ESend i _ _ =>
      match heap_w w !! i with
      | Some o => mkHist (h_read h) (h_pushed h) (h_taken h)
                    (<[i := sent_of h i ++ take 1 (packetQueue (w_obj o))]> (h_sent h))
      | None => h
      end
  | _ => h
  end.

(** The states of a stream, each with its history. *)
Inductive reaches (info : StreamInfo) (gopNum : Z) : World → hist → Prop :=
  | reaches_new : reaches info gopNum (NewStream info gopNum) no_hist
  | reaches_step w h ev w' : reaches info gopNum w h → exec ev w = Some (Ok tt, w') →
      reaches info gopNum w' (note ev w w' h).

(** ** Invariant *)

(** The first picture in [l], if there is one, is a key frame. *)
Fixpoint key_first {D} (l : list (PacketOf D)) : bool :=
  match l with
  | [] => true
  | p :: l => if is_video p then is_key p else key_first l
  end.

Definition has_video {D} (l : list (PacketOf D)) : bool := existsb is_video l.

Lemma key_first_snoc {D} (l : list (PacketOf D)) p : key_first l = true →
  (is_video p = true → is_key p = true ∨ has_video l = true) → key_first (l ++ [p]) = true.
Proof.
  induction l as [|q l IH]; intros Hl Hp.
  - cbn. destruct (is_video p) eqn:E; [|done]. by destruct (Hp eq_refl).
  - cbn in *. destruct (is_video q); [done|]. by apply IH.
Qed.

Lemma has_video_app {D} (l1 l2 : list (PacketOf D)) : has_video (l1 ++ l2) = has_video l1 || has_video l2.
Proof. apply existsb_app. Qed.

Lemma latest_some {D} (kind : PacketOf D → bool) l p : latest kind l = Some p → kind p = true ∧ p ∈ l.
Proof.
  unfold latest. intros H. apply last_Some_elem_of, list_elem_of_filter in H. exact H.
Qed.

Lemma cached_key_first (l : list SPacket) : key_first (cachePkts (cache_of l)) = true.
Proof.
  unfold cachePkts, cache_of. cbn [metadata videoSeq audioSeq].
  assert (Hm : ∀ p, latest is_metadata l = Some p → is_video p = false).
  { intros p [Hp _]%latest_some. unfold is_metadata, is_video in *. apply Z.eqb_eq in Hp. by rewrite Hp. }
  assert (Ha : ∀ p, latest is_audio_header l = Some p → is_video p = false).
  { intros p [Hp _]%latest_some. unfold is_audio_header, is_video in *.
    apply andb_prop in Hp as [Hp%Z.eqb_eq _]. by rewrite Hp. }
  assert (Hv : ∀ p, latest is_video_header l = Some p → is_key p = true).
  { intros p [Hp _]%latest_some. unfold is_video_header, is_key, is_video in *.
    apply andb_prop in Hp as [[[H1 _]%andb_prop H2]%andb_prop _]. by rewrite H1, H2. }
  destruct (latest is_metadata l) as [m|]; destruct (latest is_video_header l) as [v|];
    destruct (latest is_audio_header l) as [a|]; cbn;
    rewrite ?(Hm _ eq_refl), ?(Hv _ eq_refl), ?(Ha _ eq_refl); try done;
    specialize (Hv _ eq_refl); unfold is_key in Hv; apply andb_prop in Hv as [-> _]; done.
Qed.

(** Everything the writer [i] has been given. *)
Definition given (h : hist) (i : nat) (sw : StreamWriter dref) : list SPacket := sent_of h i ++ packetQueue sw.

(** A writer: its queue has room for no more than it should, it has been given what the
    cache held at some time and then some of the packets the loop took, in their order, no
    picture before a key frame. *)
Record writer_inv (h : hist) (waiting : Prop) (i : nat) (sw : StreamWriter dref) : Prop := {
  wi_room : (length (packetQueue sw) ≤ maxQueueNum)%nat;
  wi_chan : queue_closed sw = true → sw_closed sw = true;
  wi_new : waiting → given h i sw = [] ∧ keyframeNeed sw = true;
  wi_given : ∃ l q, l `prefix_of` h_read h ∧ q `sublist_of` h_taken h ∧
    given h i sw = cachePkts (cache_of l) ++ q;
  wi_key : key_first (given h i sw) = true;
  wi_need : keyframeNeed sw = false → has_video (given h i sw) = true;
}.

Record stream_inv (h : hist) (w : World) : Prop := {
  si_cache : s_cache w = cache_of (h_read h);
  si_pkts : (length (pktChan w) ≤ pktChan_cap)%nat;
  si_wchan : (length (writerChan w) ≤ writerChan_cap)%nat;
  si_rchan : (length (readerChan w) ≤ readerChan_cap)%nat;
  si_pushed : h_taken h ++ pktChan w `sublist_of` h_pushed h;
  si_ids : NoDup (s_writers w ++ writerChan w);
  si_adding : ∀ i, i ∈ adding_writers w → i ∉ s_writers w ++ writerChan w;
  si_known : ∀ i, i ∈ s_writers w ++ writerChan w ∨ i ∈ adding_writers w → is_Some (heap_w w !! i);
  si_writer : ∀ i o, heap_w w !! i = Some o →
    writer_inv h (i ∈ writerChan w ∨ i ∈ adding_writers w) i (w_obj o);
  si_sent : ∀ i, heap_w w !! i = None → sent_of h i = [];
  si_readers : ∀ i, s_reader w = Some i ∨ i ∈ readerChan w ∨ i ∈ adding_readers w → is_Some (heap_r w !! i);
  si_spawned : s_reader w = None → reading w = [];
}.

(** *** Writers *)

(** The queue is as it was. *)
Record same_queue (a b : StreamWriter dref) : Prop := {
  sq_queue : packetQueue b = packetQueue a;
  sq_need : keyframeNeed b = keyframeNeed a;
  sq_chan : (queue_closed a = true → sw_closed a = true) → queue_closed b = true → sw_closed b = true;
}.

Lemma same_queue_refl a : same_queue a a.
Proof. by constructor. Qed.

Lemma same_queue_Close a : same_queue a (sw_Close a).
Proof. unfold sw_Close. by destruct (sw_closed a); constructor. Qed.

Lemma same_queue_calc a : same_queue a (calc_base a).
Proof. by constructor. Qed.

Lemma same_queue_conn c a : same_queue a (set_sw_conn c a).
Proof. by constructor. Qed.

(** The history has only grown, and not for [i]. *)
Record grows (i : nat) (h h' : hist) : Prop := {
  gr_read : h_read h `prefix_of` h_read h';
  gr_taken : h_taken h `sublist_of` h_taken h';
  gr_sent : sent_of h' i = sent_of h i;
}.

Lemma grows_refl i h : grows i h h.
Proof. by constructor. Qed.

Lemma writer_inv_same h h' wt wt' i a b : writer_inv h wt i a → grows i h h' → same_queue a b →
  (wt' → wt) → writer_inv h' wt' i b.
Proof.
  intros [Hr Hc Hn (l & q & Hl & Hq & E) Hk Hd] [Hgr Hgt Hgs] [Hsq Hsn Hsc] Hw.
  assert (Hg : given h' i b = given h i a) by (unfold given; by rewrite Hgs, Hsq).
  constructor; rewrite ?Hg, ?Hsq, ?Hsn; auto. exists l, q. split_and!; [by etrans|by etrans|done].
Qed.

(** A packet the loop took is given to a writer. *)
Lemma writer_inv_written h wt i p a b : writer_inv h wt i a → ¬ wt → written p a b →
  writer_inv (mkHist (h_read h) (h_pushed h) (h_taken h ++ [p]) (h_sent h)) wt i b.
Proof.
  intros [Hr Hc Hn (l & q & Hl & Hq & E) Hk Hd] Hwt [_ _ Hcl Hqc Hcase]. set (h' := mkHist _ _ _ _).
  assert (Hs : sent_of h' i = sent_of h i) by done.
  destruct Hcase as [[Hb Hnb]|(Hb & Hlen & Hv & Hnb)].
  - assert (Hg : given h' i b = given h i a) by (unfold given; by rewrite Hb).
    constructor; rewrite ?Hg, ?Hb; try done || auto.
    + rewrite Hcl, Hqc. done.
    + exists l, q. split_and!; [done|by apply sublist_inserts_r|done].
  - assert (Hg : given h' i b = given h i a ++ [p]) by (unfold given; by rewrite Hb, app_assoc).
    constructor; rewrite ?Hg, ?Hb; try done.
    + rewrite length_app. simpl. lia.
    + rewrite Hcl, Hqc. done.
    + exists l, (q ++ [p]). split_and!; [done|by apply sublist_app|by rewrite E, app_assoc].
    + apply key_first_snoc; [done|]. intros Hp. destruct (Hv Hp) as [|Ha]; [by left|right; auto].
    + intros Hb'. rewrite has_video_app. destruct (Hnb Hb') as [Hp|Ha].
      * unfold has_video at 2. cbn. rewrite Hp. by rewrite orb_true_r.
      * by rewrite (Hd Ha).
Qed.

(** A waiting writer is given the cache. *)
Lemma writer_inv_join h wt i a : writer_inv h wt i a → wt →
  writer_inv h False i (set_packetQueue (cachePkts (cache_of (h_read h))) a).
Proof.
  intros [Hr Hc Hn _ _ _] Hwt. destruct (Hn Hwt) as [Hg Hk]. unfold given in Hg. apply app_nil in Hg as [Hs Hq].
  set (b := set_packetQueue _ a). assert (Hgb : given h i b = cachePkts (cache_of (h_read h))) by (unfold given; by rewrite Hs).
  constructor; try done.
  - cbn. pose proof (cached_few (cache_of (h_read h))). unfold maxQueueNum. lia.
  - exists (h_read h), []. rewrite Hgb, app_nil_r. split_and!; [done|apply sublist_nil_l|done].
  - rewrite Hgb. apply cached_key_first.
  - cbn. by rewrite Hk.
Qed.

(** The head of the queue is handed to the goroutine that sends. *)
Lemma writer_inv_sent h wt i p q a b : writer_inv h wt i a → packetQueue a = p :: q →
  same_queue (set_packetQueue q a) b →
  writer_inv (mkHist (h_read h) (h_pushed h) (h_taken h) (<[i := sent_of h i ++ [p]]> (h_sent h))) wt i b.
Proof.
  intros [Hr Hc Hn Hg Hk Hd] Hq [Hsq Hsn Hsc]. cbn in Hsq, Hsn, Hsc. set (h' := mkHist _ _ _ _).
  assert (E : given h' i b = given h i a).
  { unfold given, sent_of at 1. cbn [h_sent h']. rewrite lookup_insert_eq, Hsq, Hq. cbn. by rewrite <- app_assoc. }
  constructor; rewrite ?E, ?Hsn; try done; [|by auto].
  rewrite Hsq. rewrite Hq in Hr. simpl in Hr. lia.
Qed.

(** *** Events that give no packet to anyone *)

Definition same_queues (m m' : gmap nat Writer) : Prop :=
  ∀ i, option_Forall2 (λ o o', same_queue (w_obj o) (w_obj o')) (m !! i) (m' !! i).

Record quiet_step (w w' : World) : Prop := {
  qs_cache : s_cache w' = s_cache w;
  qs_pkts : pktChan w' `sublist_of` pktChan w;
  qs_writers : s_writers w' `sublist_of` s_writers w;
  qs_wchan : writerChan w' `sublist_of` writerChan w;
  qs_adding : adding_writers w' ⊆ adding_writers w;
  qs_rchan : readerChan w' `sublist_of` readerChan w;
  qs_readers : ∀ i, s_reader w' = Some i ∨ i ∈ adding_readers w' →
    s_reader w = Some i ∨ i ∈ readerChan w ∨ i ∈ adding_readers w;
  qs_heap_r : ∀ i, is_Some (heap_r w !! i) → is_Some (heap_r w' !! i);
  qs_spawned : s_reader w' = None → s_reader w = None ∧ (reading w = [] → reading w' = []);
  qs_heap_w : same_queues (heap_w w) (heap_w w');
}.

Lemma same_queues_refl m : same_queues m m.
Proof. intros i. destruct (m !! i); constructor. apply same_queue_refl. Qed.

Lemma same_queues_insert m i o o' : m !! i = Some o → same_queue (w_obj o) (w_obj o') →
  same_queues m (<[i := o']> m).
Proof.
  intros Hi Hs j. destruct (decide (j = i)) as [->|]; [rewrite lookup_insert_eq, Hi; by constructor|].
  rewrite lookup_insert_ne by done. apply same_queues_refl.
Qed.

Lemma same_queues_upd f ids m : (∀ a, same_queue a (f a)) → same_queues m (upd_all f ids m).
Proof.
  intros Hf i. rewrite lookup_upd_all. destruct (m !! i) as [o|]; constructor.
  case_bool_decide; [apply Hf|apply same_queue_refl].
Qed.

Lemma same_queues_at m m' i o' : same_queues m m' → m' !! i = Some o' →
  ∃ o, m !! i = Some o ∧ same_queue (w_obj o) (w_obj o').
Proof. intros H Hi. specialize (H i). rewrite Hi in H. inversion H; subst. eauto. Qed.

Lemma same_queues_some m m' i : same_queues m m' → is_Some (m !! i) ↔ is_Some (m' !! i).
Proof. intros H. specialize (H i). by destruct H; split; intros []. Qed.

Lemma sublist_elem {A} (l k : list A) x : l `sublist_of` k → x ∈ l → x ∈ k.
Proof. intros H Hx. induction H as [|y l k _ IH|y l k _ IH]; [done|apply elem_of_cons in Hx as [->|]; [by left|right; auto]|right; auto]. Qed.

Lemma inv_quiet h w w' : stream_inv h w → quiet_step w w' → stream_inv h w'.
Proof.
  intros Hi Hq. pose proof (sublist_app _ _ _ _ (qs_writers _ _ Hq) (qs_wchan _ _ Hq)) as Hids.
  pose proof (qs_heap_w _ _ Hq) as Hm.
  constructor.
  - rewrite (qs_cache _ _ Hq). apply Hi.
  - etrans; [apply sublist_length, Hq|apply Hi].
  - etrans; [apply sublist_length, Hq|apply Hi].
  - etrans; [apply sublist_length, Hq|apply Hi].
  - etrans; [apply sublist_app; [reflexivity|apply Hq]|apply Hi].
  - eapply sublist_NoDup; [apply Hi|exact Hids].
  - intros i Ha Hin. apply (si_adding _ _ Hi i); [by apply Hq|by eapply sublist_elem].
  - intros i Ha. apply (same_queues_some _ _ _ Hm). apply (si_known _ _ Hi).
    destruct Ha as [Ha|Ha]; [left; by eapply sublist_elem|right; by apply Hq].
  - intros i o' Ho'. destruct (same_queues_at _ _ _ _ Hm Ho') as (o & Ho & Hs).
    eapply writer_inv_same; [apply (si_writer _ _ Hi), Ho|apply grows_refl|exact Hs|].
    intros [Ha|Ha]; [left; by eapply sublist_elem; [apply Hq|]|right; by apply Hq].
  - intros i Hn. apply (si_sent _ _ Hi). destruct (heap_w w !! i) eqn:E; [|done].
    destruct (proj1 (same_queues_some _ _ i Hm)) as [? Hx]; [by rewrite E|]. by rewrite Hn in Hx.
  - intros i Ha. apply Hq, (si_readers _ _ Hi). destruct Ha as [Ha|[Ha|Ha]].
    + apply Hq. by left.
    + right. left. by eapply sublist_elem; [apply Hq|].
    + apply Hq. by right.
  - intros Hn. destruct (qs_spawned _ _ Hq Hn) as [Hr Hs]. apply Hs, (si_spawned _ _ Hi), Hr.
Qed.

Lemma only_some {A} b (x : A) y : only b x = Some y → b = true ∧ x = y.
Proof. unfold only. destruct b; [|done]. by intros [= ->]. Qed.

Lemma replace_ok w r rest : readerChan w = r :: rest → NoDup (s_writers w) → known (s_writers w) (heap_w w) →
  replace w = (Ok tt, set_reading (reading w ++ [Spawned]) (set_s_reader (Some r)
    match s_reader w with
    | None => set_readerChan rest w
    | Some _ => set_heap_w (upd_all calc_base (s_writers w) (heap_w w)) (set_pktChan [] (set_readerChan rest w))
    end)).
Proof.
  intros Hr Hn Hk. unfold replace. rewrite go_bind_get, Hr, go_bind_modify. destruct (s_reader w).
  - pose proof (each_writer_ok calc_base (s_writers w) Hn (set_pktChan [] (set_readerChan rest w)) Hk) as E.
    rewrite <- (go_bind_modify (set_pktChan []) (λ _, each_writer calc_base (s_writers w))) in E.
    by rewrite (go_bind_ok _ _ _ _ _ E).
  - by rewrite go_bind_ret.
Qed.

Lemma close_pending_ok w i rest o : writerChan w = i :: rest → heap_w w !! i = Some o →
  close_pending w = (Ok tt, set_heap_w (<[i := upd_obj sw_Close o]> (heap_w w)) (set_writerChan rest w)).
Proof.
  intros Hc Ho. unfold close_pending. rewrite go_bind_get, Hc, go_bind_modify.
  by apply (on_w_obj_ok i (modify sw_Close) (set_writerChan rest w) o).
Qed.

Ltac quiet := constructor; cbn; try done; try (intros ? [?|?]; by auto).

Lemma check_turn_quiet i o w w' : heap_w w !! i = Some o → check_turn i o w = (Ok tt, w') → quiet_step w w'.
Proof.
  intros Ho. unfold check_turn, on_sw_conn. destruct (fc_Read (sw_conn (w_obj o))) as [[x|e|p|] c]; try done;
    intros [= <-]; quiet; apply same_queues_insert with o; try done.
  cbn. pose proof (same_queue_Close (set_sw_conn c (w_obj o))) as [H1 H2 H3]. by constructor.
Qed.

Section quiet.
Context (h : hist) (w : World) (Hi : stream_inv h w).

Lemma inv_writers_NoDup : NoDup (s_writers w).
Proof. pose proof (si_ids _ _ Hi) as H. by apply NoDup_app in H as [H _]. Qed.

Lemma inv_writers_known : known (s_writers w) (heap_w w).
Proof. intros i Ha. apply (si_known _ _ Hi). left. apply elem_of_app. by left. Qed.

Lemma inv_channels : channels_ok (heap_w w).
Proof. intros i o Ho. apply (si_writer _ _ Hi i o Ho). Qed.

Lemma quiet_replace w' : readerChan w ≠ [] → replace w = (Ok tt, w') → quiet_step w w'.
Proof.
  intros Hne. destruct (readerChan w) as [|r rest] eqn:Hr; [done|].
  rewrite (replace_ok w r rest Hr inv_writers_NoDup inv_writers_known). intros [= <-].
  assert (Hrest : rest `sublist_of` readerChan w) by (rewrite Hr; by apply sublist_cons).
  assert (Hread : r ∈ readerChan w) by (rewrite Hr; by left).
  destruct (s_reader w) eqn:Es; constructor; cbn; rewrite ?Es; try done || apply sublist_nil_l;
    try (intros i [[= <-]|Ha]; [right; by left|by right; right]).
  - apply same_queues_upd. apply same_queue_calc.
  - apply same_queues_refl.
Qed.

Lemma quiet_tick now w' : tick now w = (Ok tt, w') → quiet_step w w'.
Proof.
  destruct (reader_alive now w) eqn:Ha.
  - rewrite (tick_ok now w inv_writers_NoDup inv_writers_known Ha). intros [= <-].
    quiet; [apply sublist_filter|].
    apply same_queues_upd. apply same_queue_Close.
  - unfold tick. rewrite Ha. intros [= <-].
    quiet. apply same_queues_refl.
Qed.

Lemma quiet_close w' : writerChan w ≠ [] → close_pending w = (Ok tt, w') → quiet_step w w'.
Proof.
  intros Hne. destruct (writerChan w) as [|i rest] eqn:Hc; [done|].
  destruct (si_known _ _ Hi i) as [o Ho]; [left; rewrite Hc; set_solver|].
  rewrite (close_pending_ok w i rest o Hc Ho). intros [= <-].
  quiet; [by rewrite Hc; apply sublist_cons|].
  apply same_queues_insert with o; [done|]. apply same_queue_Close.
Qed.

Lemma quiet_finish w' : finish w = (Ok tt, w') → quiet_step w w'.
Proof.
  unfold finish. rewrite go_bind_get.
  rewrite (go_bind_ok _ _ _ _ _ (each_writer_ok sw_Close _ inv_writers_NoDup w inv_writers_known)).
  intros [= <-]. quiet.
  apply same_queues_upd. apply same_queue_Close.
Qed.
End quiet.

(** *** Events that add, read and give *)

Lemma NoDup_end {A} (l : list A) x : NoDup l → x ∉ l → NoDup (l ++ [x]).
Proof.
  intros Hl Hx. apply NoDup_app. split_and!; [done| |apply NoDup_singleton].
  intros y Hy ->%list_elem_of_singleton. done.
Qed.

Lemma inv_AddWriter h w i conn now : stream_inv h w → heap_w w !! i = None → stream_inv h (AddWriter i conn now w).
Proof.
  intros Hi Hn. pose proof (si_sent _ _ Hi i Hn) as Hs.
  assert (Hids : i ∉ s_writers w ++ writerChan w).
  { intros Ha. destruct (si_known _ _ Hi i) as [o Ho]; [by left|]. congruence. }
  destruct Hi. constructor; cbn; try done.
  - intros j Hj. destruct (decide (j = i)) as [->|]; [done|]. apply si_adding0. set_solver.
  - intros j Hj. destruct (decide (j = i)) as [->|]; [by rewrite lookup_insert_eq|].
    rewrite lookup_insert_ne by done. apply si_known0. set_solver.
  - intros j o. destruct (decide (j = i)) as [->|Hj].
    + rewrite lookup_insert_eq. intros [= <-]. unfold given in *. constructor; cbn; rewrite ?Hs; try done || lia.
      * unfold given. by rewrite Hs.
      * exists [], []. split_and!; [apply prefix_nil|apply sublist_nil_l|]. unfold given. by rewrite Hs.
      * unfold given. by rewrite Hs.
    + rewrite lookup_insert_ne by done. intros Ho.
      eapply writer_inv_same; [by apply si_writer0|apply grows_refl|apply same_queue_refl|].
      intros [|]; [by left|right]. set_solver.
  - intros j. destruct (decide (j = i)) as [->|]; [by rewrite lookup_insert_eq|rewrite lookup_insert_ne by done; apply si_sent0].
Qed.

Lemma inv_AddReader h w i conn now : stream_inv h w → stream_inv h (AddReader i conn now w).
Proof.
  intros []. constructor; cbn; try done. intros j Hj.
  destruct (decide (j = i)) as [->|]; [by rewrite lookup_insert_eq|]. rewrite lookup_insert_ne by done.
  apply si_readers0. set_solver.
Qed.

Lemma inv_PutWriter h w i : stream_inv h w → i ∈ adding_writers w → (length (writerChan w) < writerChan_cap)%nat →
  stream_inv h (set_adding_writers (adding_writers w ∖ {[i]}) (set_writerChan (writerChan w ++ [i]) w)).
Proof.
  intros Hi Ha Hl. pose proof (si_adding _ _ Hi i Ha) as Hn. destruct Hi. constructor; cbn; try done.
  - rewrite length_app. simpl. lia.
  - rewrite app_assoc. by apply NoDup_end.
  - intros j Hj. rewrite app_assoc, elem_of_app. set_solver.
  - intros j Hj. rewrite app_assoc, elem_of_app in Hj. apply si_known0.
    destruct Hj as [[Hj|Hj]|Hj]; [by left|right; set_solver|right; set_solver].
  - intros j o Ho. eapply writer_inv_same; [by apply si_writer0|apply grows_refl|apply same_queue_refl|].
    rewrite elem_of_app. set_solver.
Qed.

Lemma inv_PutReader h w i : stream_inv h w → i ∈ adding_readers w → (length (readerChan w) < readerChan_cap)%nat →
  stream_inv h (set_adding_readers (adding_readers w ∖ {[i]}) (set_readerChan (readerChan w ++ [i]) w)).
Proof.
  intros Hi Ha Hl. destruct Hi. constructor; cbn; try done.
  - rewrite length_app. simpl. lia.
  - intros j Hj. apply si_readers0. rewrite elem_of_app in Hj. set_solver.
Qed.

(** A packet read: it is in the cache and in the hands of its goroutine. *)
Lemma inv_read h w g now nowInMS w' : stream_inv h w → reading w !! g = Some Reading →
  read_turn g now nowInMS w = (Ok tt, w') → stream_inv (note (ERead g now nowInMS) w w' h) w'.
Proof.
  intros Hi Hg. unfold read_turn. destruct (s_reader w) as [i|] eqn:Hr; [|done].
  destruct (heap_r w !! i) as [r|] eqn:Hri; [|done].
  destruct (sr_Read now nowInMS (r, no_packet)) as [[u|e|p|] [r' q]]; try done; intros [= <-].
  - set (p := with_data (i, pkt_Data q) q). unfold note. cbn [reading set_heap_r set_s_cache set_reading].
    rewrite list_lookup_insert_eq by (by apply lookup_lt_is_Some). destruct Hi. constructor; cbn; try done.
    + by rewrite si_cache0, Cache_Write_latest.
    + intros j o Ho. eapply writer_inv_same; [by apply si_writer0| |apply same_queue_refl|done].
      constructor; cbn; try done. by apply prefix_app_r.
    + intros j Hj. destruct (decide (j = i)) as [->|]; [by rewrite lookup_insert_eq|].
      rewrite lookup_insert_ne by done. by apply si_readers0.
    + intros Hn. congruence.
  - unfold note. cbn [reading set_heap_r set_reading].
    rewrite list_lookup_insert_eq by (by apply lookup_lt_is_Some). apply inv_quiet with w; [done|].
    quiet; [|congruence|apply same_queues_refl].
    intros j. destruct (decide (j = i)) as [->|]; [by rewrite lookup_insert_eq|by rewrite lookup_insert_ne].
Qed.

Lemma inv_push h w g p : stream_inv h w → reading w !! g = Some (Holding p) →
  stream_inv (note (EPush g) w (push_turn g p w) h) (push_turn g p w).
Proof.
  intros Hi Hg. unfold note, push_turn. rewrite Hg.
  assert (Hs : s_reader w ≠ None) by (intros Hn; by rewrite (si_spawned _ _ Hi Hn) in Hg).
  destruct (Nat.ltb_spec (length (pktChan w)) pktChan_cap) as [Hl|Hl].
  - destruct Hi. constructor; cbn; try done.
    + rewrite length_app. simpl. lia.
    + rewrite app_assoc. by apply sublist_app.
    + intros j o Ho. by eapply writer_inv_same; [by apply si_writer0| |apply same_queue_refl|].
  - apply inv_quiet with w; [done|]. quiet. apply same_queues_refl.
Qed.

(** The loop takes a packet. *)
Lemma inv_packet h w w' : stream_inv h w → pktChan w ≠ [] → take_packet w = (Ok tt, w') →
  stream_inv (note EPacket w w' h) w'.
Proof.
  intros Hi Hne. destruct (pktChan w) as [|p ps] eqn:Hp; [done|].
  rewrite (take_packet_ok w p ps Hp (inv_writers_NoDup h w Hi) (inv_writers_known h w Hi) (inv_channels h w Hi)).
  intros [= <-]. unfold note. rewrite Hp. cbn [take]. set (keep := filter _ _).
  assert (Hk : keep `sublist_of` s_writers w) by apply sublist_filter.
  assert (Hk2 : keep ++ writerChan w `sublist_of` s_writers w ++ writerChan w) by by apply sublist_app.
  pose proof (si_pkts _ _ Hi) as Hl. pose proof (si_pushed _ _ Hi) as Hps. rewrite Hp in Hl, Hps.
  assert (Hin : ∀ j, j ∈ s_writers w → ¬ (j ∈ writerChan w ∨ j ∈ adding_writers w)).
  { intros j Hj [Hc|Ha].
    - pose proof (si_ids _ _ Hi) as Hn. apply NoDup_app in Hn as (_ & Hd & _). by apply (Hd j).
    - apply (si_adding _ _ Hi j Ha), elem_of_app. by left. }
  destruct Hi. constructor; cbn; try done.
  - simpl in Hl. lia.
  - by rewrite <- app_assoc.
  - by eapply sublist_NoDup.
  - intros j Hj Hx. apply (si_adding0 j Hj). by eapply sublist_elem.
  - intros j Hj. rewrite lookup_upd_all. apply fmap_is_Some, si_known0.
    destruct Hj as [Hj|Hj]; [left; by eapply sublist_elem|by right].
  - intros j o'. rewrite lookup_upd_all. destruct (heap_w w !! j) as [o|] eqn:Ho; [|done]. intros [= <-].
    case_bool_decide as Hj.
    + apply writer_inv_written with (w_obj o); [by apply si_writer0|by apply Hin|].
      apply sw_Write_written, (si_writer0 j o Ho).
    + eapply writer_inv_same; [by apply si_writer0| |apply same_queue_refl|done].
      constructor; cbn; try done. by apply sublist_inserts_r.
  - intros j. rewrite lookup_upd_all. destruct (heap_w w !! j) eqn:Ho; [done|]. intros _. by apply si_sent0.
Qed.

(** A writer joins: with a player that has left and something in the cache, the program
    panics instead. *)
Lemma join_crash w i rest o : writerChan w = i :: rest → heap_w w !! i = Some o →
  queue_closed (w_obj o) = true → cachePkts (s_cache w) ≠ [] → (join w).1 = Panic SendOnClosedChannel.
Proof.
  intros Hc Ho Hq Hne. unfold join. rewrite go_bind_get, Hc, go_bind_modify. unfold mbind, go_bind, try.
  set (w1 := set_writerChan rest w).
  rewrite (on_w_obj_ok i _ w1 o (Panic SendOnClosedChannel) (w_obj o) Ho); [done|].
  cbv zeta. rewrite Hq, (cache_send_closed (s_cache w) Hne). by destruct (w_obj o).
Qed.

(** A join that does not panic is one of [join_ok], of a writer that has been given nothing. *)
Lemma join_result h w i rest w' : stream_inv h w → writerChan w = i :: rest → join w = (Ok tt, w') →
  ∃ o, heap_w w !! i = Some o ∧ given h i (w_obj o) = [] ∧
    w' = set_s_writers (s_writers w ++ [i])
      (set_heap_w (<[i := set_queue (cachePkts (cache_of (h_read h))) o]> (heap_w w)) (set_writerChan rest w)).
Proof.
  intros Hi Hc Hj. destruct (si_known _ _ Hi i) as [o Ho]; [left; rewrite Hc; set_solver|]. exists o.
  destruct (wi_new _ _ _ _ (si_writer _ _ Hi i o Ho)) as [Hg _]; [left; rewrite Hc; by left|].
  split; [done|]. split; [done|]. unfold given in Hg. apply app_nil in Hg as [_ Hq].
  destruct (decide (queue_closed (w_obj o) = false ∨ cachePkts (cache_of (h_read h)) = [])) as [Hop|Hop].
  { rewrite (join_ok w i rest o (h_read h) Hc Ho Hq (si_cache _ _ Hi) Hop) in Hj. by injection Hj as <-. }
  assert (H1 : queue_closed (w_obj o) = true) by (destruct (queue_closed (w_obj o)); [done|destruct Hop; by left]).
  assert (H2 : cachePkts (s_cache w) ≠ []) by (rewrite (si_cache _ _ Hi); intros E; apply Hop; by right).
  pose proof (join_crash w i rest o Hc Ho H1 H2) as Hx. by rewrite Hj in Hx.
Qed.

Lemma inv_join h w w' : stream_inv h w → writerChan w ≠ [] → join w = (Ok tt, w') → stream_inv h w'.
Proof.
  intros Hi Hne Hj. destruct (writerChan w) as [|i rest] eqn:Hc; [done|].
  destruct (join_result h w i rest w' Hi Hc Hj) as (o & Ho & _ & ->).
  pose proof (si_writer _ _ Hi i o Ho) as Hw. set (wt := i ∈ writerChan w ∨ i ∈ adding_writers w) in Hw.
  assert (Hwt : wt) by (left; rewrite Hc; by left).
  pose proof (si_ids _ _ Hi) as Hids. pose proof (si_wchan _ _ Hi) as Hl. rewrite Hc in Hids, Hl.
  assert (Hni : i ∉ s_writers w ++ rest).
  { apply NoDup_app in Hids as (H1 & H2 & H3). apply NoDup_cons in H3 as [H3 _]. rewrite elem_of_app.
    intros [Hx|Hx]; [apply (H2 i Hx); by left|done]. }
  assert (Hna : i ∉ adding_writers w).
  { intros Ha. apply (si_adding _ _ Hi i Ha). rewrite Hc, elem_of_app. right. by left. }
  destruct Hi. constructor; cbn; try done.
  - simpl in Hl. lia.
  - by rewrite <- app_assoc.
  - intros j Hx. rewrite <- app_assoc. cbn. rewrite <- Hc. auto.
  - intros j Hx. rewrite <- app_assoc in Hx. cbn in Hx. rewrite <- Hc in Hx.
    destruct (decide (j = i)) as [->|]; [by rewrite lookup_insert_eq|rewrite lookup_insert_ne by done; auto].
  - intros j o'. destruct (decide (j = i)) as [->|Hji].
    + rewrite lookup_insert_eq. intros [= <-].
      eapply writer_inv_same; [exact (writer_inv_join h wt i _ Hw Hwt)|apply grows_refl|apply same_queue_refl|].
      rewrite elem_of_app in Hni. naive_solver.
    + rewrite lookup_insert_ne by done. intros Ho'.
      eapply writer_inv_same; [by apply si_writer0|apply grows_refl|apply same_queue_refl|].
      rewrite Hc, elem_of_cons. naive_solver.
  - intros j. destruct (decide (j = i)) as [->|]; [by rewrite lookup_insert_eq|rewrite lookup_insert_ne by done; auto].
Qed.

(** Sending takes the head of the queue and touches nothing else of it. *)
Lemma send_one_queue {D} now ms p (a : StreamWriter D) r b : send_one now ms p a = (r, b) →
  packetQueue b = packetQueue a ∧ keyframeNeed b = keyframeNeed a ∧ queue_closed b = queue_closed a ∧
  (sw_closed a = true → sw_closed b = true).
Proof.
  unfold send_one. rewrite go_bind_modify, go_bind_get, !go_bind_modify. unfold mbind, go_bind, try, on_sw_conn, ignore_err.
  destruct (fc_Write _ _) as [[x|e|q|] c]; cbn; try (by intros [= <- <-]).
  destruct (fc_Flush _) as [[y|e|q|] c']; cbn; by intros [= <- <-].
Qed.

Lemma inv_send h w i now ms o w' : stream_inv h w → heap_w w !! i = Some o →
  send_turn i now ms o w = Some (Ok tt, w') → stream_inv (note (ESend i now ms) w w' h) w'.
Proof.
  intros Hi Ho. unfold send_turn, SendPacket_pass, note. rewrite Ho.
  destruct (packetQueue (w_obj o)) as [|p q] eqn:Hq.
  - destruct (queue_closed (w_obj o)); [|done]. intros [= <-]. cbn [take]. rewrite app_nil_r.
    assert (Hi' : stream_inv (mkHist (h_read h) (h_pushed h) (h_taken h) (<[i := sent_of h i]> (h_sent h))) w).
    { assert (Hs : ∀ j, sent_of (mkHist (h_read h) (h_pushed h) (h_taken h) (<[i := sent_of h i]> (h_sent h))) j = sent_of h j).
      { intros j. unfold sent_of at 1. cbn. destruct (decide (j = i)) as [->|];
          [by rewrite lookup_insert_eq|by rewrite lookup_insert_ne]. }
      destruct Hi. constructor; try done.
      - intros j x Hx. eapply writer_inv_same; [by apply si_writer0| |apply same_queue_refl|done]. by constructor.
      - intros j Hx. rewrite Hs. auto. }
    apply inv_quiet with w; [done|]. quiet. by apply same_queues_insert with o.
  - destruct (send_one _ _ _ _) as [r b] eqn:E. cbn [take]. intros Hx. injection Hx as Hr <-.
    apply send_one_queue in E as (E1 & E2 & E3 & E4). cbn in E1, E2, E3, E4.
    destruct Hi. constructor; cbn; try done.
    + intros j Hj. destruct (decide (j = i)) as [->|]; [by rewrite lookup_insert_eq|rewrite lookup_insert_ne by done; auto].
    + intros j x. destruct (decide (j = i)) as [->|Hji].
      * rewrite lookup_insert_eq. intros [= <-]. cbn [w_obj]. apply writer_inv_sent with q (w_obj o); [by apply si_writer0|done|].
        constructor; [done|done|]. cbn. rewrite E3. auto.
      * rewrite lookup_insert_ne by done. intros Hx. eapply writer_inv_same; [by apply si_writer0| |apply same_queue_refl|done].
        constructor; try done. unfold sent_of. cbn. by rewrite lookup_insert_ne.
    + intros j. destruct (decide (j = i)) as [->|]; [by rewrite lookup_insert_eq|].
      unfold sent_of. cbn. rewrite !lookup_insert_ne by done. apply si_sent0.
Qed.

(** Every event preserves the invariant. *)
Lemma exec_inv h w ev w' : stream_inv h w → exec ev w = Some (Ok tt, w') → stream_inv (note ev w w' h) w'.
Proof.
  intros Hi. destruct ev; cbn [exec]; intros He;
    try (apply only_some in He as [Hb He]); repeat (rewrite ?andb_true_iff in Hb; destruct_and? Hb);
    rewrite ?negb_true_iff, ?bool_decide_eq_true, ?bool_decide_eq_false in *.
  - injection He as <-. by apply inv_AddWriter.
  - injection He as <-. by apply inv_AddReader.
  - injection He as <-. apply inv_PutWriter; [done..|by apply Nat.ltb_lt].
  - injection He as <-. apply inv_PutReader; [done..|by apply Nat.ltb_lt].
  - destruct (reading w !! g) as [[]|] eqn:Hg; try done. injection He as <-. cbn.
    apply inv_quiet with w; [done|]. quiet; [|apply same_queues_refl].
    intros Hs. split; [done|]. intros Hr. by rewrite Hr in Hg.
  - destruct (reading w !! g) as [[]|] eqn:Hg; try done. injection He as He. by apply inv_read.
  - destruct (reading w !! g) as [[]|] eqn:Hg; try done. injection He as <-. by apply inv_push.
  - by apply inv_packet.
  - by apply inv_join with w.
  - apply inv_quiet with w; [done|]. by apply (quiet_replace h w Hi).
  - apply inv_quiet with w; [done|]. by apply (quiet_tick h w Hi now).
  - injection He as <-. apply inv_quiet with w; [done|]. quiet. apply same_queues_refl.
  - apply inv_quiet with w; [done|]. by apply (quiet_close h w Hi).
  - injection He as <-. apply inv_quiet with w; [done|]. quiet; [|apply same_queues_refl].
    rewrite <- (take_drop 1 (readerChan w)) at 2. by apply sublist_inserts_l.
  - apply inv_quiet with w; [done|]. by apply (quiet_finish h w Hi).
  - destruct (heap_w w !! i) as [o|] eqn:Ho; [|done]. destruct (w_sending o); [|done]. by apply inv_send with o.
  - destruct (heap_w w !! i) as [o|] eqn:Ho; [|done]. destruct (w_checking o); [|done]. injection He as He.
    apply inv_quiet with w; [done|]. by apply check_turn_quiet with i o.
Qed.

Lemma reaches_inv info gopNum w h : reaches info gopNum w h → stream_inv h w.
Proof.
  induction 1 as [|w h ev w' _ IH He]; [|by apply exec_inv].
  constructor; cbn; try done || lia; try (by constructor); set_solver.
Qed.
