(* ===== verification/StreamLife.v ===== *)
(** * The life of a stream (src/protocol/stream.go)

    What players get in every state a stream can reach, which events can bring the program
    down, how a stream ends, and runs on which it goes wrong. *)
From S2P Require Import Prelude Pio GoIO ReadWriter Av Chunk Conn Exchange Messages Cache H264 Media Flv.
From S2P Require Import Amf Amf3 Amf0 Forward Commands StreamRW Stream.

(** ** Runs *)

Fixpoint run_all (evs : list event) (s : World * hist) : option (World * hist) :=
  match evs with
  | [] => Some s
  | ev :: evs =>
      match exec ev s.1 with
      | Some (Ok _, w') => run_all evs (w', note ev s.1 w' s.2)
      | _ => None
      end
  end.

Lemma run_all_reaches info gopNum evs : ∀ s s', reaches info gopNum s.1 s.2 → run_all evs s = Some s' →
  reaches info gopNum s'.1 s'.2.
Proof.
  induction evs as [|ev evs IH]; intros [w h] s' Hr; [by intros [= <-]|]. cbn [run_all fst snd].
  destruct (exec ev w) as [[[[]| | |] w']|] eqn:E; try done. apply IH. by apply reaches_step.
Qed.

(** Tags of one publisher, the second and the third of the same length. *)
Definition sample_tags : list bytes :=
  [[0x17; 0; 0; 0; 0; 1; 2; 3; 4]; [0x27; 1; 0; 0; 0; 9; 9; 9]; [0x27; 1; 0; 0; 0; 4; 5; 6]].

Definition sample_input : bytes := wire_of 128 (media_message TAG_VIDEO 0 1 <$> sample_tags).

Definition conn_with (input : bytes) : ForwardConnect := NewForwardConnect (NewRtmpConn (sample_rw input)).

Definition sample_info : StreamInfo := mkInfo (str "live") (str "a") (str "rtmp://h/live/a").

Definition new_stream : World * hist := (NewStream sample_info 1, no_hist).

Definition state_after (evs : list event) : World * hist := default new_stream (run_all evs new_stream).

Lemma state_after_reaches evs : reaches sample_info 1 (state_after evs).1 (state_after evs).2.
Proof.
  pose proof (run_all_reaches sample_info 1 evs new_stream) as H. unfold state_after.
  destruct (run_all evs new_stream); [by apply H; [apply reaches_new|]|apply reaches_new].
Qed.

(** A publisher and a player come. *)
Definition arrivals_of (input : bytes) : list event :=
  [EAddReader 0 (conn_with input) 0; EPutReader 0; EReplace; EStart 0;
   EAddWriter 0 (conn_with []) 0; EPutWriter 0; EJoin].

Definition arrivals : list event := arrivals_of sample_input.

(** A packet on its way from the publisher to the player. *)
Definition one_packet : list event := [ERead 0 1 1; EPush 0; EPacket; ESend 0 1 1].

(** What has been written to the connection of the writer [i]. *)
Definition output (i : nat) (w : World) : bytes :=
  match heap_w w !! i with Some o => bw_sent (rw_w (c_rw (fc_conn (sw_conn (w_obj o))))) | None => [] end.

(** When every packet is sent before the next one is read, the player gets what was sent. *)
Example in_step : (λ s, output 0 s.1) <$> run_all (arrivals ++ one_packet ++ one_packet ++ one_packet) new_stream
  = Some sample_input.
Proof. vm_compute. reflexivity. Qed.

(** When two messages are read before the first one is sent, the second one is sent twice:
    the packets share the buffer of the chunk stream. *)
Example shared_buffer :
  (λ s, output 0 s.1) <$> run_all (arrivals ++ one_packet ++
    [ERead 0 1 1; EPush 0; ERead 0 1 1; EPush 0; EPacket; EPacket; ESend 0 1 1; ESend 0 1 1]) new_stream
  = Some (wire_of 128 (media_message TAG_VIDEO 0 1 <$>
      [[0x17; 0; 0; 0; 0; 1; 2; 3; 4]; [0x27; 1; 0; 0; 0; 4; 5; 6]; [0x27; 1; 0; 0; 0; 4; 5; 6]])).
Proof. vm_compute. reflexivity. Qed.

Definition mid_packet : World * hist := state_after (arrivals ++ one_packet ++ [ERead 0 1 1; EPush 0; EPacket]).


(** ** Panics *)

Lemma read_turn_no_panic h w g now ms e w' : stream_inv h w → reading w !! g = Some Reading →
  read_turn g now ms w ≠ (Panic e, w').
Proof.
  intros Hi Hg. unfold read_turn. destruct (s_reader w) as [i|] eqn:Hr.
  - destruct (si_readers _ _ Hi i) as [r Hri]; [by left|]. rewrite Hri. unfold sr_Read, recover.
    match goal with |- context [match ?x with _ => _ end] => destruct x as [[]?] eqn:Ex end;
      intros Hx; repeat case_match; simplify_eq.
  - by rewrite (si_spawned _ _ Hi Hr) in Hg.
Qed.

(** C16: As long as turns do not overlap, the loop of a stream panics for one reason only: a
    writer joins whose player has left already (its channel is closed) while the cache is
    not empty.  In turns of their own, reading a publisher, forwarding, replacing the
    publisher, the tick and closing do not panic; apart from that only the goroutines of a
    writer, which write to its connection and read from it, can bring the program down.
    This is about reachable states of [World], where a turn is one step.  Turns that overlap
    can panic for two more reasons, which are outside this statement and shown in Races.v:
    two calls of [Close] on a writer ([Races.close_twice_panics]), and a goroutine that joins
    the wait group while the loop returns from [Wait] ([Races.wait_reused_panics]). *)
Theorem stream_panics info gopNum w h ev e w' : reaches info gopNum w h → exec ev w = Some (Panic e, w') →
  (ev = EJoin ∧ e = SendOnClosedChannel ∧ ∃ i o, writerChan w = [i] ∧ heap_w w !! i = Some o ∧
    queue_closed (w_obj o) = true ∧ cachePkts (s_cache w) ≠ []) ∨
  (∃ i, ev = ECheck i ∨ ∃ now ms, ev = ESend i now ms).
Proof.
  intros Hr. pose proof (reaches_inv _ _ _ _ Hr) as Hi.
  pose proof (inv_writers_NoDup h w Hi) as Hn. pose proof (inv_writers_known h w Hi) as Hk.
  destruct ev; cbn [exec]; intros He; try (by right; exists i; eauto);
    try (apply only_some in He as [Hb He]); repeat (rewrite ?andb_true_iff in Hb; destruct_and? Hb);
    rewrite ?negb_true_iff, ?bool_decide_eq_true, ?bool_decide_eq_false in *; try done.
  - by destruct (reading w !! g) as [[]|].
  - destruct (reading w !! g) as [[]|] eqn:Hg; try done. injection He as He. by apply read_turn_no_panic with h _ _ _ _ _ _ in He.
  - by destruct (reading w !! g) as [[]|].
  - destruct (pktChan w) as [|p ps] eqn:Hp; [done|].
    by rewrite (take_packet_ok w p ps Hp Hn Hk (inv_channels h w Hi)) in He.
  - left. destruct (writerChan w) as [|i rest] eqn:Hc; [done|].
    destruct (si_known _ _ Hi i) as [o Ho]; [left; rewrite Hc; set_solver|].
    destruct (wi_new _ _ _ _ (si_writer _ _ Hi i o Ho)) as [Hg _]; [left; rewrite Hc; by left|].
    unfold given in Hg. apply app_nil in Hg as [_ Hq]. pose proof (si_cache _ _ Hi) as Hs.
    destruct (decide (queue_closed (w_obj o) = false ∨ cachePkts (cache_of (h_read h)) = [])) as [Hop|Hop].
    { by rewrite (join_ok w i rest o (h_read h) Hc Ho Hq Hs Hop) in He. }
    assert (H1 : queue_closed (w_obj o) = true) by (destruct (queue_closed (w_obj o)); [done|destruct Hop; by left]).
    assert (H2 : cachePkts (s_cache w) ≠ []) by (rewrite Hs; intros E; apply Hop; by right).
    pose proof (join_crash w i rest o Hc Ho H1 H2) as Hx. rewrite He in Hx. injection Hx as ->.
    pose proof (si_wchan _ _ Hi) as Hl. rewrite Hc in Hl. destruct rest; [|simpl in Hl; unfold writerChan_cap in Hl; lia].
    split_and!; [done..|]. by exists i, o.
  - destruct (readerChan w) as [|r rest] eqn:Hc; [done|]. by rewrite (replace_ok w r rest Hc Hn Hk) in He.
  - destruct (reader_alive now w) eqn:Ha; [by rewrite (tick_ok now w Hn Hk Ha) in He|].
    unfold tick in He. by rewrite Ha in He.
  - destruct (writerChan w) as [|i rest] eqn:Hc; [done|].
    destruct (si_known _ _ Hi i) as [o Ho]; [left; rewrite Hc; set_solver|]. by rewrite (close_pending_ok w i rest o Hc Ho) in He.
  - unfold finish in He. rewrite go_bind_get in He.
    by rewrite (go_bind_ok _ _ _ _ _ (each_writer_ok sw_Close _ Hn w Hk)) in He.
Qed.

(** A player that leaves before its writer joins. *)
Definition left_early : list event :=
  [EAddReader 0 (conn_with sample_input) 0; EPutReader 0; EReplace; EStart 0; ERead 0 1 1;
   EAddWriter 0 (conn_with []) 0; ECheck 0; EPutWriter 0].

Lemma stream_panics_witness :
  let w := (state_after left_early).1 in ∃ w', exec EJoin w = Some (Panic SendOnClosedChannel, w') ∧
  ((EJoin = EJoin ∧ SendOnClosedChannel = SendOnClosedChannel ∧ ∃ i o, writerChan w = [i] ∧ heap_w w !! i = Some o ∧
    queue_closed (w_obj o) = true ∧ cachePkts (s_cache w) ≠ []) ∨
  (∃ i, EJoin = ECheck i ∨ ∃ now ms, EJoin = ESend i now ms)).
Proof.
  intros w. assert (H : ∃ w', exec EJoin w = Some (Panic SendOnClosedChannel, w'))
    by (eexists; vm_compute; reflexivity).
  destruct H as [w' E]. exists w'. split; [exact E|].
  exact (stream_panics sample_info 1 w _ EJoin SendOnClosedChannel w' (state_after_reaches left_early) E).
Defined.

(** ** The loop, case by case *)


(** The first packet is about to be forwarded. *)
Definition before_packet : World * hist := state_after (arrivals ++ [ERead 0 1 1; EPush 0]).


Lemma drop_dead_in now m l i : i ∈ drop_dead now m l ↔ i ∈ l ∧ alive_in now m i = false.
Proof. unfold drop_dead. rewrite list_elem_of_filter. tauto. Qed.


(** The player of the sample is sent a packet at the time 1, and then nothing for ten
    seconds, while the publisher still sends. *)
Definition quiet_player : World * hist :=
  state_after (arrivals ++ one_packet ++ [ERead 0 5000000000 5000]).


(** ** The end *)

Lemma closing_writer w i o : writerChan w = [i] → s_phase w = Closing → heap_w w !! i = Some o →
  exec ECloseWriter w = Some (Ok tt, set_heap_w (<[i := upd_obj sw_Close o]> (heap_w w)) (set_writerChan [] w)).
Proof.
  intros Hc Hp Ho. cbn [exec]. unfold closing, only. rewrite Hp, Hc, bool_decide_true, bool_decide_false by done.
  cbn. by rewrite (close_pending_ok w i [] o).
Qed.

Lemma finishing h w : stream_inv h w → s_phase w = Closing → writerChan w = [] → readerChan w = [] →
  exec EFinish w = Some (Ok tt, set_s_phase Exited (set_heap_w (upd_all sw_Close (s_writers w) (heap_w w)) w)).
Proof.
  intros Hi Hp Hc Hr. cbn [exec]. unfold closing, only. rewrite Hp, Hc, Hr, !bool_decide_true by done. cbn.
  unfold finish. rewrite go_bind_get.
  by rewrite (go_bind_ok _ _ _ _ _ (each_writer_ok sw_Close _ (inv_writers_NoDup h w Hi) w (inv_writers_known h w Hi))).
Qed.

Lemma closed_Close o : sw_closed (w_obj (upd_obj sw_Close o)) = true.
Proof. done. Qed.

Lemma run_one ev w h w' evs s : exec ev w = Some (Ok tt, w') → run_all evs (w', note ev w w' h) = s →
  run_all (ev :: evs) (w, h) = s.
Proof. intros E <-. cbn [run_all fst snd]. by rewrite E. Qed.

Lemma run_app evs1 evs2 : ∀ s, run_all (evs1 ++ evs2) s = run_all evs1 s ≫= run_all evs2.
Proof.
  induction evs1 as [|ev evs1 IH]; intros s; [done|]. cbn [app run_all].
  destruct (exec ev s.1) as [[[u|e|q|] w']|]; [apply IH|done..].
Qed.

(** From [Closing] on: what is in the channels is closed, then every writer. *)
Lemma closing_ends h w : stream_inv h w → s_phase w = Closing →
  ∃ evs w' h', run_all evs (w, h) = Some (w', h') ∧ s_phase w' = Exited ∧
    writerChan w' = [] ∧ readerChan w' = [] ∧
    ∀ i, i ∈ s_writers w ++ writerChan w → ∃ o, heap_w w' !! i = Some o ∧ sw_closed (w_obj o) = true.
Proof.
  intros Hi Hp.
  assert (Hr : ∃ evs w1 h1, run_all evs (w, h) = Some (w1, h1) ∧ stream_inv h1 w1 ∧ s_phase w1 = Closing ∧
    readerChan w1 = [] ∧ s_writers w1 = s_writers w ∧ writerChan w1 = writerChan w).
  { destruct (readerChan w) as [|r rest] eqn:Hc; [by exists [], w, h|].
    pose proof (si_rchan _ _ Hi) as Hl. rewrite Hc in Hl. unfold readerChan_cap in Hl. simpl in Hl.
    destruct rest; [|simpl in Hl; lia].
    assert (E : exec ECloseReader w = Some (Ok tt, set_readerChan [] w)).
    { cbn [exec]. unfold closing, only. by rewrite Hp, Hc, bool_decide_true, bool_decide_false. }
    exists [ECloseReader], (set_readerChan [] w), h. split; [by apply (run_one _ _ _ _ _ _ E)|].
    split_and!; [|done..]. exact (exec_inv h w _ _ Hi E). }
  destruct Hr as (evs1 & w1 & h1 & E1 & Hi1 & Hp1 & Hr1 & Hw1 & Hc1). rewrite <- Hw1, <- Hc1. clear Hw1 Hc1.
  destruct (writerChan w1) as [|i rest] eqn:Hc.
  - pose proof (finishing h1 w1 Hi1 Hp1 Hc Hr1) as E. eexists (evs1 ++ [EFinish]), _, _.
    split; [rewrite run_app, E1; by apply (run_one _ _ _ _ _ _ E)|]. split_and!; [done..|]. rewrite app_nil_r.
    intros i Hin. cbn. rewrite lookup_upd_all. destruct (inv_writers_known h1 w1 Hi1 i Hin) as [o ->].
    eexists. cbn. by rewrite bool_decide_true.
  - pose proof (si_wchan _ _ Hi1) as Hl. rewrite Hc in Hl. unfold writerChan_cap in Hl. simpl in Hl.
    destruct rest; [|simpl in Hl; lia].
    destruct (si_known _ _ Hi1 i) as [o Ho]; [left; rewrite Hc; set_solver|].
    pose proof (closing_writer w1 i o Hc Hp1 Ho) as E. set (w2 := set_heap_w _ _) in E.
    assert (Hi2 : stream_inv h1 w2) by exact (exec_inv h1 w1 _ _ Hi1 E).
    pose proof (finishing h1 w2 Hi2 Hp1 eq_refl Hr1) as E2. eexists (evs1 ++ [ECloseWriter; EFinish]), _, _.
    split; [rewrite run_app, E1; apply (run_one _ _ _ _ _ _ E); by apply (run_one _ _ _ _ _ _ E2)|].
    split_and!; [done..|]. intros j Hj. cbn. rewrite lookup_upd_all. destruct (decide (j = i)) as [->|Hji].
    + rewrite lookup_insert_eq. eexists. split; [reflexivity|]. by case_bool_decide.
    + rewrite lookup_insert_ne by done.
      assert (Hjw : j ∈ s_writers w1) by (apply elem_of_app in Hj as [|Hj%list_elem_of_singleton]; done).
      destruct (inv_writers_known h1 w1 Hi1 j Hjw) as [x ->]. eexists. cbn. by rewrite bool_decide_true.
Qed.

(** *** On every schedule *)

Definition closed_in (m : gmap nat Writer) (i : nat) : Prop := ∃ o, m !! i = Some o ∧ sw_closed (w_obj o) = true.

(** No writer is lost, and none is opened again. *)
Definition closes (m m' : gmap nat Writer) : Prop := ∀ i o, m !! i = Some o →
  ∃ o', m' !! i = Some o' ∧ (sw_closed (w_obj o) = true → sw_closed (w_obj o') = true).

Lemma closes_in m m' i : closes m m' → closed_in m i → closed_in m' i.
Proof. intros H (o & Ho & Hc). destruct (H i o Ho) as (o' & Ho' & Hc'). exists o'. auto. Qed.

Lemma closes_refl m : closes m m.
Proof. intros i o Ho. by exists o. Qed.

Lemma closes_upd f ids m : (∀ i o, m !! i = Some o → sw_closed (w_obj o) = true → sw_closed (f (w_obj o)) = true) →
  closes m (upd_all f ids m).
Proof. intros Hf i o Ho. rewrite lookup_upd_all, Ho. eexists. split; [done|]. case_bool_decide; [by apply (Hf i)|done]. Qed.

Lemma closes_insert m i o o' : m !! i = Some o → (sw_closed (w_obj o) = true → sw_closed (w_obj o') = true) →
  closes m (<[i := o']> m).
Proof.
  intros Hi Hc j x Hx. destruct (decide (j = i)) as [->|].
  - rewrite lookup_insert_eq. exists o'. split; [done|]. rewrite Hi in Hx. by injection Hx as <-.
  - rewrite lookup_insert_ne by done. by exists x.
Qed.

Lemma closed_upd ids m i : i ∈ ids → is_Some (m !! i) → closed_in (upd_all sw_Close ids m) i.
Proof. intros Hi [o Ho]. unfold closed_in. rewrite lookup_upd_all, Ho. eexists. split; [done|]. by rewrite bool_decide_true. Qed.

(** A writer the stream answers for: it is one of its own, waits in the channel, or is
    closed; when the loop is done, it is closed. *)
Definition settled (w : World) (i : nat) : Prop :=
  closed_in (heap_w w) i ∨ (s_phase w ≠ Exited ∧ i ∈ s_writers w ++ writerChan w).

Lemma settled_same w w' i : closes (heap_w w) (heap_w w') → s_phase w' ≠ Exited ∨ s_phase w = Exited →
  s_writers w ++ writerChan w ⊆ s_writers w' ++ writerChan w' → settled w i → settled w' i.
Proof. intros Hm Hp Hs [Hc|[Hr Hi]]; [left; by eapply closes_in|]. destruct Hp; [right; auto|done]. Qed.

Section settled.
Variables (h : hist) (w w' : World) (i : nat).
Hypothesis inv : stream_inv h w.
Hypothesis known_i : settled w i.

Lemma settled_packet : s_phase w = Running → pktChan w ≠ [] → take_packet w = (Ok tt, w') → settled w' i.
Proof.
  intros Hp Hne. destruct (pktChan w) as [|p ps] eqn:Hc; [done|].
  rewrite (take_packet_ok w p ps Hc (inv_writers_NoDup h w inv) (inv_writers_known h w inv) (inv_channels h w inv)).
  intros [= <-].
  assert (Hm : closes (heap_w w) (upd_all (write_obj p) (s_writers w) (heap_w w))).
  { apply closes_upd. intros j o Ho Hcl. destruct (sw_Write_written p (w_obj o) (inv_channels h w inv j o Ho)) as [_ Hw].
    by rewrite (wr_closed _ _ _ Hw). }
  destruct known_i as [Hcl|[Hr Hi]]; [left; by eapply closes_in|]. apply elem_of_app in Hi as [Hi|Hi].
  - destruct (open_in (heap_w w) i) eqn:Ho.
    + right. split; [by cbn; rewrite Hp|]. apply elem_of_app. left. by apply list_elem_of_filter.
    + left. eapply closes_in; [exact Hm|]. destruct (inv_writers_known h w inv i Hi) as [o Hx]. exists o. split; [done|].
      unfold open_in in Ho. rewrite Hx in Ho. by apply negb_false_iff in Ho.
  - right. split; [by cbn; rewrite Hp|]. apply elem_of_app. by right.
Qed.

Lemma settled_join : s_phase w = Running → writerChan w ≠ [] → join w = (Ok tt, w') → settled w' i.
Proof.
  intros Hp Hne Hj. destruct (writerChan w) as [|j rest] eqn:Hc; [done|].
  destruct (join_result h w j rest w' inv Hc Hj) as (o & Ho & _ & ->).
  apply (settled_same w); [by apply closes_insert with o|left; cbn; by rewrite Hp| |exact known_i].
  cbn. rewrite Hc, <- app_assoc. done.
Qed.

Lemma settled_replace : s_phase w = Running → readerChan w ≠ [] → replace w = (Ok tt, w') → settled w' i.
Proof.
  intros Hp Hne. destruct (readerChan w) as [|r rest] eqn:Hc; [done|].
  rewrite (replace_ok w r rest Hc (inv_writers_NoDup h w inv) (inv_writers_known h w inv)). intros [= <-].
  apply (settled_same w); try exact known_i; destruct (s_reader w); try done; try (left; cbn; by rewrite Hp).
  - by apply closes_upd.
  - apply closes_refl.
Qed.

Lemma settled_tick now : s_phase w = Running → tick now w = (Ok tt, w') → settled w' i.
Proof.
  intros Hp. destruct (reader_alive now w) eqn:Ha.
  - rewrite (tick_ok now w (inv_writers_NoDup h w inv) (inv_writers_known h w inv) Ha). intros [= <-].
    destruct known_i as [Hcl|[Hr Hi]].
    { left. eapply closes_in; [|exact Hcl]. by apply closes_upd. }
    apply elem_of_app in Hi as [Hi|Hi].
    + destruct (alive_in now (heap_w w) i) eqn:Hal.
      * right. split; [by cbn; rewrite Hp|]. apply elem_of_app. left. by apply list_elem_of_filter.
      * left. apply closed_upd; [by apply list_elem_of_filter|by apply (inv_writers_known h w inv)].
    + right. split; [by cbn; rewrite Hp|]. apply elem_of_app. by right.
  - unfold tick. rewrite Ha. intros [= <-]. apply (settled_same w); [apply closes_refl|by left|done|exact known_i].
Qed.

Lemma settled_close : s_phase w = Closing → writerChan w ≠ [] → close_pending w = (Ok tt, w') → settled w' i.
Proof.
  intros Hp Hne. destruct (writerChan w) as [|j rest] eqn:Hc; [done|].
  destruct (si_known _ _ inv j) as [o Ho]; [left; rewrite Hc; set_solver|].
  rewrite (close_pending_ok w j rest o Hc Ho). intros [= <-].
  destruct (decide (i = j)) as [->|Hij].
  { left. exists (upd_obj sw_Close o). split; [apply lookup_insert_eq|done]. }
  destruct known_i as [Hcl|[Hr Hi]]; [left; eapply closes_in; [by apply closes_insert with o|exact Hcl]|].
  right. split; [by cbn; rewrite Hp|]. rewrite Hc, elem_of_app, elem_of_cons in Hi.
  cbn. rewrite elem_of_app. by destruct Hi as [Hi|[Hi|Hi]]; [left| |right].
Qed.

Lemma settled_finish : writerChan w = [] → finish w = (Ok tt, w') → settled w' i.
Proof.
  intros Hc. unfold finish. rewrite go_bind_get.
  rewrite (go_bind_ok _ _ _ _ _ (each_writer_ok sw_Close _ (inv_writers_NoDup h w inv) w (inv_writers_known h w inv))).
  intros [= <-]. left. destruct known_i as [Hcl|[_ Hi]].
  - eapply closes_in; [by apply closes_upd|exact Hcl].
  - rewrite Hc, app_nil_r in Hi. apply closed_upd; [done|by apply (inv_writers_known h w inv)].
Qed.
End settled.

Lemma settled_step h w ev w' i : stream_inv h w → exec ev w = Some (Ok tt, w') → settled w i → settled w' i.
Proof.
  intros Hi. destruct ev; cbn [exec]; intros He Hs;
    try (apply only_some in He as [Hb He]); repeat (rewrite ?andb_true_iff in Hb; destruct_and? Hb);
    unfold running, closing in *; rewrite ?negb_true_iff, ?bool_decide_eq_true, ?bool_decide_eq_false in *.
  - injection He as <-. refine (settled_same w _ i _ _ _ Hs); [|cbn; by destruct (s_phase w); auto|done].
    intros j o Ho. cbn. rewrite lookup_insert_ne by congruence. by exists o.
  - injection He as <-. exact Hs.
  - injection He as <-. apply (settled_same w); [apply closes_refl|cbn; by destruct (s_phase w); auto| |exact Hs].
    intros j. cbn. rewrite !elem_of_app. tauto.
  - injection He as <-. exact Hs.
  - destruct (reading w !! g) as [[]|]; try done. injection He as <-. exact Hs.
  - destruct (reading w !! g) as [[]|]; try done. injection He as He. unfold read_turn in He.
    destruct (s_reader w) as [k|]; [|done]. destruct (heap_r w !! k); [|done].
    destruct (sr_Read _ _ _) as [[] []]; simplify_eq; exact Hs.
  - destruct (reading w !! g) as [[]|]; try done. injection He as <-. unfold push_turn. destruct (Nat.ltb _ _); exact Hs.
  - by apply (settled_packet h w).
  - by apply (settled_join h w).
  - by apply (settled_replace h w).
  - by apply (settled_tick h w) with now.
  - injection He as <-. apply (settled_same w); [apply closes_refl|by left|done|exact Hs].
  - by apply (settled_close h w).
  - injection He as <-. exact Hs.
  - by apply (settled_finish h w).
  - destruct (heap_w w !! i0) as [o|] eqn:Ho; [|done]. destruct (w_sending o); [|done]. unfold send_turn in He.
    destruct (SendPacket_pass _ _ _ _) as [[r x]|] eqn:E; [|done]. injection He as _ <-.
    refine (settled_same w _ i _ _ _ Hs); [|cbn; by destruct (s_phase w); auto|done].
    apply closes_insert with o; [done|]. cbn. unfold SendPacket_pass in E. destruct (packetQueue (w_obj o)).
    + destruct (queue_closed (w_obj o)); [|done]. by injection E as _ <-.
    + injection E as E. by apply send_one_queue in E as (_ & _ & _ & Hx).
  - destruct (heap_w w !! i0) as [o|] eqn:Ho; [|done]. destruct (w_checking o); [|done]. injection He as He.
    refine (settled_same w _ i _ _ _ Hs); unfold check_turn, on_sw_conn in He;
      (destruct (fc_Read _) as [[] x]; simplify_eq; try done; cbn; try (by destruct (s_phase w); auto); by apply closes_insert with o).
Qed.

Lemma run_settled i evs : ∀ s s', stream_inv s.2 s.1 → run_all evs s = Some s' → settled s.1 i → settled s'.1 i.
Proof.
  induction evs as [|ev evs IH]; intros [w h] s' Hi; [by intros [= <-]|]. cbn [run_all fst snd].
  destruct (exec ev w) as [[[[]| | |] w']|] eqn:E; try done. intros Hr Hs.
  apply (IH (w', note ev w w' h) s'); [by apply exec_inv|done|]. by apply (settled_step h w ev).
Qed.

(** C26: A stream without a publisher that reads ends: at the next tick its loop leaves, and
    there is a run on which it gives up its place in the handler and closes what it has to
    close until it is done.  And on every run, whatever else happens on it, once the loop is
    done all writers are closed that were those of the stream or in its channel when the
    tick came.  A writer that was not in the channel yet is not covered: it may come too
    late ([late_player_waits]). *)
Theorem stream_ends info gopNum w h now : reaches info gopNum w h → s_phase w = Running →
  reader_alive now w = false →
  (∃ evs w' h', run_all (ETick now :: ERemoved :: evs) (w, h) = Some (w', h') ∧ s_phase w' = Exited ∧
     writerChan w' = [] ∧ readerChan w' = []) ∧
  (∀ evs s', run_all (ETick now :: evs) (w, h) = Some s' → s_phase s'.1 = Exited →
     ∀ i, i ∈ s_writers w ++ writerChan w → ∃ o, heap_w s'.1 !! i = Some o ∧ sw_closed (w_obj o) = true).
Proof.
  intros Hr Hp Ha. pose proof (reaches_inv _ _ _ _ Hr) as Hi. split.
  - assert (E1 : exec (ETick now) w = Some (Ok tt, set_s_phase Removing w)).
    { cbn [exec]. unfold running, only, tick. by rewrite Hp, bool_decide_true, Ha. }
    assert (E2 : exec ERemoved (set_s_phase Removing w) = Some (Ok tt, set_s_phase Closing w)) by done.
    pose proof (exec_inv _ _ _ _ (exec_inv h w _ _ Hi E1) E2) as Hi2.
    destruct (closing_ends _ _ Hi2 eq_refl) as (evs & w' & h' & E & H1 & H2 & H3 & _). exists evs, w', h'.
    split; [|done]. apply (run_one _ _ _ _ _ _ E1). by apply (run_one _ _ _ _ _ _ E2).
  - intros evs s' E Hx i Hin. destruct (run_settled i _ (w, h) s' Hi E) as [Hc|[Hc _]]; [|exact Hc|done].
    right. cbn [fst]. by rewrite Hp.
Qed.

Lemma stream_ends_witness : ∃ evs w' h',
  run_all (ETick 20000000000 :: ERemoved :: evs) (state_after arrivals) = Some (w', h') ∧ s_phase w' = Exited ∧
  ∃ o, heap_w w' !! 0%nat = Some o ∧ sw_closed (w_obj o) = true.
Proof.
  assert (Hs : state_after arrivals = ((state_after arrivals).1, (state_after arrivals).2)) by (by destruct (state_after arrivals)).
  destruct (stream_ends sample_info 1 (state_after arrivals).1 (state_after arrivals).2 20000000000)
    as [(evs & w' & h' & E & Hp & _) Hw].
  - apply state_after_reaches.
  - vm_compute. reflexivity.
  - vm_compute. reflexivity.
  - exists evs, w', h'. rewrite Hs. split; [exact E|]. split; [exact Hp|]. apply (Hw _ _ E Hp).
    replace (s_writers _ ++ _) with [0%nat] by (vm_compute; reflexivity). by left.
Defined.

(** After the end nothing takes a writer out of the channel any more: a player that comes
    late stays in it, not one of the stream's and not closed by it, whatever happens. *)
Lemma late_player_waits w ev w' i : s_phase w = Exited → exec ev w = Some (Ok tt, w') →
  i ∈ writerChan w → s_phase w' = Exited ∧ i ∈ writerChan w' ∧ s_writers w' = s_writers w.
Proof.
  intros Hp He Hin. destruct ev; cbn [exec] in He; try (apply only_some in He as [Hb He]);
    try (unfold running, closing in Hb; rewrite Hp in Hb; done);
    try (rewrite bool_decide_eq_true in Hb; congruence); try (injection He as <-; done).
  - injection He as <-. cbn. split_and!; [done| |done]. set_solver.
  - destruct (reading w !! g) as [[]|]; try done. by injection He as <-.
  - destruct (reading w !! g) as [[]|]; try done. injection He as He. unfold read_turn in He.
    destruct (s_reader w) as [k|]; [|done]. destruct (heap_r w !! k); [|done].
    destruct (sr_Read _ _ _) as [[]  []]; by simplify_eq.
  - destruct (reading w !! g) as [[]|]; try done. injection He as <-. unfold push_turn. by destruct (Nat.ltb _ _).
  - destruct (heap_w w !! i0) as [o|]; [|done]. destruct (w_sending o); [|done]. unfold send_turn in He.
    destruct (SendPacket_pass _ _ _ _) as [[[] x]|]; by simplify_eq.
  - destruct (heap_w w !! i0) as [o|]; [|done]. destruct (w_checking o); [|done]. injection He as He.
    unfold check_turn in He. destruct (on_sw_conn _ _) as [[] x]; by simplify_eq.
Qed.

(** A second publisher that comes before the goroutine of the first one has called
    [wg.Add]: both goroutines read the second publisher. *)
Example two_goroutines_read :
  (λ s, (s_reader s.1, reading s.1)) <$> run_all
    [EAddReader 0 (conn_with []) 0; EPutReader 0; EReplace;
     EAddReader 1 (conn_with []) 0; EPutReader 1; EReplace; EStart 0; EStart 1] new_stream
  = Some (Some 1%nat, [Reading; Reading]).
Proof. vm_compute. reflexivity. Qed.
