(* ===== verification/Hub.v ===== *)
(** * A stream as a hub (src/protocol/stream.go)

    What a stream promises, without its loop, channels, goroutines and connections: a log of
    what was published, packets that wait to be handed out, and subscribers, each with what
    it has got and what it is to get next.  [stream_is_hub] shows that every run of the
    stream is a run of the hub; [player_gets_all] takes from it what a player gets whose
    queue has room. *)
From S2P Require Import Prelude Pio GoIO ReadWriter Av Chunk Conn Exchange Messages Cache H264 Media Flv.
From S2P Require Import Amf Amf3 Amf0 Forward Commands StreamRW Stream StreamLife.

(** ** The hub *)

(** A subscriber: what it has got, what it is to get next, whether it waits for a key frame
    and whether it is still there. *)
Record Sub := mkSub { sub_got : list SPacket; sub_next : list SPacket; sub_need : bool; sub_open : bool }.

Definition new_sub : Sub := mkSub [] [] true true.

(** Everything published; what has been handed out; what waits to be; the subscribers that
    take part; all that ever came. *)
Record Hub := mkHub {
  hub_log : list SPacket;
  hub_done : list SPacket;
  hub_next : list SPacket;
  hub_members : gset nat;
  hub_subs : gmap nat Sub;
}.

Definition new_hub : Hub := mkHub [] [] [] ∅ ∅.

(** A subscriber is offered a packet: until a key frame comes it takes no picture; without
    room it takes nothing, and waits again if a key frame is lost. *)
Definition offer (p : SPacket) (s : Sub) : Sub :=
  if negb (sub_open s) || (is_video p && sub_need s && negb (is_key p)) then s
  else if Nat.ltb (length (sub_next s)) maxQueueNum
  then mkSub (sub_got s) (sub_next s ++ [p]) (sub_need s && negb (is_video p)) true
  else mkSub (sub_got s) (sub_next s) (if is_video p then is_key p else sub_need s) true.

Definition shut (s : Sub) : Sub := mkSub (sub_got s) (sub_next s) (sub_need s) false.

Definition is_open (m : gmap nat Sub) (i : nat) : bool := from_option sub_open false (m !! i).

(** [f] for the subscribers in [X]. *)
Definition upd_subs (f : Sub → Sub) (X : gset nat) (m : gmap nat Sub) : gmap nat Sub :=
  map_imap (λ i s, Some (if decide (i ∈ X) then f s else s)) m.

Inductive action :=
  | Publish (p : SPacket)
  | Accept (p : SPacket)
  | Restart
  | Arrive (i : nat)
  | Join (i : nat)
  | Broadcast
  | Deliver (i : nat)
  | Shut (X : gset nat)
  | Leave (X : gset nat).

Inductive hub_step : action → Hub → Hub → Prop :=
  | do_publish p l d n M m : hub_step (Publish p) (mkHub l d n M m) (mkHub (l ++ [p]) d n M m)
  (** A published packet is queued, if there is room. *)
  | do_accept p l d n M m : p ∈ l → (length n < pktChan_cap)%nat →
      hub_step (Accept p) (mkHub l d n M m) (mkHub l d (n ++ [p]) M m)
  (** A new publisher: what the old one left is dropped. *)
  | do_restart l d n M m : hub_step Restart (mkHub l d n M m) (mkHub l d [] M m)
  | do_arrive i l d n M m : m !! i = None →
      hub_step (Arrive i) (mkHub l d n M m) (mkHub l d n M (<[i := new_sub]> m))
  (** A subscriber that has nothing yet takes part, and is to get the latest headers first. *)
  | do_join i need op l d n M m : m !! i = Some (mkSub [] [] need op) → i ∉ M →
      hub_step (Join i) (mkHub l d n M m)
        (mkHub l d n ({[i]} ∪ M) (<[i := mkSub [] (cachePkts (cache_of l)) need op]> m))
  (** The packet that waits longest is offered to all that take part; those that have left
      are members no more. *)
  | do_broadcast p l d n M m :
      hub_step Broadcast (mkHub l d (p :: n) M m)
        (mkHub l (d ++ [p]) n (filter (λ i, is_open m i = true) M) (upd_subs (offer p) M m))
  | do_deliver i got p q need op l d n M m : m !! i = Some (mkSub got (p :: q) need op) →
      hub_step (Deliver i) (mkHub l d n M m) (mkHub l d n M (<[i := mkSub (got ++ [p]) q need op]> m))
  | do_shut X l d n M m : hub_step (Shut X) (mkHub l d n M m) (mkHub l d n M (upd_subs shut X m))
  | do_leave X l d n M m :
      hub_step (Leave X) (mkHub l d n M m) (mkHub l d n (M ∖ X) (upd_subs shut X m)).

Inductive hub_steps : list action → Hub → Hub → Prop :=
  | no_steps H : hub_steps [] H H
  | more_steps a acts H1 H2 H3 : hub_step a H1 H2 → hub_steps acts H2 H3 → hub_steps (a :: acts) H1 H3.

Lemma hub_steps_app l1 l2 H1 H2 H3 : hub_steps l1 H1 H2 → hub_steps l2 H2 H3 → hub_steps (l1 ++ l2) H1 H3.
Proof. induction 1 as [|a acts Ha Hb Hc Hs _ IH]; [done|]. intros Hl. econstructor; eauto. Qed.

Lemma hub_one a H1 H2 H3 : hub_step a H1 H2 → H2 = H3 → hub_steps [a] H1 H3.
Proof. intros Hs <-. by econstructor; [|constructor]. Qed.

(** ** The stream as a hub *)

Definition sub_of (h : hist) (i : nat) (o : Writer) : Sub :=
  mkSub (sent_of h i) (packetQueue (w_obj o)) (keyframeNeed (w_obj o)) (negb (sw_closed (w_obj o))).

Definition subs_of (h : hist) (m : gmap nat Writer) : gmap nat Sub := map_imap (λ i o, Some (sub_of h i o)) m.

Definition hub_of (s : World * hist) : Hub :=
  mkHub (h_read s.2) (h_taken s.2) (pktChan s.1) (list_to_set (s_writers s.1)) (subs_of s.2 (heap_w s.1)).

(** A writer that is closed after the event. *)
Definition closed_now (i : nat) (w' : World) : list action := if open_in (heap_w w') i then [] else [Shut {[i]}].

(** What an event that leads from [w] to [w'] is for the hub; most are nothing. *)
Definition actions_of (ev : event) (w w' : World) : list action :=
  match ev with
  | EAddWriter i _ _ => [Arrive i]
  | ERead g _ _ => match reading w' !! g with Some (Holding p) => [Publish p] | _ => [] end
  | EPush g =>
      match reading w !! g with
      | Some (Holding p) => if Nat.ltb (length (pktChan w)) pktChan_cap then [Accept p] else []
      | _ => []
      end
  | EPacket => [Broadcast]
  | EJoin => Join <$> take 1 (writerChan w)
  | EReplace => match s_reader w with Some _ => [Restart] | None => [] end
  | ETick now => if reader_alive now w then [Leave (list_to_set (drop_dead now (heap_w w) (s_writers w)))] else []
  | ECloseWriter => [Shut (list_to_set (take 1 (writerChan w)))]
  | EFinish => [Shut (list_to_set (s_writers w))]
  | ESend i _ _ =>
      match heap_w w !! i with
      | Some o => match packetQueue (w_obj o) with [] => [] | _ => Deliver i :: closed_now i w' end
      | None => []
      end
  | ECheck i => closed_now i w'
  | _ => []
  end.

Fixpoint trace (evs : list event) (s : World * hist) : list action :=
  match evs with
  | [] => []
  | ev :: evs =>
      match exec ev s.1 with
      | Some (Ok _, w') => actions_of ev s.1 w' ++ trace evs (w', note ev s.1 w' s.2)
      | _ => []
      end
  end.

(** *** The map of subscribers *)

Lemma lookup_subs_of h m i : subs_of h m !! i = sub_of h i <$> m !! i.
Proof. unfold subs_of. rewrite map_lookup_imap. by destruct (m !! i). Qed.

Lemma lookup_upd_subs f X m i : upd_subs f X m !! i = (λ s, if decide (i ∈ X) then f s else s) <$> m !! i.
Proof. unfold upd_subs. rewrite map_lookup_imap. by destruct (m !! i). Qed.

Lemma subs_of_insert h m i o : subs_of h (<[i := o]> m) = <[i := sub_of h i o]> (subs_of h m).
Proof.
  apply map_eq. intros j. rewrite lookup_subs_of. destruct (decide (j = i)) as [->|].
  - by rewrite !lookup_insert_eq.
  - by rewrite !lookup_insert_ne, lookup_subs_of by done.
Qed.

(** Nobody has been sent anything in between. *)
Lemma subs_of_same h h' m : (∀ i, is_Some (m !! i) → sent_of h' i = sent_of h i) → subs_of h' m = subs_of h m.
Proof.
  intros Hs. apply map_eq. intros i. rewrite !lookup_subs_of. destruct (m !! i) eqn:E; [|done].
  cbn. unfold sub_of. by rewrite Hs.
Qed.

Lemma subs_of_upd_all h f g ids m :
  (∀ i o, i ∈ ids → m !! i = Some o → sub_of h i (upd_obj f o) = g (sub_of h i o)) →
  subs_of h (upd_all f ids m) = upd_subs g (list_to_set ids) (subs_of h m).
Proof.
  intros Hf. apply map_eq. intros i. rewrite lookup_subs_of, lookup_upd_all, lookup_upd_subs, lookup_subs_of.
  destruct (m !! i) as [o|] eqn:E; [|done]. cbn. f_equal. case_bool_decide as Hi.
  - rewrite decide_True by (by apply elem_of_list_to_set). auto.
  - by rewrite decide_False by (by rewrite elem_of_list_to_set).
Qed.

Lemma subs_of_shut h m i o o' : m !! i = Some o → sub_of h i o' = shut (sub_of h i o) →
  subs_of h (<[i := o']> m) = upd_subs shut {[i]} (subs_of h m).
Proof.
  intros Ho Hs. apply map_eq. intros j. rewrite lookup_subs_of, lookup_upd_subs, lookup_subs_of.
  destruct (decide (j = i)) as [->|].
  - rewrite lookup_insert_eq, Ho. cbn. rewrite decide_True by set_solver. by rewrite Hs.
  - rewrite lookup_insert_ne by done. destruct (m !! j); [|done]. cbn. by rewrite decide_False by set_solver.
Qed.

Lemma sub_of_Close h i o : sub_of h i (upd_obj sw_Close o) = shut (sub_of h i o).
Proof. unfold sub_of, shut, upd_obj, sw_Close. cbn. by destruct (sw_closed (w_obj o)). Qed.

Lemma sub_of_calc h i o : sub_of h i (upd_obj calc_base o) = sub_of h i o.
Proof. done. Qed.

(** [Write], and [Close] after an error, is an offer. *)
Lemma sub_of_write h i p o : (queue_closed (w_obj o) = true → sw_closed (w_obj o) = true) →
  sub_of h i (upd_obj (write_obj p) o) = offer p (sub_of h i o).
Proof.
  intros Hq. unfold sub_of, upd_obj, write_obj, offer, sw_Write. cbn [w_obj sub_open sub_need sub_next sub_got].
  destruct (w_obj o) as [b cl k c q qc st cs]. cbn in *. destruct cl; [done|]. cbn.
  destruct qc; [by discriminate Hq|]. unfold is_key.
  destruct (is_video p), k, (FrameType (VHeader p) =? FRAME_KEY); cbn; try done;
    by destruct (Nat.leb (length q) _).
Qed.

Lemma is_open_subs h m i : is_open (subs_of h m) i = open_in m i.
Proof. unfold is_open, open_in. rewrite lookup_subs_of. by destruct (m !! i). Qed.

(** ** The events *)

(** The packets in the hands of the goroutines that read have been published. *)
Definition held (s : World * hist) : Prop := ∀ g p, reading s.1 !! g = Some (Holding p) → p ∈ h_read s.2.

Ltac same_hub := unfold hub_of; cbn; f_equal.

(** A writer that the event leaves as it is, but for [sw_closed]. *)
Lemma do_closed_now w w' h i o o' h' : heap_w w !! i = Some o → w' = set_heap_w (<[i := o']> (heap_w w)) w →
  h_read h' = h_read h → h_taken h' = h_taken h → (∀ j, j ≠ i → sent_of h' j = sent_of h j) →
  ∀ s : Sub, sub_of h' i o' = (if sw_closed (w_obj o') then shut s else s) →
  hub_steps (closed_now i w')
    (mkHub (h_read h) (h_taken h) (pktChan w) (list_to_set (s_writers w)) (<[i := s]> (subs_of h (heap_w w))))
    (hub_of (w', h')).
Proof.
  intros Ho -> Hr Ht Hs s Hsub. unfold closed_now, open_in, hub_of. cbn. rewrite lookup_insert_eq, Hr, Ht, subs_of_insert, Hsub.
  assert (E : <[i := s]> (subs_of h' (heap_w w)) = <[i := s]> (subs_of h (heap_w w))).
  { apply map_eq. intros j. destruct (decide (j = i)) as [->|]; [by rewrite !lookup_insert_eq|].
    rewrite !lookup_insert_ne, !lookup_subs_of by done. unfold sub_of. by rewrite Hs. }
  rewrite <- E. destruct (sw_closed (w_obj o')); cbn; [|constructor].
  eapply hub_one; [constructor|]. f_equal. apply map_eq. intros j. rewrite lookup_upd_subs.
  destruct (decide (j = i)) as [->|].
  - rewrite !lookup_insert_eq. cbn. by rewrite decide_True by set_solver.
  - rewrite !lookup_insert_ne by done. destruct (_ !! j); [|done]. cbn. by rewrite decide_False by set_solver.
Qed.
Section event.
Variables (h : hist) (w w' : World).
Hypothesis inv : stream_inv h w.

Lemma do_packet : pktChan w ≠ [] → take_packet w = (Ok tt, w') →
  hub_steps [Broadcast] (hub_of (w, h)) (hub_of (w', note EPacket w w' h)).
Proof.
  intros Hne. destruct (pktChan w) as [|p ps] eqn:Hp; [done|].
  rewrite (take_packet_ok w p ps Hp (inv_writers_NoDup h w inv) (inv_writers_known h w inv) (inv_channels h w inv)).
  intros [= <-]. unfold hub_of, note. cbn. rewrite Hp. eapply hub_one; [constructor|]. same_hub.
  - apply set_eq. intros i. rewrite elem_of_filter, !elem_of_list_to_set, list_elem_of_filter, is_open_subs. done.
  - symmetry. etrans; [by apply (subs_of_same h)|]. apply subs_of_upd_all. intros i o _ Ho.
    apply sub_of_write, (inv_channels h w inv i o Ho).
Qed.

Lemma do_joins : writerChan w ≠ [] → join w = (Ok tt, w') →
  hub_steps (actions_of EJoin w w') (hub_of (w, h)) (hub_of (w', h)).
Proof.
  intros Hne Hj. cbn. destruct (writerChan w) as [|i rest] eqn:Hc; [done|].
  destruct (join_result h w i rest w' inv Hc Hj) as (o & Ho & Hg & ->). cbn. rewrite take_0. cbn.
  unfold given in Hg. apply app_nil in Hg as [Hs Hq].
  eapply hub_one.
  - unfold hub_of. cbn [fst snd]. apply (do_join i (keyframeNeed (w_obj o)) (negb (sw_closed (w_obj o)))).
    + rewrite lookup_subs_of, Ho. cbn. unfold sub_of. by rewrite Hs, Hq.
    + rewrite elem_of_list_to_set. pose proof (si_ids _ _ inv) as Hn. rewrite Hc in Hn.
      apply NoDup_app in Hn as (_ & Hn & _). intros Hi. apply (Hn i Hi). by left.
  - same_hub.
    + rewrite list_to_set_app_L. cbn. by rewrite (right_id_L ∅ (∪)), (comm_L (∪)).
    + rewrite subs_of_insert. f_equal. unfold sub_of. cbn. by rewrite Hs.
Qed.

Lemma do_read g now ms : reading w !! g = Some Reading → read_turn g now ms w = (Ok tt, w') →
  hub_steps (actions_of (ERead g now ms) w w') (hub_of (w, h)) (hub_of (w', note (ERead g now ms) w w' h)).
Proof.
  intros Hg. unfold read_turn. destruct (s_reader w) as [i|]; [|done]. destruct (heap_r w !! i) as [r|]; [|done].
  assert (Hin : ∀ pc, <[g := pc]> (reading w) !! g = Some pc)
    by (intros; apply list_lookup_insert_eq; by eapply lookup_lt_Some).
  destruct (sr_Read now ms (r, no_packet)) as [[u|e|q|] [r' q']]; try done; intros [= <-]; cbn; rewrite Hin.
  - eapply hub_one; [constructor|]. same_hub.
  - constructor.
Qed.

Lemma do_push g p : held (w, h) → reading w !! g = Some (Holding p) → w' = push_turn g p w →
  hub_steps (actions_of (EPush g) w w') (hub_of (w, h)) (hub_of (w', note (EPush g) w w' h)).
Proof.
  intros Hh Hg ->. cbn [actions_of note]. rewrite Hg. unfold push_turn. destruct (Nat.ltb_spec (length (pktChan w)) pktChan_cap) as [Hl|Hl].
  - eapply hub_one; [by constructor; [apply (Hh g)|]|]. same_hub.
  - constructor.
Qed.

Lemma do_replace : readerChan w ≠ [] → replace w = (Ok tt, w') →
  hub_steps (actions_of EReplace w w') (hub_of (w, h)) (hub_of (w', h)).
Proof.
  intros Hne. destruct (readerChan w) as [|r rest] eqn:Hc; [done|].
  rewrite (replace_ok w r rest Hc (inv_writers_NoDup h w inv) (inv_writers_known h w inv)). intros [= <-]. cbn.
  destruct (s_reader w); [|constructor]. eapply hub_one; [constructor|]. same_hub.
  symmetry. erewrite subs_of_upd_all with (g := id) by (intros; apply sub_of_calc).
  apply map_eq. intros i. rewrite lookup_upd_subs. destruct (subs_of h (heap_w w) !! i); [|done]. cbn. by case_decide.
Qed.

Lemma do_tick now : tick now w = (Ok tt, w') →
  hub_steps (actions_of (ETick now) w w') (hub_of (w, h)) (hub_of (w', h)).
Proof.
  cbn. destruct (reader_alive now w) eqn:Ha.
  - rewrite (tick_ok now w (inv_writers_NoDup h w inv) (inv_writers_known h w inv) Ha). intros [= <-].
    eapply hub_one; [constructor|]. same_hub.
    + apply set_eq. intros i. rewrite elem_of_difference, !elem_of_list_to_set.
      unfold keep_alive, drop_dead. rewrite !list_elem_of_filter. destruct (alive_in now (heap_w w) i); intuition done.
    + symmetry. apply subs_of_upd_all. intros. apply sub_of_Close.
  - unfold tick. rewrite Ha. intros [= <-]. constructor.
Qed.

Lemma do_close_pending : writerChan w ≠ [] → close_pending w = (Ok tt, w') →
  hub_steps (actions_of ECloseWriter w w') (hub_of (w, h)) (hub_of (w', h)).
Proof.
  intros Hne. cbn. destruct (writerChan w) as [|i rest] eqn:Hc; [done|].
  destruct (si_known _ _ inv i) as [o Ho]; [left; rewrite Hc; set_solver|].
  rewrite (close_pending_ok w i rest o Hc Ho). intros [= <-]. cbn. rewrite take_0.
  eapply hub_one; [constructor|]. same_hub. rewrite (subs_of_shut h _ i o) by (done || apply sub_of_Close).
  by rewrite (right_id_L ∅ (∪)).
Qed.

Lemma do_finish : finish w = (Ok tt, w') →
  hub_steps (actions_of EFinish w w') (hub_of (w, h)) (hub_of (w', h)).
Proof.
  unfold finish. rewrite go_bind_get.
  rewrite (go_bind_ok _ _ _ _ _ (each_writer_ok sw_Close _ (inv_writers_NoDup h w inv) w (inv_writers_known h w inv))).
  intros [= <-]. eapply hub_one; [constructor|]. same_hub. symmetry. apply subs_of_upd_all. intros. apply sub_of_Close.
Qed.

Lemma do_send i now ms o : heap_w w !! i = Some o → send_turn i now ms o w = Some (Ok tt, w') →
  hub_steps (actions_of (ESend i now ms) w w') (hub_of (w, h)) (hub_of (w', note (ESend i now ms) w w' h)).
Proof.
  intros Ho. unfold send_turn, SendPacket_pass. cbn [actions_of note]. rewrite Ho.
  destruct (packetQueue (w_obj o)) as [|p q] eqn:Hq.
  - destruct (queue_closed (w_obj o)); [|done]. intros [= <-]. cbn [take]. rewrite app_nil_r.
    assert (E : hub_of (set_heap_w (<[i := mkW (w_obj o) false (w_checking o)]> (heap_w w)) w,
      mkHist (h_read h) (h_pushed h) (h_taken h) (<[i := sent_of h i]> (h_sent h))) = hub_of (w, h)); [|rewrite E; constructor].
    same_hub. rewrite subs_of_insert. rewrite (subs_of_same h).
    + apply insert_id. rewrite lookup_subs_of, Ho. cbn. unfold sub_of, sent_of. cbn. by rewrite lookup_insert_eq.
    + intros j _. unfold sent_of at 1. cbn. destruct (decide (j = i)) as [->|];
        [by rewrite lookup_insert_eq|by rewrite lookup_insert_ne].
  - destruct (send_one _ _ _ _) as [r b] eqn:E. cbn [take]. intros Hx. injection Hx as Hr <-.
    apply send_one_queue in E as (E1 & E2 & E3 & E4). cbn in E1, E2, E3, E4.
    set (s := mkSub (sent_of h i ++ [p]) q (keyframeNeed (w_obj o)) (negb (sw_closed (w_obj o)))).
    eapply more_steps; [apply (do_deliver i (sent_of h i) p q (keyframeNeed (w_obj o)) (negb (sw_closed (w_obj o)))); cbn; rewrite lookup_subs_of, Ho; cbn; unfold sub_of; by rewrite Hq|].
    eapply (do_closed_now w _ h i o) with (s := s); [done|reflexivity|done..| |].
    + intros j Hj. unfold sent_of at 1. cbn. by rewrite lookup_insert_ne.
    + unfold sub_of, sent_of at 1, s. cbn. rewrite lookup_insert_eq, E1, E2. cbn.
      destruct (sw_closed b) eqn:Eb; [done|]. destruct (sw_closed (w_obj o)) eqn:Ea; [|done]. by specialize (E4 eq_refl).
Qed.

Lemma do_check i o : heap_w w !! i = Some o → check_turn i o w = (Ok tt, w') →
  hub_steps (actions_of (ECheck i) w w') (hub_of (w, h)) (hub_of (w', h)).
Proof.
  intros Ho. unfold check_turn, on_sw_conn. cbn [actions_of].
  assert (Hs : hub_of (w, h) = mkHub (h_read h) (h_taken h) (pktChan w) (list_to_set (s_writers w))
    (<[i := sub_of h i o]> (subs_of h (heap_w w)))).
  { same_hub. symmetry. apply insert_id. by rewrite lookup_subs_of, Ho. }
  destruct (fc_Read (sw_conn (w_obj o))) as [[x|e|q|] c]; try done; intros [= <-]; rewrite Hs;
    (eapply do_closed_now; [done|reflexivity|done..|]); unfold sub_of, shut; cbn.
  - by destruct (sw_closed (w_obj o)).
  - unfold sw_Close. cbn. by destruct (sw_closed (w_obj o)).
Qed.
End event.

(** Every event that does not panic is what [actions_of] says. *)
Lemma event_is_actions h w ev w' : stream_inv h w → held (w, h) → exec ev w = Some (Ok tt, w') →
  hub_steps (actions_of ev w w') (hub_of (w, h)) (hub_of (w', note ev w w' h)).
Proof.
  intros Hi Hh. destruct ev; cbn [exec]; intros He;
    try (apply only_some in He as [Hb He]); repeat (rewrite ?andb_true_iff in Hb; destruct_and? Hb);
    rewrite ?negb_true_iff, ?bool_decide_eq_true, ?bool_decide_eq_false in *.
  - injection He as <-. pose proof (si_sent _ _ Hi i Hb) as Hs. eapply hub_one.
    + constructor. cbn. by rewrite lookup_subs_of, Hb.
    + same_hub. rewrite subs_of_insert. f_equal. unfold sub_of. by rewrite Hs.
  - injection He as <-. constructor.
  - injection He as <-. constructor.
  - injection He as <-. constructor.
  - destruct (reading w !! g) as [[]|] eqn:Hg; try done. injection He as <-. constructor.
  - destruct (reading w !! g) as [[]|] eqn:Hg; try done. injection He as He. by apply do_read.
  - destruct (reading w !! g) as [[]|] eqn:Hg; try done. injection He as <-. by apply do_push with p.
  - by apply do_packet.
  - by apply do_joins.
  - by apply do_replace.
  - by apply do_tick.
  - injection He as <-. constructor.
  - by apply do_close_pending.
  - injection He as <-. constructor.
  - by apply do_finish.
  - destruct (heap_w w !! i) as [o|] eqn:Ho; [|done]. destruct (w_sending o); [|done]. by apply do_send with o.
  - destruct (heap_w w !! i) as [o|] eqn:Ho; [|done]. destruct (w_checking o); [|done]. injection He as He.
    by apply do_check with o.
Qed.

(** *** What the goroutines hold *)

Definition reads (ev : event) : bool :=
  match ev with EStart _ | ERead _ _ _ | EPush _ | EReplace => true | _ => false end.

Lemma same_reading h w ev w' : stream_inv h w → exec ev w = Some (Ok tt, w') → reads ev = false →
  reading w' = reading w ∧ h_read (note ev w w' h) = h_read h.
Proof.
  intros Hi He Hev. pose proof (inv_writers_NoDup h w Hi) as Hn. pose proof (inv_writers_known h w Hi) as Hk.
  destruct ev; try done; cbn [exec] in He;
    try (apply only_some in He as [Hb He]); repeat (rewrite ?andb_true_iff in Hb; destruct_and? Hb);
    rewrite ?negb_true_iff, ?bool_decide_eq_true, ?bool_decide_eq_false in *;
    try (by injection He as <-).
  - destruct (pktChan w) as [|p ps] eqn:Hp; [done|].
    rewrite (take_packet_ok w p ps Hp Hn Hk (inv_channels h w Hi)) in He. by injection He as <-.
  - destruct (writerChan w) as [|i rest] eqn:Hc; [done|].
    by destruct (join_result h w i rest w' Hi Hc He) as (o & _ & _ & ->).
  - destruct (reader_alive now w) eqn:Ha.
    + rewrite (tick_ok now w Hn Hk Ha) in He. by injection He as <-.
    + unfold tick in He. rewrite Ha in He. by injection He as <-.
  - destruct (writerChan w) as [|i rest] eqn:Hc; [done|].
    destruct (si_known _ _ Hi i) as [o Ho]; [left; rewrite Hc; set_solver|].
    rewrite (close_pending_ok w i rest o Hc Ho) in He. by injection He as <-.
  - unfold finish in He. rewrite go_bind_get in He.
    rewrite (go_bind_ok _ _ _ _ _ (each_writer_ok sw_Close _ Hn w Hk)) in He. by injection He as <-.
  - destruct (heap_w w !! i) as [o|] eqn:Ho; [|done]. destruct (w_sending o); [|done]. unfold send_turn in He.
    destruct (SendPacket_pass _ _ _ _) as [[r x]|]; [|done]. injection He as _ <-. cbn. by rewrite Ho.
  - destruct (heap_w w !! i) as [o|] eqn:Ho; [|done]. destruct (w_checking o); [|done]. injection He as He.
    unfold check_turn in He. destruct (on_sw_conn _ _) as [[] x]; try done; by injection He as <-.
Qed.

Lemma held_insert s s' g pc : held s → reading s'.1 = <[g := pc]> (reading s.1) →
  h_read s.2 `prefix_of` h_read s'.2 → (∀ p, pc = Holding p → p ∈ h_read s'.2) → held s'.
Proof.
  intros H E [l Hl] Hpc k p. rewrite E. intros [(_ & Hk & _)|[_ Hk]]%list_lookup_insert_Some; [by apply Hpc|].
  rewrite Hl, elem_of_app. left. by apply (H k).
Qed.

Lemma held_step h w ev w' : stream_inv h w → held (w, h) → exec ev w = Some (Ok tt, w') → held (w', note ev w w' h).
Proof.
  intros Hi Hh He. destruct (reads ev) eqn:Hev; last first.
  { destruct (same_reading h w ev w' Hi He Hev) as [E1 E2]. intros g p. cbn [fst snd]. rewrite E1, E2. apply Hh. }
  destruct ev; try done; cbn [exec] in He.
  - destruct (reading w !! g) as [[]|] eqn:Hg; try done. injection He as <-. by apply held_insert with (w, h) g Reading.
  - destruct (reading w !! g) as [[]|] eqn:Hg; try done. injection He as He. unfold read_turn in He.
    destruct (s_reader w) as [i|]; [|done]. destruct (heap_r w !! i) as [r|]; [|done].
    assert (Hin : ∀ pc, <[g := pc]> (reading w) !! g = Some pc)
      by (intros; apply list_lookup_insert_eq; by eapply lookup_lt_Some).
    destruct (sr_Read now nowInMS (r, no_packet)) as [[u|e|q|] [r' q']]; try done; injection He as <-; cbn; rewrite Hin.
    + eapply held_insert with (w, h) g _; [done|reflexivity|by apply prefix_app_r|].
      intros p [= <-]. cbn. apply elem_of_app. right. by left.
    + by apply held_insert with (w, h) g Stopped.
  - destruct (reading w !! g) as [[]|] eqn:Hg; try done. injection He as <-.
    apply held_insert with (w, h) g Reading; [done|unfold push_turn; by destruct (Nat.ltb _ _)| |done].
    cbn [note snd]. rewrite Hg. by destruct (Nat.ltb _ _).
  - apply only_some in He as [Hb He]. rewrite !andb_true_iff, negb_true_iff, bool_decide_eq_false in Hb. destruct Hb as [[_ Hb] _].
    destruct (readerChan w) as [|r rest] eqn:Hc; [done|].
    rewrite (replace_ok w r rest Hc (inv_writers_NoDup h w Hi) (inv_writers_known h w Hi)) in He. injection He as <-.
    intros g p. cbn. intros [Hg|[_ Hg]]%lookup_app_Some; [by apply (Hh g)|]. by destruct (g - _)%nat as [|[]].
Qed.

(** ** The refinement *)

Lemma run_is_actions evs : ∀ s s', stream_inv s.2 s.1 → held s → run_all evs s = Some s' →
  hub_steps (trace evs s) (hub_of s) (hub_of s').
Proof.
  induction evs as [|ev evs IH]; intros [w h] s' Hi Hh; [intros [= <-]; constructor|]. cbn [run_all trace fst snd] in *.
  destruct (exec ev w) as [[[[]| | |] w']|] eqn:E; try done. intros Hr.
  eapply hub_steps_app; [by apply event_is_actions|]. apply IH; [by apply exec_inv|by apply held_step|done].
Qed.

(** C6: Every run of a stream is a run of the hub: the events of the goroutines are, in
    their order, what [trace] makes of them, one or two actions or none. *)
Theorem stream_is_hub info gopNum evs s : run_all evs (NewStream info gopNum, no_hist) = Some s →
  hub_steps (trace evs (NewStream info gopNum, no_hist)) new_hub (hub_of s).
Proof.
  intros Hr. change new_hub with (hub_of (NewStream info gopNum, no_hist)). apply run_is_actions; [|by intros g p|done].
  apply (reaches_inv info gopNum), reaches_new.
Qed.

(** ** What a subscriber with room gets *)

(** The packets from the first key frame on, if one is waited for; sound and metadata are
    not held up. *)
Fixpoint from_key (need : bool) (l : list SPacket) : list SPacket :=
  match l with
  | [] => []
  | p :: l => if is_video p && need && negb (is_key p) then from_key need l
              else p :: from_key (need && negb (is_video p)) l
  end.

Definition need_after (need : bool) (l : list SPacket) : bool := need && negb (existsb is_key l).

Lemma key_is_video (p : SPacket) : is_key p = is_video p && is_key p.
Proof. unfold is_key. by destruct (is_video p). Qed.

Lemma from_key_app l2 l1 : ∀ need, from_key need (l1 ++ l2) = from_key need l1 ++ from_key (need_after need l1) l2.
Proof.
  induction l1 as [|p l1 IH]; intros need; [by destruct need|]. cbn [app from_key]. rewrite !IH. unfold need_after. cbn [existsb].
  rewrite (key_is_video p). by destruct (is_video p), need, (is_key p).
Qed.

Lemma need_after_app need l1 l2 : need_after need (l1 ++ l2) = need_after (need_after need l1) l2.
Proof. unfold need_after. rewrite existsb_app, negb_orb. by rewrite andb_assoc. Qed.

Definition sub_all (s : Sub) : list SPacket := sub_got s ++ sub_next s.

(** [s'] is [s] after it was offered [l] and had room for it. *)
Record served (l : list SPacket) (s s' : Sub) : Prop := {
  sv_open : sub_open s = true;
  sv_all : sub_all s' = sub_all s ++ from_key (sub_need s) l;
  sv_need : sub_need s' = need_after (sub_need s) l;
}.

Lemma served_nil s : sub_open s = true → served [] s s.
Proof. constructor; [done|by rewrite app_nil_r|]. unfold need_after. cbn. by rewrite andb_true_r. Qed.

Lemma served_app l1 l2 s1 s2 s3 : served l1 s1 s2 → served l2 s2 s3 → served (l1 ++ l2) s1 s3.
Proof.
  intros [H1 H2 H3] [H4 H5 H6]. constructor; [done|by rewrite H5, H2, H3, from_key_app, app_assoc|].
  by rewrite H6, H3, need_after_app.
Qed.

Lemma served_offer p s : sub_open s = true → (length (sub_next s) < maxQueueNum)%nat → served [p] s (offer p s).
Proof.
  intros Ho Hl. unfold offer. rewrite Ho, (proj2 (Nat.ltb_lt _ _) Hl). cbn [negb orb].
  destruct (is_video p && sub_need s && negb (is_key p)) eqn:E; constructor; unfold sub_all, need_after; cbn [from_key existsb sub_got sub_next sub_need];
    rewrite ?E; try done; rewrite ?app_nil_r, ?orb_false_r, ?app_assoc; try done;
    rewrite (key_is_video p) in *; by destruct (is_video p), (sub_need s), (is_key p).
Qed.

Lemma offer_open p s : sub_open (offer p s) = sub_open s.
Proof.
  unfold offer. destruct (sub_open s) eqn:E; [|done]. cbn [negb orb].
  destruct (_ && _); [done|]. by destruct (Nat.ltb _ _).
Qed.

Lemma upd_subs_at f X m i s s' : m !! i = Some s → upd_subs f X m !! i = Some s' →
  s' = (if decide (i ∈ X) then f s else s).
Proof. intros Hi. rewrite lookup_upd_subs, Hi. by intros [= <-]. Qed.

(** One action, for a member that is still there after it. *)
Lemma step_serves a H H' i s s' : hub_step a H H' → i ∈ hub_members H → hub_subs H !! i = Some s →
  hub_subs H' !! i = Some s' → sub_open s' = true → (a = Broadcast → (length (sub_next s) < maxQueueNum)%nat) →
  i ∈ hub_members H' ∧ ∃ l, hub_done H' = hub_done H ++ l ∧ served l s s'.
Proof.
  intros Hs Hm Hi Hi' Ho Hroom.
  assert (Hkeep : ∀ d, s' = s → ∃ l, d = (d ++ l) ∧ served l s s').
  { intros d ->. exists []. rewrite app_nil_r. split; [done|]. by apply served_nil. }
  assert (Hshut : ∀ X m, m !! i = Some s → upd_subs shut X m !! i = Some s' → ¬ (i ∈ X) ∧ s' = s).
  { intros X m Hx Hy. rewrite (upd_subs_at _ _ _ _ _ _ Hx Hy) in *. by case_decide. }
  destruct Hs as [p l d n M m|p l d n M m Hp Hl|l d n M m|j l d n M m Hj|j need op l d n M m Hj HM|p l d n M m
    |j got p q need op l d n M m Hj|X l d n M m|X l d n M m]; cbn [hub_members hub_subs hub_done] in *.
  - split; [done|]. apply Hkeep. congruence.
  - split; [done|]. apply Hkeep. congruence.
  - split; [done|]. apply Hkeep. congruence.
  - rewrite lookup_insert_ne in Hi' by congruence. split; [done|]. apply Hkeep. congruence.
  - rewrite lookup_insert_ne in Hi' by congruence. split; [apply elem_of_union; by right|]. apply Hkeep. congruence.
  - pose proof (upd_subs_at _ _ _ _ _ _ Hi Hi') as E. rewrite decide_True in E by done. subst s'.
    rewrite offer_open in Ho. split; [apply elem_of_filter; unfold is_open; by rewrite Hi|].
    exists [p]. split; [done|]. apply served_offer; auto.
  - split; [done|]. destruct (decide (j = i)) as [->|]; [|rewrite lookup_insert_ne in Hi' by done; apply Hkeep; congruence].
    rewrite lookup_insert_eq in Hi'. injection Hi' as <-. rewrite Hi in Hj. injection Hj as ->. cbn in Ho. subst op.
    exists []. rewrite app_nil_r. split; [done|]. constructor; unfold sub_all, need_after; cbn; [done| |by rewrite andb_true_r].
    by rewrite app_nil_r, <- app_assoc.
  - destruct (Hshut _ _ Hi Hi') as [_ ->]. split; [done|]. by apply Hkeep.
  - destruct (Hshut _ _ Hi Hi') as [Hx ->]. split; [by apply elem_of_difference|]. by apply Hkeep.
Qed.

(** Nobody disappears, and who has left does not come back. *)
Lemma step_keeps a H H' i s : hub_step a H H' → hub_subs H !! i = Some s →
  ∃ s', hub_subs H' !! i = Some s' ∧ (sub_open s' = true → sub_open s = true).
Proof.
  intros Hs Hi.
  assert (Hupd : ∀ f X m, m !! i = Some s → (sub_open (f s) = true → sub_open s = true) →
    ∃ s', upd_subs f X m !! i = Some s' ∧ (sub_open s' = true → sub_open s = true)).
  { intros f X m Hx Hf. rewrite lookup_upd_subs, Hx. eexists. split; [done|]. by case_decide. }
  assert (Hins : ∀ j x (m : gmap nat Sub), m !! i = Some s → (j = i → sub_open x = true → sub_open s = true) →
    ∃ s', <[j := x]> m !! i = Some s' ∧ (sub_open s' = true → sub_open s = true)).
  { intros j x m Hx Hj. destruct (decide (j = i)) as [->|].
    - rewrite lookup_insert_eq. eauto.
    - rewrite lookup_insert_ne by done. eauto. }
  destruct Hs; cbn [hub_subs] in *; eauto; try (apply Hins; [done|intros ->; congruence]);
    try (by apply Hupd; [|rewrite ?offer_open]).
  - apply Hins; [done|]. intros ->. cbn. intros ->. by replace s with (mkSub [] [] need true) by congruence.
  - apply Hins; [done|]. intros ->. cbn. intros ->. by replace s with (mkSub got (p :: q) need true) by congruence.
Qed.

Lemma steps_keep acts H H' i s : hub_steps acts H H' → hub_subs H !! i = Some s →
  ∃ s', hub_subs H' !! i = Some s' ∧ (sub_open s' = true → sub_open s = true).
Proof.
  intros Hs. revert s. induction Hs as [|a acts H1 H2 H3 Ha Hs IH]; intros s Hi; [eauto|].
  destruct (step_keeps _ _ _ _ _ Ha Hi) as (s2 & H2i & Ho2). destruct (IH s2 H2i) as (s3 & H3i & Ho3). eauto.
Qed.

Lemma steps_serve acts H H' i s s' : hub_steps acts H H' → Broadcast ∉ acts → i ∈ hub_members H →
  hub_subs H !! i = Some s → hub_subs H' !! i = Some s' → sub_open s' = true →
  i ∈ hub_members H' ∧ ∃ l, hub_done H' = hub_done H ++ l ∧ served l s s'.
Proof.
  intros Hs. revert s. induction Hs as [H|a acts H1 H2 H3 Ha Hs IH]; intros s Hb Hm Hi Hi' Ho.
  { split; [done|]. simplify_eq. exists []. rewrite app_nil_r. split; [done|by apply served_nil]. }
  apply not_elem_of_cons in Hb as [Hb Hbs].
  destruct (step_keeps _ _ _ _ _ Ha Hi) as (s2 & H2i & _).
  destruct (steps_keep _ _ _ _ _ Hs H2i) as (s3 & H3i & Ho3). simplify_eq.
  destruct (step_serves _ _ _ _ _ _ Ha Hm Hi H2i (Ho3 Ho)) as (Hm2 & l & Hl & Hv); [by intros ->|].
  destruct (IH s2 Hbs Hm2 H2i Hi' Ho) as (Hm3 & l' & Hl' & Hv'). split; [done|].
  exists (l ++ l'). rewrite Hl', Hl, app_assoc. split; [done|]. by apply served_app with s2.
Qed.

(** ** The same for the stream *)

(** The queue of the writer [i] has room whenever the loop takes a packet. *)
Definition room (i : nat) (w : World) : bool :=
  match heap_w w !! i with Some o => Nat.ltb (length (packetQueue (w_obj o))) maxQueueNum | None => false end.

Fixpoint has_room (i : nat) (evs : list event) (s : World * hist) : bool :=
  match evs with
  | [] => true
  | ev :: evs =>
      match exec ev s.1 with
      | Some (Ok _, w') => match ev with EPacket => room i s.1 | _ => true end && has_room i evs (w', note ev s.1 w' s.2)
      | _ => true
      end
  end.

Lemma one_broadcast ev w w' : Broadcast ∈ actions_of ev w w' → ev = EPacket.
Proof.
  destruct ev; cbn; unfold closed_now; repeat case_match; try done; intros Hb;
    repeat (apply elem_of_cons in Hb as [Hb|Hb]; [done|]); try (by apply not_elem_of_nil in Hb);
    destruct (writerChan w); cbn in Hb; [by apply not_elem_of_nil in Hb|].
  apply elem_of_cons in Hb as [Hb|Hb]; [done|]. by rewrite take_0 in Hb; apply not_elem_of_nil in Hb.
Qed.

Lemma event_serves h w ev w' i o o' : stream_inv h w → held (w, h) → exec ev w = Some (Ok tt, w') →
  (ev = EPacket → room i w = true) → i ∈ s_writers w → heap_w w !! i = Some o → heap_w w' !! i = Some o' →
  sw_closed (w_obj o') = false → let h' := note ev w w' h in
  i ∈ s_writers w' ∧ ∃ l, h_taken h' = h_taken h ++ l ∧ served l (sub_of h i o) (sub_of h' i o').
Proof.
  intros Hi Hh He Hroom Hm Ho Ho' Hop h'. pose proof (event_is_actions h w ev w' Hi Hh He) as Hs.
  set (H := hub_of (w, h)) in Hs. set (H' := hub_of (w', h')) in Hs.
  assert (Hm1 : i ∈ hub_members H) by (by apply elem_of_list_to_set).
  assert (Hi1 : hub_subs H !! i = Some (sub_of h i o)) by (unfold H; cbn; by rewrite lookup_subs_of, Ho).
  assert (Hi2 : hub_subs H' !! i = Some (sub_of h' i o')) by (unfold H'; cbn; by rewrite lookup_subs_of, Ho').
  assert (Hop' : sub_open (sub_of h' i o') = true) by (cbn; by rewrite Hop).
  assert (Hgoal : i ∈ hub_members H' ∧ ∃ l, hub_done H' = hub_done H ++ l ∧ served l (sub_of h i o) (sub_of h' i o')).
  { assert (ev = EPacket ∨ ev ≠ EPacket) as [->|Hev] by (destruct ev; (by left) || (by right)).
    - inversion Hs as [|? ? ? H2 ? Ha Hn]; subst. inversion Hn; subst. eapply step_serves; [done..|].
      intros _. specialize (Hroom eq_refl). unfold room in Hroom. rewrite Ho in Hroom. by apply Nat.ltb_lt in Hroom.
    - eapply steps_serve; [exact Hs|by intros Hb%one_broadcast|done..]. }
  destruct Hgoal as [Hg1 Hg2]. split; [by apply elem_of_list_to_set in Hg1|exact Hg2].
Qed.

Lemma run_serves i evs : ∀ s s' o o', stream_inv s.2 s.1 → held s → run_all evs s = Some s' →
  has_room i evs s = true → i ∈ s_writers s.1 → heap_w s.1 !! i = Some o → heap_w s'.1 !! i = Some o' →
  sw_closed (w_obj o') = false →
  ∃ l, h_taken s'.2 = h_taken s.2 ++ l ∧ served l (sub_of s.2 i o) (sub_of s'.2 i o').
Proof.
  induction evs as [|ev evs IH]; intros [w h] s' o o' Hi Hh Hr Hroom Hm Ho Ho' Hop.
  { injection Hr as <-. rewrite Ho in Ho'. injection Ho' as <-. exists []. rewrite app_nil_r. split; [done|].
    apply served_nil. cbn. by rewrite Hop. }
  cbn [run_all has_room fst snd] in *. destruct (exec ev w) as [[[[]| | |] w']|] eqn:E; try done.
  apply andb_prop in Hroom as [Hr1 Hr2]. pose proof (exec_inv _ _ _ _ Hi E) as Hi'. pose proof (held_step _ _ _ _ Hi Hh E) as Hh'.
  pose proof (event_is_actions h w ev w' Hi Hh E) as Hs.
  destruct (steps_keep _ _ _ i (sub_of h i o) Hs) as (s1 & Hs1 & _); [cbn; by rewrite lookup_subs_of, Ho|].
  cbn in Hs1. rewrite lookup_subs_of in Hs1. destruct (heap_w w' !! i) as [o1|] eqn:Ho1; [|done]. clear s1 Hs1 Hs.
  assert (Hop1 : sw_closed (w_obj o1) = false).
  { pose proof (run_is_actions evs (w', note ev w w' h) s' Hi' Hh' Hr) as Hs.
    destruct (steps_keep _ _ _ i (sub_of (note ev w w' h) i o1) Hs) as (s2 & Hs2 & Hx); [cbn; by rewrite lookup_subs_of, Ho1|].
    cbn in Hs2. rewrite lookup_subs_of, Ho' in Hs2. injection Hs2 as <-. cbn in Hx. rewrite Hop in Hx.
    by destruct (sw_closed (w_obj o1)); [discriminate Hx|]. }
  destruct (event_serves h w ev w' i o o1 Hi Hh E) as (Hm1 & l1 & Hl1 & Hv1); [by intros ->|done..|].
  destruct (IH (w', note ev w w' h) s' o1 o' Hi' Hh' Hr Hr2 Hm1 Ho1 Ho' Hop) as (l2 & Hl2 & Hv2).
  exists (l1 ++ l2). rewrite Hl2. cbn. rewrite Hl1, app_assoc. split; [done|]. by eapply served_app.
Qed.

Lemma run_all_held info gopNum evs s : run_all evs (NewStream info gopNum, no_hist) = Some s → held s.
Proof.
  assert (H : ∀ evs s s', stream_inv s.2 s.1 → held s → run_all evs s = Some s' → held s').
  { clear. induction evs as [|ev evs IH]; intros [w h] s' Hi Hh; [by intros [= <-]|]. cbn [run_all fst snd].
    destruct (exec ev w) as [[[[]| | |] w']|] eqn:E; try done. apply IH; [by apply exec_inv|by apply held_step]. }
  apply H; [apply (reaches_inv info gopNum), reaches_new|by intros g p].
Qed.

(** C7: A player whose queue has room whenever the loop takes a packet gets all of them: from
    the moment it joins, as long as it is there, first the latest metadata and sequence
    headers and then every packet that is taken, sound and metadata at once and pictures
    from the first key frame on. *)
Theorem player_gets_all info gopNum before i w h w1 evs w' h' o :
  run_all before (NewStream info gopNum, no_hist) = Some (w, h) →
  writerChan w = [i] → exec EJoin w = Some (Ok tt, w1) → run_all evs (w1, h) = Some (w', h') →
  has_room i evs (w1, h) = true → heap_w w' !! i = Some o → sw_closed (w_obj o) = false →
  ∃ l, h_taken h' = h_taken h ++ l ∧
    given h' i (w_obj o) = cachePkts (cache_of (h_read h)) ++ from_key true l.
Proof.
  intros Hb Hc Hj Hr Hroom Ho Hop. pose proof (run_all_held _ _ _ _ Hb) as Hh.
  pose proof (run_all_reaches info gopNum before (NewStream info gopNum, no_hist) (w, h) (reaches_new _ _) Hb) as Hre. pose proof (reaches_inv _ _ _ _ Hre) as Hi.
  cbn [fst snd] in *. pose proof (exec_inv _ _ _ _ Hi Hj) as Hi1. pose proof (held_step _ _ _ _ Hi Hh Hj) as Hh1.
  cbn [exec] in Hj. apply only_some in Hj as [_ Hj].
  destruct (join_result h w i [] w1 Hi Hc Hj) as (a & Ha & Hg & Ew).
  destruct (wi_new _ _ _ _ (si_writer _ _ Hi i a Ha)) as [_ Hneed]; [left; rewrite Hc; by left|].
  destruct (run_serves i evs (w1, h) (w', h') (set_queue (cachePkts (cache_of (h_read h))) a) o Hi1 Hh1 Hr Hroom) as (l & Hl & Hv).
  - rewrite Ew. apply elem_of_app. right. by left.
  - rewrite Ew. apply lookup_insert_eq.
  - done.
  - done.
  - exists l. split; [done|]. unfold given in *. apply app_nil in Hg as [Hs _].
    pose proof (sv_all _ _ _ Hv) as E. unfold sub_all in E. cbn in E. by rewrite Hs, Hneed in E.
Qed.

(** The sample of [StreamLife]: the player joins and three packets follow. *)
Definition before_join : list event := take 6 arrivals.
Definition three_packets : list event := one_packet ++ one_packet ++ one_packet.

Lemma stream_is_hub_witness : ∃ s, run_all (arrivals ++ three_packets) new_stream = Some s ∧
  trace (arrivals ++ three_packets) new_stream ≠ [] ∧
  hub_steps (trace (arrivals ++ three_packets) new_stream) new_hub (hub_of s).
Proof.
  assert (H : is_Some (run_all (arrivals ++ three_packets) new_stream)) by (vm_compute; eauto).
  destruct H as [s E]. exists s. split; [exact E|]. split; [vm_compute; discriminate|].
  exact (stream_is_hub sample_info 1 (arrivals ++ three_packets) s E).
Defined.

(** All three are given to the player. *)
Lemma player_gets_all_witness : ∃ w h w1 w' h' o l,
  run_all before_join new_stream = Some (w, h) ∧ exec EJoin w = Some (Ok tt, w1) ∧
  run_all three_packets (w1, h) = Some (w', h') ∧ h_taken h' = h_taken h ++ l ∧ length l = 3%nat ∧
  given h' 0 (w_obj o) = cachePkts (cache_of (h_read h)) ++ from_key true l ∧ length (given h' 0 (w_obj o)) = 3%nat.
Proof.
  set (s := state_after before_join).
  assert (E : run_all before_join new_stream = Some (s.1, s.2)) by (vm_compute; reflexivity).
  set (w1 := default s.1 (snd <$> exec EJoin s.1)).
  assert (Ej : exec EJoin s.1 = Some (Ok tt, w1)) by (vm_compute; reflexivity).
  set (s' := default s (run_all three_packets (w1, s.2))).
  assert (Er : run_all three_packets (w1, s.2) = Some (s'.1, s'.2)) by (vm_compute; reflexivity).
  set (o := default (mkW (NewStreamWriter (conn_with []) 0) true true) (heap_w s'.1 !! 0%nat)).
  destruct (player_gets_all sample_info 1 before_join 0 s.1 s.2 w1 three_packets s'.1 s'.2 o) as (l & Hl & Hg).
  - exact E.
  - vm_compute. reflexivity.
  - exact Ej.
  - exact Er.
  - vm_compute. reflexivity.
  - vm_compute. reflexivity.
  - vm_compute. reflexivity.
  - exists s.1, s.2, w1, s'.1, s'.2, o, l.
    split; [exact E|]. split; [exact Ej|]. split; [exact Er|]. split; [exact Hl|]. split; [|split; [exact Hg|]].
    + apply (f_equal length) in Hl. rewrite length_app in Hl.
      replace (length (h_taken s'.2)) with 3%nat in Hl by (vm_compute; reflexivity).
      replace (length (h_taken s.2)) with 0%nat in Hl by (vm_compute; reflexivity). symmetry. exact Hl.
    + vm_compute. reflexivity.
Defined.
