(* ===== verification/Races.v ===== *)
(** * Where the turns of a stream overlap (src/protocol/stream_rw.go, src/protocol/stream.go)

    In Stream.v a turn of a goroutine is one step.  Two calls in the code are not safe when
    they overlap: [Close] of a writer, which its own goroutine and the loop of the stream
    both call, and [Wait] of the wait group, which a new goroutine may join.  Here they are
    taken statement by statement: a call that is alone does what its turn does in Stream.v,
    and two calls at once can panic. *)
From S2P Require Import Prelude Pio GoIO ReadWriter Av Chunk Conn Exchange Messages Cache H264 Media Flv.
From S2P Require Import Amf Amf3 Amf0 Forward Commands StreamRW Stream StreamLife.

(** ** [StreamWriter.Close] *)

(** What a call has still to do: the test of [closed], [close(packetQueue)], setting [closed],
    closing the connection. *)
Inductive close_pc := CloseTest | CloseQueue | CloseFlag | CloseConn | CloseDone.

(** The writer's two flags, and the calls that are under way. *)
Record Closing := mkClosing { cl_closed : bool; cl_queue : bool; cl_calls : list close_pc }.

Definition set_call (g : nat) (pc : close_pc) (s : Closing) : Closing :=
  mkClosing (cl_closed s) (cl_queue s) (<[g := pc]> (cl_calls s)).

(** One statement of the call [g]; [None] if there is none left. *)
Definition close_step (g : nat) (s : Closing) : option (res unit * Closing) :=
  match cl_calls s !! g with
  | Some CloseTest => Some (Ok tt, set_call g (if cl_closed s then CloseFlag else CloseQueue) s)
  | Some CloseQueue =>
      if cl_queue s then Some (Panic CloseOfClosedChannel, s)
      else Some (Ok tt, set_call g CloseFlag (mkClosing (cl_closed s) true (cl_calls s)))
  | Some CloseFlag => Some (Ok tt, set_call g CloseConn (mkClosing true (cl_queue s) (cl_calls s)))
  | Some CloseConn => Some (Ok tt, set_call g CloseDone s)
  | _ => None
  end.

(** The statements in the order of [gs]; a panic ends the program. *)
Fixpoint close_run (gs : list nat) (s : Closing) : option (res unit * Closing) :=
  match gs with
  | [] => Some (Ok tt, s)
  | g :: gs =>
      match close_step g s with
      | Some (Ok _, s') => close_run gs s'
      | r => r
      end
  end.

Definition flags {D} (w : StreamWriter D) : bool * bool := (sw_closed w, queue_closed w).

(** A call that is not disturbed does what [sw_Close] does. *)
Lemma close_alone {D} (w : StreamWriter D) g calls : (queue_closed w = true → sw_closed w = true) →
  calls !! g = Some CloseTest → let n := if sw_closed w then 3%nat else 4%nat in
  close_run (replicate n g) (mkClosing (sw_closed w) (queue_closed w) calls)
  = Some (Ok tt, mkClosing (flags (sw_Close w)).1 (flags (sw_Close w)).2 (<[g := CloseDone]> calls)).
Proof.
  intros Hq Hg. pose proof (lookup_lt_Some _ _ _ Hg) as Hl. unfold flags, sw_Close.
  destruct (sw_closed w) eqn:Hc; [|destruct (queue_closed w) eqn:Hqc; [by discriminate Hq|]]; cbn;
    repeat (unfold close_step, set_call; cbn; rewrite ?Hc, ?Hg, ?list_lookup_insert_eq by (by rewrite ?length_insert); cbn);
    by rewrite ?list_insert_insert_eq, ?Hc, ?Hqc.
Qed.

(** The player is gone and the stream closes the writer at the same time: both have tested
    before one of them closes the queue, and the other one panics, in whichever goroutine. *)
Example close_twice_panics :
  let s := mkClosing false false [CloseTest; CloseTest] in
  fst <$> close_run [0; 1; 0; 1]%nat s = Some (Panic CloseOfClosedChannel) ∧
  fst <$> close_run [0; 1; 1; 0]%nat s = Some (Panic CloseOfClosedChannel) ∧
  fst <$> close_run [0; 0; 0; 1; 1; 1; 0]%nat s = Some (Ok tt).
Proof. done. Qed.

(** ** The wait group of [streamLoop] *)

(** The loop runs, waits in [Wait], or has been woken and has not returned from it yet. *)
Inductive wait_pc := NotWaiting | Waiting | Woken.

Record WaitGroup := mkWG { wg_count : nat; wg_wait : wait_pc }.

Definition wg_Add (wg : WaitGroup) : WaitGroup := mkWG (S (wg_count wg)) (wg_wait wg).

(** The last one wakes the loop. *)
Definition wg_Done (wg : WaitGroup) : WaitGroup :=
  mkWG (pred (wg_count wg))
    match wg_wait wg, wg_count wg with Waiting, 1%nat => Woken | pc, _ => pc end.

Definition wg_Wait (wg : WaitGroup) : WaitGroup :=
  mkWG (wg_count wg) (match wg_count wg with O => NotWaiting | _ => Waiting end).

(** The way out of [Wait]: somebody who has joined in the meantime is an error. *)
Definition wg_return (wg : WaitGroup) : option (res unit * WaitGroup) :=
  match wg_wait wg with
  | Woken => Some (match wg_count wg with
                   | O => (Ok tt, mkWG 0 NotWaiting)
                   | _ => (Panic WaitGroupReused, wg)
                   end)
  | _ => None
  end.

(** The group of a stream: the goroutines between [wg.Add] and [wg.Done]. *)
Definition wg_of (w : World) (pc : wait_pc) : WaitGroup := mkWG (length (filter (λ pc, in_wg pc = true) (reading w))) pc.

(** Without a goroutine that reads, [Wait] returns at once, as [EReplace] has it. *)
Lemma wait_returns w : existsb in_wg (reading w) = false ↔ wg_Wait (wg_of w NotWaiting) = mkWG 0 NotWaiting.
Proof.
  unfold wg_of, wg_Wait. cbn. induction (reading w) as [|pc l IH]; [done|]. rewrite filter_cons. cbn [existsb].
  destruct (in_wg pc); cbn; [by rewrite decide_True by done|]. by rewrite decide_False by done.
Qed.

(** The last goroutine of the old publisher is done, the loop is woken and returns. *)
Lemma wait_done : wg_return (wg_Done (wg_Wait (mkWG 1 NotWaiting))) = Some (Ok tt, mkWG 0 NotWaiting).
Proof. done. Qed.

(** A goroutine that was started for an earlier publisher calls [wg.Add] between the two. *)
Example wait_reused_panics :
  fst <$> wg_return (wg_Add (wg_Done (wg_Wait (mkWG 1 NotWaiting)))) = Some (Panic WaitGroupReused).
Proof. done. Qed.

(** Such a goroutine there is: the second publisher came before the goroutine of the first
    one had begun; when the goroutine of the second one reads and a third publisher comes,
    the loop waits while the first goroutine has still to call [wg.Add]. *)
Example late_goroutine :
  (λ s, (reading s.1, wg_Wait (wg_of s.1 NotWaiting))) <$> run_all
    [EAddReader 0 (conn_with []) 0; EPutReader 0; EReplace;
     EAddReader 1 (conn_with []) 0; EPutReader 1; EReplace; EStart 1] new_stream
  = Some ([Spawned; Reading], mkWG 1 Waiting).
Proof. vm_compute. reflexivity. Qed.
