(* ===== verification/StreamHandler.v ===== *)
(** * All streams of a server (src/protocol/stream_handler.go)

    The handler finds the stream of a connection by its application and name, starts a new
    one when there is none, and forgets it when its loop returns. *)
From S2P Require Import Prelude Pio GoIO ReadWriter Av Chunk Conn Exchange Cache H264 Media Flv.
From S2P Require Import Amf Amf3 Amf0 Forward Commands StreamRW Stream StreamLife.

(** [fmt.Sprintf("%s_%s", App, Name)] *)
Definition streamKey (info : StreamInfo) : bytes := App info ++ str "_" ++ Name info.

(** [streams] maps a key to a stream; the streams live on in [worlds] after they are
    removed from it, as long as a goroutine works for them. *)
Record StreamHandler := mkHandler {
  streams : gmap bytes nat;
  worlds : gmap nat World;
  next_stream : nat;
}.

Definition NewStreamHandler : StreamHandler := mkHandler ∅ ∅ 0.

Section handler.
(** The flag of the command line for the cache. *)
Variable gopNum : Z.

Definition getOrCreate (info : StreamInfo) (h : StreamHandler) : nat * StreamHandler :=
  match streams h !! streamKey info with
  | Some id => (id, h)
  | None =>
      let id := next_stream h in
      (id, mkHandler (<[streamKey info := id]> (streams h))
             (<[id := NewStream info gopNum]> (worlds h)) (S id))
  end.

Definition remove (key : bytes) (h : StreamHandler) : StreamHandler :=
  mkHandler (delete key (streams h)) (worlds h) (next_stream h).

(** In no order. *)
Definition GetStreams (h : StreamHandler) : list nat := (map_to_list (streams h)).*2.

Definition set_world (id : nat) (w : World) (h : StreamHandler) : StreamHandler :=
  mkHandler (streams h) (<[id := w]> (worlds h)) (next_stream h).

(** The connection becomes a reader or a writer of its stream. *)
Definition add_event (conn : ForwardConnect) (now : Z) (w : World) : event :=
  if IsPublisher conn then EAddReader (fresh (dom (heap_r w))) conn now
  else EAddWriter (fresh (dom (heap_w w))) conn now.

Definition info_of (conn : ForwardConnect) : StreamInfo :=
  let '(app, name, url) := fc_GetStreamInfo conn in mkInfo app name url.

Definition HandleConnect (conn : ForwardConnect) (now : Z) (h : StreamHandler) : res unit * StreamHandler :=
  let '(id, h) := getOrCreate (info_of conn) h in
  match worlds h !! id with
  | None => (Panic NilDereference, h)
  | Some w =>
      match exec (add_event conn now w) w with
      | Some (r, w') => (r, set_world id w' h)
      | None => (Ok tt, h)
      end
  end.

(** An event of one stream; the deferred function of its loop removes its key. *)
Definition stream_event (id : nat) (ev : event) (h : StreamHandler) : option (res unit * StreamHandler) :=
  match worlds h !! id with
  | None => None
  | Some w =>
      match exec ev w with
      | None => None
      | Some (r, w') =>
          let h := set_world id w' h in
          Some (r, match ev with ERemoved => remove (streamKey (s_info w)) h | _ => h end)
      end
  end.

(** What happens to a handler: connections come, and its streams live on. *)
Inductive handler_step : StreamHandler → StreamHandler → Prop :=
  | step_connect conn now h h' : HandleConnect conn now h = (Ok tt, h') → handler_step h h'
  | step_stream id ev h h' : stream_event id ev h = Some (Ok tt, h') → handler_step h h'.

Definition handles (h : StreamHandler) : Prop := rtc handler_step NewStreamHandler h.

(** ** One stream for each key *)

(** The loop of the stream has not given up its place. *)
Definition live (w : World) : bool :=
  match s_phase w with Running | Removing => true | _ => false end.

Record handler_inv (h : StreamHandler) : Prop := {
  hi_next : ∀ id, is_Some (worlds h !! id) → (id < next_stream h)%nat;
  hi_reach : ∀ id w, worlds h !! id = Some w → ∃ hs, reaches (s_info w) gopNum w hs;
  hi_listed : ∀ k id, streams h !! k = Some id →
    ∃ w, worlds h !! id = Some w ∧ live w = true ∧ streamKey (s_info w) = k;
  hi_live : ∀ id w, worlds h !! id = Some w → live w = true → streams h !! streamKey (s_info w) = Some id;
}.

(** An event leaves the name of a stream as it is, and only [ERemoved] gives up its place. *)
Definition removes (ev : event) : bool := match ev with ERemoved => true | _ => false end.

Lemma exec_frame hs w ev w' : stream_inv hs w → exec ev w = Some (Ok tt, w') →
  s_info w' = s_info w ∧ live w' = live w && negb (removes ev).
Proof.
  intros Hi. pose proof (inv_writers_NoDup hs w Hi) as Hn. pose proof (inv_writers_known hs w Hi) as Hk.
  destruct ev; cbn [exec removes negb]; rewrite ?andb_true_r; intros He;
    try (apply only_some in He as [Hb He]); try (by injection He as <-).
  - by destruct (reading w !! g) as [[]|]; simplify_eq.
  - destruct (reading w !! g) as [[]|]; try done. injection He as He. unfold read_turn in He.
    destruct (s_reader w) as [k|]; [|done]. destruct (heap_r w !! k); [|done].
    destruct (sr_Read _ _ _) as [[]  []]; by simplify_eq.
  - destruct (reading w !! g) as [[]|]; simplify_eq. unfold push_turn. by destruct (Nat.ltb _ _).
  - destruct (pktChan w) as [|p ps] eqn:Hp; [by rewrite bool_decide_true, andb_false_r in Hb|].
    rewrite (take_packet_ok w p ps Hp Hn Hk (inv_channels hs w Hi)) in He. by injection He as <-.
  - apply andb_prop in Hb as [Hb _]. unfold running in Hb. rewrite bool_decide_eq_true in Hb.
    unfold join, get, mbind, go_bind in He. destruct (writerChan w) as [|i rest]; [by injection He as <-|].
    unfold modify, try, on_w_obj in He. cbn [heap_w set_writerChan] in He.
    destruct (heap_w w !! i) as [o|]; [|done]. destruct (Cache_Send _ _) as [[u|e|q|] ch]; try done.
    + injection He as <-. done.
    + cbn [heap_w set_heap_w] in He. rewrite lookup_insert_eq in He. injection He as <-. unfold live. cbn. by rewrite Hb.
  - destruct (readerChan w) as [|r rest] eqn:Hc; [by rewrite bool_decide_true, andb_false_r in Hb|].
    rewrite (replace_ok w r rest Hc Hn Hk) in He. injection He as <-. by destruct (s_reader w).
  - unfold running in Hb. rewrite bool_decide_eq_true in Hb. destruct (reader_alive now w) eqn:Ha.
    + rewrite (tick_ok now w Hn Hk Ha) in He. by injection He as <-.
    + unfold tick in He. rewrite Ha in He. injection He as <-. unfold live. cbn. by rewrite Hb.
  - rewrite bool_decide_eq_true in Hb. injection He as <-. unfold live. cbn. by rewrite Hb.
  - destruct (writerChan w) as [|i rest] eqn:Hc; [by rewrite bool_decide_true, andb_false_r in Hb|].
    destruct (si_known _ _ Hi i) as [o Ho]; [left; rewrite Hc; set_solver|].
    rewrite (close_pending_ok w i rest o Hc Ho) in He. by injection He as <-.
  - apply andb_prop in Hb as [[Hb _]%andb_prop _]. unfold closing in Hb. rewrite bool_decide_eq_true in Hb.
    unfold finish in He. rewrite go_bind_get, (go_bind_ok _ _ _ _ _ (each_writer_ok sw_Close _ Hn w Hk)) in He.
    injection He as <-. unfold live. cbn. by rewrite Hb.
  - destruct (heap_w w !! i) as [o|]; [|done]. destruct (w_sending o); [|done]. unfold send_turn in He.
    by destruct (SendPacket_pass _ _ _ _) as [[[] x]|]; simplify_eq.
  - destruct (heap_w w !! i) as [o|]; [|done]. destruct (w_checking o); [|done]. injection He as He.
    unfold check_turn in He. by destruct (on_sw_conn _ _) as [[] x]; simplify_eq.
Qed.

(** What happens to one stream keeps the table in order. *)
Lemma inv_world h id w ev w' : handler_inv h → worlds h !! id = Some w → exec ev w = Some (Ok tt, w') →
  handler_inv (match ev with ERemoved => remove (streamKey (s_info w)) | _ => λ h, h end (set_world id w' h)).
Proof.
  intros Hi Hw He. destruct (hi_reach _ Hi id w Hw) as [hs Hr].
  destruct (exec_frame hs w ev w' (reaches_inv _ _ _ _ Hr) He) as [Hinfo Hlive].
  assert (Hreach : ∀ j x, <[id := w']> (worlds h) !! j = Some x → ∃ hs, reaches (s_info x) gopNum x hs).
  { intros j x. destruct (decide (j = id)) as [->|]; [|rewrite lookup_insert_ne by done; apply Hi].
    rewrite lookup_insert_eq. intros [= <-]. exists (note ev w w' hs). rewrite Hinfo. by apply reaches_step. }
  assert (Hnext : ∀ j, is_Some (<[id := w']> (worlds h) !! j) → (j < next_stream h)%nat).
  { intros j. destruct (decide (j = id)) as [->|]; [|rewrite lookup_insert_ne by done; apply Hi].
    intros _. apply (hi_next _ Hi). by rewrite Hw. }
  destruct (removes ev) eqn:Hrem.
  - assert (ev = ERemoved) as -> by (by destruct ev). rewrite andb_false_r in Hlive.
    constructor; cbn; try done.
    + intros k j. rewrite lookup_delete_Some. intros [Hk Hj]. destruct (hi_listed _ Hi k j Hj) as (x & Hx & Hxl & <-).
      exists x. rewrite lookup_insert_ne; [done|]. intros <-. rewrite Hw in Hx. by injection Hx as <-.
    + intros j x. destruct (decide (j = id)) as [->|Hj].
      * rewrite lookup_insert_eq. intros [= <-]. by rewrite Hlive.
      * rewrite lookup_insert_ne by done. intros Hx Hxl. rewrite lookup_delete_ne; [by apply Hi|].
        intros E. pose proof (hi_live _ Hi j x Hx Hxl) as H1. rewrite <- E in H1.
        destruct (hi_listed _ Hi _ _ H1) as (? & _). destruct (live w) eqn:Hlw.
        -- pose proof (hi_live _ Hi id w Hw Hlw) as H2. rewrite H1 in H2. by injection H2.
        -- cbn in He. apply only_some in He as [Hb _]. rewrite bool_decide_eq_true in Hb. unfold live in Hlw. by rewrite Hb in Hlw.
  - replace (match ev with ERemoved => _ | _ => _ end) with (λ h : StreamHandler, h) by (by destruct ev).
    rewrite andb_true_r in Hlive. constructor; cbn; try done.
    + intros k j Hj. destruct (hi_listed _ Hi k j Hj) as (x & Hx & Hxl & <-).
      destruct (decide (j = id)) as [->|]; [|exists x; by rewrite lookup_insert_ne].
      rewrite Hw in Hx. injection Hx as <-. exists w'. by rewrite lookup_insert_eq, Hlive, Hinfo.
    + intros j x. destruct (decide (j = id)) as [->|Hj]; [|rewrite lookup_insert_ne by done; apply Hi].
      rewrite lookup_insert_eq. intros [= <-]. rewrite Hlive, Hinfo. by apply Hi.
Qed.

Lemma getOrCreate_inv h info : handler_inv h → let '(id, h') := getOrCreate info h in
  handler_inv h' ∧ ∃ w, worlds h' !! id = Some w ∧ live w = true ∧ streamKey (s_info w) = streamKey info ∧
    (worlds h !! id = Some w ∧ h' = h ∨
     worlds h !! id = None ∧ w = NewStream info gopNum ∧ worlds h' = <[id := w]> (worlds h)).
Proof.
  intros Hi. unfold getOrCreate. destruct (streams h !! streamKey info) as [id|] eqn:Hk.
  - split; [done|]. destruct (hi_listed _ Hi _ _ Hk) as (w & Hw & Hl & E). exists w. split_and!; [done..|by left].
  - set (id := next_stream h). assert (Hf : worlds h !! id = None).
    { destruct (worlds h !! id) eqn:E; [|done]. pose proof (hi_next _ Hi id (mk_is_Some _ _ E)). unfold id in *. lia. }
    split; [|exists (NewStream info gopNum); split_and!; [cbn; by rewrite lookup_insert_eq|done..|by right]].
    constructor; cbn.
    + intros j. destruct (decide (j = id)) as [->|]; [unfold id; lia|rewrite lookup_insert_ne by done].
      intros Hj%Hi. lia.
    + intros j w. destruct (decide (j = id)) as [->|]; [|rewrite lookup_insert_ne by done; apply Hi].
      rewrite lookup_insert_eq. intros [= <-]. exists no_hist. apply reaches_new.
    + intros k j. destruct (decide (k = streamKey info)) as [->|Hne].
      * rewrite lookup_insert_eq. intros [= <-]. exists (NewStream info gopNum). by rewrite lookup_insert_eq.
      * rewrite lookup_insert_ne by done. intros Hj. destruct (hi_listed _ Hi k j Hj) as (w & Hw & Hl & E).
        exists w. rewrite lookup_insert_ne; [done|]. intros <-. by rewrite Hf in Hw.
    + intros j w. destruct (decide (j = id)) as [->|Hj].
      * rewrite lookup_insert_eq. intros [= <-] _. by rewrite lookup_insert_eq.
      * rewrite lookup_insert_ne by done. intros Hw Hl. pose proof (hi_live _ Hi j w Hw Hl) as E.
        rewrite lookup_insert_ne; [done|]. intros Ee. rewrite <- Ee, Hk in E. done.
Qed.

Lemma add_event_ok conn now w : exec (add_event conn now w) w
  = Some (Ok tt, if IsPublisher conn then AddReader (fresh (dom (heap_r w))) conn now w
                 else AddWriter (fresh (dom (heap_w w))) conn now w).
Proof.
  unfold add_event. destruct (IsPublisher conn); cbn [exec]; unfold only; rewrite bool_decide_true; try done;
    apply not_elem_of_dom, is_fresh.
Qed.

Lemma handle_inv conn now h : handler_inv h → ∃ id w h',
  HandleConnect conn now h = (Ok tt, h') ∧ handler_inv h' ∧ live w = true ∧
  streamKey (s_info w) = streamKey (info_of conn) ∧
  (worlds h !! id = Some w ∨ worlds h !! id = None ∧ w = NewStream (info_of conn) gopNum) ∧
  worlds h' = <[id := if IsPublisher conn then AddReader (fresh (dom (heap_r w))) conn now w
                      else AddWriter (fresh (dom (heap_w w))) conn now w]> (worlds h).
Proof.
  intros Hi. pose proof (getOrCreate_inv h (info_of conn) Hi) as H. unfold HandleConnect.
  destruct (getOrCreate (info_of conn) h) as [id h1]. destruct H as (Hi1 & w & Hw & Hl & Hk & Hc).
  rewrite Hw, add_event_ok. set (w' := if IsPublisher conn then _ else _).
  exists id, w, (set_world id w' h1). split_and!; try done.
  - pose proof (inv_world h1 id w (add_event conn now w) w' Hi1 Hw (add_event_ok conn now w)) as H.
    unfold add_event in H. by destruct (IsPublisher conn).
  - destruct Hc as [[? _]|(? & ? & _)]; [by left|by right].
  - cbn. destruct Hc as [[_ ->]|(_ & _ & ->)]; [done|]. by rewrite insert_insert_eq.
Qed.

Lemma handles_inv h : handles h → handler_inv h.
Proof.
  unfold handles. revert h. apply rtc_ind_r; [by constructor; cbn; intros *; rewrite ?lookup_empty; try done; intros []|].
  intros h1 h2 _ Hs IH. destruct Hs as [conn now h h' E|id ev h h' E].
  - destruct (handle_inv conn now h IH) as (? & ? & h'' & E' & Hi & _). rewrite E in E'. by injection E' as <-.
  - unfold stream_event in E. destruct (worlds h !! id) as [w|] eqn:Hw; [|done].
    destruct (exec ev w) as [[r w']|] eqn:He; [|done]. injection E as -> <-.
    pose proof (inv_world h id w ev w' IH Hw He) as Hi. by destruct ev.
Qed.

Lemma pivot_inj (x : Z) l1 l2 k1 k2 : x ∉ l1 → x ∉ l2 → l1 ++ x :: k1 = l2 ++ x :: k2 → l1 = l2 ∧ k1 = k2.
Proof.
  revert l2. induction l1 as [|y l1 IH]; intros [|z l2] H1 H2 E; cbn in E.
  - by injection E.
  - injection E as -> _. destruct H2. by left.
  - injection E as -> _. destruct H1. by left.
  - injection E as -> E. destruct (IH l2) as [-> ->]; [|..|done]; try done; intros Hx; [apply H1|apply H2]; by right.
Qed.

(** Keys tell streams apart when applications have no underscore in their names. *)
Lemma streamKey_inj i j : 95 ∉ App i → 95 ∉ App j → streamKey i = streamKey j → App i = App j ∧ Name i = Name j.
Proof. intros H1 H2. unfold streamKey. change (str "_") with [95]. by apply pivot_inj. Qed.

(** The stream after the connection has become a reader or a writer of it. *)
Definition with_conn_added (conn : ForwardConnect) (now : Z) (w : World) : World :=
  if IsPublisher conn then AddReader (fresh (dom (heap_r w))) conn now w
  else AddWriter (fresh (dom (heap_w w))) conn now w.

(** A live stream of [h] with this key. *)
Definition live_stream (h : StreamHandler) (key : bytes) (id : nat) (w : World) : Prop :=
  worlds h !! id = Some w ∧ live w = true ∧ streamKey (s_info w) = key.

Lemma live_stream_unique h key i j v w : handles h → live_stream h key i v → live_stream h key j w → i = j.
Proof.
  intros Hs (Hv & Hlv & <-) (Hw & Hlw & E). pose proof (handles_inv h Hs) as Hi.
  pose proof (hi_live _ Hi i v Hv Hlv) as H1. pose proof (hi_live _ Hi j w Hw Hlw) as H2.
  rewrite E, H1 in H2. by injection H2.
Qed.

Lemma handle_step conn now h h' : handles h → HandleConnect conn now h = (Ok tt, h') → handles h'.
Proof. intros Hs E. unfold handles in *. eapply rtc_r; [exact Hs|]. by apply step_connect with conn now. Qed.

(** The stream with the key of the connection takes it in. *)
Lemma handle_live h conn now id w : handles h → live_stream h (streamKey (info_of conn)) id w →
  HandleConnect conn now h = (Ok tt, set_world id (with_conn_added conn now w) h).
Proof.
  intros Hs (Hw & Hl & Hk). unfold HandleConnect, getOrCreate.
  by rewrite <- Hk, (hi_live _ (handles_inv h Hs) id w Hw Hl), Hw, add_event_ok.
Qed.

(** Without one a new stream does. *)
Lemma handle_new h conn now : handles h → (∀ id w, ¬ live_stream h (streamKey (info_of conn)) id w) →
  ∃ id h', HandleConnect conn now h = (Ok tt, h') ∧ worlds h !! id = None ∧
    worlds h' = <[id := with_conn_added conn now (NewStream (info_of conn) gopNum)]> (worlds h).
Proof.
  intros Hs Hno. pose proof (handles_inv h Hs) as Hi. unfold HandleConnect, getOrCreate.
  destruct (streams h !! streamKey (info_of conn)) as [id|] eqn:Hk.
  { destruct (hi_listed _ Hi _ _ Hk) as (w & Hw). by destruct (Hno id w). }
  cbn [worlds]. rewrite lookup_insert_eq, add_event_ok. eexists (next_stream h), _. split; [done|]. split.
  - destruct (worlds h !! next_stream h) eqn:E; [|done]. pose proof (hi_next _ Hi _ (mk_is_Some _ _ E)). lia.
  - cbn. by rewrite insert_insert_eq.
Qed.

(** C14: A publisher starts a stream and its players meet it there.  In every state of a
    handler no two streams whose loops run have the same key (made of application and name);
    a publisher whose key has no such stream gets a new one, with its reader on the way; a
    player is handed to the stream of its key, if there is one, and its writer is on the way
    there.  All other streams are left as they are. *)
Theorem connections_meet h conn now : handles h → let key := streamKey (info_of conn) in
  (∀ k i j v w, live_stream h k i v → live_stream h k j w → i = j) ∧
  (IsPublisher conn = true → (∀ id w, ¬ live_stream h key id w) →
     let new := NewStream (info_of conn) gopNum in let w := AddReader (fresh (dom (heap_r new))) conn now new in
     ∃ id h', HandleConnect conn now h = (Ok tt, h') ∧ handles h' ∧ worlds h !! id = None ∧
       live_stream h' key id w ∧ worlds h' = <[id := w]> (worlds h)) ∧
  (IsPublisher conn = false → ∀ id w, live_stream h key id w →
     let w' := AddWriter (fresh (dom (heap_w w))) conn now w in
     ∃ h', HandleConnect conn now h = (Ok tt, h') ∧ handles h' ∧
       live_stream h' key id w' ∧ worlds h' = <[id := w']> (worlds h)).
Proof.
  intros Hs key. split; [|split].
  - intros k i j v w. by apply live_stream_unique.
  - intros Hp Hno new w. destruct (handle_new h conn now Hs Hno) as (id & h' & E & Hn & Hw). exists id, h'.
    assert (Ew : with_conn_added conn now (NewStream (info_of conn) gopNum) = w) by (unfold with_conn_added; by rewrite Hp).
    rewrite Ew in Hw. split; [exact E|]. split; [by eapply handle_step|]. split; [exact Hn|]. split; [|exact Hw].
    unfold live_stream. by rewrite Hw, lookup_insert_eq.
  - intros Hp id w Hw w'. pose proof (handle_live h conn now id w Hs Hw) as E. eexists. split; [exact E|].
    assert (Ew : with_conn_added conn now w = w') by (unfold with_conn_added; by rewrite Hp). rewrite Ew in *.
    split; [by eapply handle_step|]. split; [|done]. destruct Hw as (_ & Hl & Hk). unfold live_stream. cbn.
    by rewrite lookup_insert_eq.
Qed.

(** The comment at the call in server.go says that a player without a stream is turned away,
    and that a publisher whose stream exists gets it anew.  In the code the one gets a new
    stream and waits in it, and the other joins the stream, whose loop will replace the
    publisher it has. *)
Lemma player_makes_stream h conn now : handles h → IsPublisher conn = false →
  (∀ id w, ¬ live_stream h (streamKey (info_of conn)) id w) →
  let new := NewStream (info_of conn) gopNum in
  ∃ id h', HandleConnect conn now h = (Ok tt, h') ∧ worlds h !! id = None ∧
    worlds h' = <[id := AddWriter (fresh (dom (heap_w new))) conn now new]> (worlds h).
Proof.
  intros Hs Hp Hno new. destruct (handle_new h conn now Hs Hno) as (id & h' & E & Hn & Hw). exists id, h'.
  unfold with_conn_added in Hw. by rewrite Hp in Hw.
Qed.

Lemma publisher_joins_stream h conn now id w : handles h → IsPublisher conn = true →
  live_stream h (streamKey (info_of conn)) id w →
  HandleConnect conn now h = (Ok tt, set_world id (AddReader (fresh (dom (heap_r w))) conn now w) h).
Proof. intros Hs Hp Hw. rewrite (handle_live h conn now id w Hs Hw). unfold with_conn_added. by rewrite Hp. Qed.
End handler.

(** A client that publishes, or asks for, the application [a] and the name [n]. *)
Definition client_conn (pub : bool) (a n : string) : ForwardConnect :=
  mkForward true 1 pub (NewRtmpConn (sample_rw [])) 0 (mkConnectInfo (str a) [] [] 0)
    (mkPublishInfo (str n) []) NewDecoder.

(** A publisher comes first, and then a player. *)
Lemma connections_meet_witness :
  let h1 := (HandleConnect 1 (client_conn true "live" "a") 0 NewStreamHandler).2 in
  ∃ id h', HandleConnect 1 (client_conn true "live" "a") 0 NewStreamHandler = (Ok tt, h1) ∧
    HandleConnect 1 (client_conn false "live" "a") 0 h1 = (Ok tt, h') ∧
    (∃ w, live_stream h' (str "live_a") id w ∧ dom (heap_r w) = {[0%nat]} ∧ dom (heap_w w) = {[0%nat]}).
Proof.
  intros h1.
  assert (E1 : HandleConnect 1 (client_conn true "live" "a") 0 NewStreamHandler = (Ok tt, h1)) by reflexivity.
  destruct (connections_meet 1 NewStreamHandler (client_conn true "live" "a") 0 (rtc_refl _ _)) as (_ & Hp & _).
  destruct (Hp eq_refl) as (id & h' & E & Hs & _ & Hl & Hw); [by intros ? ? [Hx _]|].
  rewrite E1 in E. injection E as <-.
  destruct (connections_meet 1 h1 (client_conn false "live" "a") 0 Hs) as (_ & _ & Hq).
  destruct (Hq eq_refl id _ Hl) as (h2 & E2 & _ & Hl2 & _). exists id, h2. split; [exact E1|]. split; [exact E2|].
  eexists. split; [exact Hl2|]. split; reflexivity.
Defined.

(** The application [a_b] with the name [c] and the application [a] with the name [b_c] are
    one stream. *)
Example keys_collide :
  streamKey (mkInfo (str "a_b") (str "c") []) = streamKey (mkInfo (str "a") (str "b_c") []).
Proof. reflexivity. Qed.
