(* ===== verification/Relay.v ===== *)
(** * From a publisher to a player through the server

    A publisher's session (src/client.go), read, forwarded and sent by a stream
    (src/protocol/stream.go, stream_rw.go), and played (src/client.go). *)
From S2P Require Import Prelude Pio GoIO ReadWriter Av Chunk Conn Exchange Messages Handshake H264 Media Flv.
From S2P Require Import Amf Amf3 Amf0 Forward Commands ConnClient Client StreamRW Cache Stream StreamLife.

(** ** The tags of a session *)

Definition message_tag (m : ChunkStream bytes) : mtag := mkMTag (TypeID m) (Timestamp m) (Data m).

Lemma message_tag_media ty ts sid d : message_tag (media_message ty ts sid d) = mkMTag ty ts d.
Proof.
  unfold message_tag, media_message. rewrite writeChunk_csid_TypeID, writeChunk_csid_Data.
  unfold writeChunk_csid. by repeat case_match.
Qed.

Lemma played_tags sid ms ps : played sid ms ps →
  tag_message sid <$> (message_tag <$> ms) = ms ∧ Forall mtag_ok (message_tag <$> ms).
Proof.
  induction 1 as [|ty ts d ms ps qs Hty Ht _ _ [IH1 IH2]]; [by split; [|apply Forall_nil]|].
  rewrite !fmap_cons, message_tag_media. split; [by rewrite IH1|by apply Forall_cons].
Qed.

(** No picture comes before the first key frame. *)
Fixpoint opens (sid : Z) (ts : list mtag) : Prop :=
  match ts with
  | [] => True
  | t :: ts => is_key (tag_packet sid t) = true ∨ is_video (tag_packet sid t) = false ∧ opens sid ts
  end.

Lemma opens_all sid ts : opens sid ts → ∀ need, gate_tags sid need ts = ts.
Proof.
  induction ts as [|t ts IH]; intros Ho [|]; try done || apply gate_open.
  destruct Ho as [Hk|[Hv Ho]]; [by apply key_tag_opens|]. cbn [gate_tags]. rewrite Hv. cbn [andb]. by rewrite IH.
Qed.

Lemma audio_opens sid t ts : mt_type t = TAG_AUDIO → opens sid ts → opens sid (t :: ts).
Proof.
  intros Ht Ho. right. split; [|done]. unfold is_video, tag_packet, packet_of. rewrite Ht.
  by rewrite (proj1 (DemuxH_keeps _)).
Qed.

Lemma sequence_opens sid sps pps ts rest : opens sid (mkMTag TAG_VIDEO ts (NewAVCSequenceHeader sps pps ts) :: rest).
Proof.
  left. unfold is_key, is_video, tag_packet, packet_of. cbn [mt_type mt_ts mt_data].
  set (p := mkPacket _ _ _ _ _ _).
  assert (Hd : Demux p = (Ok tt, played_video sid ts FRAME_KEY AVC_SEQHDR (AVCDecoderConfigurationRecord sps pps)))
    by (by apply Demux_h264_on).
  destruct (Demux_header _ _ Hd) as [-> _]. by rewrite (proj1 (DemuxH_keeps p)).
Qed.

Lemma session_opens sid its : ∀ af, opens sid (message_tag <$> (session_of sid true af its).1).
Proof.
  induction its as [|it its IH]; intros af; [done|]. cbn [session_of].
  destruct it as [h code x rest ts|ah data ts]; cbn [item_step].
  - unfold video_step. destruct (find_sets (x :: rest)) as [[[sps|] [pps|]]| | |];
      try (specialize (IH af); by destruct (session_of sid true af its)).
    destruct (session_of sid false af its). cbn [fst app]. rewrite fmap_cons, message_tag_media.
    apply sequence_opens.
  - unfold audio_step. specialize (IH false).
    destruct af; destruct (session_of sid true false its); cbn [fst app] in *; rewrite !fmap_cons, !message_tag_media;
      repeat (apply audio_opens; [done|]); exact IH.
Qed.

(** ** One packet through the stream *)

(** The packet is sent before the next one is read: they may share a buffer. *)
Definition packet_turn (g i : nat) (now nowInMS : Z) : list event :=
  [ERead g now nowInMS; EPush g; EPacket; ESend i now nowInMS].

(** A stream with nothing under way: the goroutine [g] reads a publisher that has still
    [inp] to say, and the only writer [i] has written [out] to its player. *)
Record relay_state (a : AConn) (k : Z) (inp out : bytes) (need : bool) (g i : nat) (w : World) : Prop := {
  rs_phase : s_phase w = Running;
  rs_pkts : pktChan w = [];
  rs_writers : s_writers w = [i];
  rs_reading : reading w !! g = Some Reading;
  rs_reader : ∃ ri r, s_reader w = Some ri ∧ heap_r w !! ri = Some r ∧ ready a inp (fc_conn (rd_conn r));
  rs_channels : channels_ok (heap_w w);
  rs_writer : ∃ o, heap_w w !! i = Some o ∧ w_sending o = true ∧ writing k out (w_obj o) ∧
    packetQueue (w_obj o) = [] ∧ queue_closed (w_obj o) = false ∧ keyframeNeed (w_obj o) = need ∧
    BaseTimeStamp (sw_base (w_obj o)) = 0;
}.

(** A packet that is not left out goes into an empty queue. *)
Lemma write_empty {D} (p : PacketOf D) (sw : StreamWriter D) :
  sw_closed sw = false → queue_closed sw = false → packetQueue sw = [] →
  is_video p && keyframeNeed sw && negb (FrameType (VHeader p) =? FRAME_KEY) = false →
  sw_Write p sw = (Ok tt, set_packetQueue [p] (set_keyframeNeed (if is_video p then false else keyframeNeed sw) sw)).
Proof.
  intros Hc Hq Hp Hd. unfold sw_Write. rewrite Hc, Hd.
  replace (if is_video p && keyframeNeed sw then set_keyframeNeed false sw else sw)
    with (set_keyframeNeed (if is_video p then false else keyframeNeed sw) sw)
    by (destruct sw as [? ? n ? ? ? ? ?]; cbn; by destruct (is_video p), n).
  cbn [queue_closed packetQueue set_keyframeNeed]. by rewrite Hq, Hp.
Qed.

Lemma read_step a w g now ms inp rest ty ts sid d ri r : reading w !! g = Some Reading →
  s_reader w = Some ri → heap_r w !! ri = Some r → media_type ty → tag_ok ts d → fits 32 sid →
  inp = wire_of (a_size a) (media_message ty ts sid d :: rest) → ready a inp (fc_conn (rd_conn r)) →
  ∃ r' q, exec (ERead g now ms) w = Some (Ok tt, set_heap_r (<[ri := r']> (heap_r w))
      (set_s_cache (Cache_Write (with_data (ri, pkt_Data q) q) (s_cache w))
        (set_reading (<[g := Holding (with_data (ri, pkt_Data q) q)]> (reading w)) w))) ∧
    load (heap_of r') q = packet_of ty ts sid d ∧
    ready a (wire_of (a_size a) rest) (fc_conn (rd_conn r')).
Proof.
  intros Hg Hs Hr Hty Ht Hsid -> Hrd.
  destruct (sr_Read_media now ms a ty ts sid d rest r Hty Ht Hsid Hrd) as (r' & q & E & Hl & Hrd').
  exists r', q. split; [|done]. cbn [exec]. rewrite Hg. unfold read_turn. by rewrite Hs, Hr, E.
Qed.

Lemma push_step w g p : reading w !! g = Some (Holding p) → pktChan w = [] →
  exec (EPush g) w = Some (Ok tt, set_reading (<[g := Reading]> (reading w)) (set_pktChan [p] w)).
Proof. intros Hg Hp. cbn [exec]. rewrite Hg. unfold push_turn. by rewrite Hp. Qed.

Definition written_one (need : bool) (p : SPacket) (o : Writer) : Writer :=
  upd_obj (λ sw, set_packetQueue [p] (set_keyframeNeed need sw)) o.

Lemma forward_step w i o p : s_phase w = Running → pktChan w = [p] → s_writers w = [i] → heap_w w !! i = Some o →
  channels_ok (heap_w w) → sw_closed (w_obj o) = false → packetQueue (w_obj o) = [] →
  is_video p && keyframeNeed (w_obj o) && negb (FrameType (VHeader p) =? FRAME_KEY) = false →
  let o' := written_one (if is_video p then false else keyframeNeed (w_obj o)) p o in
  exec EPacket w = Some (Ok tt, set_heap_w (<[i := o']> (heap_w w)) (set_pktChan [] w)).
Proof.
  intros Hph Hpk Hws Ho Hch Hop Hq Hg o'. cbn [exec]. unfold only, running.
  rewrite Hph, bool_decide_true, bool_decide_false by (rewrite ?Hpk; done). cbn.
  assert (Hn : NoDup (s_writers w)) by (rewrite Hws; apply NoDup_singleton).
  assert (Hk : known (s_writers w) (heap_w w)) by (rewrite Hws; intros j ->%list_elem_of_singleton; by eexists).
  rewrite (take_packet_ok w p [] Hpk Hn Hk Hch), Hws. do 2 f_equal.
  assert (Hf : filter (λ j, open_in (heap_w w) j = true) [i] = [i]).
  { rewrite filter_cons, filter_nil, decide_True; [done|]. unfold open_in. by rewrite Ho, Hop. }
  assert (Hqc : queue_closed (w_obj o) = false).
  { destruct (queue_closed (w_obj o)) eqn:E; [|done]. by rewrite (Hch i o Ho E) in Hop. }
  assert (Hu : upd_all (write_obj p) [i] (heap_w w) = <[i := o']> (heap_w w)).
  { rewrite <- (upd_all_cons (write_obj p) i [] (heap_w w) o Ho), upd_all_nil by apply not_elem_of_nil.
    f_equal. unfold o', written_one, upd_obj, write_obj. by rewrite write_empty. }
  rewrite Hf, Hu. destruct w. cbn in *. by subst.
Qed.

Lemma send_step k out w i o p t sid now ms : mtag_ok t → fits 32 sid → heap_w w !! i = Some o →
  w_sending o = true → packetQueue (w_obj o) = [p] → writing k out (w_obj o) →
  BaseTimeStamp (sw_base (w_obj o)) = 0 →
  with_data (bytes_at (heap_r w) (pkt_Data p)) p = tag_packet sid t →
  ∃ b, exec (ESend i now ms) w = Some (Ok tt, set_heap_w (<[i := mkW b true (w_checking o)]> (heap_w w)) w) ∧
    writing k (out ++ wire_of k [tag_message sid t]) b ∧ packetQueue b = [] ∧
    keyframeNeed b = keyframeNeed (w_obj o) ∧ queue_closed b = queue_closed (w_obj o) ∧
    BaseTimeStamp (sw_base b) = 0.
Proof.
  intros [Hty Ht] Hsid Ho Hsd Hq Hw Hb Hp.
  assert (Hw0 : writing k out (set_packetQueue [] (w_obj o))) by (destruct Hw; by constructor).
  assert (Hts : u32 (mt_ts t + 0) = mt_ts t) by (rewrite Z.add_0_r; apply u32_small; destruct Ht; unfold fits; lia).
  destruct (send_one_ok now ms k out _ _ sid _ (tag_packet sid t) _ Hw0 (packet_of_carries _ _ _ _) Hty Hsid)
    as (b & E & Hwb & Hqb & Hnb & Hqcb & Hbb).
  { change (BaseTimeStamp (sw_base (set_packetQueue [] (w_obj o)))) with (BaseTimeStamp (sw_base (w_obj o))).
    by rewrite Hb, Hts. }
  change (BaseTimeStamp (sw_base (set_packetQueue [] (w_obj o)))) with (BaseTimeStamp (sw_base (w_obj o))) in *.
  rewrite Hb, ?Hts in *. exists b. split_and!; try done.
  cbn [exec]. rewrite Ho, Hsd. unfold send_turn, SendPacket_pass. by rewrite Hq, Hp, E.
Qed.

(** A packet goes through the stream and leaves everything ready for the next one. *)
Lemma packet_turn_ok a k sid t rest out need g i now ms w h : mtag_ok t → fits 32 sid →
  relay_state a k (wire_of (a_size a) (tag_message sid t :: rest)) out need g i w →
  is_video (tag_packet sid t) && need && negb (FrameType (VHeader (tag_packet sid t)) =? FRAME_KEY) = false →
  ∃ w' h', run_all (packet_turn g i now ms) (w, h) = Some (w', h') ∧
    relay_state a k (wire_of (a_size a) rest) (out ++ wire_of k [tag_message sid t])
      (if is_video (tag_packet sid t) then false else need) g i w'.
Proof.
  intros Hok Hsid [Hph Hpk Hws Hg (ri & r & Hs & Hr & Hrd) Hch (o & Ho & Hsd & Hw & Hq & Hqc & Hn & Hb)] Hgate.
  pose proof Hok as [Hty Ht].
  destruct (read_step a w g now ms _ rest _ _ sid _ ri r Hg Hs Hr Hty Ht Hsid eq_refl Hrd) as (r' & q & E1 & Hl & Hrd').
  set (p := with_data (ri, pkt_Data q) q) in *. set (w1 := set_heap_r _ _) in E1.
  assert (Hp : with_data (bytes_at (heap_r w1) (pkt_Data p)) p = tag_packet sid t).
  { unfold bytes_at, p. cbn. rewrite lookup_insert_eq. cbn. exact Hl. }
  assert (Hv : is_video p = is_video (tag_packet sid t)) by (by rewrite <- Hp).
  assert (Hh : VHeader p = VHeader (tag_packet sid t)) by (by rewrite <- Hp).
  assert (Hg1 : reading w1 !! g = Some (Holding p)) by (cbn; by rewrite list_lookup_insert_eq by (by apply lookup_lt_is_Some)).
  pose proof (push_step w1 g p Hg1 Hpk) as E2. set (w2 := set_reading _ _) in E2.
  assert (E3 : exec EPacket w2 = Some (Ok tt, set_heap_w (<[i := written_one (if is_video p then false else need) p o]>
    (heap_w w2)) (set_pktChan [] w2))).
  { rewrite <- Hn. apply forward_step; try done; [apply Hw|]. by rewrite Hv, Hh, Hn. }
  set (o' := written_one _ p o) in E3. set (w3 := set_heap_w _ _) in E3.
  destruct (send_step k out w3 i o' p t sid now ms Hok Hsid) as (b & E4 & Hwb & Hqb & Hnb & Hqcb & Hbb);
    try done; [cbn; by rewrite lookup_insert_eq|destruct Hw; by constructor|].
  eexists _, _. split.
  { apply (run_one _ _ _ _ _ _ E1), (run_one _ _ _ _ _ _ E2), (run_one _ _ _ _ _ _ E3), (run_one _ _ _ _ _ _ E4).
    reflexivity. }
  constructor; try done.
  - cbn. by rewrite list_lookup_insert_eq by (rewrite length_insert; by apply lookup_lt_is_Some).
  - exists ri, r'. cbn. by rewrite lookup_insert_eq.
  - intros j x. cbn. destruct (decide (j = i)) as [->|]; [rewrite lookup_insert_eq|rewrite !lookup_insert_ne by done; apply Hch].
    intros [= <-]. cbn. rewrite Hqcb. cbn. by rewrite Hqc.
  - exists (mkW b true (w_checking o')). cbn. rewrite lookup_insert_eq. split_and!; try done.
    + by rewrite Hqcb.
    + by rewrite Hnb, <- Hv.
Qed.

Fixpoint packet_turns (g i : nat) (now nowInMS : nat → Z) (n : nat) : list event :=
  match n with
  | O => []
  | S n => packet_turn g i (now n) (nowInMS n) ++ packet_turns g i now nowInMS n
  end.

(** A whole session that opens with a key frame, or with sound, goes through. *)
Lemma packet_turns_ok a k sid g i now ms ts : Forall mtag_ok ts → fits 32 sid → ∀ rest out need w h,
  relay_state a k (wire_of (a_size a) ((tag_message sid <$> ts) ++ rest)) out need g i w →
  need = false ∨ opens sid ts →
  ∃ w' h' need', run_all (packet_turns g i now ms (length ts)) (w, h) = Some (w', h') ∧
    relay_state a k (wire_of (a_size a) rest) (out ++ wire_of k (tag_message sid <$> ts)) need' g i w'.
Proof.
  intros Hts Hsid. induction Hts as [|t ts Ht _ IH]; intros rest out need w h Hw Ho.
  { exists w, h, need. cbn. by rewrite app_nil_r. }
  cbn [length packet_turns fmap list_fmap app] in *.
  destruct (packet_turn_ok a k sid t _ out need g i (now (length ts)) (ms (length ts)) w h Ht Hsid Hw)
    as (w1 & h1 & E1 & Hw1).
  { destruct Ho as [->|[Hk|[Hv _]]]; [by rewrite andb_false_r| |by rewrite Hv].
    unfold is_key in Hk. apply andb_prop in Hk as [_ ->]. by rewrite andb_false_r. }
  destruct (IH rest _ _ w1 h1 Hw1) as (w' & h' & need' & E & Hw').
  { destruct Ho as [->|[Hk|[Hv Ho]]]; [left; by destruct (is_video _)| |by rewrite Hv; right].
    left. unfold is_key in Hk. by apply andb_prop in Hk as [-> _]. }
  exists w', h', need'. rewrite run_app, E1. split; [exact E|].
  unfold tag_message at 1. rewrite media_wire, app_assoc by apply Ht. exact Hw'.
Qed.

(** ** The whole way *)

(** A player with a callback whose connection still has [inp] to read. *)
Definition player_of (a : AConn) (inp : bytes) (rc : RtmpClient) : Prop :=
  onPacketReceive rc = true ∧ ∃ cc c, rc_conn rc = Some cc ∧ cc_conn cc = Some c ∧ ready a inp c.


