(* ===== verification/Server.v ===== *)
(** * The server (src/server.go, src/api.go)

    Every connection the listener accepts is shaken hands with, set up as a publisher or a
    player, and handed to its stream. *)
From S2P Require Import Prelude Pio GoIO ReadWriter Av Chunk Conn ConnSafe Exchange Handshake Cache H264 Media Flv.
From S2P Require Import Amf Amf3 Amf0 Forward Commands ConnClient Dialogue StreamRW Stream StreamLife StreamHandler.

(** ** One connection *)

Section server.
Variable iter : object → object.
Variable rand_Read : nat → Z → bytes.
Variable gopNum : Z.

(** [handleConn]: the result, whether the connection is closed at the end, and the handler.
    A panic is not recovered: it ends the program. *)
Definition handleConn (now : Z) (rtmpConn : RtmpConn) (h : StreamHandler)
    : res unit * bool * StreamHandler :=
  match HandshakeServer rand_Read rtmpConn with
  | (Ok _, c) =>
      match SetUpPlayOrPublish iter (NewForwardConnect c) with
      | (Ok _, forwardConn) =>
          match HandleConnect gopNum forwardConn now h with
          | (Ok _, h) => (Ok tt, false, h)
          | (Err e, h) => (Ok tt, true, h)
          | (Panic p, h) => (Panic p, false, h)
          | (OutOfFuel, h) => (OutOfFuel, false, h)
          end
      | (Err e, _) => (Ok tt, true, h)
      | (Panic p, _) => (Panic p, false, h)
      | (OutOfFuel, _) => (OutOfFuel, false, h)
      end
  | (Err e, _) => (Ok tt, true, h)
  | (Panic p, _) => (Panic p, false, h)
  | (OutOfFuel, _) => (OutOfFuel, false, h)
  end.

(** *** The loop that accepts *)

(** What a listener gives: a connection, an error that is temporary, another one. *)
Inductive accepted := Accept (conn : ReadWriter) | Temporary (e : error) | Failed (e : error).

(** The connections that are handed to a goroutine of [handleConn], and the error the loop
    returns with, if the listener gives one that is not temporary. *)
Fixpoint accept_loop (msg : error → error) (l : list accepted) : list ReadWriter * option error :=
  match l with
  | [] => ([], None)
  | Accept conn :: l => let '(conns, r) := accept_loop msg l in (conn :: conns, r)
  | Temporary _ :: l => accept_loop msg l
  | Failed e :: _ => ([], Some (msg e))
  end.

(** [Serve]: when [net.Listen] fails the function goes on with a nil listener; the panic of
    [Accept] is recovered, and the error of [net.Listen] is still in the result. *)
Definition Serve (net_Listen : bytes → res (list accepted)) (listenAddr : bytes) : list ReadWriter * option error :=
  match net_Listen listenAddr with
  | Ok l => accept_loop id l
  | Err e => ([], Some (Wrapf "net.Listen failed, %v" e))
  | _ => ([], None)
  end.

Definition ServeTLS {Cert} (LoadX509KeyPair : bytes → bytes → res Cert)
    (tls_Listen : bytes → Cert → res (list accepted)) (listenAddr tlsCrt tlsKey : bytes)
    : list ReadWriter * option error :=
  match LoadX509KeyPair tlsCrt tlsKey with
  | Err e => ([], Some (Wrapf "tls.LoadX509KeyPair failed, %s" e))
  | Ok cert =>
      match tls_Listen listenAddr cert with
      | Ok l => accept_loop (Wrapf "Accept failed, %s") l
      | Err e => ([], Some (Wrapf "Listen rtsp tls failed, %s" e))
      | _ => ([], None)
      end
  | _ => ([], None)
  end.

(** *** api.go *)

Definition ServeRtmp : (bytes → res (list accepted)) → bytes → list ReadWriter * option error := Serve.

(** The key comes before the certificate here, and after it in [ServeTLS]. *)
Definition ServeRtmpTLS {Cert} (LoadX509KeyPair : bytes → bytes → res Cert)
    (tls_Listen : bytes → Cert → res (list accepted)) (addr tlsKey tlsCrt : bytes)
    : list ReadWriter * option error :=
  ServeTLS LoadX509KeyPair tls_Listen addr tlsKey tlsCrt.
End server.

(** ** A client arrives at its stream *)

(** The stream that gets the connection [fc]. *)
Record handed_over (gopNum now : Z) (pub : bool) (key : bytes) (fc : ForwardConnect) (h : StreamHandler)
    (id : nat) (w : World) (h' : StreamHandler) : Prop := {
  ho_handles : handles gopNum h';
  ho_live : live w = true;
  ho_key : streamKey (s_info w) = key;
  ho_stream : worlds h !! id = Some w ∨ worlds h !! id = None ∧ w = NewStream (info_of fc) gopNum;
  ho_added : worlds h' = <[id := if pub then AddReader (base.fresh (dom (heap_r w))) fc now w
                                 else AddWriter (base.fresh (dom (heap_w w))) fc now w]> (worlds h);
}.

#[global] Arguments ho_handles {_ _ _ _ _ _ _ _ _} _.
#[global] Arguments ho_key {_ _ _ _ _ _ _ _ _} _.
#[global] Arguments ho_stream {_ _ _ _ _ _ _ _ _} _.
#[global] Arguments ho_added {_ _ _ _ _ _ _ _ _} _.

Section client.
Variables iterC iter : object → object.
Hypothesis iterC_perm : ∀ o, iterC o ≡ₚ o.
Hypothesis iter_perm : ∀ o, iter o ≡ₚ o.
Variables app title tcurl : bytes.
Hypothesis app_bytes : Forall is_byte app.
Hypothesis title_bytes : Forall is_byte title.
Hypothesis tcurl_bytes : Forall is_byte tcurl.
Hypothesis short : len app + len title + len tcurl < 2 ^ 19.
Variable rand_Read : nat → Z → bytes.
Variable gopNum : Z.

Lemma client_handed pub rest rw now h :
  Dialogue.fresh (client_says iterC app title tcurl pub ++ rest) rw → handles gopNum h →
  ∃ fc id w h' n, handleConn iter rand_Read gopNum now (NewRtmpConn rw) h = (Ok tt, false, h') ∧
    handed_over gopNum now pub (app ++ str "_" ++ title) fc h id w h' ∧
    endpoint reads_128 1024 (rw_stream rw ++ server_says iter pub) rest n (fc_conn fc) ∧ flushed (fc_conn fc).
Proof.
  intros Hf Hh.
  destruct (server_session iterC iter iterC_perm iter_perm app title tcurl app_bytes title_bytes tcurl_bytes short
    rand_Read pub rest rw Hf) as (fc & c & n & E1 & E2 & Hp & Hi & He & Hfl).
  destruct (handle_inv gopNum fc now h (handles_inv gopNum h Hh)) as (id & w & h' & E3 & _ & Hl & Hk & Hw & Hws).
  exists fc, id, w, h', n. split; [unfold handleConn; by rewrite E1, E2, E3|]. split; [|done].
  constructor; try done.
  - eapply rtc_r; [exact Hh|by apply step_connect with fc now].
  - rewrite Hk. unfold info_of. by rewrite Hi.
  - by rewrite Hp in Hws.
Qed.

(** C13: A client is handed to its stream.  On what a client says that publishes [title] of
    the application [app] while no stream of this key is live, or that plays it while one
    is, in any state of the handler with that, the goroutine of its connection ends without
    closing it; the publisher is a reader on the way to a new stream with the key, the player
    a writer on the way to the stream there is, at the place of the conversation where the
    client expects the server; and no other stream is touched. *)
Theorem client_is_handled (pub : bool) rest rw now h :
  let key := app ++ str "_" ++ title in
  Dialogue.fresh (client_says iterC app title tcurl pub ++ rest) rw → handles gopNum h →
  (if pub then ∀ id w, ¬ live_stream h key id w else ∃ id w, live_stream h key id w) →
  ∃ fc id w h', handleConn iter rand_Read gopNum now (NewRtmpConn rw) h = (Ok tt, false, h') ∧
    handles gopNum h' ∧ streamKey (s_info w) = key ∧
    (if pub then worlds h !! id = None ∧ w = NewStream (info_of fc) gopNum else live_stream h key id w) ∧
    worlds h' = <[id := if pub then AddReader (base.fresh (dom (heap_r w))) fc now w
                        else AddWriter (base.fresh (dom (heap_w w))) fc now w]> (worlds h) ∧
    rw_in (c_rw (fc_conn fc)) = rest ∧
    bw_sent (rw_w (c_rw (fc_conn fc))) = rw_stream rw ++ server_says iter pub.
Proof.
  intros key Hf Hh Hstream. destruct (client_handed pub rest rw now h Hf Hh) as (fc & id & w & h' & n & E & [Hh' Hl Hk Hw Hws] & [] & Hfl).
  exists fc, id, w, h'. split; [done|]. split; [done|]. split; [done|]. split; [|by split_and!; [..|by rewrite Hfl]].
  destruct pub.
  - destruct Hw as [Hw|Hw]; [by destruct (Hstream id w)|exact Hw].
  - destruct Hw as [Hw|[Hn ->]]; [done|]. destruct Hstream as (j & v & Hv & Hlv & Hkv).
    assert (Hij : id ≠ j) by (intros ->; by rewrite Hv in Hn). destruct Hij.
    apply (live_stream_unique gopNum h' key id j (AddWriter (base.fresh (dom (heap_w (NewStream (info_of fc) gopNum)))) fc now
      (NewStream (info_of fc) gopNum)) v Hh').
    + split; [by rewrite Hws, lookup_insert_eq|done].
    + split; [|done]. rewrite Hws, lookup_insert_ne; [done|]. intros ->. by rewrite Hv in Hn.
Qed.
End client.

Lemma client_is_handled_witness :
  let says := client_says id (str "live") (str "s") sample_tcurl true in
  ∃ h', handleConn id sample_rand 1 0 (NewRtmpConn (sample_rw says)) NewStreamHandler = (Ok tt, false, h') ∧
    handles 1 h'.
Proof.
  intros says.
  destruct (client_is_handled id id (λ o, reflexivity o) (λ o, reflexivity o) (str "live") (str "s") sample_tcurl
    (str_bytes _) (str_bytes _) (str_bytes _) (@eq_refl comparison Lt) sample_rand 1 true [] (sample_rw says) 0
    NewStreamHandler) as (fc & i & w & h' & E & Hh & _).
  - split; [apply sample_rw_wok|]. split; [reflexivity|]. symmetry. apply app_nil_r.
  - apply rtc_refl.
  - by intros ? ? [Hx _].
  - exists h'. split; [exact E|exact Hh].
Defined.

(** The port of a server whose address is in use is reported, after a panic. *)
Example listen_fails : Serve (λ _, Err (Errorf "address already in use")) []
  = ([], Some (Wrapf "net.Listen failed, %v" (Errorf "address already in use"))).
Proof. reflexivity. Qed.

(** A pair of files that load together, the certificate first, does not load through the
    API: the two are exchanged on the way. *)
Example tls_files_exchanged :
  let load crt key := if decide (crt = str "a.crt" ∧ key = str "a.key") then Ok tt else Err (Errorf "no certificate") in
  ServeTLS load (λ _ _, Ok []) [] (str "a.crt") (str "a.key") = ([], None) ∧
  ServeRtmpTLS load (λ _ _, Ok []) [] (str "a.key") (str "a.crt")
    = ([], Some (Wrapf "tls.LoadX509KeyPair failed, %s" (Errorf "no certificate"))).
Proof. split; vm_compute; reflexivity. Qed.
