(* ===== verification/ServerSafe.v ===== *)
(** * The server on any input

    Whatever a client sends, the goroutine of its connection ends, and what can go wrong on
    the way is one of three kinds of panic. *)
From S2P Require Import Prelude Pio GoIO ReadWriter Av Chunk Conn ConnSafe Safe Exchange Handshake Cache H264 Media Flv.
From S2P Require Import Amf Amf3 Amf0 Forward Commands ConnClient Dialogue StreamRW Stream StreamLife StreamHandler Server.

(** ** Operations of the server's side that are safe on any input *)

(** A slice or an index out of bounds, or a value of another type than expected. *)
Definition bad_input (p : panic) : Prop := p = SliceBounds ∨ p = IndexOutOfRange ∨ p = TypeAssertion.

Definition fc_frame (fc fc' : ForwardConnect) : Prop := wf_frame (fc_conn fc) (fc_conn fc').

#[export] Program Instance server_safety : Safety ForwardConnect := {
  good fc := conn_wf (fc_conn fc); onward := fc_frame; may_panic := bad_input;
}.
Next Obligation. intros fc Hc. by apply wf_frame_refl. Qed.
Next Obligation. intros fc1 fc2 fc3. apply wf_frame_trans. Qed.
Next Obligation. by intros fc fc' []. Qed.

Lemma safe_set f : (∀ fc, fc_conn (f fc) = fc_conn fc) → safe (S := ForwardConnect) (modify f).
Proof. intros Hf. apply safe_modify. intros fc Hc. cbn. unfold fc_frame. rewrite Hf. by apply wf_frame_refl. Qed.

Lemma short_or_cut_bad p : short_or_cut p → bad_input p.
Proof. intros [->| ->]; [by left|by right; left]. Qed.

(** Operations of the connection. *)
Lemma safe_on_conn {A} (m : go RtmpConn A) : safe m → safe (on_conn m).
Proof.
  intros Hm fc Hc. specialize (Hm _ Hc). unfold outcome, on_conn in *.
  destruct (m (fc_conn fc)) as [[]]; try done. by apply short_or_cut_bad.
Qed.
#[local] Hint Resolve safe_flush safe_on_conn : safe.
#[local] Hint Extern 1 (safe (modify _)) => apply safe_set; by intros [] : safe.

(** ** Values *)

Lemma as_string_safe v : safe_res (S := ForwardConnect) (as_string v).
Proof. destruct v; try exact I; by right; right. Qed.

Lemma as_int_safe v : safe_res (S := ForwardConnect) (as_int v).
Proof. destruct v; try exact I; by right; right. Qed.

Lemma set_from_safe {A} o key (conv : value → res A) set : (∀ v, safe_res (S := ForwardConnect) (conv v)) → safe (set_from o key conv set).
Proof. intros Hc. unfold set_from. destruct (assoc key o); auto with safe. Qed.

Lemma for_values_safe body vs : (∀ k v, safe (body k v)) → ∀ k, safe (for_values body k vs).
Proof. intros Hb. induction vs; intros k; cbn [for_values]; auto with safe. Qed.

#[local] Hint Resolve as_string_safe as_int_safe set_from_safe for_values_safe : safe.

Lemma connect_safe vs : safe (connect vs).
Proof. apply for_values_safe. intros k []; cbn [connect_value]; auto 10 with safe. Qed.

Lemma createStream_safe vs : safe (createStream vs).
Proof. apply for_values_safe. intros k []; auto with safe. Qed.

Lemma publishOrPlay_safe vs : safe (publishOrPlay vs).
Proof. apply for_values_safe. intros k []; auto with safe. Qed.

Lemma fc_DecodeBatch_safe data : safe (fc_DecodeBatch data).
Proof.
  intros fc Hc. unfold outcome, fc_DecodeBatch.
  pose proof (decode_batch_ends no_handlers ltac:(done) AMF0 (S (length data)) (fc_decoder fc, data)
    (Nat.lt_succ_diag_r _)) as H. unfold outcome in H.
  change (decode_batch_loop no_handlers (S (length data)) AMF0 (fc_decoder fc, data))
    with (DecodeBatch no_handlers AMF0 (fc_decoder fc, data)) in H.
  destruct (DecodeBatch no_handlers AMF0 (fc_decoder fc, data)) as [[r|e|p|] [d rest]]; try done.
  subst p. by right; left.
Qed.

Lemma decode_command_safe wrap data : safe (decode_command wrap data).
Proof. apply safe_bind; [apply fc_DecodeBatch_safe|]. intros [vs e]. auto with safe. Qed.

Lemma skip_version_safe c : safe_res (S := ForwardConnect) (skip_version c).
Proof.
  unfold skip_version. destruct (_ =? _); [|exact I]. unfold slice_from, slice.
  destruct (_ && _); [exact I|by left].
Qed.

(** ** Answers *)

Lemma fc_send_safe m : op_ok (OpWrite m) → safe (fc_send m).
Proof. intros Hm. by apply safe_on_conn, (safe_op (OpWrite m)). Qed.

Lemma fc_writeMsg_safe csid sid vals : command_ok vals → safe (fc_writeMsg csid sid vals).
Proof.
  intros Hok fc Hc. unfold fc_writeMsg. eapply runs_bind_lift; [apply encode_args_ok, co_values, Hok|].
  apply safe_bind; [|by auto with safe|done]. by apply fc_send_safe, command_op_ok.
Qed.

Section answers.
Variable iter : object → object.
Hypothesis iter_perm : ∀ o, iter o ≡ₚ o.

Lemma connectResp_safe cur : safe (connectResp iter cur).
Proof.
  unfold connectResp.
  do 3 (intros fc Hc; eapply runs_bind_lift; [reflexivity|]; revert fc Hc; apply safe_bind;
    [apply fc_send_safe; by repeat split; repeat (apply Forall_cons; split)|intros _]).
  apply safe_bind; [apply safe_get|]. intros fc. apply fc_writeMsg_safe.
  apply (command_ok_reordered [VString respResult; VInt false (fc_transactionID fc); VObject server_info;
    VObject [(str "level", VString (str "status")); (str "code", VString connectSuccess);
      (str "description", VString (str "Connection succeeded."));
      (str "objectEncoding", VInt false (ci_ObjectEncoding (fc_ConnInfo fc)))]]); [reorder|].
  constructor; [done|unfold server_info; repeat value_ok..|]. unfold server_info. command_size. done.
Qed.

Lemma createStreamResp_safe cur : safe (createStreamResp cur).
Proof.
  apply safe_bind; [apply safe_get|]. intros fc. apply fc_writeMsg_safe.
  constructor; [done|repeat value_ok..|by vm_compute].
Qed.

Lemma write_status_safe cur code description : len (str code) < 1000 → len (str description) < 1000 →
  safe (write_status iter cur (Dialogue.event code description)).
Proof. intros Hc Hd. by apply fc_writeMsg_safe, status_ok. Qed.

#[local] Hint Resolve connect_safe createStream_safe publishOrPlay_safe decode_command_safe skip_version_safe
  connectResp_safe createStreamResp_safe : safe.

Lemma publishResp_safe cur : safe (publishResp iter cur).
Proof. by apply (write_status_safe cur "NetStream.Publish.Start" "Start publising."). Qed.

Lemma playResp_safe cur : safe (playResp iter cur).
Proof.
  apply safe_bind; [apply safe_on_conn; by apply (safe_op OpSetRecorded)|intros _].
  apply safe_bind; [apply safe_on_conn; by apply (safe_op OpSetBegin)|intros _].
  apply safe_bind; [by apply (write_status_safe cur "NetStream.Play.Reset" "Playing and resetting stream.")|intros _].
  apply safe_bind; [by apply (write_status_safe cur "NetStream.Play.Start" "Started playing stream.")|intros _].
  apply safe_bind; [by apply (write_status_safe cur "NetStream.Data.Start" "Started playing stream.")|intros _].
  apply safe_bind; [by apply (write_status_safe cur "NetStream.Play.PublishNotify" "Started playing notify.")|intros _].
  auto with safe.
Qed.

#[local] Hint Resolve publishResp_safe playResp_safe : safe.

(** ** The loop *)

Lemma setup_command_safe chunk vs : safe (setup_command iter chunk vs).
Proof.
  destruct vs as [|[] args]; cbn [setup_command]; auto with safe; [apply safe_crash; by right; left|].
  unfold fcPublish, releaseStream. repeat apply safe_decide; auto 12 with safe.
Qed.

(** Reading takes at least a byte. *)
Lemma fc_Read_safe fc : conn_wf (fc_conn fc) →
  outcome bad_input (fc_frame fc) (λ _ fc', conn_wf (fc_conn fc') ∧ (fc_input fc' < fc_input fc)%nat) fc_Read fc.
Proof.
  intros Hc. pose proof (read_message_safe _ Hc) as H.
  change fc_Read with (on_conn read_message). unfold outcome, on_conn, fc_input, fc_frame in *.
  destruct (read_message (fc_conn fc)) as [[m|e|p|] c']; try done.
  - destruct H as ([H _] & _ & Hl). split; [done|cbn; lia].
  - by apply short_or_cut_bad.
Qed.

Lemma setup_pass_safe fc : conn_wf (fc_conn fc) →
  outcome bad_input (λ fc', conn_wf (fc_conn fc')) (λ _ fc', conn_wf (fc_conn fc') ∧ (fc_input fc' < fc_input fc)%nat)
    (setup_pass iter) fc.
Proof.
  intros Hc. unfold setup_pass. eapply runs_bind; [apply runs_on_err|].
  { eapply runs_mono; [by apply fc_Read_safe|by intros fc' []|]. intros m fc' H. exact H. }
  intros chunk fc1 [Hc1 Hl1].
  match goal with |- outcome _ _ _ ?k _ => assert (Hk : safe k) end.
  { apply safe_if; [auto with safe|]. apply safe_bind; [auto with safe|]. intros c.
    apply safe_bind; [auto with safe|]. intros vs. apply setup_command_safe. }
  eapply runs_mono; [by apply Hk|by intros fc' []|]. intros b fc' [Hc' Hl']. split; [done|].
  unfold fc_input in *. lia.
Qed.

Lemma setup_loop_safe fuel : ∀ fc, conn_wf (fc_conn fc) → (length (rw_in (c_rw (fc_conn fc))) < fuel)%nat →
  outcome bad_input (λ fc', conn_wf (fc_conn fc')) (λ _ fc', conn_wf (fc_conn fc')) (setup_loop iter fuel) fc.
Proof.
  induction fuel as [|fuel IH]; intros fc Hc Hf; [lia|]. cbn [setup_loop].
  eapply runs_bind; [by apply setup_pass_safe|]. intros [] fc' [Hc' Hl]; [done|].
  apply IH; [done|]. unfold fc_input in Hl. lia.
Qed.
End answers.

(** ** A whole connection *)

Section server.
Variable rand_Read : nat → Z → bytes.
Hypothesis rand_len : ∀ i n, 0 ≤ n → len (rand_Read i n) = n.
Variable iter : object → object.
Hypothesis iter_perm : ∀ o, iter o ≡ₚ o.
Variable gopNum : Z.

Lemma handshake_wf rw : Forall is_byte (rw_in rw) →
  runs (λ _, True) (λ _, conn_wf) (HandshakeServer rand_Read) (NewRtmpConn rw).
Proof.
  intros Hb. eapply runs_mono; [by apply HandshakeServer_runs|done|].
  intros u c' [_ (rw' & -> & Hb')]. change (set_rw rw' (NewRtmpConn rw)) with (NewRtmpConn rw').
  split; [by apply NewRtmpConn_inv|done].
Qed.

(** C10: No client can keep the server busy or confuse it.  Whatever arrives on a new
    connection, however it fails and whatever state the handler is in, the goroutine of the
    connection ends in one of three ways: the connection is closed and nothing has changed;
    it is handed to the stream of its application and name, the only change to the handler;
    or the program panics, for an index or a slice out of bounds or a value of an
    unexpected type. *)
Theorem handleConn_total now rw h : Forall is_byte (rw_in rw) → handles gopNum h →
  let '(r, closed, h') := handleConn iter rand_Read gopNum now (NewRtmpConn rw) h in
  match r with
  | Ok _ =>
      if closed then h' = h
      else ∃ fc id w, handed_over gopNum now (IsPublisher fc) (streamKey (info_of fc)) fc h id w h' ∧
             conn_wf (fc_conn fc)
  | Panic p => bad_input p ∧ h' = h
  | _ => False
  end.
Proof.
  intros Hb Hh. unfold handleConn. pose proof (handshake_wf rw Hb) as H1. unfold outcome in H1.
  destruct (HandshakeServer rand_Read (NewRtmpConn rw)) as [[u|e|p|] c]; try done.
  pose proof (setup_loop_safe iter iter_perm _ (NewForwardConnect c) H1 (Nat.lt_succ_diag_r _)) as H2.
  unfold SetUpPlayOrPublish. unfold outcome in H2.
  destruct (setup_loop iter _ (NewForwardConnect c)) as [[v|e|p|] fc]; try done.
  destruct (handle_inv gopNum fc now h (handles_inv gopNum h Hh)) as (id & w & h' & E & _ & Hl & Hk & Hw & Hws).
  rewrite E. exists fc, id, w. split; [|exact H2]. constructor; try done.
  eapply rtc_r; [exact Hh|by apply step_connect with fc now].
Qed.
End server.

Lemma handleConn_total_witness :
  let rw := sample_rw (3 :: make_bytes 3072 ++ [200; 1; 255]) in
  let '(r, closed, h') := handleConn id sample_rand 1 0 (NewRtmpConn rw) NewStreamHandler in
  match r with
  | Ok _ =>
      if closed then h' = NewStreamHandler
      else ∃ fc id w, handed_over 1 0 (IsPublisher fc) (streamKey (info_of fc)) fc NewStreamHandler id w h' ∧
             conn_wf (fc_conn fc)
  | Panic p => bad_input p ∧ h' = NewStreamHandler
  | _ => False
  end.
Proof.
  intros rw. apply (handleConn_total sample_rand sample_rand_len id (λ o, reflexivity o) 1 0 rw NewStreamHandler).
  - apply Forall_cons. split; [done|]. apply Forall_app. split; [|by repeat (apply Forall_cons; split)].
    apply Forall_replicate. split; [apply Z.le_refl|done].
  - apply rtc_refl.
Defined.

(** ** Inputs that bring the server down *)

(** A command message with the data [d]. *)
Definition command_of (ty : Z) (d : bytes) : ForwardConnect :=
  NewForwardConnect (conn_on (hdr0 3 0 (len d) ty ++ d)).

(** A command without a value. *)
Example empty_command_panics : (SetUpPlayOrPublish id (command_of 20 [])).1 = Panic IndexOutOfRange.
Proof. vm_compute. reflexivity. Qed.

(** A command of type 17 without the version byte. *)
Example empty_amf3_command_panics : (SetUpPlayOrPublish id (command_of 17 [])).1 = Panic SliceBounds.
Proof. vm_compute. reflexivity. Qed.

(** An application whose name is not a string. *)
Example app_not_string_panics :
  (SetUpPlayOrPublish id (command_of 20 (command_data
    [VString cmdConnect; VInt false 1; VObject [(str "app", VBool true)]]))).1 = Panic TypeAssertion.
Proof. vm_compute. reflexivity. Qed.

(** Each of them ends the program: the goroutine does not recover. *)
Example one_message_stops_the_server :
  (handleConn id sample_rand 1 0
    (NewRtmpConn (sample_rw ((3 :: make_bytes 3072) ++ hdr0 3 0 0 20))) NewStreamHandler).1
  = (Panic IndexOutOfRange, false).
Proof. vm_compute. reflexivity. Qed.
