(* ===== verification/Relays.v ===== *)
(** * Relays (src/protocol/rtmprelay.go, staticrelay.go) and their configuration
      (src/configure/liveconfig.go)

    A relay plays from one server and publishes to another; a static push publishes the
    packets it is given.  Both are started without a logger. *)
From S2P Require Import Prelude GoIO ReadWriter Av Chunk Conn Handshake Amf Amf3 Amf0 Forward ConnClient.

(** ** Configuration *)

Record Application := mkApplication {
  Appname : bytes; Liveon : bytes; Hlson : bytes; Static_push : list bytes;
}.

Definition ServerCfg : Type := list Application.

Definition live_app (appname : bytes) (app : Application) : bool :=
  bool_decide (Appname app = appname) && bool_decide (Liveon app = str "on").

(** [RtmpServercfg] before and after; the file system and the JSON decoder, which may leave
    half a table behind with its error, are parameters. *)
Definition LoadConfig (ReadFile : bytes → res bytes) (Unmarshal : bytes → go ServerCfg unit)
    (configfilename : bytes) : go ServerCfg unit :=
  data ← lift (ReadFile configfilename);
  Unmarshal data.

Fixpoint CheckAppName (appname : bytes) (cfg : ServerCfg) : bool :=
  match cfg with
  | [] => false
  | app :: cfg => if live_app appname app then true else CheckAppName appname cfg
  end.

(** The list of the first application that is on; no list is the same as an empty one. *)
Fixpoint GetStaticPushUrlList (appname : bytes) (cfg : ServerCfg) : list bytes * bool :=
  match cfg with
  | [] => ([], false)
  | app :: cfg =>
      if live_app appname app then
        match Static_push app with [] => ([], false) | l => (l, true) end
      else GetStaticPushUrlList appname cfg
  end.

Definition GetStaticPushList (appname : bytes) (cfg : ServerCfg) : res (list bytes) :=
  let '(pushurlList, ok) := GetStaticPushUrlList appname cfg in
  if ok then Ok pushurlList else Err (Errorf "no static push url").

Lemma GetStaticPushUrlList_spec appname cfg l : GetStaticPushUrlList appname cfg = (l, true) →
  ∃ app, app ∈ cfg ∧ Appname app = appname ∧ Liveon app = str "on" ∧ Static_push app = l ∧ l ≠ [] ∧
    CheckAppName appname cfg = true.
Proof.
  induction cfg as [|app cfg IH]; [done|]. cbn. destruct (live_app appname app) eqn:E.
  - unfold live_app in E. rewrite andb_true_iff, !bool_decide_eq_true in E. destruct E.
    destruct (Static_push app) eqn:Es; [done|]. intros [= <-]. exists app. split_and!; try done. by left.
  - intros H. destruct (IH H) as (x & Hx & H'). exists x. split; [by right|exact H'].
Qed.

(** ** A client without a logger *)

Section relays.
Variable iter : object → object.
Variable neturl_Parse : bytes → res URL.
Variable net_LookupIP : bytes → res (list bytes).
Variable rand_Intn : Z → Z.
Variable net_Dial : bytes → bytes → res ReadWriter.

(** [connectServer] up to its first use of the logger, a nil interface. *)
Definition connectServer_no_logger (url : bytes) : go ConnClient unit :=
  '(localIP, remoteIP) ← on_err (parseURL neturl_Parse net_LookupIP rand_Intn url) (Wrapf "parse url:%s faile, %v");
  _ ← on_err (lift (net_Dial localIP remoteIP)) (Wrapf "net.DialTCP failed, %v");
  crash NilDereference.

Definition Start_no_logger (url : bytes) : go ConnClient unit :=
  on_err (connectServer_no_logger url) (Wrapf "connect to server failed, %v").

(** ** StaticPush *)

Definition push_cap : nat := 500.

(** The goroutine of [HandleAvPacket]: not there, before its check of [startflag], in its loop. *)
Inductive push_pc := PushNone | PushEntering | PushLoop.

Record StaticPush := mkPush {
  sp_url : bytes;
  packet_chan : list Packet;
  sp_client : option ConnClient;
  sp_started : bool;
  sp_pc : push_pc;
}.

Definition NewStaticPush (rtmpurl : bytes) : StaticPush := mkPush rtmpurl [] None false PushNone.

(** *** The table of static pushes *)

(** Each of the three takes the lock for every access on its own. *)
Definition GetAndCreateStaticPushObject (rtmpurl : bytes) (t : gmap bytes StaticPush)
    : StaticPush * gmap bytes StaticPush :=
  match t !! rtmpurl with
  | Some p => (p, t)
  | None => let p := NewStaticPush rtmpurl in (p, <[rtmpurl := p]> t)
  end.

Definition GetStaticPushObject (rtmpurl : bytes) (t : gmap bytes StaticPush) : res StaticPush :=
  match t !! rtmpurl with
  | Some p => Ok p
  | None => Err (Errorf "G_StaticPushMap[%s] not exist....")
  end.

Definition ReleaseStaticPushObject (rtmpurl : bytes) (t : gmap bytes StaticPush) : gmap bytes StaticPush :=
  match t !! rtmpurl with Some _ => delete rtmpurl t | None => t end.

(** *** Operations *)

Definition sp_Start : go StaticPush unit := λ p,
  if sp_started p then (Err (Errorf "StaticPush already start %s"), p)
  else
    let '(r, cc) := Start_no_logger (sp_url p) NewConnClient in
    let p := mkPush (sp_url p) (packet_chan p) (Some cc) (sp_started p) (sp_pc p) in
    match r with
    | Ok _ => (Ok tt, mkPush (sp_url p) (packet_chan p) (Some cc) true PushEntering)
    | r => (r, p)
    end.

Definition on_push_client {A} (m : go ConnClient A) : go StaticPush A := λ p,
  match sp_client p with
  | Some cc => let '(r, cc) := m cc in
      (r, mkPush (sp_url p) (packet_chan p) (Some cc) (sp_started p) (sp_pc p))
  | None => (Panic NilDereference, p)
  end.

(** A packet of another type goes out with the type 0; errors are dropped. *)
Definition sendPacket (p : Packet) : go StaticPush unit := λ s,
  if negb (sp_started s) then (Ok tt, s)
  else
    (sid ← on_push_client (gets GetStreamID);
     let ty :=
       if PacketType p =? PacketTypeVideo then TAG_VIDEO
       else if PacketType p =? PacketTypeAudio then TAG_AUDIO
       else if PacketType p =? PacketTypeMetadata then TAG_SCRIPTDATAAMF0 else 0 in
     ignore_err tt (on_push_client
       (cc_Write (newCS 0 0 (TimeStamp p) (u32 (len (pkt_Data p))) ty sid (pkt_Data p))))) s.

(** [None]: the caller waits for room in the channel. *)
Definition WriteAvPacket (packet : Packet) (s : StaticPush) : option StaticPush :=
  if negb (sp_started s) then Some s
  else if Nat.ltb (length (packet_chan s)) push_cap
  then Some (mkPush (sp_url s) (packet_chan s ++ [packet]) (sp_client s) (sp_started s) (sp_pc s))
  else None.

Definition IsStart (s : StaticPush) : bool := sp_started s.

(** The goroutine begins. *)
Definition HandleAvPacket_enter (s : StaticPush) : StaticPush :=
  mkPush (sp_url s) (packet_chan s) (sp_client s) (sp_started s) (if IsStart s then PushLoop else PushNone).

(** One turn of its loop: a packet is taken and sent.  [None] if there is none, or no
    goroutine. *)
Definition HandleAvPacket_turn (s : StaticPush) : option (res unit * StaticPush) :=
  match sp_pc s, packet_chan s with
  | PushLoop, p :: ps => Some (sendPacket p (mkPush (sp_url s) ps (sp_client s) (sp_started s) (sp_pc s)))
  | _, _ => None
  end.

(** [Stop] hands its word to the goroutine, which closes the client and stays in its loop:
    the [break] leaves the [select] only.  [None]: nobody takes it, and [Stop] waits. *)
Definition sp_Stop (s : StaticPush) : option StaticPush :=
  if negb (sp_started s) then Some s
  else
    match sp_pc s with
    | PushLoop => Some (mkPush (sp_url s) (packet_chan s) (sp_client s) false PushLoop)
    | _ => None
    end.

(** ** RtmpRelay *)

Definition relay_cap : nat := 500.

(** [cs_chan] holds messages whose data is in a buffer of the connection that plays. *)
Record RtmpRelay := mkRelay {
  PlayUrl : bytes;
  PublishUrl : bytes;
  cs_chan : list (ChunkStream sref);
  connectPlayClient : option ConnClient;
  connectPublishClient : option ConnClient;
  rr_started : bool;
  has_logger : bool;
}.

Definition NewRtmpRelay (playurl publishurl : bytes) : RtmpRelay :=
  mkRelay playurl publishurl [] None None false false.

Definition on_play {A} (m : go ConnClient A) : go RtmpRelay A := λ r,
  match connectPlayClient r with
  | Some cc => let '(x, cc) := m cc in
      (x, mkRelay (PlayUrl r) (PublishUrl r) (cs_chan r) (Some cc) (connectPublishClient r) (rr_started r) (has_logger r))
  | None => (Panic NilDereference, r)
  end.

Definition on_publish {A} (m : go ConnClient A) : go RtmpRelay A := λ r,
  match connectPublishClient r with
  | Some cc => let '(x, cc) := m cc in
      (x, mkRelay (PlayUrl r) (PublishUrl r) (cs_chan r) (connectPlayClient r) (Some cc) (rr_started r) (has_logger r))
  | None => (Panic NilDereference, r)
  end.

Definition set_clients (play publish : option ConnClient) (r : RtmpRelay) : RtmpRelay :=
  mkRelay (PlayUrl r) (PublishUrl r) (cs_chan r) play publish (rr_started r) (has_logger r).

Definition set_rr_started (b : bool) (r : RtmpRelay) : RtmpRelay :=
  mkRelay (PlayUrl r) (PublishUrl r) (cs_chan r) (connectPlayClient r) (connectPublishClient r) b (has_logger r).

(** The logger is used first of all.  No code sets it; with one the clients would have it,
    too, and [Start] them. *)
Definition rr_Start : go RtmpRelay unit :=
  r ← get;
  if rr_started r then fail (Errorf "The rtmprelay already started, playurl=%s, publishurl=%s")
  else
    _ ← modify (set_clients (Some NewConnClient) (Some NewConnClient));
    if negb (has_logger r) then crash NilDereference
    else
      _ ← on_play (Start iter neturl_Parse net_LookupIP rand_Intn net_Dial (PlayUrl r) PLAY);
      x ← try (on_publish (Start iter neturl_Parse net_LookupIP rand_Intn net_Dial (PublishUrl r) PUBLISH));
      match x with
      | inr e => _ ← on_play cc_Close; fail e
      | inl _ => modify (set_rr_started true)
      end.

(** [Stop] waits for [sendPublishChunkStream], which takes its word in any turn. *)
Definition rr_Stop (r : RtmpRelay) : RtmpRelay :=
  if negb (rr_started r) then r else set_rr_started false r.

(** The buffers behind the messages of the connection that plays. *)
Definition play_heap (r : RtmpRelay) : heap :=
  match connectPlayClient r with
  | Some cc => match cc_conn cc with Some c => c_heap c | None => [] end
  | None => []
  end.

(** One turn of [rcvPlayChunkStream]: [Ok true] to go on.  Only [io.EOF] ends the loop;
    after another error the message is nil.  A full channel holds the goroutine up, and the
    turn does not happen. *)
Definition rcv_turn : go RtmpRelay bool :=
  r ← get;
  if negb (rr_started r) then _ ← on_play cc_Close; mret false
  else
    x ← try (on_play (on_cc RtmpConn_Read));
    match x with
    | inr e => if decide (e = EOF) then mret false else crash NilDereference
    | inl rc =>
        if (TypeID rc =? 20) || (TypeID rc =? 17) then
          r ← get;
          _ ← on_play (cc_DecodeBatch AMF0 (sr_get (play_heap r) (Data rc)));
          mret true
        else if (TypeID rc =? 8) || (TypeID rc =? 9) then
          _ ← modify (λ r, mkRelay (PlayUrl r) (PublishUrl r) (cs_chan r ++ [rc]) (connectPlayClient r)
                (connectPublishClient r) (rr_started r) (has_logger r));
          mret true
        else mret true
    end.

(** One turn of [sendPublishChunkStream]: a message is taken and written, with the bytes its
    buffer holds now; errors are dropped. *)
Definition send_publish_turn (r : RtmpRelay) : option (res unit * RtmpRelay) :=
  match cs_chan r with
  | [] => None
  | rc :: rest =>
      let r := mkRelay (PlayUrl r) (PublishUrl r) rest (connectPlayClient r) (connectPublishClient r)
                 (rr_started r) (has_logger r) in
      Some (ignore_err tt (on_publish (cc_Write (newCS (Format rc) (CSID rc) (Timestamp rc) (Length rc) (TypeID rc)
        (StreamID rc) (sr_get (play_heap r) (Data rc))))) r)
  end.

(** The turn that takes the word of [Stop].  The [break] that follows leaves the [select]
    only, and the goroutine goes on. *)
Definition send_publish_stop : go RtmpRelay unit := on_publish cc_Close.

(** ** What they do *)

(** The table of static pushes is a map by address: after [GetAndCreate] an address is
    found, with the push it had before or a new one that is not started, until it is
    released, and no other address is touched. *)
Lemma push_table url url' t : url ≠ url' →
  let '(p, t') := GetAndCreateStaticPushObject url t in
  GetStaticPushObject url t' = Ok p ∧
  (GetStaticPushObject url t = Ok p ∧ t' = t ∨
   GetStaticPushObject url t = Err (Errorf "G_StaticPushMap[%s] not exist....") ∧ p = NewStaticPush url) ∧
  GetStaticPushObject url' t' = GetStaticPushObject url' t ∧
  GetStaticPushObject url (ReleaseStaticPushObject url t') = Err (Errorf "G_StaticPushMap[%s] not exist....") ∧
  GetStaticPushObject url' (ReleaseStaticPushObject url t') = GetStaticPushObject url' t.
Proof.
  intros Hne. unfold GetAndCreateStaticPushObject, GetStaticPushObject, ReleaseStaticPushObject.
  destruct (t !! url) as [p|] eqn:E.
  - rewrite E, lookup_delete_eq, lookup_delete_ne by done. split_and!; try done. by left.
  - rewrite lookup_insert_eq, lookup_delete_eq, lookup_delete_ne, lookup_insert_ne by done.
    split_and!; try done. by right.
Qed.

Lemma Start_no_logger_fails url cc u : (Start_no_logger url cc).1 ≠ Ok u.
Proof.
  unfold Start_no_logger, connectServer_no_logger, on_err, mbind, go_bind, lift, crash.
  destruct (parseURL _ _ _ url cc) as [[[l rm]|e|q|] cc']; try done. by destruct (net_Dial l rm).
Qed.

(** No relay ever runs.  Starting a static push never succeeds and never marks it as
    started: when its server can be dialled the program panics, for want of a logger; and
    starting a relay panics at once. *)
Lemma relays_never_start p r : sp_started p = false → rr_started r = false → has_logger r = false →
  (∀ u, (sp_Start p).1 ≠ Ok u) ∧ sp_started (sp_Start p).2 = false ∧
  (∀ l rm cc rw, parseURL neturl_Parse net_LookupIP rand_Intn (sp_url p) NewConnClient = (Ok (l, rm), cc) →
    net_Dial l rm = Ok rw → (sp_Start p).1 = Panic NilDereference) ∧
  (rr_Start r).1 = Panic NilDereference ∧ rr_started (rr_Start r).2 = false.
Proof.
  intros Hp Hr Hl. unfold sp_Start, rr_Start. rewrite Hp, go_bind_get, Hr, go_bind_modify, Hl.
  pose proof (Start_no_logger_fails (sp_url p) NewConnClient) as Hf.
  split_and!; try done; try (destruct (Start_no_logger (sp_url p) NewConnClient) as [[u|e|q|] cc]; try done; by destruct (Hf u)).
  intros l rm cc rw H1 H2. unfold Start_no_logger, connectServer_no_logger, on_err, mbind, go_bind, lift, crash.
  by rewrite H1, H2.
Qed.
End relays.

Section stopped.
Variable cc : ConnClient.

(** A push whose goroutine looks at [startflag] before [Start] sets it has no goroutine: the
    packets pile up and [Stop] waits for ever. *)
Example push_goroutine_lost :
  let s := mkPush [] [] (Some cc) false PushEntering in
  let s := HandleAvPacket_enter s in
  let s := mkPush (sp_url s) (packet_chan s) (sp_client s) true (sp_pc s) in
  sp_Stop s = None ∧ HandleAvPacket_turn s = None.
Proof. done. Qed.

(** After [Stop] the goroutine is still in its loop, and takes packets. *)
Example push_stop_stays :
  let s := mkPush [] [] (Some cc) true PushLoop in
  sp_Stop s = Some (mkPush [] [] (Some cc) false PushLoop).
Proof. done. Qed.
End stopped.
