(* ===== verification/System.v ===== *)
(** * The whole system

    A client publishes to a server and another one plays what it publishes: both are set up,
    meet in one stream, and every unit and frame gets through. *)
From S2P Require Import Prelude Pio GoIO ReadWriter Av Chunk Conn ConnSafe Exchange Messages Handshake H264 Media Flv.
From S2P Require Import Amf Amf3 Amf0 Forward Commands ConnClient Dialogue Client StreamRW Cache Stream StreamLife.
From S2P Require Import StreamHandler Relay Server.

(** ** A stream in its handler *)

(** Events of one stream, one after the other. *)
Fixpoint run_stream (id : nat) (evs : list event) (h : StreamHandler) : option StreamHandler :=
  match evs with
  | [] => Some h
  | ev :: evs =>
      match stream_event id ev h with
      | Some (Ok _, h) => run_stream id evs h
      | _ => None
      end
  end.

Lemma run_stream_app id evs1 evs2 : ∀ h,
  run_stream id (evs1 ++ evs2) h = match run_stream id evs1 h with Some h => run_stream id evs2 h | None => None end.
Proof.
  induction evs1 as [|ev evs1 IH]; intros h; [done|]. cbn [run_stream app].
  by destruct (stream_event id ev h) as [[[] ?]|].
Qed.

Lemma run_stream_handles gopNum id evs : ∀ h h', handles gopNum h → run_stream id evs h = Some h' → handles gopNum h'.
Proof.
  induction evs as [|ev evs IH]; intros h h' Hh; [by intros [= <-]|]. cbn [run_stream].
  destruct (stream_event id ev h) as [[[[]| | |] h1]|] eqn:E; try done.
  apply IH. eapply rtc_r; [exact Hh|by apply step_stream with id ev].
Qed.

Lemma set_world_twice id w w' h : set_world id w' (set_world id w h) = set_world id w' h.
Proof. unfold set_world. cbn. by rewrite insert_insert_eq. Qed.

(** A run of the stream alone, as long as its loop does not return. *)
Lemma run_stream_all id evs : Forall (λ ev, ev ≠ ERemoved) evs → ∀ h w hs w' hs',
  worlds h !! id = Some w → run_all evs (w, hs) = Some (w', hs') → run_stream id evs h = Some (set_world id w' h).
Proof.
  induction 1 as [|ev evs Hev _ IH]; intros h w hs w' hs' Hw.
  { intros [= -> _]. cbn. unfold set_world. rewrite insert_id by done. by destruct h. }
  cbn [run_all run_stream fst snd]. unfold stream_event. rewrite Hw.
  destruct (exec ev w) as [[[[]| | |] w1]|]; try done. intros E.
  replace (match ev with ERemoved => _ | _ => set_world id w1 h end) with (set_world id w1 h) by (by destruct ev).
  rewrite <- (set_world_twice id w1 w' h). eapply IH; [|exact E]. cbn. by rewrite lookup_insert_eq.
Qed.

(** A connection is handed to the stream that is there. *)
Lemma same_stream gopNum now pub key fc h id w h' id' w' :
  handed_over gopNum now pub key fc h id w h' → worlds h !! id' = Some w' → live w' = true →
  streamKey (s_info w') = key → handles gopNum h → id = id' ∧ w = w'.
Proof.
  intros [Hh Hl Hk Hs Ha] Hw' Hl' Hk' Hh0. destruct Hs as [Hs|[Hs ->]].
  - pose proof (hi_live _ _ (handles_inv _ _ Hh0) _ _ Hs Hl) as E1.
    pose proof (hi_live _ _ (handles_inv _ _ Hh0) _ _ Hw' Hl') as E2.
    rewrite Hk, <- Hk', E2 in E1. injection E1 as ->. rewrite Hw' in Hs. by injection Hs.
  - assert (Hne : id ≠ id') by (intros ->; by rewrite Hw' in Hs).
    set (x := if pub then _ else _) in Ha.
    assert (E1 : streams h' !! streamKey (s_info x) = Some id).
    { apply (hi_live _ _ (handles_inv _ _ Hh)); [by rewrite Ha, lookup_insert_eq|by destruct pub]. }
    assert (E2 : streams h' !! streamKey (s_info w') = Some id').
    { apply (hi_live _ _ (handles_inv _ _ Hh)); [by rewrite Ha, lookup_insert_ne|done]. }
    replace (streamKey (s_info x)) with key in E1 by (rewrite <- Hk; by destruct pub).
    rewrite Hk' in E2. rewrite E1 in E2. by injection E2.
Qed.

(** ** The publisher and the player arrive *)

Lemma first_place {A} : base.fresh (dom (∅ : gmap nat A)) = 0%nat.
Proof. reflexivity. Qed.

Definition reader_comes : list event := [EPutReader 0; EReplace; EStart 0].
Definition writer_comes : list event := [EPutWriter 0; EJoin].

Lemma reader_arrives info g fc now hs : ∃ a w hs',
  run_all reader_comes (AddReader 0 fc now (NewStream info g), hs) = Some (w, hs') ∧
  w = mkWorld info (NewCache g) (Some 0%nat) [] [] [] [] Running ∅ a [Reading] ∅ {[0%nat := NewStreamReader fc now]}.
Proof.
  set (w0 := AddReader 0 fc now (NewStream info g)). set (a := adding_readers w0 ∖ {[0%nat]}).
  set (st r q l := mkWorld info (NewCache g) r [] [] [] q Running ∅ a l ∅ {[0%nat := NewStreamReader fc now]}).
  assert (E1 : exec (EPutReader 0) w0 = Some (Ok tt, st None [0%nat] [])).
  { cbn [exec]. rewrite (bool_decide_true (0%nat ∈ _)) by set_solver. done. }
  assert (E2 : exec EReplace (st None [0%nat] []) = Some (Ok tt, st (Some 0%nat) [] [Spawned])) by done.
  assert (E3 : exec (EStart 0) (st (Some 0%nat) [] [Spawned]) = Some (Ok tt, st (Some 0%nat) [] [Reading])) by done.
  exists a. eexists _, _. split; [|reflexivity].
  by apply (run_one _ _ _ _ _ _ E1), (run_one _ _ _ _ _ _ E2), (run_one _ _ _ _ _ _ E3).
Qed.

Lemma writer_arrives info g a r fc now hs : ∃ b w hs',
  run_all writer_comes (AddWriter 0 fc now
    (mkWorld info (NewCache g) (Some 0%nat) [] [] [] [] Running ∅ a [Reading] ∅ {[0%nat := r]}), hs) = Some (w, hs') ∧
  w = mkWorld info (NewCache g) (Some 0%nat) [0%nat] [] [] [] Running b a [Reading]
        {[0%nat := mkW (NewStreamWriter fc now) true true]} {[0%nat := r]}.
Proof.
  set (w0 := AddWriter _ _ _ _). set (b := adding_writers w0 ∖ {[0%nat]}).
  set (st ws q := mkWorld info (NewCache g) (Some 0%nat) ws [] q [] Running b a [Reading]
    {[0%nat := mkW (NewStreamWriter fc now) true true]} {[0%nat := r]}).
  assert (E1 : exec (EPutWriter 0) w0 = Some (Ok tt, st [] [0%nat])).
  { cbn [exec]. rewrite (bool_decide_true (0%nat ∈ _)) by set_solver. done. }
  assert (E2 : exec EJoin (st [] [0%nat]) = Some (Ok tt, st [0%nat] [])) by done.
  exists b. eexists _, _. split; [|reflexivity]. by apply (run_one _ _ _ _ _ _ E1), (run_one _ _ _ _ _ _ E2).
Qed.

Lemma packet_turns_run g i now ms n : Forall (λ ev, ev ≠ ERemoved) (packet_turns g i now ms n).
Proof. induction n; [by apply Forall_nil|]. cbn [packet_turns packet_turn app]. by repeat (apply Forall_cons; split). Qed.

(** ** The clients *)

(** Commands that are still to be read come before the media. *)
Lemma plays_after cmds sid ms ps a : Forall command_ok cmds → fits 32 sid → played sid ms ps → ∀ fuel rc cc c,
  rc_conn rc = Some cc → cc_conn cc = Some c → onPacketReceive rc = true →
  ready a (wire_of (a_size a) (command 3 1 <$> cmds) ++ wire_of (a_size a) ms) c →
  (length cmds + length ms < fuel)%nat → ∃ cc' c' cc1,
  play_loop fuel rc = (Ok tt, got ps (set_rc_conn (Some (set_cc_conn (Some c') cc')) (set_rc_conn (Some cc1) rc))).
Proof.
  intros Hok Hsid Hms. induction Hok as [|vals cmds Hv _ IH]; intros fuel rc cc c Hcc Hc Hcb Hr Hf.
  - destruct (play_loop_ok sid ms ps Hsid Hms a fuel rc) as (cc' & c' & E); [|simpl in Hf; lia|].
    { constructor; [|done]. by exists cc, c. }
    exists cc', c', cc. rewrite E. by destruct rc.
  - destruct fuel as [|fuel]; [simpl in Hf; lia|]. cbn [length] in Hf.
    change (command 3 1 <$> vals :: cmds) with ([command 3 1 vals] ++ (command 3 1 <$> cmds)) in Hr.
    rewrite wire_of_app, <- app_assoc in Hr.
    destruct (play_command fuel a rc cc c 3 1 vals _ Hcc Hc Hr Hv) as (cc1 & c1 & E & Hc1 & Hr1); [done..|].
    destruct (IH fuel (set_rc_conn (Some cc1) rc) cc1 c1 eq_refl Hc1 Hcb Hr1) as (cc' & c' & cc2 & E2); [lia|].
    exists cc', c', cc2. rewrite E, E2. by destruct rc.
Qed.

(** All that a client has sent. *)
Definition client_sent (rc : RtmpClient) : bytes :=
  match rc_conn rc with
  | Some cc => match cc_conn cc with Some c => bw_sent (rw_w (c_rw c)) | None => [] end
  | None => []
  end.

Section system.
Variables iterC iterS : object → object.
Hypothesis iterC_perm : ∀ o, iterC o ≡ₚ o.
Hypothesis iterS_perm : ∀ o, iterS o ≡ₚ o.
Variables url app title tcurl : bytes.
Hypothesis app_bytes : Forall is_byte app.
Hypothesis title_bytes : Forall is_byte title.
Hypothesis tcurl_bytes : Forall is_byte tcurl.
Hypothesis short : len app + len title + len tcurl < 2 ^ 19.
Variable neturl_Parse : bytes → res ConnClient.URL.
Variable net_LookupIP : bytes → res (list bytes).
Variable rand_Intn : Z → Z.
Variable rand_Read : nat → Z → bytes.
Variables host port ip : bytes.
Variable u : ConnClient.URL.
Variable ips : list bytes.
Hypothesis url_parsed : neturl_Parse url = Ok u.
Hypothesis url_path : trim_slashes (u_Path u) = app ++ 47 :: title.
Hypothesis app_plain : 47 ∉ app.
Hypothesis url_host : host_port (u_Host u) host port.
Hypothesis host_known : net_LookupIP host = Ok ips.
Hypothesis ip_chosen : ips !! Z.to_nat (rand_Intn (len ips)) = Some ip.
Hypothesis tcurl_is : tcurl = str "rtmp://" ++ u_Host u ++ str "/" ++ app.

Abbreviation client_says := (client_says iterC app title tcurl).
Abbreviation server_says := (server_says iterS).

Lemma open_publish net_Dial rest rw its : Dialogue.fresh (server_says true ++ rest) rw →
  net_Dial (str ":0") (remote_address port ip) = Ok rw → Forall item_ok its →
  ∃ rc rc', OpenPublish iterC neturl_Parse net_LookupIP rand_Intn net_Dial url NewRtmpClient = (Ok tt, rc) ∧
    send_items its rc = (Ok tt, rc') ∧
    client_sent rc' = rw_stream rw ++ client_says true ++ wire_of 128 (session_of 1 true true its).1.
Proof.
  intros Hf Hd Hits.
  destruct (client_session iterC iterS iterC_perm iterS_perm url app title tcurl app_bytes title_bytes tcurl_bytes
    short neturl_Parse net_LookupIP rand_Intn net_Dial host port ip u ips url_parsed url_path app_plain url_host
    host_known ip_chosen tcurl_is true rest rw Hf Hd) as (cc & c & n & E & Hi & Hid & Hcc & He & Hfl).
  change (method true) with PUBLISH in E.
  eexists. edestruct (send_items_ok reads_1024 128) as (rc' & vf & af & Es & Hp); [exact Hits| |].
  2: { exists rc'. split; [|split; [exact Es|]].
    - unfold OpenPublish, open_conn. unfold mbind, go_bind, modify, on_client. cbn [rc_conn set_rc_conn].
      rewrite E. reflexivity.
    - destruct Hp as [(cc' & c' & [Hc1 Hc2 _ _] & _ & _ & Hs) _ _]. unfold client_sent. rewrite Hc1, Hc2, Hs.
      by rewrite <- app_assoc. }
  constructor; [|reflexivity|reflexivity]. exists cc, c. unfold GetStreamID in Hid. split; [constructor; try done; by rewrite Hid|].
  split; [exact Hid|]. split; [exact He|]. by rewrite Hfl, (ep_out _ _ _ _ _ _ He).
Qed.

Lemma open_play net_Dial closed sid ms ps rw : Dialogue.fresh (server_says false ++ wire_of 1024 ms) rw →
  net_Dial (str ":0") (remote_address port ip) = Ok rw → fits 32 sid → played sid ms ps →
  ∃ rc rc', OpenPlay iterC neturl_Parse net_LookupIP rand_Intn net_Dial url true closed NewRtmpClient = (Ok tt, rc) ∧
    client_sent rc = rw_stream rw ++ client_says false ∧ streamPlayProc rc = (Ok tt, rc') ∧
    rc_packets rc' = ps ∧ rc_closed rc' = if closed then 1%nat else 0%nat.
Proof.
  intros Hf Hd Hsid Hms.
  destruct (client_session iterC iterS iterC_perm iterS_perm url app title tcurl app_bytes title_bytes tcurl_bytes
    short neturl_Parse net_LookupIP rand_Intn net_Dial host port ip u ips url_parsed url_path app_plain url_host
    host_known ip_chosen tcurl_is false _ rw Hf Hd) as (cc & c & n & E & Hi & Hid & Hcc & [He Hp Hk Ho Hin Hn] & Hfl).
  change (method false) with PLAY in E.
  set (rc := set_callbacks true closed (set_rc_conn (Some cc) NewRtmpClient)).
  set (cmds := [status iterS "NetStream.Play.Start" "Started playing stream.";
    status iterS "NetStream.Data.Start" "Started playing stream.";
    status iterS "NetStream.Play.PublishNotify" "Started playing notify."]).
  assert (Hok : Forall command_ok cmds)
    by (repeat (apply Forall_cons; split; [by apply status_ok|]); by apply Forall_nil).
  assert (Hr : ready reads_1024 (wire_of 1024 (command 3 1 <$> cmds) ++ wire_of 1024 ms) c) by (by constructor).
  destruct (plays_after cmds sid ms ps reads_1024 Hok Hsid Hms (input_left cc) rc cc c eq_refl Hcc eq_refl Hr)
    as (cc' & c' & cc1 & El).
  { unfold input_left. rewrite Hcc, Hin, length_app. change (unread iterS false) with (command 3 1 <$> cmds).
    pose proof (wire_of_length (command 3 1 <$> cmds) 1024) as H1. pose proof (wire_of_length ms 1024) as H2.
    rewrite length_fmap in H1. lia. }
  destruct (streamPlayProc_ends rc (set_rc_conn (Some cc1) rc) cc' c' ps El) as (rc' & Ep & Hps & Hcl).
  exists rc, rc'. split_and!; try done.
  - unfold OpenPlay, open_conn. unfold mbind, go_bind, modify, on_client. cbn [rc_conn set_rc_conn]. by rewrite E.
  - unfold client_sent. cbn. by rewrite Hcc, Hfl, Ho.
Qed.
(** A stream whose publisher and player have just arrived. *)
Lemma relay_ready info g a b fc1 fc2 t1 t2 inp out rest n1 n2 out1 :
  endpoint reads_128 1024 out1 inp n1 (fc_conn fc1) →
  endpoint reads_128 1024 out rest n2 (fc_conn fc2) → flushed (fc_conn fc2) →
  relay_state reads_128 1024 inp out true 0 0
    (mkWorld info (NewCache g) (Some 0%nat) [0%nat] [] [] [] Running b a [Reading]
       {[0%nat := mkW (NewStreamWriter fc2 t2) true true]} {[0%nat := NewStreamReader fc1 t1]}).
Proof.
  intros He1 He2 Hfl. constructor; try done.
  - exists 0%nat, (NewStreamReader fc1 t1). split_and!; try done. by destruct He1.
  - intros i o. cbn. rewrite lookup_singleton_Some. by intros [<- <-].
  - eexists. split; [reflexivity|]. split_and!; try done. constructor; [|done]. exists reads_128, rest, n2.
    split; [exact He2|]. cbn. by rewrite Hfl, (ep_out _ _ _ _ _ _ He2).
Qed.

(** What the server does with the two connections: the publisher is read, the player is
    written to, by turns of the stream's goroutines. *)
Lemma server_relays gopNum t1 t2 now nowInMS sid ms ps rest rw1 rw2 : played sid ms ps → fits 32 sid →
  opens sid (message_tag <$> ms) →
  Dialogue.fresh (client_says true ++ wire_of 128 ms) rw1 → Dialogue.fresh (client_says false ++ rest) rw2 →
  ∃ id fc h1 h2 h3 h4 w,
    handleConn iterS rand_Read gopNum t1 (NewRtmpConn rw1) NewStreamHandler = (Ok tt, false, h1) ∧
    worlds h1 !! id = Some (AddReader 0 fc t1 (NewStream (info_of fc) gopNum)) ∧
    bw_sent (rw_w (c_rw (fc_conn fc))) = rw_stream rw1 ++ server_says true ∧
    run_stream id reader_comes h1 = Some h2 ∧
    handleConn iterS rand_Read gopNum t2 (NewRtmpConn rw2) h2 = (Ok tt, false, h3) ∧
    run_stream id (writer_comes ++ packet_turns 0 0 now nowInMS (length ms)) h3 = Some h4 ∧
    worlds h4 !! id = Some w ∧
    output 0 w = rw_stream rw2 ++ server_says false ++ wire_of 1024 ms.
Proof.
  intros Hms Hsid Ho Hf1 Hf2. destruct (played_tags _ _ _ Hms) as [Hms' Hts].
  destruct (client_handed iterC iterS iterC_perm iterS_perm app title tcurl app_bytes title_bytes tcurl_bytes short
    rand_Read gopNum true _ rw1 t1 NewStreamHandler Hf1 (rtc_refl _ _)) as (fc1 & id & w0 & h1 & n1 & E1 & Hh1 & He1 & Hfl1).
  assert (Hw0 : w0 = NewStream (info_of fc1) gopNum) by (destruct (ho_stream Hh1) as [H|[_ H]]; [by cbn in H|exact H]).
  assert (Hw1 : worlds h1 !! id = Some (AddReader 0 fc1 t1 (NewStream (info_of fc1) gopNum)))
    by (by rewrite (ho_added Hh1), lookup_insert_eq, Hw0).
  destruct (reader_arrives (info_of fc1) gopNum fc1 t1 no_hist) as (a & w1 & hs1 & Er & Hw1').
  pose proof (run_stream_all id reader_comes ltac:(by repeat (apply Forall_cons; split)) h1 _ _ _ _ Hw1 Er) as E2.
  set (h2 := set_world id w1 h1) in E2.
  assert (Hw2 : worlds h2 !! id = Some w1) by (cbn; by rewrite lookup_insert_eq).
  pose proof (run_stream_handles _ _ _ _ _ (ho_handles Hh1) E2) as Hh2.
  destruct (client_handed iterC iterS iterC_perm iterS_perm app title tcurl app_bytes title_bytes tcurl_bytes short
    rand_Read gopNum false rest rw2 t2 h2 Hf2 Hh2) as (fc2 & id' & w' & h3 & n2 & E3 & Hh3 & He2 & Hfl2).
  assert (Hk : streamKey (s_info w1) = app ++ str "_" ++ title) by (by rewrite Hw1', <- (ho_key Hh1), Hw0).
  destruct (same_stream _ _ _ _ _ _ _ _ _ id w1 Hh3 Hw2 ltac:(by rewrite Hw1') Hk Hh2) as [-> ->].
  destruct (writer_arrives (info_of fc1) gopNum a (NewStreamReader fc1 t1) fc2 t2 no_hist) as (b & w2 & hs2 & Ew & Hw2').
  pose proof (relay_ready (info_of fc1) gopNum a b fc1 fc2 t1 t2 _ _ _ _ _ _ He1 He2 Hfl2) as Hst.
  rewrite <- Hw2' in Hst.
  replace (wire_of 128 ms) with (wire_of (a_size reads_128) ((tag_message sid <$> (message_tag <$> ms)) ++ []))
    in Hst by (by rewrite app_nil_r, Hms').
  destruct (packet_turns_ok _ _ sid 0 0 now nowInMS _ Hts Hsid [] _ _ w2 hs2 Hst (or_intror Ho))
    as (w3 & hs3 & need & Et & [_ _ _ _ _ _ (o & Hoo & _ & [(? & ? & ? & _ & Hs) _] & _)]). rewrite length_fmap in Et.
  assert (Hw3 : worlds h3 !! id = Some (AddWriter 0 fc2 t2 w1)) by (by rewrite (ho_added Hh3), lookup_insert_eq, Hw1').
  exists id, fc1, h1, h2, h3. eexists _, w3. split; [exact E1|]. split; [exact Hw1|].
  split; [by rewrite Hfl1, (ep_out _ _ _ _ _ _ He1)|]. split; [exact E2|]. split; [exact E3|]. split.
  - eapply run_stream_all; [|exact Hw3|by rewrite run_app, Hw1', Ew].
    apply Forall_app. split; [by repeat (apply Forall_cons; split)|apply packet_turns_run].
  - split; [cbn; by rewrite lookup_insert_eq|]. unfold output. by rewrite Hoo, Hs, Hms', <- app_assoc.
Qed.

(** ** The session *)

(** A new connection on which [inp] will arrive. *)
Definition new_conn (inp : bytes) (rw : ReadWriter) : Prop := Dialogue.fresh inp rw ∧ rw_stream rw = [].

(** C1: Publishing to a server and playing from it works.  There are four ends of two
    connections, and on each arrives what the other end sends, as the conclusions say: the
    publisher opens, sends its pictures and sound and has then sent exactly what the server
    reads on the first connection; the server, from its start, leads publisher and player to
    the same stream, and, by turns of the stream's goroutines, sends exactly what the player
    reads on the second connection; and the player opens and its callback gets every unit
    and every frame, in order, then the end.  The server may send more to the publisher, and
    the player to the server (acknowledgements). *)
Theorem session_works net_Dial_p net_Dial_q gopNum t1 t2 now nowInMS closed its rest_p rest_2 rw_p rw_1 rw_2 rw_q :
  let session := (session_of 1 true true its).1 in
  Forall item_ok its →
  new_conn (server_says true ++ rest_p) rw_p → net_Dial_p (str ":0") (remote_address port ip) = Ok rw_p →
  new_conn (client_says true ++ wire_of 128 session) rw_1 →
  new_conn (client_says false ++ rest_2) rw_2 →
  new_conn (server_says false ++ wire_of 1024 session) rw_q → net_Dial_q (str ":0") (remote_address port ip) = Ok rw_q →
  (∃ rc rc', OpenPublish iterC neturl_Parse net_LookupIP rand_Intn net_Dial_p url NewRtmpClient = (Ok tt, rc) ∧
    send_items its rc = (Ok tt, rc') ∧ client_sent rc' = client_says true ++ wire_of 128 session) ∧
  (∃ id fc h1 h2 h3 h4 w,
    handleConn iterS rand_Read gopNum t1 (NewRtmpConn rw_1) NewStreamHandler = (Ok tt, false, h1) ∧
    worlds h1 !! id = Some (AddReader 0 fc t1 (NewStream (info_of fc) gopNum)) ∧
    bw_sent (rw_w (c_rw (fc_conn fc))) = server_says true ∧
    run_stream id reader_comes h1 = Some h2 ∧
    handleConn iterS rand_Read gopNum t2 (NewRtmpConn rw_2) h2 = (Ok tt, false, h3) ∧
    run_stream id (writer_comes ++ packet_turns 0 0 now nowInMS (length session)) h3 = Some h4 ∧
    worlds h4 !! id = Some w ∧ output 0 w = server_says false ++ wire_of 1024 session) ∧
  (∃ rc rc', OpenPlay iterC neturl_Parse net_LookupIP rand_Intn net_Dial_q url true closed NewRtmpClient = (Ok tt, rc) ∧
    client_sent rc = client_says false ∧ streamPlayProc rc = (Ok tt, rc') ∧
    rc_packets rc' = (session_of 1 true true its).2 ∧ rc_closed rc' = if closed then 1%nat else 0%nat).
Proof.
  intros session Hits [Hp Hpe] Hdp [H1 H1e] [H2 H2e] [Hq Hqe] Hdq.
  pose proof (session_played 1 its Hits true true) as Hms. pose proof (session_opens 1 its true) as Ho.
  fold session in Hms, Ho. split; [|split].
  - destruct (open_publish net_Dial_p rest_p rw_p its Hp Hdp Hits) as (rc & rc' & E & E' & Hs).
    exists rc, rc'. split; [exact E|]. split; [exact E'|]. by rewrite Hs, Hpe.
  - destruct (server_relays gopNum t1 t2 now nowInMS 1 session _ rest_2 rw_1 rw_2 Hms fits_1 Ho H1 H2)
      as (id & fc & h1 & h2 & h3 & h4 & w & H). rewrite H1e, H2e in H. by exists id, fc, h1, h2, h3, h4, w.
  - destruct (open_play net_Dial_q closed 1 session _ rw_q Hq Hdq fits_1 Hms) as (rc & rc' & H).
    rewrite Hqe in H. by exists rc, rc'.
Qed.
End system.

Lemma session_works_witness :
  let says := client_says id (str "live") (str "s") sample_tcurl in
  let wire k := wire_of k (session_of 1 true true sample_items).1 in
  let parse := λ _ : bytes, Ok (mkURL (str "h") (str "/live/s") []) in
  let lookup := λ _ : bytes, Ok [str "10.0.0.1"] in
  let dial i := λ _ _ : bytes, Ok (sample_rw i) in
  (∃ rc rc', OpenPublish id parse lookup (λ _, 0) (dial (server_says id true)) (str "rtmp://h/live/s") NewRtmpClient
      = (Ok tt, rc) ∧ send_items sample_items rc = (Ok tt, rc') ∧ client_sent rc' = says true ++ wire 128) ∧
  (∃ i h1 h2, handleConn id sample_rand 1 0 (NewRtmpConn (sample_rw (says true ++ wire 128))) NewStreamHandler
      = (Ok tt, false, h1) ∧ run_stream i reader_comes h1 = Some h2) ∧
  (∃ rc rc', OpenPlay id parse lookup (λ _, 0) (dial (server_says id false ++ wire 1024)) (str "rtmp://h/live/s")
      true true NewRtmpClient = (Ok tt, rc) ∧ streamPlayProc rc = (Ok tt, rc') ∧
    pkt_Data <$> rc_packets rc' = [[18; 16]; [7; 8]; [0x67; 1; 2; 3]; [0x68; 4]; [0x67; 1; 2; 3];
       [0x68; 4]; [0x65; 7; 0; 9]] ∧ rc_closed rc' = 1%nat).
Proof.
  intros says wire parse lookup dial.
  assert (Hs : 47 ∉ str "live") by (apply (bool_decide_unpack _); vm_compute; exact I).
  assert (Hh : 58 ∉ str "h") by (apply (bool_decide_unpack _); vm_compute; exact I).
  assert (Hn : ∀ i, new_conn i (sample_rw i)) by (intros i; split; [split; [apply sample_rw_wok|done]|done]).
  destruct (session_works id id (λ o, reflexivity o) (λ o, reflexivity o)
    (str "rtmp://h/live/s") (str "live") (str "s") sample_tcurl (str_bytes _) (str_bytes _) (str_bytes _)
    (@eq_refl comparison Lt) parse lookup (λ _, 0) sample_rand
    (str "h") (str "1935") (str "10.0.0.1") (mkURL (str "h") (str "/live/s") []) [str "10.0.0.1"]
    eq_refl eq_refl Hs (or_introl (conj Hh (conj eq_refl eq_refl))) eq_refl eq_refl eq_refl
    (dial (server_says id true ++ [])) (dial (server_says id false ++ wire 1024)) 1 0 0 Z.of_nat Z.of_nat true
    sample_items [] [] _ _ _ _ sample_items_ok (Hn _) eq_refl (Hn _) (Hn _) (Hn _) eq_refl)
    as (Hp & (i & fc & h1 & h2 & h3 & h4 & w & E1 & Hw & _ & E2 & _) & (rc & rc' & E3 & _ & E4 & Hps & Hc)).
  rewrite app_nil_r in Hp. split; [exact Hp|]. split.
  - exists i, h1, h2. by split.
  - exists rc, rc'. split_and!; [exact E3|exact E4| |exact Hc]. rewrite Hps. vm_compute. reflexivity.
Defined.
