(* ===== verification/Settings.v ===== *)
(** * Settings and logging (src/setting.go, src/api.go, src/logger)

    What [NewAPI] makes of its options, and which messages the default logger prints.  Time,
    file and line of a printed message are not modelled. *)
From S2P Require Import Prelude.

(** ** Levels (an int32) *)

Definition LogLevel : Type := Z.
Definition LogLevelDisabled : LogLevel := 0.
Definition LogLevelError : LogLevel := 1.
Definition LogLevelWarn : LogLevel := 2.
Definition LogLevelInfo : LogLevel := 3.
Definition LogLevelDebug : LogLevel := 4.
Definition LogLevelTrace : LogLevel := 5.

(** [Set] and [Get] are an atomic store and load of the level. *)
Definition LogLevel_Set (level : LogLevel) : go LogLevel unit := λ _, (Ok tt, level).
Definition LogLevel_Get : go LogLevel LogLevel := λ ll, (Ok ll, ll).

Definition LogLevel_String (ll : LogLevel) : string :=
  if ll =? LogLevelDisabled then "Disabled"
  else if ll =? LogLevelError then "Error"
  else if ll =? LogLevelWarn then "Warn"
  else if ll =? LogLevelInfo then "Info"
  else if ll =? LogLevelDebug then "Debug"
  else if ll =? LogLevelTrace then "Trace"
  else "Unknow".

(** ** Loggers

    The methods of the interface [Logger], named by the level they log at, each with its
    formatted message; the result is what is printed: the name of the level, the message. *)
Definition Logger : Type := LogLevel → bytes → list (string * bytes).
Definition LoggerFactory : Type := LogLevel → Logger.

Definition log_output (log_level level : LogLevel) (s : bytes) : list (string * bytes) :=
  if log_level <? level then [] else [(LogLevel_String level, s)].

Definition NewDefaultFactory : LoggerFactory := λ scope level msg, log_output scope level msg.

(** ** Options *)

Record SettingEngine := mkSetting { loggerFactory : option LoggerFactory; logLevel : LogLevel }.
Definition SettingFunc : Type := SettingEngine → SettingEngine.

Definition WithLoggerFactory (v : LoggerFactory) : SettingFunc :=
  λ setting, mkSetting (Some v) (logLevel setting).
Definition WithLogLevel (v : LogLevel) : SettingFunc :=
  λ setting, mkSetting (loggerFactory setting) v.

Record RtmpAPI := mkAPI { api_setting : SettingEngine; api_logger : Logger }.

Definition NewAPI (opts : list SettingFunc) : RtmpAPI :=
  let setting := foldl (λ s v, v s) (mkSetting None LogLevelDisabled) opts in
  let factory := default NewDefaultFactory (loggerFactory setting) in
  let level := if logLevel setting =? LogLevelDisabled then LogLevelInfo else logLevel setting in
  mkAPI (mkSetting (Some factory) level) (factory level).

(** ** What is printed *)

(** With the default logger a message is printed exactly if its level is not above the last
    one that was set, if one was; without a level, or with the level that is to disable
    logging, it is printed up to [Info]. *)
Lemma NewAPI_prints levels level msg :
  let set := default LogLevelDisabled (last levels) in
  api_logger (NewAPI (WithLogLevel <$> levels)) level msg
    = if (if set =? LogLevelDisabled then LogLevelInfo else set) <? level then []
      else [(LogLevel_String level, msg)].
Proof.
  assert (H : ∀ s, foldl (λ s v, v s) s (WithLogLevel <$> levels)
    = mkSetting (loggerFactory s) (default (logLevel s) (last levels))).
  { induction levels as [|l ls IH] using rev_ind; intros s; [by destruct s|].
    by rewrite fmap_app, foldl_app, IH, last_snoc. }
  unfold NewAPI. by rewrite H.
Qed.

(** Logging cannot be disabled: errors and messages of level [Info] are still printed. *)
Example disabled_is_info :
  api_logger (NewAPI [WithLogLevel LogLevelDisabled]) LogLevelInfo (str "m") = [("Info"%string, str "m")].
Proof. reflexivity. Qed.
